(* ===== verification/_CoqProject ===== *)
-Q . S2P
Prelude.v
Memory.v
Consts.v
Paging.v
AddressSpace.v
Hypercalls.v
CommandLine.v
Loader.v
Virtqueue.v
Virtio.v
LinuxVm.v
KvmVcpu.v
GdbRegs.v
LinuxVcpu.v
VcpuLoop.v
DebugRegs.v
Gdb.v
IoApic.v
MacSetup.v
MacVcpu.v
MacVm.v
Boot.v
SharedQueue.v
NetMemory.v
Threads.v
Frontend.v
Smp.v
MacSmp.v
Diagnostics.v
GdbLoop.v
Main.v
