(* ===== verification/Prelude.v ===== *)
(** * uhyve: a verification development

    uhyve is a hypervisor for unikernels.  The frontend turns the command line
    into parameters; [Uhyve::new] maps the guest's memory, registers it with
    KVM (Linux) or the Hypervisor framework (macOS) and writes a boot GDT and
    boot page tables into it; [load_kernel] copies an ELF kernel into guest
    memory and fills in the boot information; one thread per vCPU brings its
    vCPU up and runs the guest in a loop that serves its exits: hypercalls for
    files, arguments and exit, PCI configuration cycles and a virtio network
    device on Linux, emulated instructions and an I/O APIC on macOS.  On Linux
    two more threads move packets between a TAP device and rings in shared
    memory, and a debugger can attach.

    ** How the code is translated

    Code is a pure function in [exec]: it returns, panics, or accesses memory
    outside the guest's ([Fault], undefined behaviour in Rust).  Fallible code
    returns [result]; [x ←? m; k] is the operator [?].  A [w]-bit integer is a
    [Z]; [arith w z] is an arithmetic operation at that width, which panics on
    overflow in a build with overflow checks and wraps in one without: the
    class [Profile] says which, and theorems hold for both unless they say
    otherwise.  Guest memory (Memory) is a map from host addresses to bytes, so
    that every raw pointer of the source is an address that is checked.  Mutable
    state (guest memory, devices behind a mutex, the outside world) is passed
    explicitly.  On macOS, where every access to the vCPU can fail, the code is
    in the state-and-error monad [hv] of MacSetup.

    Code outside the repository is a class of operations over an abstract
    state, with the laws its documentation gives: the C library ([HostOS]), KVM
    (KvmVcpu, LinuxVm, LinuxVcpu), the Hypervisor framework and the
    disassembler (MacSetup, MacVcpu, MacVm), the ELF parser, raw_cpuid and the
    clocks (Loader), the TAP device (Virtio, SharedQueue), the register types of
    the x86_64 crate (DebugRegs), the crates the frontend parses with
    (Frontend), the debugger's connection (GdbLoop), the host's signals (Main),
    the registers that only dumps read and the standard output (Diagnostics).
    gdbstub, with the debugger behind it, is an interaction tree over the calls
    it makes (GdbLoop).  Every class has an instance in an [Example] module of
    its file, where the theorems are applied to concrete inputs.

    ** Files

    Foundations:
    - Prelude: outcomes, machine integers, bits, tactics, shared lemmas.
    - Memory: guest memory, little-endian loads and stores, slices.
    - Consts: src/consts.rs, src/macros.rs.
    - Paging: page-table entries, src/paging.rs.

    Guest memory and kernel, src/vm.rs:
    - AddressSpace: [create_gdt_entry], [init_guest_mem], and [host_address]
      and [virt_to_phys] of src/linux/vcpu.rs, which src/macos/vcpu.rs repeats.
    - Loader: [load_kernel] and the detection of the CPU frequency, against the
      class [Vm], which LinuxVm and MacVm implement.
    - Hypercalls: [exit], [open], [close], [read], [write], [lseek], [unlink],
      [uart] of the trait [VirtualCPU].
    - CommandLine: [cmdsize] and [cmdval].

    Linux, src/linux:
    - Virtqueue (virtqueue.rs) and Virtio (virtio.rs): the network device.
    - LinuxVm (uhyve.rs): [MmapMemory], [Uhyve::new], the trait [Vm].
    - KvmVcpu: the vCPU as KVM presents it.
    - LinuxVcpu (vcpu.rs): bringing a vCPU up and one exit of the loop.
    - VcpuLoop (vcpu.rs): [run], the loop, and its correctness.
    - GdbRegs (gdb/regs.rs), DebugRegs (src/arch/x86_64/registers/debug.rs) and
      Gdb (gdb/mod.rs, breakpoints.rs, section_offsets.rs): the debugger.
    - SharedQueue (src/shared_queue.rs, [UhyveNetwork::new] of uhyve.rs): the
      sending and the receiving thread, on queues of packets.
    - NetMemory (the same code): the threads on the bytes of guest memory that
      hold the queues; they refine those of SharedQueue.
    - Threads ([run_no_gdb] of mod.rs, [run] of src/macos/mod.rs): start-up,
      barrier, kick and join as a transition system over the program points of
      the threads, with what the vCPUs do as a choice.
    - Smp ([run_no_gdb] of mod.rs): the same threads with the code of their
      vCPUs, over shared memory and a shared device.  The barrier, the kick and
      the main thread are the definitions of Threads, applied to their part of
      the state; for a guest that counts its cores as they come up it refines
      Threads.
    - GdbLoop ([UhyveGdbEventLoop] of gdb/mod.rs, [run_gdb] of mod.rs): sessions
      with a debugger, and the thread that kicks the vCPU on input.

    macOS, src/macos:
    - IoApic (ioapic.rs), MacSetup and MacVcpu (vcpu.rs), MacVm (uhyve.rs).
    - MacSmp ([run] of mod.rs): the threads with the code of their vCPUs, over
      shared memory and a shared I/O APIC; it refines the system of Threads in
      the same way.

    Whole:
    - Boot: both ports from [Uhyve::new] to the first instruction.
    - Frontend: src/utils.rs, and the arguments and parameters of
      src/bin/uhyve.rs.
    - Main: [main] of src/bin/uhyve.rs and [Uhyve::run] of src/linux/mod.rs and
      src/macos/mod.rs, from the command line to the exit code.
    - Diagnostics: [print_registers] of both ports, as the text it prints.

    ** What the theorems show

    - Memory.  [virt_to_phys] returns what an independent definition of the
      processor's four-level walk returns; the boot tables translate the first
      GiB to itself, and on them the translation is total.  KVM's regions agree
      with [host_address] outside the hole below 4 GiB.
    - Loading.  A kernel that fits is in memory as its headers say, relocated,
      with the boot information the guest expects; every error of the loader is
      accounted for, and what it leaves of the machine; segments never leave
      guest memory, relocations can.
    - Boot.  Composed on both ports: the vCPU is in 64-bit mode at the entry
      point, and under its page tables each byte of the kernel is where the
      kernel expects it.
    - Serving the guest.  For a guest that makes a sequence of hypercalls, the
      run loop of either port performs their specifications in that order and
      returns the guest's exit code.  On either port any number of cores,
      interleaved in any way, keep the state well formed whatever their exits
      are.  On buffers in consecutive physical memory, whose start alone the
      code translates, [write] delivers what the guest sees in its buffer, within
      as many rounds as it has bytes when the host takes at least one each time,
      and [read] changes what it promises and nothing else, as [cmdsize] and
      [cmdval] do.  [Uhyve::new] is followed through every answer of KVM.
    - Emulation.  CPUID on both ports, machine-specific registers, the I/O APIC
      behind MOV instructions, PCI configuration cycles.
    - Network.  The virtio device keeps its invariant over every sequence of
      accesses, with a weaker one for a guest that writes the status byte through
      the configuration space, and the status port does what the handshake says
      for every byte in every state; the rings of a queue are accessed inside
      its three pages; a notification transmits what is available; for every
      interleaving of the threads with a guest that keeps to the protocol,
      packets arrive once, whole and in order, and the sending thread sends all
      it was notified of; the threads panic only when the TAP device, the event
      descriptor or the last sender fails them, and what holds then is said.  On
      guest memory the threads do the same, each inside its own queue.
    - Threads.  Cores enter the start-up code one at a time.  With the code of
      the vCPUs, on either port, the code [run] returns is one with which a core
      had left the guest to exit.  When one core exits, no other does and the
      kicks find the others in the guest, the control steps are bounded, and
      every execution whose scheduler does not pass them over for ever comes to
      where [run] returns that core's code.
    - Debugger.  Registers round trip both ways; software breakpoints are
      transparent as long as they do not overlap; hardware breakpoints are a multiset of four, and the debug
      registers say what the slots say.  Whatever a debugger does, the target
      stays well formed, and when gdbstub reports an exit, the program's code is
      0 or 1 as the guest's code was 0 or not.  The dump of a vCPU on macOS
      determines the registers, the fields and the access rights it shows.
    - The program.  Ranges denote what they should; accepted parameters are well
      formed; the threads start on the memory, the tables and the CPUs that were
      asked for, and the program's exit code is that of a core that exited.

    Where the code departs from what it means to do, a lemma says exactly when,
    with a concrete instance: a length that exceeds guest memory in [read] and a
    buffer that crosses into a page mapped elsewhere (Hypercalls), ring counters
    that reach 65535 (Virtqueue), a notification without a queue or with a guest
    address (Virtio), overlapping software breakpoints (Gdb), the redirection
    entries left unmasked (IoApic), a second exit, an early exit, a crash of
    every core on either port, no core at all and a kick that arrives outside
    the guest (Threads), a kick after the input was read (GdbLoop).

    ** Fuel

    Three loops of the source need not end: [write]'s, that of [AvailIter]
    against a guest that keeps adding buffers, and [continue].  They take fuel
    and return [None] without enough of it.  The theorems give fuel that
    suffices: the length of the buffer; [2^16] rounds for the buffers available
    when the loop starts, whose counters have 16 bits; for the run loops of a
    guest that ends its session, one round per exit.  The search for the NUL of
    a C string is bounded by the size of guest memory, beyond which it is a
    [Fault].  The interleavings of SharedQueue, Threads, Smp and MacSmp are step
    relations and need no fuel; after an exit a measure of Threads bounds the
    control steps, and Smp follows executions without end.  A debugger need
    not end either: [run_blocking] takes fuel for its calls, and the theorems
    about sessions hold for every amount of it.

    ** Not modelled

    Logging, tracing, the [Debug] implementations, which only messages use, and
    the unit tests; clap's parsing of the declared arguments and gdbstub's
    protocol, which are other crates; the trait [VirtualCPU]'s declarations and
    the modules that only declare others; getters nothing calls and [Drop]
    implementations that only log; the poisoning of a mutex by a panic, so that
    executions with several threads are followed up to a panic in the service
    of an exit; memory models weaker than interleaving, since the shared
    counters are accessed by volatile reads and writes on x86. *)

From stdpp Require Export base numbers option list gmap.
From Stdlib Require Export ZArith Lia Btauto.

#[export] Set Default Goal Selector "!".

Global Open Scope Z_scope.

(** ** Outcomes of Rust code

    A Rust computation either returns, panics (a failed assertion, an
    [unwrap] of [None], an out-of-range index, an arithmetic overflow in a
    build with overflow checks), or dereferences a raw pointer outside the
    memory it may access, which is undefined behaviour. *)

Inductive exec (A : Type) : Type :=
| Ret (a : A)
| Panic
| Fault.
Arguments Ret {A} a.
Arguments Panic {A}.
Arguments Fault {A}.

#[export] Instance exec_ret : MRet exec := λ A a, Ret a.
#[export] Instance exec_bind : MBind exec := λ A B f m,
  match m with Ret a => f a | Panic => Panic | Fault => Fault end.
#[export] Instance exec_fmap : FMap exec := λ A B f m,
  match m with Ret a => Ret (f a) | Panic => Panic | Fault => Fault end.

#[export] Instance exec_eq_dec `{EqDecision A} : EqDecision (exec A).
Proof. solve_decision. Defined.

(** Rust's [Result]. *)
Inductive result (E A : Type) : Type :=
| Ok (a : A)
| Err (e : E).
Arguments Ok {E A} a.
Arguments Err {E A} e.

#[export] Instance result_eq_dec `{EqDecision E, EqDecision A} :
  EqDecision (result E A).
Proof. solve_decision. Defined.

(** The [?] operator: continue on [Ok], return early on [Err]. *)
Definition try_bind {E A B} (m : exec (result E A)) (f : A → exec (result E B)) :
  exec (result E B) :=
  r ← m;
  match r with Ok a => f a | Err e => Ret (Err e) end.

Declare Scope uhyve_scope.
Delimit Scope uhyve_scope with uhyve.
Global Open Scope uhyve_scope.
Notation "x ←? m ; k" := (try_bind m (λ x, k))
  (at level 20, m at level 100, k at level 200) : uhyve_scope.
Notation "' x ←? m ; k" := (try_bind m (λ x, k))
  (at level 20, x pattern, m at level 100, k at level 200) : uhyve_scope.

Definition is_ok {E A} (r : result E A) : Prop :=
  match r with Ok _ => True | Err _ => False end.

Definition unwrap {A} (o : option A) : exec A :=
  match o with Some a => Ret a | None => Panic end.

Definition rust_assert (b : bool) : exec unit := if b then Ret () else Panic.

(** A Rust [for] loop over an iterator, threading the state it mutates. *)
Fixpoint for_each {A S} (f : A → S → exec S) (l : list A) (s : S) : exec S :=
  match l with
  | [] => Ret s
  | a :: l' => s' ← f a s; for_each f l' s'
  end.

(** ** Machine integers

    A [w]-bit unsigned integer is a [Z] in [0, 2^w).  Arithmetic outside the
    range panics when the build has overflow checks (the debug profile) and
    wraps around otherwise (the release profile). *)

Class Profile := { overflow_checks : bool }.

Definition debug_profile : Profile := {| overflow_checks := true |}.
Definition release_profile : Profile := {| overflow_checks := false |}.

Definition wrap (w z : Z) : Z := z mod 2 ^ w.

Definition fits (w z : Z) : Prop := 0 ≤ z < 2 ^ w.
#[export] Instance fits_dec w z : Decision (fits w z).
Proof. unfold fits. apply _. Defined.

Definition arith `{Profile} (w z : Z) : exec Z :=
  if decide (fits w z) then Ret z
  else if overflow_checks then Panic else Ret (wrap w z).

(** Signed integers: reinterpretation of the low [w] bits. *)
Definition to_signed (w z : Z) : Z :=
  let u := wrap w z in if u <? 2 ^ (w - 1) then u else u - 2 ^ w.

Definition arith_signed `{Profile} (w z : Z) : exec Z :=
  if decide (- 2 ^ (w - 1) ≤ z < 2 ^ (w - 1)) then Ret z
  else if overflow_checks then Panic else Ret (to_signed w z).

(** Rust's [!x] and [x << n] on [w]-bit unsigned integers. *)
Definition unot (w x : Z) : Z := Z.ldiff (Z.ones w) x.
Definition ushl (w x n : Z) : Z := wrap w (Z.shiftl x n).

(** [try_into] between unsigned widths. *)
Definition try_into (w z : Z) : option Z :=
  if decide (fits w z) then Some z else None.

(** ** Lemmas on outcomes *)

Lemma bind_Ret {A B} (m : exec A) (f : A → exec B) b :
  m ≫= f = Ret b ↔ ∃ a, m = Ret a ∧ f a = Ret b.
Proof.
  destruct m as [a| |]; cbn; split; try done; try by intros (?&?&?).
  - by exists a.
  - by intros (? & [= ->] & ?).
Qed.

Lemma try_bind_Ok {E A B} (m : exec (result E A)) (f : A → exec (result E B)) b :
  try_bind m f = Ret (Ok b) ↔ ∃ a, m = Ret (Ok a) ∧ f a = Ret (Ok b).
Proof. 
  unfold try_bind. destruct m as [[a|e]| |]; cbn; split; try done; try by intros (?&?&?).
  - by exists a.
  - by intros (? & [= ->] & ?).
Qed.

Lemma arith_fits `{Profile} w z : fits w z → arith w z = Ret z.
Proof. intros. unfold arith. by rewrite decide_True. Qed.

Lemma arith_Ret `{Profile} w z x : arith w z = Ret x → x = wrap w z.
Proof.
  unfold arith. case_decide as Hf; [|destruct overflow_checks; congruence].
  intros [= <-]. symmetry. by apply Z.mod_small.
Qed.

Lemma arith_no_fault `{Profile} w z : arith w z ≠ Fault.
Proof. unfold arith. case_decide; [done|]. by destruct overflow_checks. Qed.

Lemma wrap_range w z : 0 ≤ w → fits w (wrap w z).
Proof. intros. apply Z.mod_pos_bound. lia. Qed.

Lemma wrap_fits w z : fits w z → wrap w z = z.
Proof. apply Z.mod_small. Qed.

Lemma fits_lt w w' z : w ≤ w' → fits w z → fits w' z.
Proof.
  intros Hw [??]. split; [done|].
  eapply Z.lt_le_trans; [done|]. apply Z.pow_le_mono_r; lia.
Qed.

(** Loop rule: an invariant over the elements already visited. *)
Lemma for_each_inv {A S} (P : list A → S → Prop) (f : A → S → exec S) l s :
  P [] s →
  (∀ pre a post s, l = pre ++ a :: post → P pre s →
     ∃ s', f a s = Ret s' ∧ P (pre ++ [a]) s') →
  ∃ s', for_each f l s = Ret s' ∧ P l s'.
Proof.
  intros H0 Hstep. cut (∀ pre post s, l = pre ++ post → P pre s →
    ∃ s', for_each f post s = Ret s' ∧ P l s').
  { intros Hc. by apply (Hc []). }
  intros pre post. revert pre. induction post as [|a post IH]; intros pre s1 Hl HP.
  - rewrite app_nil_r in Hl. subst. by exists s1.
  - destruct (Hstep pre a post s1 Hl HP) as (s2 & Hf & HP2).
    cbn. rewrite Hf. cbn. apply (IH (pre ++ [a])); [|done].
    by rewrite <- app_assoc.
Qed.

(** Inversion of a hypothesis that a sequence of binds returned. *)
Ltac exec_inv :=
  repeat match goal with
  | H : mbind _ _ = Ret _ |- _ =>
      apply bind_Ret in H; destruct H as (? & ? & H)
  | H : try_bind _ _ = Ret (Ok _) |- _ =>
      apply try_bind_Ok in H; destruct H as (? & ? & H)
  | H : Ret _ = Ret _ |- _ => injection H as H; try subst
  | H : mret _ = Ret _ |- _ => injection H as H; try subst
  end.

(** ** Bitwise reasoning

    [bits] proves an equation between bit expressions by comparing an
    arbitrary bit. *)

Lemma testbit_ones_nonneg w i :
  0 ≤ w → 0 ≤ i → Z.testbit (Z.ones w) i = (i <? w).
Proof.
  intros. rewrite Z.testbit_ones by done.
  by rewrite (proj2 (Z.leb_le 0 i)) by done.
Qed.

Lemma testbit_wrap w z i :
  0 ≤ w → Z.testbit (wrap w z) i = (i <? w) && Z.testbit z i.
Proof. intros. by apply Z.testbit_mod_pow2. Qed.

Lemma testbit_fits w z i : fits w z → 0 ≤ w → w ≤ i → Z.testbit z i = false.
Proof.
  intros Hf Hw Hi. rewrite <- (wrap_fits w z Hf), testbit_wrap by done.
  by rewrite (proj2 (Z.ltb_ge i w)).
Qed.

Lemma testbit_pow2 n i : 0 ≤ n → Z.testbit (2 ^ n) i = bool_decide (n = i).
Proof.
  intros. rewrite Z.pow2_bits_eqb by done.
  case_bool_decide; [by apply Z.eqb_eq|by apply Z.eqb_neq].
Qed.

Lemma testbit_shiftl x n i :
  0 ≤ n → Z.testbit (Z.shiftl x n) i = (n <=? i) && Z.testbit x (i - n).
Proof.
  intros. destruct (Z.leb_spec n i); [by apply Z.shiftl_spec; lia|].
  destruct (decide (0 ≤ i)); [by apply Z.shiftl_spec_low|].
  apply Z.testbit_neg_r. lia.
Qed.

Lemma fits_bits w z :
  0 ≤ w → 0 ≤ z → (∀ i, w ≤ i → Z.testbit z i = false) → fits w z.
Proof.
  intros Hw Hz Hbit. unfold fits. split; [done|].
  destruct (decide (z = 0)) as [->|]; [lia|].
  apply Z.log2_lt_pow2; [lia|].
  destruct (decide (Z.log2 z < w)) as [|Hlog]; [done|].
  pose proof (Z.bit_log2 z). rewrite Hbit in *; [|lia]. intuition lia.
Qed.

Create Rewrite HintDb bits.
#[export] Hint Rewrite Z.land_spec Z.lor_spec Z.lxor_spec Z.ldiff_spec
  andb_true_r andb_true_l andb_false_r andb_false_l
  orb_true_r orb_true_l orb_false_r orb_false_l Z.testbit_0_l : bits.
#[export] Hint Rewrite Z.testbit_ones testbit_wrap testbit_shiftl
  Z.shiftr_spec Z.lnot_spec using lia : bits.

Ltac bits_step :=
  autorewrite with bits;
  repeat match goal with
  | |- context [?a <? ?b] => destruct (Z.ltb_spec a b); cbn [andb orb negb]; try lia
  | |- context [?a <=? ?b] => destruct (Z.leb_spec a b); cbn [andb orb negb]; try lia
  | |- context [?a =? ?b] => destruct (Z.eqb_spec a b); cbn [andb orb negb]; try lia
  end;
  autorewrite with bits.

Ltac bits :=
  apply Z.bits_inj'; intros ?i ?Hi; bits_step; try done; try btauto.

(** Expressions over small fields are compared bit by bit, at concrete
    positions. *)
Lemma bits_enum n a b :
  Forall (λ i, Z.testbit a i = Z.testbit b i) (seqZ 0 n) →
  (∀ i, 0 ≤ i → n ≤ i → Z.testbit a i = Z.testbit b i) → a = b.
Proof.
  intros Hlow Hhigh. apply Z.bits_inj'. intros i Hi.
  destruct (decide (i < n)); [|apply Hhigh; lia].
  rewrite Forall_forall in Hlow. apply Hlow. apply elem_of_seqZ. lia.
Qed.

Ltac bits_at :=
  autorewrite with bits;
  repeat match goal with
  | |- context [?a <=? ?b] =>
      let r := eval vm_compute in (a <=? b) in change (a <=? b) with r
  | |- context [?a <? ?b] =>
      let r := eval vm_compute in (a <? b) in change (a <? b) with r
  | |- context [Z.testbit ?x ?j] =>
      let r := eval vm_compute in j in
      tryif constr_eq j r then fail else change (Z.testbit x j) with (Z.testbit x r)
  end;
  rewrite ?andb_false_r, ?andb_true_r, ?orb_false_r, ?orb_true_r; cbn [andb orb]; try done.

Lemma land_ones_wrap w z : 0 ≤ w → Z.land z (Z.ones w) = wrap w z.
Proof. intros. by apply Z.land_ones. Qed.

Lemma testbit_multiple a n i :
  a mod 2 ^ n = 0 → 0 ≤ i < n → Z.testbit a i = false.
Proof.
  intros Ha Hi. assert (Z.testbit (a mod 2 ^ n) i = Z.testbit a i) as <-.
  { rewrite Z.testbit_mod_pow2 by lia. by rewrite (proj2 (Z.ltb_lt i n)) by lia. }
  by rewrite Ha, Z.testbit_0_l.
Qed.

(** Disjoint bit fields add up. *)
Lemma lor_add a b n : 0 ≤ n → fits n b → a mod 2 ^ n = 0 → Z.lor a b = a + b.
Proof.
  intros Hn Hb Ha. assert (Z.land a b = 0) as Hab.
  { bits. destruct (decide (i < n)).
    - by rewrite (testbit_multiple a n) by (done || lia).
    - rewrite (testbit_fits n b) by (done || lia). apply andb_false_r. }
  rewrite Z.add_nocarry_lxor by done. symmetry. by apply Z.lxor_lor.
Qed.

(** [v & !x] clears the bits of [x]. *)
Lemma land_unot w v x : 0 ≤ w → fits w v → Z.land v (unot w x) = Z.ldiff v x.
Proof.
  intros Hw Hv. unfold unot. bits. by rewrite (testbit_fits w v) by done.
Qed.

Lemma ldiff_ones_sub v k : 0 ≤ k → Z.ldiff v (Z.ones k) = v - v mod 2 ^ k.
Proof.
  intros. rewrite Z.ldiff_ones_r, Z.shiftl_mul_pow2, Z.shiftr_div_pow2 by done.
  pose proof (Z.div_mod v (2 ^ k)). lia.
Qed.

Lemma align_mask w v k :
  0 ≤ k → 0 ≤ w → fits w v → Z.land v (unot w (Z.ones k)) = v - v mod 2 ^ k.
Proof. intros. by rewrite land_unot, ldiff_ones_sub. Qed.

(** [!0 << k] is the complement of the low [k] bits. *)
Lemma ushl_unot_0 w k : 0 ≤ k ≤ w → ushl w (unot w 0) k = unot w (Z.ones k).
Proof.
  intros. unfold ushl, unot. bits.
Qed.

Lemma unot_unot w x : 0 ≤ w → fits w x → unot w (unot w x) = x.
Proof.
  intros Hw Hx. unfold unot. bits. by rewrite (testbit_fits w x).
Qed.

Lemma ones_fits w k : 0 ≤ k ≤ w → fits w (Z.ones k).
Proof.
  intros. rewrite Z.ones_equiv. pose proof (Z.pow_le_mono_r 2 k w).
  unfold fits. pose proof (Z.pow_pos_nonneg 2 k). lia.
Qed.

Lemma unot_fits w x : 0 ≤ w → fits w (unot w x).
Proof.
  intros. unfold unot. apply fits_bits; [done| |].
  - apply Z.ldiff_nonneg. left. rewrite Z.ones_equiv.
    pose proof (Z.pow_pos_nonneg 2 w). lia.
  - intros i Hi. bits_step.
Qed.

Lemma land_fits_l w x y : 0 ≤ w → fits w x → fits w (Z.land x y).
Proof.
  intros Hw Hx. apply fits_bits; [done| |].
  - apply Z.land_nonneg. left. apply Hx.
  - intros i Hi. by rewrite Z.land_spec, (testbit_fits w x) by done.
Qed.

Lemma lor_fits w x y : 0 ≤ w → fits w x → fits w y → fits w (Z.lor x y).
Proof.
  intros Hw Hx Hy. apply fits_bits; [done| |].
  - apply Z.lor_nonneg. split; [apply Hx|apply Hy].
  - intros i Hi. by rewrite Z.lor_spec, !(testbit_fits w) by done.
Qed.

(** Discharges arithmetic that stays in range and reduces the bind. *)
Ltac arith_ok :=
  repeat match goal with
  | |- context [arith ?w ?z] =>
      rewrite (arith_fits w z) by (unfold fits in *; lia); cbn [mbind exec_bind]
  end.

(** Proves a closed decidable proposition by evaluating its decision. *)
Ltac evaluate := eapply bool_decide_unpack; vm_compute; exact I.

Lemma arith_signed_fits `{Profile} w z :
  - 2 ^ (w - 1) ≤ z < 2 ^ (w - 1) → arith_signed w z = Ret z.
Proof. intros. unfold arith_signed. by rewrite decide_True. Qed.

Ltac arith_signed_ok :=
  repeat match goal with
  | |- context [arith_signed ?w ?z] =>
      rewrite (arith_signed_fits w z) by (cbn; lia); cbn [mbind exec_bind]
  end.

Lemma to_signed_small w z : 0 < w → 0 ≤ z < 2 ^ (w - 1) → to_signed w z = z.
Proof.
  intros Hw Hz. unfold to_signed. assert (2 ^ w = 2 * 2 ^ (w - 1)).
  { rewrite <- Z.pow_succ_r by lia. f_equal. lia. }
  rewrite wrap_fits by (unfold fits; lia). by rewrite (proj2 (Z.ltb_lt _ _)) by lia.
Qed.

Lemma for_each_app {A S} (f : A → S → exec S) l1 l2 s :
  for_each f (l1 ++ l2) s = s' ← for_each f l1 s; for_each f l2 s'.
Proof.
  revert s. induction l1 as [|a l1 IH]; intros s; cbn; [done|].
  destruct (f a s); cbn; [apply IH|done|done].
Qed.

Lemma for_each_ext {A S} (f g : A → S → exec S) l s :
  (∀ a s, f a s = g a s) → for_each f l s = for_each g l s.
Proof.
  intros Hfg. revert s. induction l as [|a l IH]; intros s; cbn; [done|].
  rewrite Hfg. by destruct (g a s); cbn.
Qed.

Lemma for_each_fmap {A B S} (f : B → S → exec S) (g : A → B) l s :
  for_each f (g <$> l) s = for_each (λ a, f (g a)) l s.
Proof.
  revert s. induction l as [|a l IH]; intros s; cbn; [done|].
  by destruct (f (g a) s); cbn.
Qed.

(** ** Partial correctness: the code may panic, but does not fault, and what it
    returns satisfies [P] *)

Definition safe {A} (P : A → Prop) (m : exec A) : Prop :=
  match m with Ret a => P a | Panic => True | Fault => False end.

Lemma safe_bind {A B} (Q : A → Prop) (P : B → Prop) (m : exec A) (f : A → exec B) :
  safe Q m → (∀ a, Q a → safe P (f a)) → safe P (m ≫= f).
Proof. destruct m; cbn; auto. Qed.

Lemma safe_mono {A} (P Q : A → Prop) (m : exec A) :
  safe P m → (∀ a, P a → Q a) → safe Q m.
Proof. destruct m; cbn; auto. Qed.

Lemma safe_no_fault {A} (P : A → Prop) (m : exec A) : safe P m → m ≠ Fault.
Proof. by destruct m. Qed.

Lemma safe_arith `{Profile} w z : 0 ≤ w → safe (fits w) (arith w z).
Proof.
  intros. destruct (arith w z) as [x| |] eqn:Hx; cbn; [|done|by apply arith_no_fault in Hx].
  apply arith_Ret in Hx as ->. by apply wrap_range.
Qed.

Lemma safe_assert b : safe (λ _, b = true) (rust_assert b).
Proof. by destruct b. Qed.

Lemma safe_unwrap {A} (o : option A) : safe (λ a, o = Some a) (unwrap o).
Proof. by destruct o. Qed.

Lemma safe_for_each {A S} (P : S → Prop) (Q : A → Prop) (f : A → S → exec S) l s :
  P s → Forall Q l → (∀ a s, Q a → P s → safe P (f a s)) → safe P (for_each f l s).
Proof.
  intros HP Hl Hf. revert s HP. induction Hl as [|a l Ha _ IH]; intros s HP; cbn; [done|].
  apply (safe_bind P); auto.
Qed.

(** An invariant of the loop body holds of what the loop returns. *)
Lemma for_each_preserves {A S} (P : S → Prop) (f : A → S → exec S) l s s' :
  P s → (∀ a s s', P s → f a s = Ret s' → P s') → for_each f l s = Ret s' → P s'.
Proof.
  intros HP Hf. revert s HP. induction l as [|a l IH]; intros s HP Hl; cbn in Hl.
  - by injection Hl as <-.
  - apply bind_Ret in Hl as (s1 & H1 & Hl). eauto.
Qed.

Lemma unwrap_Ret {A} (o : option A) a : unwrap o = Ret a ↔ o = Some a.
Proof. destruct o; cbn; split; congruence. Qed.
