(* ===== verification/Memory.v ===== *)
(** * Guest memory

    The guest's physical memory is one anonymous mapping of the host process
    ([MmapMemory] in src/linux/uhyve.rs, the [mmap] call of src/macos/uhyve.rs):
    [mem_size] zeroed bytes at host address [mem_base].  The rest of uhyve reads and
    writes it through raw pointers, so the model addresses it by host address,
    byte by byte, and an access that leaves the mapping is a [Fault].
    Multi-byte integers are little endian; misaligned accesses are allowed, as
    on x86. *)

From S2P Require Import Prelude.

(** ** Little-endian integers *)

Fixpoint le_combine (bs : list Z) : Z :=
  match bs with
  | [] => 0
  | b :: bs' => b + 256 * le_combine bs'
  end.

Fixpoint le_split (n : nat) (z : Z) : list Z :=
  match n with
  | O => []
  | S n' => z mod 256 :: le_split n' (z / 256)
  end.

(** ** The mapping *)

Record mem := Mem {
  mem_base : Z;
  mem_size : Z;
  mem_data : gmap Z Z;
}.

(** A byte that was never written is zero: the mapping is anonymous. *)
Definition peek (m : mem) (a : Z) : Z := default 0 (mem_data m !! a).

(** Bytes [a .. a+n) lie in the mapping; an empty access needs no memory. *)
Definition valid (m : mem) (a n : Z) : Prop :=
  n = 0 ∨ mem_base m ≤ a ∧ a + n ≤ mem_base m + mem_size m.

#[export] Instance valid_dec m a n : Decision (valid m a n).
Proof. unfold valid. apply _. Defined.

Fixpoint peeks (m : mem) (a : Z) (n : nat) : list Z :=
  match n with
  | O => []
  | S n' => peek m a :: peeks m (a + 1) n'
  end.

Fixpoint pokes (d : gmap Z Z) (a : Z) (bs : list Z) : gmap Z Z :=
  match bs with
  | [] => d
  | b :: bs' => pokes (<[a := b]> d) (a + 1) bs'
  end.

Definition write_bytes (m : mem) (a : Z) (bs : list Z) : mem :=
  Mem (mem_base m) (mem_size m) (pokes (mem_data m) a bs).

(** [slice::from_raw_parts] / [*ptr] and their mutable counterparts. *)
Definition load_bytes (m : mem) (a : Z) (n : nat) : exec (list Z) :=
  if decide (valid m a (Z.of_nat n)) then Ret (peeks m a n) else Fault.

Definition store_bytes (m : mem) (a : Z) (bs : list Z) : exec mem :=
  if decide (valid m a (Z.of_nat (length bs))) then Ret (write_bytes m a bs)
  else Fault.

Definition load (n : nat) (m : mem) (a : Z) : exec Z :=
  bs ← load_bytes m a n; Ret (le_combine bs).

Definition store (n : nat) (m : mem) (a v : Z) : exec mem :=
  store_bytes m a (le_split n v).

(** ** Equivalence of memories: the same mapping with the same contents *)

#[export] Instance mem_equiv : Equiv mem := λ m1 m2,
  mem_base m1 = mem_base m2 ∧ mem_size m1 = mem_size m2 ∧
  ∀ a, peek m1 a = peek m2 a.

#[export] Instance mem_equivalence : Equivalence (≡@{mem}).
Proof.
  split.
  - by intros m.
  - intros m1 m2 (?&?&?). by repeat split.
  - intros m1 m2 m3 (?&?&H1) (?&?&H2). split; [congruence|].
    split; [congruence|]. intros a. by rewrite H1.
Qed.

#[export] Instance peek_proper : Proper ((≡) ==> eq ==> eq) peek.
Proof. by intros m1 m2 (?&?&?) a ? <-. Qed.

Lemma valid_equiv m1 m2 a n : m1 ≡ m2 → valid m1 a n ↔ valid m2 a n.
Proof. intros (Hb & Hs & _). unfold valid. by rewrite Hb, Hs. Qed.

#[export] Instance valid_proper : Proper ((≡) ==> eq ==> eq ==> iff) valid.
Proof. intros m1 m2 Hm a ? <- n ? <-. by apply valid_equiv. Qed.

Lemma peeks_proper m1 m2 a n : m1 ≡ m2 → peeks m1 a n = peeks m2 a n.
Proof.
  intros Hm. revert a. induction n as [|n IH]; intros a; cbn; [done|].
  by rewrite IH, Hm.
Qed.

#[export] Instance load_bytes_proper : Proper ((≡) ==> eq ==> eq ==> eq) load_bytes.
Proof.
  intros m1 m2 Hm a ? <- n ? <-. unfold load_bytes.
  pose proof (valid_equiv m1 m2 a (Z.of_nat n) Hm).
  repeat case_decide; try tauto. by rewrite (peeks_proper m1 m2).
Qed.

#[export] Instance load_proper n : Proper ((≡) ==> eq ==> eq) (load n).
Proof. intros m1 m2 Hm a ? <-. unfold load. by rewrite Hm. Qed.

(** ** Codec lemmas *)

Definition is_byte (b : Z) : Prop := 0 ≤ b < 256.
#[export] Instance is_byte_dec b : Decision (is_byte b).
Proof. unfold is_byte. apply _. Defined.

Lemma length_le_split n z : length (le_split n z) = n.
Proof. revert z. induction n; intros; cbn; auto. Qed.

Lemma le_split_bytes n z : Forall is_byte (le_split n z).
Proof.
  revert z. induction n; intros; cbn; constructor; [|done].
  unfold is_byte. apply Z.mod_pos_bound. lia.
Qed.

Lemma le_combine_split n z : le_combine (le_split n z) = wrap (8 * Z.of_nat n) z.
Proof.
  unfold wrap. revert z. induction n as [|n IH]; intros z; cbn -[Z.mul Z.of_nat].
  { by rewrite Z.mod_1_r. }
  rewrite IH. replace (8 * Z.of_nat (S n)) with (8 + 8 * Z.of_nat n) by lia.
  rewrite Z.pow_add_r by lia. change (2 ^ 8) with 256.
  rewrite Z.rem_mul_r by lia. done.
Qed.

Lemma le_split_combine bs :
  Forall is_byte bs → le_split (length bs) (le_combine bs) = bs.
Proof.
  induction 1 as [|b bs Hb _ IH]; cbn -[Z.mul]; [done|].
  unfold is_byte in Hb.
  rewrite (Z.mul_comm 256), Z.mod_add, Z.mod_small by lia.
  by rewrite Z.div_add, Z.div_small, Z.add_0_l, IH by lia.
Qed.

Lemma le_combine_range bs :
  Forall is_byte bs → fits (8 * Z.of_nat (length bs)) (le_combine bs).
Proof.
  intros Hbs. rewrite <- (le_split_combine bs Hbs) at 2.
  rewrite le_combine_split. apply wrap_range. lia.
Qed.

(** ** Access lemmas *)

Lemma length_peeks m a n : length (peeks m a n) = n.
Proof. revert a. induction n; intros; cbn; auto. Qed.

Lemma peek_pokes d a bs x :
  default 0 (pokes d a bs !! x) =
    if decide (a ≤ x < a + Z.of_nat (length bs))
    then bs !!! Z.to_nat (x - a) else default 0 (d !! x).
Proof.
  revert d a. induction bs as [|b bs IH]; intros d a; cbn [pokes length].
  { rewrite decide_False by lia. done. }
  rewrite IH. destruct (decide (x = a)) as [->|Hne].
  - rewrite decide_False, decide_True by lia. by rewrite lookup_insert_eq, Z.sub_diag.
  - rewrite lookup_insert_ne by done.
    destruct (decide (a + 1 ≤ x < a + 1 + Z.of_nat (length bs))).
    + rewrite decide_True by lia.
      by replace (Z.to_nat (x - a)) with (S (Z.to_nat (x - (a + 1)))) by lia.
    + by rewrite decide_False by lia.
Qed.

Lemma peek_write m a bs x :
  peek (write_bytes m a bs) x =
    if decide (a ≤ x < a + Z.of_nat (length bs))
    then bs !!! Z.to_nat (x - a) else peek m x.
Proof. apply peek_pokes. Qed.

Lemma peek_write_out m a bs x :
  ¬ (a ≤ x < a + Z.of_nat (length bs)) → peek (write_bytes m a bs) x = peek m x.
Proof. intros. rewrite peek_write. by rewrite decide_False. Qed.

Lemma peeks_ext m1 m2 a n :
  (∀ x, a ≤ x < a + Z.of_nat n → peek m1 x = peek m2 x) →
  peeks m1 a n = peeks m2 a n.
Proof.
  revert a. induction n as [|n IH]; intros a Hx; cbn; [done|].
  rewrite Hx by lia. f_equal. apply IH. intros. apply Hx. lia.
Qed.

Lemma lookup_peeks m a n i :
  (i < n)%nat → peeks m a n !! i = Some (peek m (a + Z.of_nat i)).
Proof.
  revert a i. induction n as [|n IH]; intros a i Hi; [lia|].
  destruct i as [|i]; cbn; [by rewrite Z.add_0_r|].
  rewrite IH by lia. do 2 f_equal. lia.
Qed.

Lemma peeks_write_same m a bs : peeks (write_bytes m a bs) a (length bs) = bs.
Proof.
  apply list_eq. intros i. destruct (decide (i < length bs)%nat) as [Hi|Hi].
  - rewrite lookup_peeks, peek_write, decide_True by lia.
    replace (Z.to_nat (a + Z.of_nat i - a)) with i by lia.
    destruct (lookup_lt_is_Some_2 bs i Hi) as [b Hb]. rewrite Hb.
    by rewrite (list_lookup_total_correct bs i b).
  - rewrite !lookup_ge_None_2; [done|lia|rewrite length_peeks; lia].
Qed.

Lemma peeks_write_disjoint m a bs b n :
  b + Z.of_nat n ≤ a ∨ a + Z.of_nat (length bs) ≤ b →
  peeks (write_bytes m a bs) b n = peeks m b n.
Proof. intros. apply peeks_ext. intros. apply peek_write_out. lia. Qed.

Lemma valid_write m a bs b n : valid (write_bytes m a bs) b n ↔ valid m b n.
Proof. done. Qed.

Lemma base_write m a bs : mem_base (write_bytes m a bs) = mem_base m.
Proof. done. Qed.

Lemma size_write m a bs : mem_size (write_bytes m a bs) = mem_size m.
Proof. done. Qed.

#[export] Instance write_bytes_proper :
  Proper ((≡) ==> eq ==> eq ==> (≡)) write_bytes.
Proof.
  intros m1 m2 Hm a ? <- bs ? <-. pose proof Hm as (?&?&?).
  split; [done|split; [done|]]. intros x. rewrite !peek_write.
  case_decide; [done|]. by rewrite Hm.
Qed.

(** Writing back what was there is the identity, up to equivalence. *)
Lemma write_peeks m a n : write_bytes m a (peeks m a n) ≡ m.
Proof.
  repeat split. intros x. rewrite peek_write, length_peeks. case_decide; [|done].
  erewrite list_lookup_total_correct; [|apply lookup_peeks; lia]. f_equal. lia.
Qed.

Lemma write_write m a bs1 bs2 :
  length bs1 = length bs2 →
  write_bytes (write_bytes m a bs1) a bs2 ≡ write_bytes m a bs2.
Proof.
  intros Hl. repeat split. intros x. rewrite !peek_write, Hl.
  by case_decide.
Qed.

Lemma write_comm m a1 bs1 a2 bs2 :
  a1 + Z.of_nat (length bs1) ≤ a2 ∨ a2 + Z.of_nat (length bs2) ≤ a1 →
  write_bytes (write_bytes m a1 bs1) a2 bs2 ≡
  write_bytes (write_bytes m a2 bs2) a1 bs1.
Proof.
  intros. repeat split. intros x. rewrite !peek_write.
  repeat case_decide; done || lia.
Qed.

(** ** Integer accesses *)

Lemma load_valid n m a :
  valid m a (Z.of_nat n) → load n m a = Ret (le_combine (peeks m a n)).
Proof. intros. unfold load, load_bytes. by rewrite decide_True. Qed.

Lemma store_valid n m a v :
  valid m a (Z.of_nat n) → store n m a v = Ret (write_bytes m a (le_split n v)).
Proof.
  intros. unfold store, store_bytes. by rewrite length_le_split, decide_True.
Qed.

Lemma load_write_same n m a v :
  valid m a (Z.of_nat n) →
  load n (write_bytes m a (le_split n v)) a = Ret (wrap (8 * Z.of_nat n) v).
Proof.
  intros. rewrite load_valid by by apply valid_write.
  pose proof (peeks_write_same m a (le_split n v)) as Hp.
  rewrite length_le_split in Hp. by rewrite Hp, le_combine_split.
Qed.

Lemma load_write_eq n m a b v :
  a = b → valid m a (Z.of_nat n) →
  load n (write_bytes m a (le_split n v)) b = Ret (wrap (8 * Z.of_nat n) v).
Proof. intros <-. apply load_write_same. Qed.

Lemma load_write_disjoint n m a bs b :
  b + Z.of_nat n ≤ a ∨ a + Z.of_nat (length bs) ≤ b →
  load n (write_bytes m a bs) b = load n m b.
Proof.
  intros. unfold load, load_bytes. rewrite peeks_write_disjoint by done.
  pose proof (valid_write m a bs b (Z.of_nat n)). repeat case_decide; done || tauto.
Qed.

Lemma load_bytes_length m a n bs : load_bytes m a n = Ret bs → length bs = n.
Proof. unfold load_bytes. case_decide; [|done]. intros [= <-]. apply length_peeks. Qed.

Lemma load_bytes_ext n m1 m2 a :
  mem_base m1 = mem_base m2 → mem_size m1 = mem_size m2 →
  (∀ x, a ≤ x < a + Z.of_nat n → peek m1 x = peek m2 x) →
  load_bytes m1 a n = load_bytes m2 a n.
Proof.
  intros Hb Hs Hx. unfold load_bytes. rewrite (peeks_ext m1 m2) by done.
  assert (valid m1 a (Z.of_nat n) ↔ valid m2 a (Z.of_nat n)) as Hv
    by (unfold valid; by rewrite Hb, Hs).
  repeat case_decide; done || tauto.
Qed.

Lemma load_ext n m1 m2 a :
  mem_base m1 = mem_base m2 → mem_size m1 = mem_size m2 →
  (∀ x, a ≤ x < a + Z.of_nat n → peek m1 x = peek m2 x) → load n m1 a = load n m2 a.
Proof. intros. unfold load. by rewrite (load_bytes_ext n m1 m2). Qed.

Lemma load_zero n m a :
  valid m a (Z.of_nat n) → (∀ x, a ≤ x < a + Z.of_nat n → peek m x = 0) →
  load n m a = Ret 0.
Proof.
  intros Hv Hz. rewrite load_valid by done. f_equal. clear Hv. revert a Hz.
  induction n as [|n IH]; intros a Hz; cbn -[Z.mul]; [done|].
  rewrite Hz, IH by (intros; try apply Hz; lia). done.
Qed.

Lemma load_no_panic n m a : load n m a ≠ Panic.
Proof. unfold load, load_bytes. by case_decide. Qed.

(** A mapping as [mmap] returns it: in the user half of the x86-64 address
    space, and holding bytes. *)
Record mem_wf (m : mem) : Prop := {
  wf_base : 0 < mem_base m;
  wf_size : 0 ≤ mem_size m;
  wf_end : mem_base m + mem_size m ≤ 2 ^ 47;
  wf_bytes : ∀ a, is_byte (peek m a);
}.

Lemma mem_wf_write m a bs :
  mem_wf m → Forall is_byte bs → mem_wf (write_bytes m a bs).
Proof.
  intros [] Hbs. split; try done. intros x. rewrite peek_write.
  case_decide; [|done]. rewrite Forall_lookup in Hbs.
  apply (Hbs (Z.to_nat (x - a))). apply list_lookup_lookup_total_lt. lia.
Qed.

Lemma peeks_bytes m a n : mem_wf m → Forall is_byte (peeks m a n).
Proof.
  intros Hm. revert a. induction n; intros; cbn; constructor; auto.
  by apply wf_bytes.
Qed.

Lemma load_fits n m a v :
  mem_wf m → load n m a = Ret v → fits (8 * Z.of_nat n) v.
Proof.
  unfold load, load_bytes. intros Hm Hl. case_decide; [|done].
  injection Hl as <-.
  pose proof (le_combine_range _ (peeks_bytes m a n Hm)) as Hr.
  by rewrite length_peeks in Hr.
Qed.

Create HintDb uhyve.
#[export] Hint Resolve mem_wf_write le_split_bytes peeks_bytes wrap_range : uhyve.

(** Accesses at known offsets of memory that was written to. *)
Ltac mem_valid :=
  unfold valid; cbn [mem_base mem_size write_bytes]; lia.

Ltac mem_load :=
  repeat first
  [ rewrite load_write_eq by (lia || mem_valid)
  | rewrite load_write_disjoint by (rewrite ?length_le_split; lia) ].

(** ** Sequences of writes *)

(** [(a, bs)]: the bytes [bs] at host address [a]. *)
Definition writes (ws : list (Z * list Z)) (m : mem) : mem :=
  foldl (λ m w, write_bytes m w.1 w.2) m ws.

Definition apart (a na b nb : Z) : Prop := a + na ≤ b ∨ b + nb ≤ a.
#[export] Instance apart_dec a na b nb : Decision (apart a na b nb).
Proof. unfold apart. apply _. Defined.

Definition write_apart (w1 w2 : Z * list Z) : Prop :=
  apart w1.1 (Z.of_nat (length w1.2)) w2.1 (Z.of_nat (length w2.2)).
#[export] Instance write_apart_dec w1 w2 : Decision (write_apart w1 w2).
Proof. unfold write_apart. apply _. Defined.

Fixpoint pairwise_apart (ws : list (Z * list Z)) : Prop :=
  match ws with
  | [] => True
  | w :: ws' => Forall (write_apart w) ws' ∧ pairwise_apart ws'
  end.
#[export] Instance pairwise_apart_dec ws : Decision (pairwise_apart ws).
Proof. induction ws; cbn; apply _. Defined.

Lemma writes_cons w ws m : writes (w :: ws) m = writes ws (write_bytes m w.1 w.2).
Proof. done. Qed.

Lemma writes_app ws1 ws2 m : writes (ws1 ++ ws2) m = writes ws2 (writes ws1 m).
Proof. apply foldl_app. Qed.

Lemma pairwise_apart_app ws1 ws2 :
  pairwise_apart ws1 → pairwise_apart ws2 →
  (∀ w1 w2, w1 ∈ ws1 → w2 ∈ ws2 → write_apart w1 w2) → pairwise_apart (ws1 ++ ws2).
Proof.
  intros H1 H2 H12. induction ws1 as [|w ws1 IH]; cbn in *; [done|].
  destruct H1 as [Hw H1]. split.
  - apply Forall_app. split; [done|]. apply Forall_forall. intros w2 Hw2.
    apply H12; [left|done].
  - apply IH; [done|]. intros w1 w2 Hw1. apply H12. by right.
Qed.

Lemma writes_base ws m : mem_base (writes ws m) = mem_base m.
Proof. revert m. induction ws as [|w ws IH]; intros m; [done|]. exact (IH _). Qed.

Lemma writes_size ws m : mem_size (writes ws m) = mem_size m.
Proof. revert m. induction ws as [|w ws IH]; intros m; [done|]. exact (IH _). Qed.

Lemma valid_writes ws m a n : valid (writes ws m) a n ↔ valid m a n.
Proof. unfold valid. by rewrite writes_base, writes_size. Qed.

Lemma peek_writes_out ws m x :
  Forall (λ w, ¬ (w.1 ≤ x < w.1 + Z.of_nat (length w.2))) ws →
  peek (writes ws m) x = peek m x.
Proof.
  intros Hws. revert m. induction Hws as [|w ws Hw _ IH]; intros m; [done|].
  rewrite writes_cons, IH. by apply peek_write_out.
Qed.

Lemma load_writes_out n ws m a :
  Forall (λ w, apart a (Z.of_nat n) w.1 (Z.of_nat (length w.2))) ws →
  load n (writes ws m) a = load n m a.
Proof.
  intros Hws. apply load_ext; [apply writes_base|apply writes_size|].
  intros x Hx. apply peek_writes_out. eapply Forall_impl; [exact Hws|].
  cbn. unfold apart. intros w. lia.
Qed.

Lemma peeks_writes ws m w :
  pairwise_apart ws → w ∈ ws → peeks (writes ws m) w.1 (length w.2) = w.2.
Proof.
  revert m. induction ws as [|w' ws IH]; intros m Hap Hin; [by apply not_elem_of_nil in Hin|].
  cbn in Hap. destruct Hap as [Hw' Hap]. rewrite writes_cons.
  apply elem_of_cons in Hin as [->|Hin]; [|by apply IH].
  etrans; [|apply (peeks_write_same m w'.1 w'.2)]. apply peeks_ext. intros x Hx.
  apply peek_writes_out. eapply Forall_impl; [exact Hw'|].
  cbn. unfold write_apart, apart. intros w. lia.
Qed.

Lemma load_writes n ws m a v :
  valid m a (Z.of_nat n) → pairwise_apart ws → (a, le_split n v) ∈ ws →
  load n (writes ws m) a = Ret (wrap (8 * Z.of_nat n) v).
Proof.
  intros Hv Hap Hin. rewrite load_valid by by apply valid_writes.
  pose proof (peeks_writes ws m _ Hap Hin) as Hp. cbn in Hp.
  rewrite length_le_split in Hp. by rewrite Hp, le_combine_split.
Qed.

(** A loop whose body writes one region, under an invariant of the memory. *)
Lemma for_each_writes {A} (P : mem → Prop) (f : A → mem → exec mem)
    (g : A → Z * list Z) l m :
  P m →
  (∀ x m', x ∈ l → P m' →
     f x m' = Ret (write_bytes m' (g x).1 (g x).2) ∧ P (write_bytes m' (g x).1 (g x).2)) →
  for_each f l m = Ret (writes (g <$> l) m).
Proof.
  revert m. induction l as [|x l IH]; intros m HP Hf; cbn; [done|].
  destruct (Hf x m) as [-> HP']; [left|done|]. cbn. apply IH; [done|].
  intros y m' Hy. apply Hf. by right.
Qed.

Lemma write_app m a bs1 bs2 :
  write_bytes (write_bytes m a bs1) (a + Z.of_nat (length bs1)) bs2 =
  write_bytes m a (bs1 ++ bs2).
Proof.
  unfold write_bytes. cbn. f_equal. generalize (mem_data m) as d. revert a.
  induction bs1 as [|b bs1 IH]; intros a d; cbn [length app pokes]; [by rewrite Z.add_0_r|].
  rewrite <- IH. f_equal. lia.
Qed.

(** A field inside a region that was written. *)
Lemma load_write_inside n m a bs k :
  0 ≤ k → (Z.to_nat k + n ≤ length bs)%nat → valid m (a + k) (Z.of_nat n) →
  load n (write_bytes m a bs) (a + k) = Ret (le_combine (take n (drop (Z.to_nat k) bs))).
Proof.
  intros Hk Hn Hv. rewrite load_valid by by apply valid_write. do 2 f_equal.
  apply list_eq. intros i. destruct (decide (i < n)%nat).
  - rewrite lookup_peeks, peek_write, decide_True by lia.
    rewrite lookup_take_lt, lookup_drop by lia.
    replace (Z.to_nat (a + k + Z.of_nat i - a)) with (Z.to_nat k + i)%nat by lia.
    symmetry. apply list_lookup_lookup_total_lt. lia.
  - rewrite !lookup_ge_None_2; [done|rewrite length_take; lia|rewrite length_peeks; lia].
Qed.

Lemma store_bytes_valid m a bs :
  valid m a (Z.of_nat (length bs)) → store_bytes m a bs = Ret (write_bytes m a bs).
Proof. intros. unfold store_bytes. by rewrite decide_True. Qed.

(** What the last write to a region leaves there. *)
Lemma peeks_writes_last ws1 w ws2 m :
  Forall (write_apart w) ws2 →
  peeks (writes (ws1 ++ w :: ws2) m) w.1 (length w.2) = w.2.
Proof.
  intros Hap. rewrite writes_app, writes_cons.
  etrans; [|apply (peeks_write_same (writes ws1 m) w.1 w.2)]. apply peeks_ext. intros x Hx.
  apply peek_writes_out. eapply Forall_impl; [exact Hap|].
  cbn. unfold write_apart, apart. intros w'. lia.
Qed.

Lemma load_write_bytes n m a b bs :
  a = b → length bs = n → valid m a (Z.of_nat n) →
  load n (write_bytes m a bs) b = Ret (le_combine bs).
Proof.
  intros <- <- Hv. rewrite load_valid by by apply valid_write. by rewrite peeks_write_same.
Qed.

Lemma safe_store_bytes m a bs :
  valid m a (Z.of_nat (length bs)) → safe (λ m', m' = write_bytes m a bs) (store_bytes m a bs).
Proof. intros. by rewrite store_bytes_valid. Qed.

Lemma safe_store n m a v :
  valid m a (Z.of_nat n) → safe (λ m', m' = write_bytes m a (le_split n v)) (store n m a v).
Proof. intros. by rewrite store_valid. Qed.

(** A new anonymous mapping. *)
Lemma mem_wf_fresh a size : 0 < a → 0 ≤ size → a + size ≤ 2 ^ 47 → mem_wf (Mem a size ∅).
Proof. intros. by split. Qed.

(** ** The mapping stays where it is *)

Definition same_map (m m' : mem) : Prop := mem_base m' = mem_base m ∧ mem_size m' = mem_size m.

#[export] Instance same_map_preorder : PreOrder same_map.
Proof. split; [by intros m|]. intros m1 m2 m3 [??] [??]. split; congruence. Qed.

Lemma store_bytes_map m a bs m' : store_bytes m a bs = Ret m' → same_map m m'.
Proof. unfold store_bytes. case_decide; [|done]. by intros [= <-]. Qed.

Lemma store_map n m a v m' : store n m a v = Ret m' → same_map m m'.
Proof. apply store_bytes_map. Qed.

(** A sequence of stores keeps the mapping. *)
Ltac map_chain :=
  repeat match goal with
  | Hs : store _ _ _ _ = Ret _ |- _ => apply store_map in Hs
  | Hs : store_bytes _ _ _ = Ret _ |- _ => apply store_bytes_map in Hs
  | Hs : same_map ?a ?b |- same_map ?a _ => etrans; [exact Hs|clear Hs]
  end; try done.

Lemma writes_map ws m : same_map m (writes ws m).
Proof. split; [apply writes_base|apply writes_size]. Qed.

Lemma mem_wf_writes ws m :
  mem_wf m → Forall (λ w, Forall is_byte w.2) ws → mem_wf (writes ws m).
Proof.
  intros Hm Hws. revert m Hm. induction Hws as [|w ws Hw _ IH]; intros m Hm; [done|].
  rewrite writes_cons. apply IH. by apply mem_wf_write.
Qed.
