(* ===== verification/Consts.v ===== *)
(** * Constants of src/consts.rs and the alignment macros of src/macros.rs *)

From S2P Require Import Prelude.

Definition PAGE_SIZE : Z := 0x1000.
Definition GDT_KERNEL_CODE : Z := 1.
Definition GDT_KERNEL_DATA : Z := 2.
Definition APIC_DEFAULT_BASE : Z := 0xfee00000.
Definition BOOT_GDT : Z := 0x1000.
Definition BOOT_GDT_MAX : Z := 3.
Definition BOOT_PML4 : Z := 0x10000.
Definition BOOT_PDPTE : Z := 0x11000.
Definition BOOT_PDE : Z := 0x12000.
Definition BOOT_INFO_ADDR : Z := 0x9000.
Definition EFER_LME : Z := Z.shiftl 1 8.
Definition EFER_LMA : Z := Z.shiftl 1 10.
Definition EFER_NXE : Z := Z.shiftl 1 11.
Definition IOAPIC_BASE : Z := 0xfec00000.
Definition IOAPIC_SIZE : Z := 0x1000.
Definition KERNEL_STACK_SIZE : Z := 32768.
Definition SHUTDOWN_PORT : Z := 0xf4.
Definition SHAREDQUEUE_START : Z := 0x80000.
Definition UHYVE_NET_MTU : Z := 1500.
Definition UHYVE_QUEUE_SIZE : Z := 8.
Definition UHYVE_IRQ_NET : Z := 11.
Definition GUEST_PAGE_SIZE : Z := 0x200000.

Definition UHYVE_PORT_WRITE : Z := 0x400.
Definition UHYVE_PORT_OPEN : Z := 0x440.
Definition UHYVE_PORT_CLOSE : Z := 0x480.
Definition UHYVE_PORT_READ : Z := 0x500.
Definition UHYVE_PORT_EXIT : Z := 0x540.
Definition UHYVE_PORT_LSEEK : Z := 0x580.
Definition UHYVE_PORT_NETWRITE : Z := 0x640.
Definition UHYVE_PORT_CMDSIZE : Z := 0x740.
Definition UHYVE_PORT_CMDVAL : Z := 0x780.
Definition UHYVE_UART_PORT : Z := 0x800.
Definition UHYVE_PORT_UNLINK : Z := 0x840.

(** The macros expand to expressions in the type of their arguments; [w] is
    that type's width. *)
Definition align_down `{Profile} (w value alignment : Z) : exec Z :=
  mask ← arith w (alignment - 1); Ret (Z.land value (unot w mask)).

Definition align_up `{Profile} (w value alignment : Z) : exec Z :=
  mask ← arith w (alignment - 1);
  v ← arith w (value + mask);
  align_down w v alignment.

(** With a power-of-two alignment the macro rounds up to the next multiple. *)
Lemma align_up_pow2 `{Profile} w value k :
  0 ≤ k < w → 0 ≤ value → value + 2 ^ k ≤ 2 ^ w →
  align_up w value (2 ^ k) = Ret (value + (- value) mod 2 ^ k).
Proof.
  intros Hk Hv Hfit. pose proof (Z.pow_pos_nonneg 2 k).
  unfold align_up, align_down.
  arith_ok. f_equal.
  replace (2 ^ k - 1) with (Z.ones k) at 2 by (rewrite Z.ones_equiv; lia).
  rewrite align_mask by (unfold fits; lia).
  set (p := 2 ^ k) in *.
  pose proof (Z.div_mod (value + (p - 1)) p). pose proof (Z.div_mod (- value) p).
  pose proof (Z.mod_pos_bound (value + (p - 1)) p).
  pose proof (Z.mod_pos_bound (- value) p).
  assert ((value + (p - 1)) / p = - ((- value) / p)) by nia. nia.
Qed.
