(* ===== verification/Paging.v ===== *)
(** * Page-table entries (src/paging.rs)

    An entry is the 64-bit value [physical_address_and_flags]; a set of
    [PageTableEntryFlags] is its bit mask. *)

From S2P Require Import Prelude Consts.

Definition PAGE_BITS : Z := 12.
Definition PAGE_MAP_BITS : Z := 9.

Module PageTableEntryFlags.
Definition PRESENT : Z := 1.
Definition WRITABLE : Z := Z.shiftl 1 1.
Definition USER_ACCESSIBLE : Z := Z.shiftl 1 2.
Definition WRITE_THROUGH : Z := Z.shiftl 1 3.
Definition CACHE_DISABLE : Z := Z.shiftl 1 4.
Definition ACCESSED : Z := Z.shiftl 1 5.
Definition DIRTY : Z := Z.shiftl 1 6.
Definition HUGE_PAGE : Z := Z.shiftl 1 7.
Definition GLOBAL : Z := Z.shiftl 1 8.
Definition EXECUTE_DISABLE : Z := Z.shiftl 1 63.
Definition BLANK : Z := 0.

(** The [bitflags] type only holds the declared bits. *)
Definition all : Z := Z.lor (Z.ones 9) EXECUTE_DISABLE.
Definition is_flags (flags : Z) : Prop := Z.land flags all = flags.

(** [contains] of the [bitflags] crate. *)
Definition contains (flags f : Z) : bool := Z.land flags f =? f.
End PageTableEntryFlags.
Import PageTableEntryFlags.

(** The [PageSize] trait and its two implementations, by empty enums. *)
Class PageSize (S : Type) := {
  SIZE : Z;
  MAP_LEVEL : Z;
  MAP_EXTRA_FLAG : Z;
}.
Arguments SIZE S {_}.
Arguments MAP_LEVEL S {_}.
Arguments MAP_EXTRA_FLAG S {_}.

Inductive BasePageSize : Set := .
Inductive LargePageSize : Set := .

#[export] Instance BasePageSize_PageSize : PageSize BasePageSize :=
  {| SIZE := 4096; MAP_LEVEL := 0; MAP_EXTRA_FLAG := BLANK |}.
#[export] Instance LargePageSize_PageSize : PageSize LargePageSize :=
  {| SIZE := 2 * 1024 * 1024; MAP_LEVEL := 1; MAP_EXTRA_FLAG := HUGE_PAGE |}.

Module PageTableEntry.

Definition check_flags (e flags : Z) : bool := Z.land e flags =? flags.

Definition is_present (e : Z) : bool := check_flags e PRESENT.

Definition is_hugepage (e : Z) : bool := check_flags e HUGE_PAGE.

Definition address (e : Z) : Z :=
  let mask := if is_hugepage e then SIZE LargePageSize - 1
              else SIZE BasePageSize - 1 in
  Z.land (Z.land e (unot 64 mask)) (unot 64 EXECUTE_DISABLE).

(** [set] overwrites the entry; the assertions check the alignment. *)
Definition set (physical_address flags : Z) : exec Z :=
  rust_assert
    (if contains flags HUGE_PAGE
     then physical_address mod SIZE LargePageSize =? 0
     else physical_address mod SIZE BasePageSize =? 0) ;;
  Ret (Z.lor physical_address (Z.lor PRESENT flags)).

Definition flags_mask : Z :=
  Z.lor (SIZE BasePageSize - 1) EXECUTE_DISABLE.

Definition set_flags (e flags : Z) : Z :=
  Z.lor (Z.land e (unot 64 flags_mask)) (Z.land flags flags_mask).

Definition flags (e : Z) : Z := Z.land e flags_mask.

End PageTableEntry.
Import PageTableEntry.

(** ** Bits of entries *)

Lemma testbit_flag n i : 0 ≤ n → 0 ≤ i → Z.testbit (Z.shiftl 1 n) i = (n =? i).
Proof.
  intros. rewrite Z.shiftl_1_l, testbit_pow2 by done.
  case_bool_decide; symmetry; [by apply Z.eqb_eq|by apply Z.eqb_neq].
Qed.

Lemma testbit_execute_disable i : 0 ≤ i → Z.testbit EXECUTE_DISABLE i = (63 =? i).
Proof. by apply testbit_flag. Qed.

(** Testing one flag is testing one bit. *)
Lemma contains_flag e n : 0 ≤ n → contains e (Z.shiftl 1 n) = Z.testbit e n.
Proof.
  intros Hn. unfold contains. destruct (Z.testbit e n) eqn:Hb.
  - apply Z.eqb_eq, Z.bits_inj'. intros i Hi.
    rewrite Z.land_spec, testbit_flag by done.
    destruct (Z.eqb_spec n i) as [<-|]; [by rewrite Hb|]. apply andb_false_r.
  - apply Z.eqb_neq. intros Heq. apply (f_equal (λ z, Z.testbit z n)) in Heq.
    rewrite Z.land_spec, Hb, testbit_flag, Z.eqb_refl in Heq by done. done.
Qed.

(** [e & (1 << n) == 0]. *)
Lemma flag_test e n : 0 ≤ n → (Z.land e (Z.shiftl 1 n) =? 0) = negb (Z.testbit e n).
Proof.
  intros Hn. destruct (Z.testbit e n) eqn:Hb; cbn [negb].
  - apply Z.eqb_neq. intros Hz. apply (f_equal (λ z, Z.testbit z n)) in Hz.
    rewrite Z.land_spec, testbit_flag, Hb, Z.eqb_refl, Z.testbit_0_l in Hz by done. done.
  - apply Z.eqb_eq, Z.bits_inj'. intros i Hi.
    rewrite Z.land_spec, testbit_flag, Z.testbit_0_l by done.
    destruct (Z.eqb_spec n i) as [<-|]; [by rewrite Hb|apply andb_false_r].
Qed.

Lemma is_present_bit e : is_present e = Z.testbit e 0.
Proof. apply (contains_flag e 0). lia. Qed.

Lemma is_hugepage_bit e : is_hugepage e = Z.testbit e 7.
Proof. apply (contains_flag e 7). lia. Qed.

Lemma testbit_is_flags f i :
  is_flags f → 0 ≤ i → 9 ≤ i → i ≠ 63 → Z.testbit f i = false.
Proof.
  intros <- ???. unfold all. autorewrite with bits.
  rewrite testbit_execute_disable by lia.
  rewrite (proj2 (Z.ltb_ge i 9)), (proj2 (Z.eqb_neq 63 i)) by lia.
  by rewrite !andb_false_r.
Qed.

Lemma testbit_flags_mask i :
  0 ≤ i → Z.testbit flags_mask i = (i <? 12) || (63 =? i).
Proof.
  intros. unfold flags_mask. change (SIZE BasePageSize - 1) with (Z.ones 12).
  rewrite Z.lor_spec, testbit_ones_nonneg, testbit_execute_disable by lia. done.
Qed.

Lemma testbit_address e i :
  fits 64 e → 0 ≤ i →
  Z.testbit (address e) i =
    Z.testbit e i && negb (i <? if Z.testbit e 7 then 21 else 12) && negb (63 =? i).
Proof.
  intros He Hi. unfold address. rewrite is_hugepage_bit.
  replace (if Z.testbit e 7 then SIZE LargePageSize - 1 else SIZE BasePageSize - 1)
    with (Z.ones (if Z.testbit e 7 then 21 else 12)) by by destruct (Z.testbit e 7).
  rewrite (land_unot 64 e) by (done || lia). rewrite land_unot; [|lia|].
  - rewrite !Z.ldiff_spec, testbit_ones_nonneg, testbit_execute_disable; [done|lia| |lia].
    destruct (Z.testbit e 7); lia.
  - rewrite <- (land_unot 64 e) by (done || lia). apply land_fits_l; done || lia.
Qed.

Lemma testbit_unot64 x i :
  0 ≤ i → Z.testbit (unot 64 x) i = (i <? 64) && negb (Z.testbit x i).
Proof.
  intros. unfold unot. autorewrite with bits.
  by rewrite (proj2 (Z.leb_le 0 i)) by done.
Qed.

(** ** Entries built by [set] *)

Section SetEntry.
Context (pa fl e : Z).
Hypothesis Hset : PageTableEntry.set pa fl = Ret e.
Hypothesis Hpa : fits 63 pa.
Hypothesis Hfl : is_flags fl.

Local Definition offset_bits : Z := if contains fl HUGE_PAGE then 21 else 12.

Lemma offset_bits_range : 12 ≤ offset_bits ≤ 21.
Proof. unfold offset_bits. destruct (contains _ _); lia. Qed.

Lemma set_value :
  e = Z.lor pa (Z.lor PRESENT fl) ∧ pa mod 2 ^ offset_bits = 0.
Proof.
  revert Hset. unfold PageTableEntry.set, rust_assert, offset_bits.
  destruct (contains fl HUGE_PAGE); destruct (_ =? 0) eqn:Hal; try done;
    intros [= <-]; apply Z.eqb_eq in Hal; by split.
Qed.

Lemma set_testbit i :
  0 ≤ i → Z.testbit e i = Z.testbit pa i || (0 =? i) || Z.testbit fl i.
Proof.
  intros. destruct set_value as [-> _]. rewrite !Z.lor_spec.
  change PRESENT with (Z.shiftl 1 0). rewrite testbit_flag by lia.
  by rewrite orb_assoc.
Qed.

Lemma set_testbit_pa i : 0 ≤ i < offset_bits → Z.testbit pa i = false.
Proof. intros. by apply (testbit_multiple pa offset_bits); [apply set_value|]. Qed.

Lemma set_huge : Z.testbit e 7 = contains fl HUGE_PAGE.
Proof.
  pose proof offset_bits_range.
  rewrite set_testbit, set_testbit_pa by lia. symmetry. by apply (contains_flag fl 7).
Qed.

Lemma set_fits : fits 64 e.
Proof.
  apply fits_bits; [lia| |].
  - destruct set_value as [-> _]. apply Z.lor_nonneg. split; [apply Hpa|].
    apply Z.lor_nonneg. split; [done|]. rewrite <- Hfl. by apply Z.land_nonneg; right.
  - intros i Hi. rewrite set_testbit by lia.
    rewrite (testbit_fits 63 pa), (testbit_is_flags fl) by (done || lia).
    by rewrite (proj2 (Z.eqb_neq 0 i)) by lia.
Qed.

Lemma set_address : address e = pa.
Proof.
  pose proof offset_bits_range.
  apply Z.bits_inj'. intros i Hi. rewrite testbit_address by (done || apply set_fits).
  rewrite set_huge, set_testbit by done. fold offset_bits.
  destruct (Z.ltb_spec i offset_bits) as [Hlt|Hge].
  { rewrite andb_false_r. symmetry. by apply set_testbit_pa. }
  destruct (Z.eqb_spec 63 i) as [<-|].
  { rewrite andb_false_r. symmetry. by apply (testbit_fits 63). }
  rewrite (proj2 (Z.eqb_neq 0 i)), (testbit_is_flags fl) by (done || lia).
  by rewrite !orb_false_r, !andb_true_r.
Qed.

Lemma set_flags_value : flags e = Z.lor PRESENT fl.
Proof.
  pose proof offset_bits_range.
  apply Z.bits_inj'. intros i Hi. unfold flags.
  rewrite Z.land_spec, testbit_flags_mask, Z.lor_spec, set_testbit by done.
  change PRESENT with (Z.shiftl 1 0). rewrite testbit_flag by lia.
  destruct (Z.ltb_spec i 12) as [Hlt|Hge].
  { rewrite set_testbit_pa by lia. by rewrite andb_true_r. }
  destruct (Z.eqb_spec 63 i) as [<-|].
  { rewrite (testbit_fits 63 pa) by (done || lia). by rewrite andb_true_r. }
  rewrite (proj2 (Z.eqb_neq 0 i)), (testbit_is_flags fl) by (done || lia).
  apply andb_false_r.
Qed.

Lemma set_present : is_present e = true.
Proof. rewrite is_present_bit, set_testbit by lia. by rewrite orb_true_r. Qed.
End SetEntry.

(** An entry written by [PageTableEntry::set] reads back as it was set:
    [address] returns the physical address, [flags] the requested flags plus
    PRESENT, and the entry is present, and huge exactly when HUGE_PAGE was
    requested. *)
Lemma set_roundtrip pa fl e :
  PageTableEntry.set pa fl = Ret e → fits 63 pa → is_flags fl →
  address e = pa ∧ flags e = Z.lor PRESENT fl ∧
  is_present e = true ∧ is_hugepage e = contains fl HUGE_PAGE.
Proof.
  intros. rewrite is_hugepage_bit.
  split_and!; eauto using set_address, set_flags_value, set_present, set_huge.
Qed.

Lemma set_roundtrip_example :
  address 0x400087 = 0x400000 ∧ flags 0x400087 = 0x87 ∧
  is_present 0x400087 = true ∧ is_hugepage 0x400087 = true.
Proof.
  by apply (set_roundtrip 0x400000 (Z.lor WRITABLE (Z.lor USER_ACCESSIBLE HUGE_PAGE))).
Qed.

(** [PageTableEntry::set] panics exactly on an address that is not aligned
    to the page size the flags select, 2 MiB with HUGE_PAGE and 4 KiB without. *)
Lemma set_panics_iff_misaligned pa fl :
  PageTableEntry.set pa fl = Panic ↔
  pa mod (if contains fl HUGE_PAGE then SIZE LargePageSize else SIZE BasePageSize) ≠ 0.
Proof.
  unfold PageTableEntry.set, rust_assert. rewrite <- Z.eqb_neq.
  destruct (contains fl HUGE_PAGE), (_ =? 0); naive_solver.
Qed.

(** [set_flags] replaces the flag bits of an entry and nothing else:
    [flags] reads back the new flags, every other bit is unchanged, and the
    address is unchanged as long as the entry keeps its page size. *)
Lemma set_flags_spec e f :
  fits 64 e → fits 64 f →
  flags (set_flags e f) = Z.land f flags_mask ∧
  Z.ldiff (set_flags e f) flags_mask = Z.ldiff e flags_mask ∧
  (Z.testbit f 7 = Z.testbit e 7 → address (set_flags e f) = address e).
Proof.
  intros He Hf.
  assert (∀ i, 0 ≤ i → Z.testbit (set_flags e f) i =
    if (i <? 12) || (63 =? i) then Z.testbit f i else Z.testbit e i) as Hb.
  { intros i Hi. unfold set_flags.
    rewrite Z.lor_spec, !Z.land_spec, testbit_unot64, testbit_flags_mask by done.
    destruct ((i <? 12) || (63 =? i)); cbn [negb];
      rewrite ?andb_false_r, ?andb_true_r, ?orb_false_r; [done|].
    destruct (Z.ltb_spec i 64); [by rewrite andb_true_r|].
    rewrite andb_false_r. symmetry. by apply (testbit_fits 64). }
  assert (fits 64 (set_flags e f)).
  { apply lor_fits; [lia| |]; apply land_fits_l; done || lia. }
  repeat split.
  - apply Z.bits_inj'. intros i Hi. unfold flags.
    rewrite !Z.land_spec, Hb, testbit_flags_mask by done.
    destruct ((i <? 12) || (63 =? i)); [done|]. by rewrite !andb_false_r.
  - apply Z.bits_inj'. intros i Hi.
    rewrite !Z.ldiff_spec, Hb, testbit_flags_mask by done.
    destruct ((i <? 12) || (63 =? i)); [|done]. by rewrite !andb_false_r.
  - intros Hhuge. apply Z.bits_inj'. intros i Hi.
    rewrite !testbit_address, !Hb by (done || lia). change ((7 <? 12) || (63 =? 7)) with true.
    cbn match. rewrite Hhuge.
    destruct (Z.ltb_spec i 12), (Z.eqb_spec 63 i); cbn [negb andb orb];
      rewrite ?andb_false_r; try done.
    all: rewrite (proj2 (Z.ltb_lt i _)) by (destruct (Z.testbit e 7); lia);
      cbn [negb]; by rewrite !andb_false_r.
Qed.

