(* ===== verification/AddressSpace.v ===== *)
(** * The guest's initial address space

    [create_gdt_entry] and [Vm::init_guest_mem] (src/vm.rs) lay out the boot
    GDT and the boot page tables; [host_address] and [virt_to_phys]
    (src/linux/vcpu.rs, and identically src/macos/vcpu.rs) translate guest
    addresses.  The translation is compared with an independent definition of
    the processor's four-level page walk. *)

From S2P Require Import Prelude Memory Consts Paging.
Import PageTableEntryFlags.

(** ** Translation *)

Section Translation.
Context `{Profile}.

Definition host_address (vm_start addr : Z) : exec Z := arith 64 (addr + vm_start).

(** The loop of [virt_to_phys], [n] levels left. *)
Fixpoint walk (m : mem) (vm_start : Z) (n : nat)
    (addr page_table page_bits entry : Z) : exec Z :=
  match n with
  | O =>
      Ret (Z.lor (Z.land entry (ushl 64 (unot 64 0) PAGE_BITS))
                 (Z.land addr (unot 64 (ushl 64 (unot 64 0) PAGE_BITS))))
  | S n' =>
      let executable_disable_mask := unot 64 EXECUTE_DISABLE in
      let index := Z.land (Z.shiftr addr page_bits) (Z.shiftl 1 PAGE_MAP_BITS - 1) in
      raw ← load 8 m (page_table + 8 * index);
      let entry := Z.land raw executable_disable_mask in
      if negb (Z.land entry HUGE_PAGE =? 0) then
        Ret (Z.lor (Z.land entry (ushl 64 (unot 64 0) page_bits))
                   (Z.land addr (unot 64 (ushl 64 (unot 64 0) page_bits))))
      else
        page_table' ← host_address vm_start
                        (Z.land entry (unot 64 (Z.shiftl 1 PAGE_BITS - 1)));
        walk m vm_start n' addr page_table' (page_bits - PAGE_MAP_BITS) entry
  end.

Definition virt_to_phys (m : mem) (vm_start addr : Z) : exec Z :=
  page_table ← host_address vm_start BOOT_PML4;
  walk m vm_start 4 addr page_table 39 0.

(** ** Boot tables *)

Definition create_gdt_entry (flags base limit : Z) : Z :=
  Z.lor (ushl 64 (Z.land base 0xff000000) (56 - 24))
  (Z.lor (ushl 64 (Z.land flags 0x0000f0ff) 40)
  (Z.lor (ushl 64 (Z.land limit 0x000f0000) (48 - 16))
  (Z.lor (ushl 64 (Z.land base 0x00ffffff) 16)
         (Z.land limit 0x0000ffff)))).

(** [table.entries[i].set(pa, flags)] for a table at host address [table]. *)
Definition set_entry (m : mem) (table i pa fl : Z) : exec mem :=
  e ← PageTableEntry.set pa fl;
  store 8 m (table + 8 * i) e.

Definition init_guest_mem (m : mem) : exec mem :=
  pml4 ← arith 64 (mem_base m + BOOT_PML4);
  pdpte ← arith 64 (mem_base m + BOOT_PDPTE);
  pde ← arith 64 (mem_base m + BOOT_PDE);
  gdt_entry ← arith 64 (mem_base m + BOOT_GDT);
  m ← store 8 m gdt_entry (create_gdt_entry 0 0 0);
  gdt_code ← arith 64 (gdt_entry + 8);
  m ← store 8 m gdt_code (create_gdt_entry 0xA09B 0 0xFFFFF);
  gdt_data ← arith 64 (gdt_entry + 2 * 8);
  m ← store 8 m gdt_data (create_gdt_entry 0xC093 0 0xFFFFF);
  m ← set_entry m pml4 0 BOOT_PDPTE (Z.lor PRESENT WRITABLE);
  m ← set_entry m pml4 511 BOOT_PML4 (Z.lor PRESENT WRITABLE);
  m ← set_entry m pdpte 0 BOOT_PDE (Z.lor PRESENT WRITABLE);
  for_each (λ i m,
    pa ← arith 64 (i * SIZE LargePageSize);
    set_entry m pde i pa (Z.lor PRESENT (Z.lor WRITABLE HUGE_PAGE)))
    (seqZ 0 512) m.

End Translation.

(** ** The processor's page walk

    Intel SDM, 4-level paging: [x86_walk m l table va path pa] holds when the
    walk that starts at the level-[l] table (3 for the PML4) at guest physical
    address [table] translates [va] to [pa] and reads the entries [path].
    Entries address physical memory with bits 51:12; a level-2 or level-1
    entry with PS maps a page, a PML4 entry never does. *)

Definition phys_entry (m : mem) (table index e : Z) : Prop :=
  0 ≤ table ∧ table + 8 * index + 8 ≤ mem_size m ∧
  load 8 m (mem_base m + table + 8 * index) = Ret e.

Definition level_bits (l : nat) : Z := 12 + 9 * Z.of_nat l.

(** Bits 51:k of an entry, as an address. *)
Definition frame (k e : Z) : Z := (e mod 2 ^ 52 / 2 ^ k) * 2 ^ k.

Inductive x86_walk (m : mem) : nat → Z → Z → list Z → Z → Prop :=
| walk_pte table va e :
    phys_entry m table (va / 2 ^ 12 mod 512) e →
    Z.testbit e 0 = true →
    x86_walk m 0 table va [e] (frame 12 e + va mod 2 ^ 12)
| walk_large l table va e :
    phys_entry m table (va / 2 ^ level_bits l mod 512) e →
    Z.testbit e 0 = true → Z.testbit e 7 = true → (l = 1 ∨ l = 2)%nat →
    x86_walk m l table va [e] (frame (level_bits l) e + va mod 2 ^ level_bits l)
| walk_table l table va e path pa :
    phys_entry m table (va / 2 ^ level_bits (S l) mod 512) e →
    Z.testbit e 0 = true → Z.testbit e 7 = false →
    x86_walk m l (frame 12 e) va path pa →
    x86_walk m (S l) table va (e :: path) pa.

(** Software leaves the ignored bits 62:52 of its entries clear. *)
Definition ignored_clear (e : Z) : Prop := e mod 2 ^ 63 < 2 ^ 52.

(** ** Bit expressions of the walk *)

Lemma entry_mask raw :
  fits 64 raw → Z.land raw (unot 64 EXECUTE_DISABLE) = raw mod 2 ^ 63.
Proof.
  intros Hr. apply Z.bits_inj'. intros i Hi.
  rewrite Z.land_spec, testbit_unot64, testbit_execute_disable by done.
  rewrite Z.testbit_mod_pow2 by lia.
  destruct (Z.ltb_spec i 63), (Z.ltb_spec i 64), (Z.eqb_spec 63 i); try lia;
    cbn [negb andb]; rewrite ?andb_true_r, ?andb_false_r; try done.
Qed.

Lemma huge_test e : (Z.land e HUGE_PAGE =? 0) = negb (Z.testbit e 7).
Proof. apply (flag_test e 7). lia. Qed.

Lemma page_index addr k :
  0 ≤ k → Z.land (Z.shiftr addr k) (Z.shiftl 1 PAGE_MAP_BITS - 1) = addr / 2 ^ k mod 512.
Proof.
  intros. change (Z.shiftl 1 PAGE_MAP_BITS - 1) with (Z.ones 9).
  rewrite Z.land_ones, Z.shiftr_div_pow2 by lia. done.
Qed.

Lemma page_compose e addr k :
  0 ≤ k ≤ 64 → fits 64 e → fits 64 addr →
  Z.lor (Z.land e (ushl 64 (unot 64 0) k)) (Z.land addr (unot 64 (ushl 64 (unot 64 0) k)))
  = (e - e mod 2 ^ k) + addr mod 2 ^ k.
Proof.
  intros. rewrite ushl_unot_0, unot_unot by (lia || by apply ones_fits).
  rewrite align_mask, Z.land_ones by (done || lia).
  apply (lor_add _ _ k); [lia|apply Z.mod_pos_bound; lia|].
  rewrite Zminus_mod_idemp_r, Z.sub_diag. done.
Qed.

Lemma table_mask e :
  fits 64 e → Z.land e (unot 64 (Z.shiftl 1 PAGE_BITS - 1)) = e - e mod 2 ^ 12.
Proof. intros. apply (align_mask 64 e 12); done || lia. Qed.

Lemma frame_sub k e : 0 ≤ k → frame k e = e mod 2 ^ 52 - (e mod 2 ^ 52) mod 2 ^ k.
Proof.
  intros. unfold frame. pose proof (Z.div_mod (e mod 2 ^ 52) (2 ^ k)). lia.
Qed.

Lemma ignored_clear_mod e : ignored_clear e → e mod 2 ^ 63 = e mod 2 ^ 52.
Proof.
  unfold ignored_clear. intros. pose proof (Z.mod_pos_bound e (2 ^ 63)).
  rewrite <- (Z.mod_small (e mod 2 ^ 63) (2 ^ 52)) by lia.
  apply Z.mod_mod_divide. by exists (2 ^ 11).
Qed.

Lemma testbit_low e k i : 0 ≤ i < k → Z.testbit (e mod 2 ^ k) i = Z.testbit e i.
Proof.
  intros. rewrite Z.testbit_mod_pow2 by lia. by rewrite (proj2 (Z.ltb_lt i k)) by lia.
Qed.

(** One step of the loop, in arithmetic terms. *)
Lemma walk_S `{Profile} m n addr table k entry e :
  mem_wf m → fits 64 addr → 0 ≤ k ≤ 64 → ignored_clear e →
  load 8 m (mem_base m + table + 8 * (addr / 2 ^ k mod 512)) = Ret e →
  walk m (mem_base m) (S n) addr (mem_base m + table) k entry =
    if Z.testbit e 7 then Ret (frame k e + addr mod 2 ^ k)
    else walk m (mem_base m) n addr (mem_base m + frame 12 e) (k - 9) (e mod 2 ^ 52).
Proof.
  intros Hm Ha Hk Hign Hl. assert (He : fits 64 e) by exact (load_fits 8 m _ e Hm Hl).
  pose proof (Z.mod_pos_bound e (2 ^ 52)). pose proof (wf_base m Hm).
  pose proof (wf_size m Hm). pose proof (wf_end m Hm).
  assert (He52 : fits 64 (e mod 2 ^ 52)) by (unfold fits; lia).
  cbn [walk]. rewrite page_index, Hl by lia. cbn [mbind exec_bind].
  rewrite entry_mask, ignored_clear_mod, huge_test, testbit_low by (done || lia).
  rewrite negb_involutive. destruct (Z.testbit e 7).
  - rewrite page_compose, <- frame_sub by (done || lia). done.
  - rewrite table_mask, <- frame_sub by (done || lia). unfold host_address.
    pose proof (frame_sub 12 e). pose proof (Z.mod_pos_bound (e mod 2 ^ 52) (2 ^ 12)).
    pose proof (Z.mod_le (e mod 2 ^ 52) (2 ^ 12)).
    arith_ok. by rewrite Z.add_comm.
Qed.

Lemma walk_0 `{Profile} m vm_start addr table k e :
  fits 64 addr →
  walk m vm_start 0 addr table k (e mod 2 ^ 52) = Ret (frame 12 e + addr mod 2 ^ 12).
Proof.
  intros. pose proof (Z.mod_pos_bound e (2 ^ 52)). cbn [walk].
  rewrite page_compose, <- frame_sub by (done || lia || (unfold fits; lia)). done.
Qed.

Lemma walk_refines `{Profile} m l table va path pa :
  mem_wf m → fits 64 va → x86_walk m l table va path pa → (l ≤ 3)%nat →
  Forall ignored_clear path → ∀ entry,
  walk m (mem_base m) (S l) va (mem_base m + table) (level_bits l) entry = Ret pa.
Proof.
  intros Hm Hva Hw. induction Hw as [table va e (?&?&Hl) Hp
    |l table va e (?&?&Hl) Hp Hps Hll|l table va e path pa (?&?&Hl) Hp Hps Hw IH];
    intros Hl3 [Hi Hrest]%Forall_cons entry.
  - rewrite (walk_S m 0 va table _ _ e) by (done || (unfold level_bits; lia)).
    destruct (Z.testbit e 7); [done|]. by apply walk_0.
  - rewrite (walk_S m l va table _ _ e) by (done || (unfold level_bits; lia)).
    by rewrite Hps.
  - rewrite (walk_S m (S l) va table _ _ e) by (done || (unfold level_bits; lia)).
    rewrite Hps. replace (level_bits (S l) - 9) with (level_bits l) by (unfold level_bits; lia).
    apply IH; [done|lia|done].
Qed.

(** C5: [virt_to_phys] implements the processor's page walk: whenever the
    four-level walk from the boot PML4 translates a guest virtual address, with
    4 KiB, 2 MiB or 1 GiB pages, [virt_to_phys] returns the same guest physical
    address, in both build profiles, provided the entries on the path leave the
    ignored bits 62:52 clear. *)
Theorem virt_to_phys_refines_x86 `{Profile} m va path pa :
  mem_wf m → fits 64 va → x86_walk m 3 BOOT_PML4 va path pa →
  Forall ignored_clear path →
  virt_to_phys m (mem_base m) va = Ret pa.
Proof.
  intros Hm Hva Hw Hi. unfold virt_to_phys, host_address.
  pose proof (wf_base m Hm). pose proof (wf_size m Hm). pose proof (wf_end m Hm).
  rewrite arith_fits by (unfold fits, BOOT_PML4; lia). cbn [mbind exec_bind].
  rewrite (Z.add_comm BOOT_PML4). by apply (walk_refines m 3 BOOT_PML4 va path pa).
Qed.

(** Inside a page, addresses and their translations advance together. *)
Lemma page_offset addr j k :
  0 ≤ j → addr mod 2 ^ 12 + j < 2 ^ 12 → 12 ≤ k →
  (addr + j) / 2 ^ k = addr / 2 ^ k ∧ (addr + j) mod 2 ^ k = addr mod 2 ^ k + j.
Proof.
  intros Hj Hpage Hk.
  assert (addr mod 2 ^ k + j < 2 ^ k) as Hlt.
  { replace k with (12 + (k - 12)) by lia. rewrite Z.pow_add_r, Z.rem_mul_r by lia.
    pose proof (Z.mod_pos_bound (addr / 2 ^ 12) (2 ^ (k - 12)) ltac:(lia)). nia. }
  pose proof (Z.div_mod addr (2 ^ k) ltac:(lia)). pose proof (Z.mod_pos_bound addr (2 ^ k) ltac:(lia)).
  split; symmetry; [apply (Z.div_unique_pos _ _ _ (addr mod 2 ^ k + j))|
    apply (Z.mod_unique_pos _ _ (addr / 2 ^ k))]; lia.
Qed.

Lemma walk_page `{Profile} m vm_start n addr j table entry pa :
  mem_wf m → fits 64 addr → fits 64 entry → 0 ≤ j → addr mod 2 ^ 12 + j < 2 ^ 12 → (n ≤ 4)%nat →
  walk m vm_start n addr table (3 + 9 * Z.of_nat n) entry = Ret pa →
  walk m vm_start n (addr + j) table (3 + 9 * Z.of_nat n) entry = Ret (pa + j).
Proof.
  intros Hm Ha He Hj Hpage. assert (fits 64 (addr + j)) as Haj.
  { unfold fits in *. destruct (page_offset addr j 64 Hj Hpage ltac:(lia)) as [_ Hmod].
    rewrite (Z.mod_small addr) in Hmod by lia. rewrite <- Hmod. apply Z.mod_pos_bound. lia. }
  assert (∀ e k, fits 64 e → 12 ≤ k ≤ 64 →
    Z.lor (Z.land e (ushl 64 (unot 64 0) k)) (Z.land addr (unot 64 (ushl 64 (unot 64 0) k))) + j =
    Z.lor (Z.land e (ushl 64 (unot 64 0) k)) (Z.land (addr + j) (unot 64 (ushl 64 (unot 64 0) k))))
    as Hcompose.
  { intros e k Hfe Hk. rewrite !page_compose by (done || lia).
    destruct (page_offset addr j k Hj Hpage ltac:(lia)) as [_ ->]. lia. }
  revert table entry He. induction n as [|n IH]; intros table entry He Hn Hw; cbn [walk] in *.
  { injection Hw as <-. f_equal. symmetry. apply Hcompose; [done|unfold PAGE_BITS; lia]. }
  assert (12 ≤ 3 + 9 * Z.of_nat (S n) ≤ 64) as Hk by lia.
  rewrite page_index in Hw |- * by lia.
  destruct (page_offset addr j _ Hj Hpage (proj1 Hk)) as [-> _]. exec_inv.
  match goal with Hl : load 8 m _ = Ret ?raw |- _ =>
    pose proof (load_fits 8 m _ raw Hm Hl) as Hraw; rewrite Hl; cbn [mbind exec_bind] end.
  change (8 * Z.of_nat 8) with 64 in Hraw. rewrite entry_mask in Hw |- * by done.
  assert (fits 64 (x mod 2 ^ 63)) as Hx by (unfold fits; pose proof (Z.mod_pos_bound x (2 ^ 63)); lia).
  destruct (negb _).
  - injection Hw as <-. f_equal. symmetry. by apply Hcompose.
  - exec_inv. match goal with Hh : host_address _ _ = Ret _ |- _ => rewrite Hh end. cbn [mbind exec_bind].
    unfold PAGE_MAP_BITS in *. replace (3 + 9 * Z.of_nat (S n) - 9) with (3 + 9 * Z.of_nat n) in * by lia.
    by apply IH; [|lia|].
Qed.

Lemma virt_to_phys_page `{Profile} m va j pa :
  mem_wf m → fits 64 va → 0 ≤ j → va mod 2 ^ 12 + j < 2 ^ 12 →
  virt_to_phys m (mem_base m) va = Ret pa → virt_to_phys m (mem_base m) (va + j) = Ret (pa + j).
Proof.
  intros Hm Hva Hj Hpage Hv. unfold virt_to_phys in *. exec_inv.
  match goal with Hh : host_address _ _ = Ret _ |- _ => rewrite Hh end. cbn [mbind exec_bind].
  by apply (walk_page m _ 4 va j).
Qed.

(** ** GDT descriptors *)

(** The fields of a segment descriptor, as the processor reads them. *)
Definition gdt_base (e : Z) : Z :=
  Z.lor (Z.land (Z.shiftr e 16) (Z.ones 24)) (Z.shiftl (Z.land (Z.shiftr e 56) (Z.ones 8)) 24).
Definition gdt_limit (e : Z) : Z :=
  Z.lor (Z.land e (Z.ones 16)) (Z.shiftl (Z.land (Z.shiftr e 48) (Z.ones 4)) 16).
Definition gdt_flags (e : Z) : Z := Z.land (Z.shiftr e 40) 0xf0ff.

Lemma create_gdt_entry_bits flags base limit :
  create_gdt_entry flags base limit =
  Z.lor (ushl 64 (Z.land base (Z.shiftl (Z.ones 8) 24)) 32)
  (Z.lor (ushl 64 (Z.land flags (Z.lor (Z.ones 8) (Z.shiftl (Z.ones 4) 12))) 40)
  (Z.lor (ushl 64 (Z.land limit (Z.shiftl (Z.ones 4) 16)) 32)
  (Z.lor (ushl 64 (Z.land base (Z.ones 24)) 16) (Z.land limit (Z.ones 16))))).
Proof. done. Qed.

(** A descriptor built by [create_gdt_entry] carries the base, the limit
    and the flag bits it was built from, whatever their values: the fields do
    not overlap. *)
Lemma create_gdt_entry_fields flags base limit :
  fits 32 base → fits 20 limit →
  gdt_base (create_gdt_entry flags base limit) = base ∧
  gdt_limit (create_gdt_entry flags base limit) = limit ∧
  gdt_flags (create_gdt_entry flags base limit) = Z.land flags 0xf0ff.
Proof.
  intros Hb Hl. unfold gdt_base, gdt_limit, gdt_flags.
  change 0xf0ff with (Z.lor (Z.ones 8) (Z.shiftl (Z.ones 4) 12)).
  assert (Hhigh : ∀ n x y i, fits n x → 0 ≤ n → n ≤ i → Z.testbit y i = false →
    Z.testbit y i = Z.testbit x i).
  { intros n x y i Hx ?? ->. symmetry. by apply (testbit_fits n). }
  split_and!.
  - apply (bits_enum 32).
    + rewrite create_gdt_entry_bits. unfold ushl. repeat constructor; bits_at.
    + intros i ??. apply (Hhigh 32); [done..|lia|done|]. bits_step.
  - apply (bits_enum 20).
    + rewrite create_gdt_entry_bits. unfold ushl. repeat constructor; bits_at.
    + intros i ??. apply (Hhigh 20); [done..|lia|done|]. bits_step.
  - apply (bits_enum 16).
    + rewrite create_gdt_entry_bits. unfold ushl. repeat constructor; bits_at.
    + intros i ??. bits_step.
Qed.

(** ** The boot tables in memory *)

(** What the three tables hold once they are initialised. *)
Record boot_tables (m : mem) : Prop := {
  boot_pml4_0 : load 8 m (mem_base m + BOOT_PML4) = Ret 0x11003;
  boot_pml4_511 : load 8 m (mem_base m + BOOT_PML4 + 8 * 511) = Ret 0x10003;
  boot_pdpte_0 : load 8 m (mem_base m + BOOT_PDPTE) = Ret 0x12003;
  boot_pde i : 0 ≤ i < 512 →
    load 8 m (mem_base m + BOOT_PDE + 8 * i) = Ret (i * 0x200000 + 0x83);
}.

(** The bytes [init_guest_mem] writes, as offsets in guest memory. *)
Definition boot_written (o : Z) : Prop :=
  0x1000 ≤ o < 0x1018 ∨ 0x10000 ≤ o < 0x10008 ∨ 0x10ff8 ≤ o < 0x11000 ∨
  0x11000 ≤ o < 0x11008 ∨ 0x12000 ≤ o < 0x13000.

Lemma set_entry_valid m table i pa fl :
  pa mod (if contains fl HUGE_PAGE then SIZE LargePageSize else SIZE BasePageSize) = 0 →
  valid m (table + 8 * i) 8 →
  set_entry m table i pa fl =
    Ret (write_bytes m (table + 8 * i) (le_split 8 (Z.lor pa (Z.lor PRESENT fl)))).
Proof.
  intros Hal Hv. unfold set_entry, PageTableEntry.set, rust_assert.
  destruct (contains fl HUGE_PAGE); rewrite (proj2 (Z.eqb_eq _ 0)) by done;
    cbn [mbind exec_bind]; by apply store_valid.
Qed.

Lemma pde_entry i : 0 ≤ i < 512 →
  Z.lor (i * 0x200000) (Z.lor PRESENT (Z.lor PRESENT (Z.lor WRITABLE HUGE_PAGE)))
  = i * 0x200000 + 0x83.
Proof.
  intros. apply (lor_add _ _ 21); [lia|by split|]. apply Z.mod_mul. lia.
Qed.

(** The loop over the page directory. *)
Lemma pde_loop `{Profile} m0 pde :
  valid m0 pde 4096 →
  ∃ m', for_each (λ i m,
      pa ← arith 64 (i * SIZE LargePageSize);
      set_entry m pde i pa (Z.lor PRESENT (Z.lor WRITABLE HUGE_PAGE)))
      (seqZ 0 512) m0 = Ret m' ∧
    mem_base m' = mem_base m0 ∧ mem_size m' = mem_size m0 ∧
    (∀ i, 0 ≤ i < 512 → load 8 m' (pde + 8 * i) = Ret (i * 0x200000 + 0x83)) ∧
    (∀ a, ¬ (pde ≤ a < pde + 4096) → peek m' a = peek m0 a) ∧
    (mem_wf m0 → mem_wf m').
Proof.
  intros Hv. unshelve epose proof (for_each_inv (λ pre m',
    mem_base m' = mem_base m0 ∧ mem_size m' = mem_size m0 ∧
    (∀ i, 0 ≤ i < Z.of_nat (length pre) →
       load 8 m' (pde + 8 * i) = Ret (i * 0x200000 + 0x83)) ∧
    (∀ a, ¬ (pde ≤ a < pde + 4096) → peek m' a = peek m0 a) ∧
    (mem_wf m0 → mem_wf m')) _ (seqZ 0 512) m0 _ _) as Hloop; cycle -1.
  { exact Hloop. }
  { split_and!; [done..|cbn; lia|done|done]. }
  intros pre a post m Hl (Hb & Hs & Hload & Hout & Hwf).
  assert (a = Z.of_nat (length pre) ∧ 0 ≤ a < 512) as [Ha Hr].
  { assert (seqZ 0 512 !! length pre = Some a) as [-> ?]%lookup_seqZ; [|lia].
    by rewrite Hl, list_lookup_middle. }
  assert (valid m (pde + 8 * a) 8).
  { unfold valid in *. rewrite Hb, Hs. lia. }
  rewrite arith_fits by (unfold fits; cbn -[Z.mul]; lia). cbn [mbind exec_bind].
  rewrite set_entry_valid; [|by apply Z.mod_mul|done].
  eexists; split; [done|]. rewrite length_app. cbn [length].
  change (SIZE LargePageSize) with 0x200000. rewrite pde_entry by done.
  split_and!; [done..| | |].
  - intros i Hi. destruct (decide (i = a)) as [->|].
    + rewrite load_write_same by done. f_equal. apply wrap_fits. unfold fits. lia.
    + rewrite load_write_disjoint by (rewrite length_le_split; lia). apply Hload. lia.
  - intros x Hx. rewrite peek_write_out by (rewrite length_le_split; lia). by apply Hout.
  - intros ?. apply mem_wf_write; auto with uhyve.
Qed.

Lemma init_guest_mem_spec `{Profile} m :
  mem_wf m → 0x13000 ≤ mem_size m →
  ∃ m', init_guest_mem m = Ret m' ∧ mem_wf m' ∧
    mem_base m' = mem_base m ∧ mem_size m' = mem_size m ∧ boot_tables m' ∧
    load 8 m' (mem_base m + BOOT_GDT) = Ret 0 ∧
    load 8 m' (mem_base m + BOOT_GDT + 8) = Ret 0xAF9B000000FFFF ∧
    load 8 m' (mem_base m + BOOT_GDT + 16) = Ret 0xCF93000000FFFF ∧
    (∀ o, ¬ boot_written o → peek m' (mem_base m + o) = peek m (mem_base m + o)).
Proof.
  intros Hm Hsz. pose proof (wf_base m Hm). pose proof (wf_end m Hm).
  unfold init_guest_mem, BOOT_PML4, BOOT_PDPTE, BOOT_PDE, BOOT_GDT in *.
  arith_ok. do 3 (rewrite store_valid by mem_valid; cbn [mbind exec_bind]; arith_ok).
  do 3 (rewrite set_entry_valid; [|done|mem_valid]; cbn [mbind exec_bind]).
  match goal with |- context [for_each _ _ ?m6] => set (m0 := m6) end.
  destruct (pde_loop m0 (mem_base m + 0x12000)) as (m' & -> & Hb & Hs & Hpde & Hout & Hwf).
  { unfold m0. mem_valid. }
  change (mem_base m0) with (mem_base m) in *. change (mem_size m0) with (mem_size m) in *.
  assert (Hload : ∀ o, 0 ≤ o ≤ 0x11ff8 →
    load 8 m' (mem_base m + o) = load 8 m0 (mem_base m + o)).
  { intros. apply load_ext; [done..|]. intros. apply Hout. lia. }
  exists m'. split_and!; [done| |done|done| | | | |].
  - apply Hwf. unfold m0. auto 10 with uhyve.
  - split; rewrite ?Hb; [..|done]; unfold BOOT_PML4, BOOT_PDPTE;
      rewrite <- ?Z.add_assoc; rewrite Hload by lia; unfold m0; by mem_load.
  - rewrite Hload by lia. unfold m0. by mem_load.
  - rewrite <- Z.add_assoc, Hload by lia. unfold m0. by mem_load.
  - rewrite <- Z.add_assoc, Hload by lia. unfold m0. by mem_load.
  - intros o Ho. unfold boot_written in Ho. rewrite Hout by lia. unfold m0.
    by rewrite !peek_write_out by (rewrite length_le_split; lia).
Qed.

(** ** Translation through the boot tables *)

Lemma pde_bits i k :
  0 ≤ k < 21 → Z.testbit (i * 0x200000 + 0x83) k = Z.testbit 0x83 k.
Proof.
  intros. rewrite <- (testbit_low _ 21) by done.
  by rewrite Z.add_comm, Z.mod_add by lia.
Qed.

Lemma pde_frame i : 0 ≤ i < 512 → frame 21 (i * 0x200000 + 0x83) = i * 0x200000.
Proof.
  intros. unfold frame. rewrite (Z.mod_small _ (2 ^ 52)) by lia.
  change (2 ^ 21) with 0x200000. rewrite Z.div_add_l, (Z.div_small 0x83) by lia. lia.
Qed.

(** The processor maps the first GiB onto itself with 2 MiB pages. *)
Lemma boot_walk m va :
  boot_tables m → 0x13000 ≤ mem_size m → 0 ≤ va < 2 ^ 30 →
  x86_walk m 3 BOOT_PML4 va [0x11003; 0x12003; va / 2 ^ 21 * 0x200000 + 0x83] va.
Proof.
  intros [Hpml4 _ Hpdpte Hpde] Hsz Hva.
  assert (Hi : 0 ≤ va / 2 ^ 21 < 512).
  { split; [apply Z.div_pos; lia|apply Z.div_lt_upper_bound; lia]. }
  unfold BOOT_PML4, BOOT_PDPTE, BOOT_PDE in *.
  apply walk_table; [|done..|].
  { change (2 ^ level_bits 3) with (2 ^ 39). rewrite (Z.div_small va) by lia.
    unfold phys_entry.
    rewrite Z.mod_0_l, Z.mul_0_r, !Z.add_0_r by lia. split_and!; done || lia. }
  apply walk_table; [|done..|].
  { change (2 ^ level_bits 2) with (2 ^ 30). rewrite (Z.div_small va) by lia.
    unfold phys_entry.
    rewrite Z.mod_0_l, Z.mul_0_r, !Z.add_0_r by lia.
    change (frame 12 0x11003) with 0x11000. split_and!; done || lia. }
  replace va with (frame (level_bits 1) (va / 2 ^ 21 * 0x200000 + 0x83)
    + va mod 2 ^ level_bits 1) at 3.
  - apply walk_large; [|by rewrite pde_bits by lia..|by left].
    change (2 ^ level_bits 1) with (2 ^ 21). rewrite (Z.mod_small (va / 2 ^ 21)) by done.
    change (frame 12 0x12003) with 0x12000. unfold phys_entry.
    split_and!; [lia..|]. by apply Hpde.
  - change (level_bits 1) with 21. rewrite pde_frame by done.
    pose proof (Z.div_mod va (2 ^ 21)). lia.
Qed.

Lemma boot_virt_to_phys `{Profile} m va :
  mem_wf m → boot_tables m → 0x13000 ≤ mem_size m → 0 ≤ va < 2 ^ 30 →
  virt_to_phys m (mem_base m) va = Ret va.
Proof.
  intros Hm Hb Hsz Hva. pose proof (boot_walk m va Hb Hsz Hva) as Hw.
  unfold virt_to_phys, host_address.
  pose proof (wf_base m Hm). pose proof (wf_end m Hm).
  rewrite arith_fits by (unfold fits, BOOT_PML4; lia). cbn [mbind exec_bind].
  rewrite Z.add_comm. eapply (walk_refines m 3 BOOT_PML4 va _ va Hm) in Hw; [exact Hw| |lia|].
  - unfold fits. lia.
  - assert (0 ≤ va / 2 ^ 21 < 512).
    { split; [apply Z.div_pos; lia|apply Z.div_lt_upper_bound; lia]. }
    repeat constructor; unfold ignored_clear. rewrite Z.mod_small; lia.
Qed.

(** ** Totality on fresh memory *)

Definition fresh (m : mem) : Prop := ∀ a, peek m a = 0.

(** The tables a walk from the boot PML4 can reach: an absent entry is zero,
    and the code, which does not test PRESENT, goes on at physical page 0. *)
Definition reachable_table (t : Z) : Prop := t ∈ [0; BOOT_PML4; BOOT_PDPTE; BOOT_PDE].

Lemma fresh_entry `{Profile} m m' t i :
  mem_wf m → 0x13000 ≤ mem_size m → fresh m → init_guest_mem m = Ret m' →
  reachable_table t → 0 ≤ i < 512 →
  ∃ e, load 8 m' (mem_base m' + t + 8 * i) = Ret e ∧ ignored_clear e ∧
       (Z.testbit e 7 = true ∨ reachable_table (frame 12 e)).
Proof.
  intros Hm Hsz Hfr Hinit Ht Hi.
  destruct (init_guest_mem_spec m Hm Hsz)
    as (m1 & Hinit' & Hwf & Hb & Hs & [H0 H511 Hp Hd] & _ & _ & _ & Hout).
  rewrite Hinit in Hinit'. injection Hinit' as <-.
  assert (Hz : ∀ o, 0 ≤ o ≤ 0x12ff8 → (∀ x, o ≤ x < o + 8 → ¬ boot_written x) →
    load 8 m' (mem_base m' + o) = Ret 0).
  { intros o Ho Hw. apply load_zero; [right; lia|]. intros x Hx.
    replace x with (mem_base m + (x - mem_base m)) by lia.
    rewrite Hout; [apply Hfr|]. apply Hw. lia. }
  assert (Hnext : ∀ e, load 8 m' (mem_base m' + t + 8 * i) = Ret e →
    e = 0 ∨ e = 0x11003 ∨ e = 0x10003 ∨ e = 0x12003 →
    ∃ e, load 8 m' (mem_base m' + t + 8 * i) = Ret e ∧ ignored_clear e ∧
       (Z.testbit e 7 = true ∨ reachable_table (frame 12 e))).
  { intros e -> He. exists e. unfold reachable_table.
    split; [done|]. destruct He as [->|[->|[->| ->]]];
      (split; [done|right; eapply bool_decide_unpack; by vm_compute]). }
  unfold reachable_table, BOOT_PML4, BOOT_PDPTE, BOOT_PDE in *. set_unfold in Ht.
  rewrite <- ?Z.add_assoc in *. destruct Ht as [->|[->|[->|[->|[]]]]].
  - apply (Hnext 0); [|tauto]. apply Hz; [lia|]. unfold boot_written. lia.
  - destruct (decide (i = 0)) as [->|]; [apply (Hnext 0x11003); tauto|].
    destruct (decide (i = 511)) as [->|]; [apply (Hnext 0x10003); tauto|].
    apply (Hnext 0); [|tauto]. apply Hz; [lia|]. unfold boot_written. lia.
  - destruct (decide (i = 0)) as [->|]; [apply (Hnext 0x12003); tauto|].
    apply (Hnext 0); [|tauto]. apply Hz; [lia|]. unfold boot_written. lia.
  - exists (i * 0x200000 + 0x83). split; [rewrite Z.add_assoc; by apply Hd|].
    split; [unfold ignored_clear; rewrite Z.mod_small; lia|]. left. by rewrite pde_bits.
Qed.

Lemma fresh_walk `{Profile} m m' n t va k e :
  mem_wf m → 0x13000 ≤ mem_size m → fresh m → init_guest_mem m = Ret m' →
  reachable_table t → fits 64 va → 9 * Z.of_nat n ≤ k + 9 ≤ 64 →
  ∃ pa, walk m' (mem_base m') n va (mem_base m' + t) k e = Ret pa.
Proof.
  intros Hm Hsz Hfr Hinit Ht Hva. revert t k e Ht.
  assert (Hm' : mem_wf m').
  { destruct (init_guest_mem_spec m Hm Hsz) as (m1 & Hi & ? & _).
    rewrite Hinit in Hi. by injection Hi as ->. }
  induction n as [|n IH]; intros t k e Ht Hk; [by eexists|].
  destruct (fresh_entry m m' t (va / 2 ^ k mod 512))
    as (e' & Hl & Hign & Hcase); try done.
  { apply Z.mod_pos_bound. lia. }
  rewrite (walk_S m' n va t k e e') by (done || lia).
  destruct (Z.testbit e' 7); [by eexists|]. destruct Hcase as [|Hr]; [done|].
  apply IH; [done|lia].
Qed.

(** C10: On freshly mapped memory of at least 0x13000 bytes [init_guest_mem]
    neither panics nor faults; it writes the boot GDT (null, 64-bit code, data)
    and the boot page tables, changes no other byte, and afterwards both the
    processor's walk and [virt_to_phys] map every address below 1 GiB to
    itself. *)
Theorem init_guest_mem_correct `{Profile} m :
  mem_wf m → 0x13000 ≤ mem_size m →
  ∃ m', init_guest_mem m = Ret m' ∧
    load 8 m' (mem_base m + BOOT_GDT) = Ret (create_gdt_entry 0 0 0) ∧
    load 8 m' (mem_base m + BOOT_GDT + 8) = Ret (create_gdt_entry 0xA09B 0 0xFFFFF) ∧
    load 8 m' (mem_base m + BOOT_GDT + 16) = Ret (create_gdt_entry 0xC093 0 0xFFFFF) ∧
    (∀ o, ¬ boot_written o → peek m' (mem_base m + o) = peek m (mem_base m + o)) ∧
    ∀ va, 0 ≤ va < 2 ^ 30 →
      (∃ path, x86_walk m' 3 BOOT_PML4 va path va) ∧
      virt_to_phys m' (mem_base m) va = Ret va.
Proof.
  intros Hm Hsz.
  destruct (init_guest_mem_spec m Hm Hsz)
    as (m' & Hi & Hwf & Hb & Hs & Hbt & ? & ? & ? & Hout).
  exists m'. split_and!; [done..|]. intros va Hva. split.
  - eexists. apply boot_walk; [done|lia|done].
  - rewrite <- Hb. apply boot_virt_to_phys; done || lia.
Qed.

Lemma init_guest_mem_correct_witness :
  let m := Mem 0x7f0000000000 0x1000000 ∅ in
  ∃ m', init_guest_mem (H := debug_profile) m = Ret m' ∧
        virt_to_phys (H := debug_profile) m' (mem_base m) 0x801234 = Ret 0x801234.
Proof.
  intros m. destruct (init_guest_mem_correct (H := debug_profile) m)
    as (m' & Hi & _ & _ & _ & _ & Hva).
  - split; cbn; done || (intros; by split).
  - done.
  - exists m'. assert (Hr : 0 ≤ 0x801234 < 2 ^ 30) by lia.
    destruct (Hva _ Hr) as [_ Hv]. exact (conj Hi Hv).
Defined.

Lemma virt_to_phys_refines_x86_witness :
  ∃ m, virt_to_phys (H := release_profile) m (mem_base m) 0x3fffffff = Ret 0x3fffffff.
Proof.
  pose (m := Mem 0x7f0000000000 0x1000000 ∅).
  assert (Hwf : mem_wf m) by (split; cbn; done || (intros; by split)).
  destruct (init_guest_mem_spec (H := release_profile) m Hwf)
    as (m' & _ & Hwf' & _ & Hs & Hbt & _); [done|]. exists m'.
  apply (virt_to_phys_refines_x86 m' 0x3fffffff
    [0x11003; 0x12003; 0x3fffffff / 2 ^ 21 * 0x200000 + 0x83]); [done|done| |].
  - apply boot_walk; [done|rewrite Hs; done|done].
  - by repeat constructor.
Defined.

(** C35: On the boot page tables [virt_to_phys] returns for every 64-bit address
    whatsoever, in both build profiles: absent entries lead it through page 0
    and back to a table, never outside guest memory. *)
Theorem virt_to_phys_total_at_boot `{Profile} m m' va :
  mem_wf m → 0x13000 ≤ mem_size m → fresh m → init_guest_mem m = Ret m' →
  fits 64 va → ∃ pa, virt_to_phys m' (mem_base m') va = Ret pa.
Proof.
  intros Hm Hsz Hfr Hi Hva. unfold virt_to_phys, host_address.
  destruct (init_guest_mem_spec m Hm Hsz) as (m1 & Hi' & Hwf & Hb & Hs & _).
  rewrite Hi in Hi'. injection Hi' as <-.
  pose proof (wf_base _ Hwf). pose proof (wf_end _ Hwf).
  rewrite arith_fits by (unfold fits, BOOT_PML4; lia). cbn [mbind exec_bind].
  rewrite Z.add_comm. apply (fresh_walk m m'); try done.
  unfold reachable_table. set_solver.
Qed.

Lemma virt_to_phys_total_at_boot_witness :
  let m := Mem 0x7f0000000000 0x1000000 ∅ in
  ∃ m' pa, init_guest_mem (H := release_profile) m = Ret m' ∧
           virt_to_phys (H := release_profile) m' (mem_base m') 0xffff800000001234 = Ret pa.
Proof.
  intros m. assert (Hwf : mem_wf m) by (split; cbn; done || (intros; by split)).
  destruct (init_guest_mem_spec (H := release_profile) m Hwf) as (m' & Hi & _); [done|].
  assert (Hva : fits 64 0xffff800000001234) by (unfold fits; lia).
  destruct (virt_to_phys_total_at_boot (H := release_profile) m m' _ Hwf
    ltac:(cbn; lia) (λ a, eq_refl) Hi Hva) as [pa Hpa].
  exact (ex_intro _ m' (ex_intro _ pa (conj Hi Hpa))).
Defined.
