(* ===== verification/Hypercalls.v ===== *)
(** * Hypercalls: the default methods of [VirtualCPU] (src/vm.rs)

    The guest passes the guest-physical address of a packed argument structure;
    the handler receives its host address, [args_ptr].  The host's C library is
    a parameter ([HostOS]) over an abstract world [W]: the handlers are
    functions on the pair of guest memory and world.  A pointer handed to the
    library designates the bytes it reads or writes; bytes outside the guest's
    mapping are a [Fault]. *)

From S2P Require Import Prelude Memory Consts Paging AddressSpace.

(** ** The C library *)

Class HostOS (W : Type) := {
  (** [open(path, flags, mode)]: the descriptor, or -1. *)
  os_open : W → list Z → Z → Z → W * Z;
  os_close : W → Z → W * Z;
  (** [read(fd, buf, count)]: the return value and the bytes put in [buf]. *)
  os_read : W → Z → Z → W * Z * list Z;
  (** [write(fd, buf, count)] with the [count] bytes of [buf]. *)
  os_write : W → Z → list Z → W * Z;
  os_lseek : W → Z → Z → Z → W * Z;
  os_unlink : W → list Z → W * Z;
  (** [io::Error::last_os_error()]. *)
  os_errno : W → Z;
  (** [io::stdout().write_all(buf)]. *)
  os_stdout_write_all : W → list Z → W * result Z unit;
}.

(** What POSIX says of [read] and [write]: on success they transfer at most
    [count] bytes, and [read] fills as many bytes as it returns. *)
Class HostOSLaws W `{HostOS W} : Prop := {
  os_read_spec w fd count w' r data :
    0 ≤ count → os_read w fd count = (w', r, data) →
    (r = -1 ∧ data = []) ∨ (0 ≤ r ≤ count ∧ Z.of_nat (length data) = r);
  os_read_bytes w fd count w' r data :
    os_read w fd count = (w', r, data) → Forall is_byte data;
  os_write_spec w fd data w' r :
    os_write w fd data = (w', r) → r = -1 ∨ 0 ≤ r ≤ Z.of_nat (length data);
}.

(** Guest memory and the outside world. *)
Record host (W : Type) := Host { h_mem : mem; h_os : W }.
Arguments Host {W} _ _.
Arguments h_mem {W} _.
Arguments h_os {W} _.

(** The NUL-terminated string at host address [p], as a C function reads it. *)
Fixpoint c_string_from (m : mem) (p : Z) (fuel : nat) : exec (list Z) :=
  match fuel with
  | O => Fault
  | S fuel' =>
      b ← load 1 m p;
      if b =? 0 then Ret []
      else s ← c_string_from m (p + 1) fuel'; Ret (b :: s)
  end.

(** A string that starts in the mapping ends in it or runs off its end. *)
Definition c_string (m : mem) (p : Z) : exec (list Z) :=
  c_string_from m p (Z.to_nat (mem_size m) + 1).

(** ** Argument structures: offsets of the packed fields *)

Module SysWrite.
Definition fd : Z := 0.
Definition buf : Z := 4.
Definition len : Z := 12.
End SysWrite.

Module SysRead.
Definition fd : Z := 0.
Definition buf : Z := 4.
Definition len : Z := 12.
Definition ret : Z := 20.
End SysRead.

Module SysClose.
Definition fd : Z := 0.
Definition ret : Z := 4.
End SysClose.

Module SysOpen.
Definition name : Z := 0.
Definition flags : Z := 8.
Definition mode : Z := 12.
Definition ret : Z := 16.
End SysOpen.

Module SysLseek.
Definition fd : Z := 0.
Definition offset : Z := 4.
Definition whence : Z := 12.
End SysLseek.

Module SysExit.
Definition arg : Z := 0.
End SysExit.

Module SysUnlink.
Definition name : Z := 0.
Definition ret : Z := 8.
End SysUnlink.

(** Signed 32- and 64-bit fields. *)
Definition load_i32 (m : mem) (a : Z) : exec Z := v ← load 4 m a; Ret (to_signed 32 v).
Definition load_i64 (m : mem) (a : Z) : exec Z := v ← load 8 m a; Ret (to_signed 64 v).

(** ** The handlers *)

Module VirtualCPU.
Section Handlers.
Context `{Profile} {W : Type} `{HostOS W}.
(** The receiver: where the guest's memory starts. *)
Context (vm_start : Z).
Implicit Types h : host W.

Definition unlink (h : host W) (args_ptr : Z) : exec (host W) :=
  name ← load 8 (h_mem h) (args_ptr + SysUnlink.name);
  p ← host_address vm_start name;
  path ← c_string (h_mem h) p;
  let '(w, r) := os_unlink (h_os h) path in
  m ← store 4 (h_mem h) (args_ptr + SysUnlink.ret) r;
  Ret (Host m w).

Definition exit (h : host W) (args_ptr : Z) : exec Z :=
  load_i32 (h_mem h) (args_ptr + SysExit.arg).

Definition open (h : host W) (args_ptr : Z) : exec (host W) :=
  name ← load 8 (h_mem h) (args_ptr + SysOpen.name);
  p ← host_address vm_start name;
  flags ← load_i32 (h_mem h) (args_ptr + SysOpen.flags);
  mode ← load_i32 (h_mem h) (args_ptr + SysOpen.mode);
  path ← c_string (h_mem h) p;
  let '(w, r) := os_open (h_os h) path flags mode in
  m ← store 4 (h_mem h) (args_ptr + SysOpen.ret) r;
  Ret (Host m w).

Definition close (h : host W) (args_ptr : Z) : exec (host W) :=
  fd ← load_i32 (h_mem h) (args_ptr + SysClose.fd);
  let '(w, r) := os_close (h_os h) fd in
  m ← store 4 (h_mem h) (args_ptr + SysClose.ret) r;
  Ret (Host m w).

Definition read (h : host W) (args_ptr : Z) : exec (host W) :=
  buf ← load 8 (h_mem h) (args_ptr + SysRead.buf);
  buffer ← virt_to_phys (h_mem h) vm_start buf;
  fd ← load_i32 (h_mem h) (args_ptr + SysRead.fd);
  p ← host_address vm_start buffer;
  len ← load 8 (h_mem h) (args_ptr + SysRead.len);
  let '(w, bytes_read, data) := os_read (h_os h) fd len in
  m ← store_bytes (h_mem h) p data;
  m ← (if 0 <=? bytes_read then store 8 m (args_ptr + SysRead.ret) bytes_read
       else store 8 m (args_ptr + SysRead.ret) (-1));
  Ret (Host m w).

(** The loop of [write]; [None] when [fuel] iterations were not enough. *)
Fixpoint write_loop (fuel : nat) (m : mem) (w : W) (fd buffer len bytes_written : Z) :
    option (exec (W * result Z unit)) :=
  if bytes_written =? len then Some (Ret (w, Ok ()))
  else match fuel with
  | O => None
  | S fuel' =>
      let iteration :=
        a ← arith 64 (buffer + bytes_written);
        p ← host_address vm_start a;
        n ← arith 64 (len - bytes_written);
        data ← load_bytes m p (Z.to_nat n);
        Ret (os_write w fd data) in
      match iteration with
      | Ret (w, step) =>
          if 0 <=? step then
            match arith 64 (bytes_written + step) with
            | Ret bytes_written => write_loop fuel' m w fd buffer len bytes_written
            | Panic => Some Panic
            | Fault => Some Fault
            end
          else Some (Ret (w, Err (os_errno w)))
      | Panic => Some Panic
      | Fault => Some Fault
      end
  end.

Definition write (fuel : nat) (h : host W) (args_ptr : Z) :
    option (exec (host W * result Z unit)) :=
  let prologue :=
    buf ← load 8 (h_mem h) (args_ptr + SysWrite.buf);
    buffer ← virt_to_phys (h_mem h) vm_start buf;
    fd ← load_i32 (h_mem h) (args_ptr + SysWrite.fd);
    len ← load 8 (h_mem h) (args_ptr + SysWrite.len);
    Ret (fd, buffer, len) in
  match prologue with
  | Ret (fd, buffer, len) =>
      r ← write_loop fuel (h_mem h) (h_os h) fd buffer len 0;
      Some ('(w, res) ← r; Ret (Host (h_mem h) w, res))
  | Panic => Some Panic
  | Fault => Some Fault
  end.

Definition lseek (h : host W) (args_ptr : Z) : exec (host W) :=
  fd ← load_i32 (h_mem h) (args_ptr + SysLseek.fd);
  offset ← load_i64 (h_mem h) (args_ptr + SysLseek.offset);
  whence ← load_i32 (h_mem h) (args_ptr + SysLseek.whence);
  let '(w, r) := os_lseek (h_os h) fd offset whence in
  m ← store 8 (h_mem h) (args_ptr + SysLseek.offset) r;
  Ret (Host m w).

Definition uart (h : host W) (buf : list Z) : host W * result Z unit :=
  let '(w, r) := os_stdout_write_all (h_os h) buf in (Host (h_mem h) w, r).

End Handlers.
End VirtualCPU.

Import VirtualCPU.

(** ** The file-system calls *)

(** What a well-behaved "write everything" does: hand the data to [write] until
    it is accepted, or stop at the first error. *)
Inductive write_all {W} `{HostOS W} (fd : Z) : W → list Z → W → result Z unit → Prop :=
| write_all_done w : write_all fd w [] w (Ok ())
| write_all_step w data w1 k w2 r :
    data ≠ [] → os_write w fd data = (w1, Z.of_nat k) → (k ≤ length data)%nat →
    write_all fd w1 (drop k data) w2 r → write_all fd w data w2 r
| write_all_fail w data w1 k :
    data ≠ [] → os_write w fd data = (w1, k) → k < 0 →
    write_all fd w data w1 (Err (os_errno w1)).

(** A [write] that never accepts nothing: documented for blocking descriptors
    and nonzero counts. *)
Definition write_progress W `{HostOS W} : Prop :=
  ∀ w fd data w' r, data ≠ [] → os_write w fd data = (w', r) → r ≠ 0.

Lemma peeks_drop m a n k :
  (k ≤ n)%nat → drop k (peeks m a n) = peeks m (a + Z.of_nat k) (n - k).
Proof.
  revert a n. induction k as [|k IH]; intros a n Hk.
  { by rewrite Z.add_0_r, Nat.sub_0_r. }
  destruct n as [|n]; [lia|]. cbn [peeks drop]. rewrite IH by lia.
  f_equal; lia.
Qed.

(** However often the host's [write] accepts nothing: a loop that ends has sent
    the buffer or stopped at an error. *)
Lemma write_loop_sound `{Profile} `{HostOSLaws W} vm_start fuel m w fd buffer len bw x :
  0 ≤ vm_start → 0 ≤ buffer → 0 ≤ bw ≤ len → vm_start + buffer + len < 2 ^ 64 →
  valid m (vm_start + buffer) len → write_loop vm_start fuel m w fd buffer len bw = Some x →
  ∃ w' r, x = Ret (w', r) ∧
    write_all fd w (peeks m (vm_start + buffer + bw) (Z.to_nat (len - bw))) w' r.
Proof.
  intros Hvm Hbuf Hbw Hfit Hv. revert w bw Hbw.
  induction fuel as [|fuel IH]; intros w bw Hbw; cbn [write_loop];
    destruct (Z.eqb_spec bw len) as [->|Hne]; try done.
  1,2: rewrite Z.sub_diag; intros [= <-]; eexists _, _; split; [done|constructor].
  assert (Hv' : valid m (buffer + bw + vm_start) (Z.of_nat (Z.to_nat (len - bw)))).
  { unfold valid in *. lia. }
  unfold host_address. arith_ok. unfold load_bytes. rewrite decide_True by done.
  cbn [mbind exec_bind].
  replace (buffer + bw + vm_start) with (vm_start + buffer + bw) by lia.
  set (data := peeks m (vm_start + buffer + bw) (Z.to_nat (len - bw))).
  assert (Hlen : length data = Z.to_nat (len - bw)) by apply length_peeks.
  assert (Hdata : data ≠ []) by (intros Hd; rewrite Hd in Hlen; cbn in Hlen; lia).
  destruct (os_write w fd data) as [w1 r] eqn:Hw.
  destruct (Z.leb_spec 0 r) as [Hr|Hr].
  - destruct (os_write_spec _ _ _ _ _ Hw) as [|Hle]; [lia|].
    rewrite arith_fits by (unfold fits; lia). intros Hloop.
    destruct (IH w1 (bw + r) ltac:(lia) Hloop) as (w' & res & -> & Hall).
    exists w', res. split; [done|]. apply (write_all_step fd w data w1 (Z.to_nat r)); [done| | |].
    + by rewrite Z2Nat.id by lia.
    + lia.
    + unfold data. rewrite peeks_drop by lia.
      replace (vm_start + buffer + bw + Z.of_nat (Z.to_nat r))
        with (vm_start + buffer + (bw + r)) by lia.
      by replace (Z.to_nat (len - bw) - Z.to_nat r)%nat with (Z.to_nat (len - (bw + r))) by lia.
  - intros [= <-]. eexists _, _. split; [done|]. by apply (write_all_fail fd w data w1 r).
Qed.

(** A host that accepts something in every round is done after [len] of them. *)
Lemma write_loop_returns `{Profile} `{HostOSLaws W} vm_start fuel m w fd buffer len bw :
  write_progress W → 0 ≤ vm_start → 0 ≤ buffer → 0 ≤ bw ≤ len →
  vm_start + buffer + len < 2 ^ 64 →
  valid m (vm_start + buffer) len → (Z.to_nat (len - bw) ≤ fuel)%nat →
  write_loop vm_start fuel m w fd buffer len bw ≠ None.
Proof.
  intros Hprog Hvm Hbuf Hbw Hfit Hv. revert w bw Hbw.
  induction fuel as [|fuel IH]; intros w bw Hbw Hfuel; cbn [write_loop];
    destruct (Z.eqb_spec bw len) as [->|Hne]; try done.
  { lia. }
  unfold host_address. arith_ok. unfold load_bytes.
  rewrite decide_True by (unfold valid in *; lia). cbn [mbind exec_bind].
  destruct (os_write w fd _) as [w1 r] eqn:Hw. destruct (Z.leb_spec 0 r) as [Hr|Hr]; [|done].
  apply Hprog in Hw as Hne0; [|intros Hnil; apply (f_equal length) in Hnil; rewrite length_peeks in Hnil; cbn in Hnil; lia].
  destruct (os_write_spec _ _ _ _ _ Hw) as [|Hle]; [lia|]. rewrite length_peeks in Hle.
  rewrite arith_fits by (unfold fits; lia). apply IH; lia.
Qed.

Lemma write_loop_spec `{Profile} `{HostOSLaws W} vm_start fuel m w fd buffer len bw :
  write_progress W → 0 ≤ vm_start → 0 ≤ buffer → 0 ≤ bw ≤ len →
  vm_start + buffer + len < 2 ^ 64 →
  valid m (vm_start + buffer) len → (Z.to_nat (len - bw) ≤ fuel)%nat →
  ∃ w' r, write_loop vm_start fuel m w fd buffer len bw = Some (Ret (w', r)) ∧
    write_all fd w (peeks m (vm_start + buffer + bw) (Z.to_nat (len - bw))) w' r.
Proof.
  intros Hprog Hvm Hbuf Hbw Hfit Hv Hfuel.
  pose proof (write_loop_returns vm_start fuel m w fd buffer len bw Hprog Hvm Hbuf Hbw Hfit Hv Hfuel).
  destruct (write_loop vm_start fuel m w fd buffer len bw) as [x|] eqn:Hx; [|done].
  apply write_loop_sound in Hx as (w' & r & -> & Hall); [|done..]. by exists w', r.
Qed.

(** *** Buffers at virtual addresses *)

Section Buffers.
Context `{Profile}.

(** The bytes [data] of [m] are those at the virtual address [buf], under the
    page tables in [tables]. *)
Definition guest_sees (tables m : mem) (buf : Z) (data : list Z) : Prop :=
  ∀ k b, data !! k = Some b →
    ∃ pa, virt_to_phys tables (mem_base m) (buf + Z.of_nat k) = Ret pa ∧ peek m (mem_base m + pa) = b.

(** The buffer of [len] bytes at [buf] is in consecutive physical memory, from
    [buffer] on: inside one page, or across pages that are mapped one after the
    other. *)
Definition contiguous (m : mem) (buf len buffer : Z) : Prop :=
  ∀ k, 0 ≤ k < Z.max 1 len → virt_to_phys m (mem_base m) (buf + k) = Ret (buffer + k).

Lemma contiguous_start m buf len buffer :
  contiguous m buf len buffer → virt_to_phys m (mem_base m) buf = Ret buffer.
Proof. intros Hc. specialize (Hc 0 ltac:(lia)). by rewrite !Z.add_0_r in Hc. Qed.

(** A buffer inside one page. *)
Lemma page_contiguous m buf len buffer :
  mem_wf m → fits 64 buf → virt_to_phys m (mem_base m) buf = Ret buffer →
  buf mod PAGE_SIZE + len ≤ PAGE_SIZE → contiguous m buf len buffer.
Proof.
  intros Hm Hbuf Hv Hpage k Hk. pose proof (Z.mod_pos_bound buf PAGE_SIZE ltac:(done)).
  unfold PAGE_SIZE in *. apply virt_to_phys_page; try done; [lia|]. change (2 ^ 12) with 4096. lia.
Qed.

Lemma contiguous_sees tables m buf len buffer data :
  contiguous tables buf len buffer → Z.of_nat (length data) ≤ len → mem_base m = mem_base tables →
  peeks m (mem_base m + buffer) (length data) = data → guest_sees tables m buf data.
Proof.
  intros Hc Hlen Hbase Hdata k b Hk. apply lookup_lt_Some in Hk as Hlt.
  exists (buffer + Z.of_nat k). rewrite Hbase. split; [apply Hc; lia|].
  rewrite <- Hdata, lookup_peeks in Hk by done. injection Hk as <-. f_equal. lia.
Qed.

End Buffers.

Section Calls.
Context `{Profile} `{HostOSLaws W}.
Context (h : host W) (args_ptr : Z).
Hypothesis Hwf : mem_wf (h_mem h).

(** [write] ends within [len] iterations, whatever amounts the host's [write]
    accepts at a time. *)
Lemma write_spec fuel fd buf len buffer :
  write_progress W → (Z.to_nat len ≤ fuel)%nat →
  load_i32 (h_mem h) (args_ptr + SysWrite.fd) = Ret fd →
  load 8 (h_mem h) (args_ptr + SysWrite.buf) = Ret buf →
  load 8 (h_mem h) (args_ptr + SysWrite.len) = Ret len →
  virt_to_phys (h_mem h) (mem_base (h_mem h)) buf = Ret buffer →
  0 ≤ buffer → buffer + len ≤ mem_size (h_mem h) →
  ∃ w' r, write (mem_base (h_mem h)) fuel h args_ptr = Some (Ret (Host (h_mem h) w', r)) ∧
    write_all fd (h_os h)
      (peeks (h_mem h) (mem_base (h_mem h) + buffer) (Z.to_nat len)) w' r.
Proof.
  intros Hprog Hfuel Hfd Hbuf Hlen Hvtp Hb Hsz.
  pose proof (load_fits 8 _ _ _ Hwf Hlen) as [??].
  pose proof (wf_base _ Hwf). pose proof (wf_end _ Hwf).
  unfold write. rewrite Hbuf. cbn [mbind exec_bind]. rewrite Hvtp. cbn [mbind exec_bind].
  rewrite Hfd, Hlen. cbn [mbind exec_bind].
  destruct (write_loop_spec (mem_base (h_mem h)) fuel (h_mem h) (h_os h)
    fd buffer len 0) as (w' & r & Hloop & Hall); try done || lia.
  { right. lia. }
  rewrite Z.add_0_r, Z.sub_0_r in Hall. exists w', r. split; [|done].
  by rewrite Hloop.
Qed.

(** C15: [write] on a buffer that lies in consecutive physical memory, as only
    its start is translated: whenever the call ends, it has handed the host's
    [write] exactly the bytes the guest has in its buffer, in order and however
    the host splits them, up to the end or to the first error, which it
    reports; guest memory is unchanged.  If the host's [write] never accepts
    zero bytes, the call does end, within [len] rounds. *)
Theorem write_correct fd buf len buffer :
  load_i32 (h_mem h) (args_ptr + SysWrite.fd) = Ret fd →
  load 8 (h_mem h) (args_ptr + SysWrite.buf) = Ret buf →
  load 8 (h_mem h) (args_ptr + SysWrite.len) = Ret len →
  contiguous (h_mem h) buf len buffer → 0 ≤ buffer → buffer + len ≤ mem_size (h_mem h) →
  ∃ data, length data = Z.to_nat len ∧ guest_sees (h_mem h) (h_mem h) buf data ∧
    (∀ fuel x, write (mem_base (h_mem h)) fuel h args_ptr = Some x →
       ∃ w' r, x = Ret (Host (h_mem h) w', r) ∧ write_all fd (h_os h) data w' r) ∧
    (write_progress W → write (mem_base (h_mem h)) (Z.to_nat len) h args_ptr ≠ None).
Proof.
  intros Hfd Hbuf Hlen Hcont Hb Hsz. pose proof (contiguous_start _ _ _ _ Hcont) as Hvtp.
  pose proof (load_fits 8 _ _ _ Hwf Hlen) as [??].
  pose proof (wf_base _ Hwf). pose proof (wf_end _ Hwf).
  exists (peeks (h_mem h) (mem_base (h_mem h) + buffer) (Z.to_nat len)).
  split; [apply length_peeks|]. split_and!.
  - eapply contiguous_sees; [done| |done|]; rewrite length_peeks; [lia|done].
  - intros fuel x Hx. unfold write in Hx. rewrite Hbuf in Hx. cbn [mbind exec_bind] in Hx.
    rewrite Hvtp in Hx. cbn [mbind exec_bind] in Hx. rewrite Hfd, Hlen in Hx.
    cbn [mbind exec_bind] in Hx. apply bind_Some in Hx as (y & Hloop & [= <-]).
    apply write_loop_sound in Hloop as (w' & r & -> & Hall); [|lia|lia|lia|lia|right; lia].
    rewrite Z.add_0_r, Z.sub_0_r in Hall. by exists w', r.
  - intros Hprog. by destruct (write_spec (Z.to_nat len) fd buf len buffer) as (w' & r & -> & _).
Qed.

(** [write] has no bound of its own: on a host whose [write] accepts zero
    bytes, a nonempty buffer keeps the loop running for ever. *)
Lemma write_stalls fd buf len buffer :
  (∀ w fd data, os_write w fd data = (w, 0)) → len ≠ 0 →
  load_i32 (h_mem h) (args_ptr + SysWrite.fd) = Ret fd →
  load 8 (h_mem h) (args_ptr + SysWrite.buf) = Ret buf →
  load 8 (h_mem h) (args_ptr + SysWrite.len) = Ret len →
  virt_to_phys (h_mem h) (mem_base (h_mem h)) buf = Ret buffer →
  0 ≤ buffer → buffer + len ≤ mem_size (h_mem h) →
  ∀ fuel, write (mem_base (h_mem h)) fuel h args_ptr = None.
Proof.
  intros Hzero Hne Hfd Hbuf Hlen Hvtp Hb Hsz fuel.
  pose proof (load_fits 8 _ _ _ Hwf Hlen) as [??].
  pose proof (wf_base _ Hwf). pose proof (wf_end _ Hwf).
  unfold write. rewrite Hbuf. cbn [mbind exec_bind]. rewrite Hvtp. cbn [mbind exec_bind].
  rewrite Hfd, Hlen. cbn [mbind exec_bind].
  enough (write_loop (mem_base (h_mem h)) fuel (h_mem h) (h_os h) fd buffer len 0 = None)
    as -> by done.
  induction fuel as [|fuel IH]; cbn [write_loop];
    (destruct (Z.eqb_spec 0 len); [lia|]); [done|].
  unfold host_address. arith_ok. unfold load_bytes.
  rewrite decide_True by (right; lia). cbn [mbind exec_bind]. rewrite Hzero.
  cbn [Z.leb Z.compare]. by rewrite arith_fits by (unfold fits; lia).
Qed.

Lemma read_spec fd buf len buffer w' r data :
  load_i32 (h_mem h) (args_ptr + SysRead.fd) = Ret fd →
  load 8 (h_mem h) (args_ptr + SysRead.buf) = Ret buf →
  load 8 (h_mem h) (args_ptr + SysRead.len) = Ret len →
  valid (h_mem h) (args_ptr + SysRead.ret) 8 →
  virt_to_phys (h_mem h) (mem_base (h_mem h)) buf = Ret buffer →
  0 ≤ buffer → buffer + len ≤ mem_size (h_mem h) →
  os_read (h_os h) fd len = (w', r, data) →
  Z.of_nat (length data) = Z.max 0 r ∧ Z.of_nat (length data) ≤ len ∧ -1 ≤ r < 2 ^ 47 ∧
  read (mem_base (h_mem h)) h args_ptr =
    Ret (Host (writes [(mem_base (h_mem h) + buffer, data);
                       (args_ptr + SysRead.ret, le_split 8 (if 0 <=? r then r else -1))]
                 (h_mem h)) w').
Proof.
  intros Hfd Hbuf Hlen Hret Hvtp Hb Hsz Hr.
  pose proof (load_fits 8 _ _ _ Hwf Hlen) as [??].
  pose proof (wf_base _ Hwf). pose proof (wf_end _ Hwf). pose proof (wf_size _ Hwf).
  assert (Hdata : Z.of_nat (length data) = Z.max 0 r ∧ Z.of_nat (length data) ≤ len ∧
    -1 ≤ r < 2 ^ 47).
  { destruct (os_read_spec _ _ len _ _ _ ltac:(done) Hr) as [[-> ->]|[? <-]]; cbn; lia. }
  split_and!; [apply Hdata..|].
  unfold read. rewrite Hbuf. cbn [mbind exec_bind]. rewrite Hvtp. cbn [mbind exec_bind].
  rewrite Hfd. cbn [mbind exec_bind]. unfold host_address. arith_ok.
  rewrite Hlen. cbn [mbind exec_bind]. rewrite Hr, (Z.add_comm buffer).
  unfold store_bytes at 1. rewrite decide_True by (right; lia). cbn [mbind exec_bind].
  destruct (0 <=? r); by rewrite store_valid by done.
Qed.

(** C33: [read] into a buffer that lies in consecutive physical memory, as only
    its start is translated: the guest finds the bytes the host's [read]
    delivered at the start of its buffer, as many as that returned and at most
    [len], and the count (or -1) in [ret]; no other byte of guest memory
    changes.  (Where [ret] lies inside the buffer, the count is what is stored
    last.) *)
Theorem read_correct fd buf len buffer w' r data :
  load_i32 (h_mem h) (args_ptr + SysRead.fd) = Ret fd →
  load 8 (h_mem h) (args_ptr + SysRead.buf) = Ret buf →
  load 8 (h_mem h) (args_ptr + SysRead.len) = Ret len →
  valid (h_mem h) (args_ptr + SysRead.ret) 8 →
  contiguous (h_mem h) buf len buffer → 0 ≤ buffer → buffer + len ≤ mem_size (h_mem h) →
  os_read (h_os h) fd len = (w', r, data) →
  let p := mem_base (h_mem h) + buffer in
  let n := Z.of_nat (length data) in
  n = Z.max 0 r ∧ n ≤ len ∧
  ∃ m', read (mem_base (h_mem h)) h args_ptr = Ret (Host m' w') ∧ same_map (h_mem h) m' ∧
    load_i64 m' (args_ptr + SysRead.ret) = Ret (if 0 <=? r then r else -1) ∧
    (∀ a, ¬ (p ≤ a < p + n) → ¬ (0 ≤ a - (args_ptr + SysRead.ret) < 8) →
       peek m' a = peek (h_mem h) a) ∧
    (p + n ≤ args_ptr + SysRead.ret ∨ args_ptr + SysRead.ret + 8 ≤ p →
       guest_sees (h_mem h) m' buf data).
Proof.
  intros Hfd Hbuf Hlen Hret Hcont Hb Hsz Hr p n. pose proof (contiguous_start _ _ _ _ Hcont) as Hvtp.
  destruct (read_spec fd buf len buffer w' r data) as (Hn & Hdata & Hrange & ->); try done.
  rewrite !writes_cons. cbn [fst snd writes foldl]. split; [done|]. split; [done|].
  eexists. split; [done|]. split_and!.
  - by split.
  - unfold load_i64. rewrite load_write_same by done. cbn [mbind exec_bind]. f_equal.
    unfold to_signed, wrap. rewrite Z.mod_mod by lia.
    destruct (Z.leb_spec 0 r) as [Hpos|Hneg]; [|done].
    rewrite Z.mod_small by (cbn; lia). by rewrite (proj2 (Z.ltb_lt r _)) by (cbn; lia).
  - intros a Ha1 Ha2. rewrite !peek_write_out; [done|unfold n, p in *; lia|rewrite length_le_split; lia].
  - intros Hdis. eapply contiguous_sees; [done|done|done|]. rewrite !base_write.
    rewrite peeks_write_disjoint by (rewrite length_le_split; unfold n, p in *; lia).
    apply peeks_write_same.
Qed.

(** The only thing between the host's [read] and host memory beyond the
    guest is the length the guest asked for: with the argument structure and
    the buffer's start in guest memory, [read] is undefined behaviour exactly
    when the host delivers more bytes than guest memory has left after the
    buffer's start. *)
Lemma read_overruns_iff fd buf len buffer w' r data :
  load_i32 (h_mem h) (args_ptr + SysRead.fd) = Ret fd →
  load 8 (h_mem h) (args_ptr + SysRead.buf) = Ret buf →
  load 8 (h_mem h) (args_ptr + SysRead.len) = Ret len →
  valid (h_mem h) (args_ptr + SysRead.ret) 8 →
  virt_to_phys (h_mem h) (mem_base (h_mem h)) buf = Ret buffer →
  0 ≤ buffer ≤ mem_size (h_mem h) →
  os_read (h_os h) fd len = (w', r, data) →
  read (mem_base (h_mem h)) h args_ptr = Fault ↔
  mem_size (h_mem h) - buffer < Z.of_nat (length data).
Proof.
  intros Hfd Hbuf Hlen Hret Hvtp Hb Hr.
  pose proof (wf_base _ Hwf). pose proof (wf_end _ Hwf).
  unfold read. rewrite Hbuf. cbn [mbind exec_bind]. rewrite Hvtp. cbn [mbind exec_bind].
  rewrite Hfd. cbn [mbind exec_bind]. unfold host_address. arith_ok.
  rewrite Hlen. cbn [mbind exec_bind]. rewrite Hr.
  unfold store_bytes. case_decide as Hv; cbn [mbind exec_bind].
  - replace (if 0 <=? r then _ else _) with
      (store 8 (write_bytes (h_mem h) (buffer + mem_base (h_mem h)) data)
         (args_ptr + SysRead.ret) (if 0 <=? r then r else -1))
      by by destruct (0 <=? r).
    rewrite store_valid by done. unfold valid in Hv. split; [done|]. lia.
  - unfold valid in Hv. split; [lia|done].
Qed.

End Calls.

(** ** Calls that take a path *)

Lemma c_string_from_spec m p s fuel :
  mem_wf m → (length s < fuel)%nat → valid m p (Z.of_nat (length s) + 1) →
  peeks m p (length s) = s → Forall (λ b, b ≠ 0) s →
  peek m (p + Z.of_nat (length s)) = 0 →
  c_string_from m p fuel = Ret s.
Proof.
  intros Hwf. revert p fuel. induction s as [|b s IH]; intros p fuel Hf Hv Hs Hnz H0;
    (destruct fuel as [|fuel]; [cbn in Hf; lia|]); cbn [c_string_from].
  - cbn [length] in H0, Hv. rewrite load_valid by done. cbn. rewrite Z.add_0_r in H0.
    by rewrite H0.
  - cbn [length peeks] in *. injection Hs as Hb Hs. apply Forall_cons in Hnz as [Hnz1 Hnz].
    rewrite load_valid by (unfold valid in *; lia). cbn [peeks le_combine mbind exec_bind].
    rewrite Z.mul_0_r, Z.add_0_r, Hb. destruct (Z.eqb_spec b 0); [done|].
    rewrite IH; [done|lia| |done|done|].
    + unfold valid in *. lia.
    + rewrite <- H0. f_equal. lia.
Qed.

(** [c_string] finds the string a guest stored, NUL included, in its memory. *)
Lemma c_string_spec m p s :
  mem_wf m → valid m p (Z.of_nat (length s) + 1) →
  peeks m p (length s) = s → Forall (λ b, b ≠ 0) s →
  peek m (p + Z.of_nat (length s)) = 0 →
  c_string m p = Ret s.
Proof.
  intros. apply c_string_from_spec; try done. unfold valid in *. lia.
Qed.

Section PathCalls.
Context `{Profile} `{HostOS W}.
Context (h : host W) (args_ptr : Z).
Hypothesis Hwf : mem_wf (h_mem h).

(** A path at guest physical address [name]. *)
Definition guest_path (name : Z) (path : list Z) : Prop :=
  let p := mem_base (h_mem h) + name in
  0 ≤ name ∧ name + Z.of_nat (length path) + 1 ≤ mem_size (h_mem h) ∧
  peeks (h_mem h) p (length path) = path ∧ Forall (λ b, b ≠ 0) path ∧
  peek (h_mem h) (p + Z.of_nat (length path)) = 0.

Lemma guest_path_c_string name path :
  guest_path name path →
  host_address (mem_base (h_mem h)) name = Ret (name + mem_base (h_mem h)) ∧
  c_string (h_mem h) (name + mem_base (h_mem h)) = Ret path.
Proof.
  intros (?&?&?&?&?). pose proof (wf_base _ Hwf). pose proof (wf_end _ Hwf).
  split; [unfold host_address; by arith_ok|].
  rewrite Z.add_comm. apply c_string_spec; try done. right. lia.
Qed.

(** [open] opens the file the guest named, with the guest's flags and
    mode, and stores the descriptor (or -1) in [ret]; no other byte of guest
    memory changes. *)
Lemma open_spec name path flags mode w' r :
  load 8 (h_mem h) (args_ptr + SysOpen.name) = Ret name → guest_path name path →
  load_i32 (h_mem h) (args_ptr + SysOpen.flags) = Ret flags →
  load_i32 (h_mem h) (args_ptr + SysOpen.mode) = Ret mode →
  valid (h_mem h) (args_ptr + SysOpen.ret) 4 →
  os_open (h_os h) path flags mode = (w', r) →
  VirtualCPU.open (mem_base (h_mem h)) h args_ptr =
    Ret (Host (write_bytes (h_mem h) (args_ptr + SysOpen.ret) (le_split 4 r)) w').
Proof.
  intros Hn [Hha Hcs]%guest_path_c_string Hf Hm Hret Ho. unfold VirtualCPU.open.
  rewrite Hn. cbn [mbind exec_bind]. rewrite Hha. cbn [mbind exec_bind].
  rewrite Hf. cbn [mbind exec_bind]. rewrite Hm. cbn [mbind exec_bind].
  rewrite Hcs. cbn [mbind exec_bind]. rewrite Ho. by rewrite store_valid.
Qed.

(** [unlink] removes the file the guest named and stores the result in
    [ret]; no other byte of guest memory changes. *)
Lemma unlink_spec name path w' r :
  load 8 (h_mem h) (args_ptr + SysUnlink.name) = Ret name → guest_path name path →
  valid (h_mem h) (args_ptr + SysUnlink.ret) 4 →
  os_unlink (h_os h) path = (w', r) →
  unlink (mem_base (h_mem h)) h args_ptr =
    Ret (Host (write_bytes (h_mem h) (args_ptr + SysUnlink.ret) (le_split 4 r)) w').
Proof.
  intros Hn [Hha Hcs]%guest_path_c_string Hret Ho. unfold unlink.
  rewrite Hn. cbn [mbind exec_bind]. rewrite Hha. cbn [mbind exec_bind].
  rewrite Hcs. cbn [mbind exec_bind]. rewrite Ho. by rewrite store_valid.
Qed.

End PathCalls.

(** [close] and [lseek] pass the guest's arguments to the host and store the
    result where the guest expects it: [close] in [ret], [lseek] in place of
    [offset]. *)
Lemma close_spec `{HostOS W} (h : host W) args_ptr fd w' r :
  load_i32 (h_mem h) (args_ptr + SysClose.fd) = Ret fd →
  valid (h_mem h) (args_ptr + SysClose.ret) 4 →
  os_close (h_os h) fd = (w', r) →
  close h args_ptr =
    Ret (Host (write_bytes (h_mem h) (args_ptr + SysClose.ret) (le_split 4 r)) w').
Proof.
  intros Hfd Hret Hc. unfold close. rewrite Hfd. cbn [mbind exec_bind]. rewrite Hc.
  by rewrite store_valid.
Qed.

Lemma lseek_spec `{HostOS W} (h : host W) args_ptr fd offset whence w' r :
  load_i32 (h_mem h) (args_ptr + SysLseek.fd) = Ret fd →
  load_i64 (h_mem h) (args_ptr + SysLseek.offset) = Ret offset →
  load_i32 (h_mem h) (args_ptr + SysLseek.whence) = Ret whence →
  os_lseek (h_os h) fd offset whence = (w', r) →
  lseek h args_ptr =
    Ret (Host (write_bytes (h_mem h) (args_ptr + SysLseek.offset) (le_split 8 r)) w').
Proof.
  intros Hfd Ho Hwh Hs. unfold lseek. rewrite Hfd. cbn [mbind exec_bind].
  rewrite Ho, Hwh. cbn [mbind exec_bind]. rewrite Hs, store_valid; [done|].
  unfold load_i64, load, load_bytes in Ho. by case_decide.
Qed.

(** ** A small host, to evaluate the handlers on *)

Module Example.

(** Files by descriptor; [write] takes at most three bytes at a time. *)
Record world := World { log : list (Z * list Z); next_fd : Z }.

#[export] Instance world_os : HostOS world := {|
  os_open w path flags mode := (World (log w) (next_fd w + 1), next_fd w);
  os_close w fd := (w, if fd =? 3 then 0 else -1);
  os_read w fd count :=
    let data := take (Z.to_nat count) [72; 105] in (w, Z.of_nat (length data), data);
  os_write w fd data :=
    let d := take 3 data in (World (log w ++ [(fd, d)]) (next_fd w), Z.of_nat (length d));
  os_lseek w fd offset whence := (w, offset);
  os_unlink w path := (w, -1);
  os_errno w := 9;
  os_stdout_write_all w buf := (World (log w ++ [(1, buf)]) (next_fd w), Ok ());
|}.

#[export] Instance world_laws : HostOSLaws world.
Proof.
  split; cbn.
  - intros w fd count w' r data Hc [= <- <- <-]. right. split; [|done].
    rewrite length_take. lia.
  - intros w fd count w' r data [= <- <- <-]. apply Forall_take. evaluate.
  - intros w fd data w' r [= <- <-]. right. rewrite length_take. lia.
Qed.

(** 1 MiB of memory at 0x7f0000000000, the first GiB mapped by one page, an
    argument structure at 0x2000 and a buffer with a path at 0x3000. *)
Definition base : Z := 0x7f0000000000.
Definition mapped : mem :=
  write_bytes (write_bytes (Mem base 0x100000 ∅)
    (base + 0x10000) (le_split 8 0x11003)) (base + 0x11000) (le_split 8 0x83).
Definition memory (args : list Z) : mem :=
  write_bytes (write_bytes mapped (base + 0x2000) args)
    (base + 0x3000) [104; 101; 108; 108; 111; 0].
Definition args : Z := base + 0x2000.
Definition start (a : list Z) : host world := Host (memory a) (World [] 3).

Lemma memory_wf a : Forall is_byte a → mem_wf (memory a).
Proof.
  intros. unfold memory, mapped.
  repeat apply mem_wf_write; auto with uhyve; [|evaluate].
  split; done.
Qed.

(** [write(1, 0x3000, 5)]: fd, buf, len. *)
Definition write_args : list Z := le_split 4 1 ++ le_split 8 0x3000 ++ le_split 8 5.
(** [read(0, 0x4000, 8)]: fd, buf, len, ret. *)
Definition read_args : list Z :=
  le_split 4 0 ++ le_split 8 0x4000 ++ le_split 8 8 ++ le_split 8 0.

(** A host whose [write] never accepts anything. *)
Definition stalled_os : HostOS world := {|
  os_open w path flags mode := (w, -1);
  os_close w fd := (w, -1);
  os_read w fd count := (w, -1, []);
  os_write w fd data := (w, 0);
  os_lseek w fd offset whence := (w, -1);
  os_unlink w path := (w, -1);
  os_errno w := 0;
  os_stdout_write_all w buf := (w, Ok ());
|}.

Lemma progress : write_progress world.
Proof.
  intros w fd [|b data] w' r Hd; [done|]. cbn. intros [= <- <-]. lia.
Qed.

Lemma wf_example a : Forall is_byte a → mem_wf (h_mem (start a)).
Proof. apply memory_wf. Qed.

Lemma write_correct_witness :
  ∃ data, length data = 5%nat ∧
    guest_sees (H := debug_profile) (memory write_args) (memory write_args) 0x3000 data ∧
    write (H := debug_profile) base 5 (start write_args) args ≠ None.
Proof.
  destruct (write_correct (H := debug_profile) (start write_args) args) with
    (fd := 1) (buf := 0x3000) (len := 5) (buffer := 0x3000) as (data & Hl & Hs & _ & Hend).
  - apply wf_example. evaluate.
  - by vm_compute.
  - by vm_compute.
  - by vm_compute.
  - apply page_contiguous; [apply wf_example; evaluate|evaluate|by vm_compute|by vm_compute].
  - done.
  - done.
  - exists data. split; [exact Hl|]. split; [exact Hs|]. exact (Hend progress).
Defined.

Lemma write_stalls_example :
  write (H := debug_profile) (H0 := stalled_os) base 1000 (start write_args) args = None.
Proof.
  apply (write_stalls (H := debug_profile) (H0 := stalled_os) (start write_args) args) with
    (fd := 1) (buf := 0x3000) (len := 5) (buffer := 0x3000).
  - apply wf_example. evaluate.
  - done.
  - done.
  - by vm_compute.
  - by vm_compute.
  - by vm_compute.
  - by vm_compute.
  - done.
  - done.
Qed.

Lemma read_correct_witness :
  ∃ m', read (H := debug_profile) base (start read_args) args = Ret (Host m' (World [] 3)) ∧
        guest_sees (H := debug_profile) (memory read_args) m' 0x4000 [72; 105].
Proof.
  destruct (read_correct (H := debug_profile) (start read_args) args) with
    (fd := 0) (buf := 0x4000) (len := 8) (buffer := 0x4000) (w' := World [] 3)
    (r := 2) (data := [72; 105]) as (_ & _ & m' & Hr & _ & _ & _ & Hp).
  - apply wf_example. evaluate.
  - by vm_compute.
  - by vm_compute.
  - by vm_compute.
  - right. split; by vm_compute.
  - apply page_contiguous; [apply wf_example; evaluate|evaluate|by vm_compute|by vm_compute].
  - done.
  - done.
  - done.
  - exists m'. split; [exact Hr|]. apply Hp. right. by vm_compute.
Defined.

Lemma read_overruns_iff_example :
  read (H := debug_profile) base (start read_args) args = Fault ↔
  0x100000 - 0x4000 < 2.
Proof.
  apply (read_overruns_iff (H := debug_profile) (start read_args) args) with
    (fd := 0) (buf := 0x4000) (len := 8) (w' := World [] 3) (r := 2) (data := [72; 105]).
  - apply wf_example. evaluate.
  - by vm_compute.
  - by vm_compute.
  - by vm_compute.
  - right. split; by vm_compute.
  - by vm_compute.
  - done.
  - done.
Qed.

(** Only the start of a buffer is translated.  The guest maps the pages 0x100 and
    0x101 to the frames 0x50 and 0x60 and writes four bytes across their
    boundary: the last two are taken from behind the frame of the first page,
    not from where the guest sees them. *)
Definition two_pages : mem :=
  writes [(base + 0x10000, le_split 8 0x11003); (base + 0x11000, le_split 8 0x12003);
          (base + 0x12000, le_split 8 0x13003);
          (base + 0x13000 + 8 * 0x100, le_split 8 0x50003 ++ le_split 8 0x60003);
          (base + 0x2000, le_split 4 1 ++ le_split 8 0x100ffe ++ le_split 8 4);
          (base + 0x50ffe, [97; 98; 120; 121]); (base + 0x60000, [99; 100])]
    (Mem base 0x100000 ∅).

Lemma write_across_pages :
  virt_to_phys (H := debug_profile) two_pages base 0x100fff = Ret 0x50fff ∧
  virt_to_phys (H := debug_profile) two_pages base 0x101000 = Ret 0x60000 ∧
  peeks two_pages (base + 0x50ffe) 2 ++ peeks two_pages (base + 0x60000) 2 = [97; 98; 99; 100] ∧
  write (H := debug_profile) base 4 (Host two_pages (World [] 3)) args =
    Some (Ret (Host two_pages (World [(1, [97; 98; 120]); (1, [121])] 3), Ok ())).
Proof. split_and!; vm_compute; reflexivity. Qed.

End Example.
