(* ===== verification/CommandLine.v ===== *)
(** * Command line and environment of the guest

    [VirtualCPU::cmdsize] and [VirtualCPU::cmdval] (src/vm.rs): the first tells
    the guest how much room the arguments and the environment take, the second
    copies them to where the guest made room.  [std::env::args()] and
    [std::env::vars()] are lists of byte strings. *)

From S2P Require Import Prelude Memory Consts AddressSpace Hypercalls.

Definition MAX_ARGC : Z := 128.
Definition MAX_ENVC : Z := 128.

Module SysCmdsize.
Definition argc : Z := 0.
Definition argsz : Z := 4.
Definition envc : Z := 4 + 4 * MAX_ARGC.
Definition envsz : Z := 8 + 4 * MAX_ARGC.
End SysCmdsize.

Module SysCmdval.
Definition argv : Z := 0.
Definition envp : Z := 8.
End SysCmdval.

Section CommandLine.
Context `{Profile}.
(** The receiver: where the guest's memory starts, and the kernel's path. *)
Context (vm_start : Z) (kernel_path : list Z).

Definition separator : list Z := [45; 45].

(** The variables of the loop over the arguments, which [cmdsize] and [cmdval]
    share; [body] is what they do with the arguments after the separator. *)
Record scan := Scan {
  counter : Z;
  separator_pos : Z;
  found_separator : bool;
  scan_mem : mem;
}.

Definition scan_argument (body : Z → list Z → mem → exec mem)
    (argument : list Z) (s : scan) : exec scan :=
  '(pos, found) ←
    (if negb (found_separator s) && bool_decide (argument = separator) then
       pos ← arith_signed 32 (counter s + 1); Ret (pos, true)
     else Ret (separator_pos s, found_separator s));
  m ← (if found && (pos <=? counter s) then
         d ← arith_signed 32 (counter s - pos);
         i ← arith_signed 32 (d + 1);
         body (wrap 64 i) argument (scan_mem s)
       else Ret (scan_mem s));
  c ← arith_signed 32 (counter s + 1);
  Ret (Scan c pos found m).

Definition cmdsize (args : list (list Z)) (vars : list (list Z * list Z))
    (m : mem) (args_ptr : Z) : exec mem :=
  m ← store 4 m (args_ptr + SysCmdsize.argc) 0;
  m ← store 4 m (args_ptr + SysCmdsize.envc) 0;
  n ← arith_signed 32 (to_signed 32 (Z.of_nat (length kernel_path)) + 1);
  m ← store 4 m (args_ptr + SysCmdsize.argsz) n;
  s ← for_each (scan_argument (λ i argument m,
        rust_assert (i <? MAX_ARGC) ;;
        n ← arith_signed 32 (to_signed 32 (Z.of_nat (length argument)) + 1);
        store 4 m (args_ptr + SysCmdsize.argsz + 4 * i) n)) args (Scan 0 0 false m);
  argc ← (if found_separator s && (separator_pos s <=? counter s) then
            d ← arith_signed 32 (counter s - separator_pos s); arith_signed 32 (d + 1)
          else Ret 1);
  m ← store 4 (scan_mem s) (args_ptr + SysCmdsize.argc) argc;
  '(counter, m) ← for_each (λ '(key, value) '(counter, m),
        if counter <? MAX_ENVC then
          l ← arith 64 (Z.of_nat (length key) + Z.of_nat (length value));
          n ← arith_signed 32 (to_signed 32 l + 2);
          m ← store 4 m (args_ptr + SysCmdsize.envsz + 4 * counter) n;
          Ret (counter + 1, m)
        else Ret (counter, m)) vars (0, m);
  store 4 m (args_ptr + SysCmdsize.envc) counter.

(** Writes [bs] where the [i]-th pointer of the guest's array [array] points. *)
Definition copy_string (array i : Z) (bs : list Z) (m : mem) : exec mem :=
  off ← arith 64 (i * 8);
  a ← arith 64 (array + off);
  ptr ← load 8 m a;
  p ← host_address vm_start ptr;
  store_bytes m p bs.

Definition cmdval (args : list (list Z)) (vars : list (list Z * list Z))
    (m : mem) (args_ptr : Z) : exec mem :=
  argv_ptr ← load 8 m (args_ptr + SysCmdval.argv);
  argv ← host_address vm_start argv_ptr;
  m ← copy_string argv 0 (kernel_path ++ [0]) m;
  s ← for_each (scan_argument (λ i argument m,
        copy_string argv i (argument ++ [0]) m)) args (Scan 0 0 false m);
  envp_ptr ← load 8 (scan_mem s) (args_ptr + SysCmdval.envp);
  envp ← host_address vm_start envp_ptr;
  '(_, m) ← for_each (λ '(key, value) '(counter, m),
        if counter <? MAX_ENVC then
          m ← copy_string envp counter (key ++ [61] ++ value ++ [0]) m;
          Ret (counter + 1, m)
        else Ret (counter, m)) vars (0, scan_mem s);
  Ret m.

End CommandLine.

(** ** Specification *)

(** The guest's arguments are the host's arguments after the first "--". *)
Fixpoint after_separator (args : list (list Z)) : option (list (list Z)) :=
  match args with
  | [] => None
  | a :: rest => if bool_decide (a = separator) then Some rest else after_separator rest
  end.

Definition app_args (args : list (list Z)) : list (list Z) :=
  default [] (after_separator args).

(** The strings the guest receives, without their terminating NUL. *)
Definition argv_strings (kernel_path : list Z) (args : list (list Z)) : list (list Z) :=
  kernel_path :: app_args args.

Definition env_strings (vars : list (list Z * list Z)) : list (list Z) :=
  (λ '(key, value), key ++ [61] ++ value) <$> take 128 vars.

(** [l] with its positions, counted from [i]. *)
Definition indexed {A} (i : Z) (l : list A) : list (Z * A) :=
  zip (seqZ i (Z.of_nat (length l))) l.

Lemma indexed_cons {A} i (a : A) l : indexed i (a :: l) = (i, a) :: indexed (i + 1) l.
Proof.
  unfold indexed. cbn [length]. rewrite seqZ_cons by lia. cbn [zip_with].
  do 2 f_equal. unfold Z.succ. f_equal; lia.
Qed.

Lemma lookup_indexed {A} i (l : list A) k :
  indexed i l !! k = (λ a, (i + Z.of_nat k, a)) <$> l !! k.
Proof.
  revert i k. induction l as [|a l IH]; intros i k; [by destruct k|].
  rewrite indexed_cons. destruct k as [|k]; cbn; [by rewrite Z.add_0_r|].
  rewrite IH. destruct (l !! k); cbn; [|done]. do 2 f_equal. lia.
Qed.

(** ** The scan over the arguments *)

Section Scan.
Context `{Profile} (body : Z → list Z → mem → exec mem).

Lemma scan_step_found a c pos m :
  0 ≤ pos ≤ c → c + 1 < 2 ^ 31 →
  scan_argument body a (Scan c pos true m) =
    (m' ← body (c - pos + 1) a m; Ret (Scan (c + 1) pos true m')).
Proof.
  intros. unfold scan_argument.
  cbn [found_separator negb andb counter separator_pos scan_mem mbind exec_bind].
  rewrite (proj2 (Z.leb_le pos c)) by lia. arith_signed_ok.
  rewrite wrap_fits by (unfold fits; lia).
  destruct (body (c - pos + 1) a m); cbn [mbind exec_bind]; [|done|done].
  by arith_signed_ok.
Qed.

Lemma scan_step_search a c m :
  0 ≤ c → c + 1 < 2 ^ 31 →
  scan_argument body a (Scan c 0 false m) =
    if bool_decide (a = separator) then Ret (Scan (c + 1) (c + 1) true m)
    else Ret (Scan (c + 1) 0 false m).
Proof.
  intros. unfold scan_argument.
  cbn [found_separator negb andb counter separator_pos scan_mem].
  destruct (bool_decide (a = separator)); cbn [mbind exec_bind andb]; arith_signed_ok.
  - rewrite (proj2 (Z.leb_gt (c + 1) c)) by lia. cbn [mbind exec_bind]. by arith_signed_ok.
  - done.
Qed.

Lemma scan_found args c pos m :
  0 ≤ pos ≤ c → c + Z.of_nat (length args) < 2 ^ 31 →
  for_each (scan_argument body) args (Scan c pos true m) =
    (m' ← for_each (λ '(i, a) m, body i a m) (indexed (c - pos + 1) args) m;
     Ret (Scan (c + Z.of_nat (length args)) pos true m')).
Proof.
  revert c m. induction args as [|a args IH]; intros c m Hpos Hlen.
  { cbn. by rewrite Z.add_0_r. }
  cbn [length] in Hlen |- *. rewrite indexed_cons. cbn [for_each].
  rewrite scan_step_found by lia.
  destruct (body (c - pos + 1) a m) as [m1| |]; [|done|done].
  cbn [mbind exec_bind]. rewrite IH by lia.
  replace (c + 1 - pos + 1) with (c - pos + 1 + 1) by lia.
  by replace (c + 1 + Z.of_nat (length args)) with (c + Z.of_nat (S (length args))) by lia.
Qed.

Lemma scan_all args c m :
  0 ≤ c → c + Z.of_nat (length args) < 2 ^ 31 →
  for_each (scan_argument body) args (Scan c 0 false m) =
    match after_separator args with
    | None => Ret (Scan (c + Z.of_nat (length args)) 0 false m)
    | Some rest =>
        m' ← for_each (λ '(i, a) m, body i a m) (indexed 1 rest) m;
        Ret (Scan (c + Z.of_nat (length args))
               (c + Z.of_nat (length args) - Z.of_nat (length rest)) true m')
    end.
Proof.
  revert c m. induction args as [|a args IH]; intros c m Hc Hlen.
  { cbn. by rewrite Z.add_0_r. }
  cbn [length] in Hlen |- *. cbn [for_each after_separator].
  rewrite scan_step_search by lia.
  replace (c + Z.of_nat (S (length args))) with (c + 1 + Z.of_nat (length args)) by lia.
  destruct (bool_decide (a = separator)); cbn [mbind exec_bind].
  - rewrite scan_found, Z.sub_diag, Z.add_0_l by lia.
    by replace (c + 1 + Z.of_nat (length args) - Z.of_nat (length args)) with (c + 1) by lia.
  - by rewrite IH by lia.
Qed.

End Scan.

(** The loop over the environment stops counting at [MAX_ENVC]. *)
Lemma env_loop {A} (f : Z → A → mem → exec mem) vars c m :
  0 ≤ c ≤ 128 →
  for_each (λ a '(c, m), if c <? MAX_ENVC then m ← f c a m; Ret (c + 1, m) else Ret (c, m))
    vars (c, m) =
  (m' ← for_each (λ '(i, a) m, f i a m) (indexed c (take (Z.to_nat (128 - c)) vars)) m;
   Ret (c + Z.of_nat (length (take (Z.to_nat (128 - c)) vars)), m')).
Proof.
  revert c m. induction vars as [|a vars IH]; intros c m Hc.
  { rewrite take_nil. cbn. by rewrite Z.add_0_r. }
  cbn [for_each]. unfold MAX_ENVC. destruct (Z.ltb_spec c 128) as [Hlt|Hge].
  - replace (Z.to_nat (128 - c)) with (S (Z.to_nat (128 - (c + 1)))) by lia.
    cbn [take length]. rewrite indexed_cons. cbn [for_each].
    destruct (f c a m) as [m1| |]; [|done|done]. cbn [mbind exec_bind].
    rewrite IH by lia.
    by replace (c + Z.of_nat (S (length (take (Z.to_nat (128 - (c + 1))) vars))))
      with (c + 1 + Z.of_nat (length (take (Z.to_nat (128 - (c + 1))) vars))) by lia.
  - cbn [mbind exec_bind]. rewrite IH by lia. assert (c = 128) as -> by lia.
    cbn [Z.sub Z.to_nat Z.add Z.opp Z.pos_sub]. done.
Qed.

Lemma indexed_app {A} i (l1 l2 : list A) :
  indexed i (l1 ++ l2) = indexed i l1 ++ indexed (i + Z.of_nat (length l1)) l2.
Proof.
  revert i. induction l1 as [|a l1 IH]; intros i; cbn [app length].
  { by rewrite Z.add_0_r. }
  rewrite !indexed_cons, IH. cbn [app]. do 3 f_equal. lia.
Qed.

Lemma elem_of_indexed {A} i (l : list A) j a :
  (j, a) ∈ indexed i l → ∃ k, l !! k = Some a ∧ j = i + Z.of_nat k.
Proof.
  rewrite list_elem_of_lookup. intros [k Hk]. rewrite lookup_indexed in Hk.
  destruct (l !! k) eqn:Hl; cbn in Hk; [|done]. injection Hk as <- <-. by exists k.
Qed.

Lemma indexed_fmap {A B} (f : A → B) i l :
  indexed i (f <$> l) = (λ '(j, a), (j, f a)) <$> indexed i l.
Proof.
  apply list_eq. intros k. rewrite list_lookup_fmap, !lookup_indexed, list_lookup_fmap.
  by destruct (l !! k).
Qed.

(** ** [cmdsize] *)

(** The table of the room each string takes, from element [c] on. *)
Definition size_words (base c : Z) (l : list (list Z)) : list (Z * list Z) :=
  (λ '(i, s), (base + 4 * i, le_split 4 (Z.of_nat (length s) + 1))) <$> indexed c l.

Lemma size_words_cons base c s l :
  size_words base c (s :: l) =
  (base + 4 * c, le_split 4 (Z.of_nat (length s) + 1)) :: size_words base (c + 1) l.
Proof. unfold size_words. by rewrite indexed_cons. Qed.

Lemma elem_of_size_words base c l w :
  w ∈ size_words base c l →
  ∃ i, 0 ≤ i < Z.of_nat (length l) ∧ w.1 = base + 4 * (c + i) ∧ length w.2 = 4%nat.
Proof.
  intros ([i s] & -> & Hi)%list_elem_of_fmap.
  apply elem_of_indexed in Hi as (k & Hk & ->). apply lookup_lt_Some in Hk.
  exists (Z.of_nat k). cbn. lia.
Qed.

Lemma size_words_apart base c l : pairwise_apart (size_words base c l).
Proof.
  revert c. induction l as [|s l IH]; intros c; [done|].
  rewrite size_words_cons. cbn [pairwise_apart].
  split; [|apply IH]. apply Forall_forall. intros w Hw.
  apply elem_of_size_words in Hw as (i & Hi & Hw & Hl).
  unfold write_apart, apart. rewrite Hw, Hl. cbn. lia.
Qed.

Lemma size_words_lookup base l i s :
  l !! i = Some s →
  (base + 4 * Z.of_nat i, le_split 4 (Z.of_nat (length s) + 1)) ∈ size_words base 0 l.
Proof.
  intros Hi. apply list_elem_of_lookup. exists i. unfold size_words.
  rewrite list_lookup_fmap, lookup_indexed, Hi. done.
Qed.

(** What a string's size must be for the guest's [i32] to hold it. *)
Definition short (s : list Z) : Prop := Z.of_nat (length s) < 2 ^ 31 - 1.
#[export] Instance short_dec s : Decision (short s).
Proof. unfold short. apply _. Defined.

Lemma after_separator_length args rest :
  after_separator args = Some rest → (length rest < length args)%nat.
Proof.
  induction args as [|a args IH]; cbn; [done|].
  case_bool_decide; [intros [= ->]; lia|]. intros Hr. specialize (IH Hr). lia.
Qed.

Lemma length_env_strings vars : (length (env_strings vars) ≤ 128)%nat.
Proof. unfold env_strings. rewrite length_fmap, length_take. lia. Qed.

Section Cmdsize.
Context `{Profile} (kernel_path : list Z) (args : list (list Z))
  (vars : list (list Z * list Z)) (m : mem) (args_ptr : Z).

Definition argsz_ptr : Z := args_ptr + SysCmdsize.argsz.
Definition envsz_ptr : Z := args_ptr + SysCmdsize.envsz.

Definition cmdsize_writes : list (Z * list Z) :=
  size_words argsz_ptr 0 (argv_strings kernel_path args) ++
  (args_ptr + SysCmdsize.argc, le_split 4 (Z.of_nat (length (argv_strings kernel_path args)))) ::
  size_words envsz_ptr 0 (env_strings vars) ++
  [(args_ptr + SysCmdsize.envc, le_split 4 (Z.of_nat (length (env_strings vars))))].

Hypothesis Hvalid : valid m args_ptr 1032.
Hypothesis Hargs : Z.of_nat (length args) < 2 ^ 31.

Hypothesis Hargv : Forall short (argv_strings kernel_path args).
Hypothesis Hvars : Forall short (env_strings vars).

Definition has_block (m' : mem) : Prop := valid m' args_ptr 1032.

Ltac in_block :=
  unfold has_block, valid, argsz_ptr, envsz_ptr, SysCmdsize.argc, SysCmdsize.argsz,
    SysCmdsize.envc, SysCmdsize.envsz, MAX_ARGC in *;
  cbn [fst snd mem_base mem_size write_bytes] in *;
  rewrite ?writes_base, ?writes_size; cbn [mem_base mem_size write_bytes];
  rewrite ?writes_base, ?writes_size, ?length_le_split; lia.

Lemma string_size s :
  short s →
  arith_signed 32 (to_signed 32 (Z.of_nat (length s)) + 1) = Ret (Z.of_nat (length s) + 1).
Proof.
  unfold short. intros. rewrite to_signed_small by (cbn; lia). by arith_signed_ok.
Qed.

Definition argsz_body (i : Z) (argument : list Z) (m : mem) : exec mem :=
  rust_assert (i <? MAX_ARGC) ;;
  n ← arith_signed 32 (to_signed 32 (Z.of_nat (length argument)) + 1);
  store 4 m (args_ptr + SysCmdsize.argsz + 4 * i) n.

Lemma argsz_loop l m1 :
  (length l < 128)%nat → Forall short l → has_block m1 →
  for_each (λ '(i, a) m, argsz_body i a m) (indexed 1 l) m1 =
  Ret (writes (size_words argsz_ptr 1 l) m1).
Proof.
  intros Hlen Hl Hm1. apply (for_each_writes has_block); [done|].
  intros [i a] m' (k & Hk & ->)%elem_of_indexed Hm'. split; [|exact Hm'].
  pose proof (Forall_lookup_1 _ _ k _ Hl Hk).
  apply lookup_lt_Some in Hk. unfold argsz_body, MAX_ARGC.
  rewrite (proj2 (Z.ltb_lt _ _)) by lia. cbn [rust_assert mbind exec_bind].
  rewrite string_size by done. apply store_valid.
  in_block.
Qed.

(** The 128th argument after the separator has no slot. *)
Lemma argsz_body_panics i a m' : 128 ≤ i → argsz_body i a m' = Panic.
Proof. intros. unfold argsz_body, MAX_ARGC. by rewrite (proj2 (Z.ltb_ge _ _)). Qed.

Lemma argsz_loop_panics l m1 :
  (128 ≤ length l)%nat → Forall short l → has_block m1 →
  for_each (λ '(i, a) m, argsz_body i a m) (indexed 1 l) m1 = Panic.
Proof.
  intros Hlen Hl Hm1. rewrite <- (take_drop 127 l), indexed_app, for_each_app.
  rewrite argsz_loop; [|rewrite length_take; lia|by apply Forall_take|done].
  destruct (drop 127 l) as [|a l'] eqn:Hd.
  { apply (f_equal length) in Hd. rewrite length_drop in Hd. cbn in Hd. lia. }
  rewrite indexed_cons, length_take. cbn [mbind exec_bind for_each].
  rewrite argsz_body_panics by lia. done.
Qed.

(** More than 127 application arguments stop the hypervisor: the index
    into the fixed-size array of the hypercall's block is out of bounds. *)
Lemma cmdsize_panics :
  (128 ≤ length (app_args args))%nat → cmdsize kernel_path args vars m args_ptr = Panic.
Proof.
  intros Hlong. unfold cmdsize.
  rewrite store_valid by in_block. cbn [mbind exec_bind].
  rewrite store_valid by in_block. cbn [mbind exec_bind].
  set (m1 := write_bytes (write_bytes m _ _) _ _).
  assert (has_block m1) as Hm1 by exact Hvalid.
  rewrite string_size by exact (Forall_inv Hargv). cbn [mbind exec_bind].
  rewrite store_valid by in_block. cbn [mbind exec_bind].
  set (m2 := write_bytes m1 _ _). assert (has_block m2) as Hm2 by exact Hvalid.
  fold argsz_body. rewrite scan_all by lia.
  pose proof (argsz_loop_panics _ m2 Hlong (Forall_inv_tail Hargv) Hm2) as Hpanic.
  revert Hlong Hpanic. unfold app_args.
  destruct (after_separator args); cbn [default from_option id length]; [|lia].
  by intros _ ->.
Qed.

Hypothesis Hcount : (length (app_args args) < 128)%nat.

Lemma cmdsize_scan m1 :
  has_block m1 →
  ∃ s, for_each (scan_argument argsz_body) args (Scan 0 0 false m1) = Ret s ∧
    scan_mem s = writes (size_words argsz_ptr 1 (app_args args)) m1 ∧
    (if found_separator s && (separator_pos s <=? counter s) then
       d ← arith_signed 32 (counter s - separator_pos s); arith_signed 32 (d + 1)
     else Ret 1) = Ret (1 + Z.of_nat (length (app_args args))).
Proof.
  intros Hm1. rewrite scan_all by lia.
  pose proof (argsz_loop _ m1 Hcount (Forall_inv_tail Hargv) Hm1) as Hloop. revert Hcount Hloop. unfold app_args.
  destruct (after_separator args) as [rest|] eqn:Hrest; cbn [default from_option id]; intros Hcount' Hloop.
  - rewrite Hloop. eexists. split; [done|].
    cbn [scan_mem found_separator separator_pos counter]. split; [done|].
    pose proof (after_separator_length _ _ Hrest).
    rewrite (proj2 (Z.leb_le _ _)) by lia. cbn [andb]. arith_signed_ok.
    f_equal. lia.
  - eexists. split; [done|]. done.
Qed.

Definition envsz_body (i : Z) (var : list Z * list Z) (m : mem) : exec mem :=
  let '(key, value) := var in
  l ← arith 64 (Z.of_nat (length key) + Z.of_nat (length value));
  n ← arith_signed 32 (to_signed 32 l + 2);
  store 4 m (args_ptr + SysCmdsize.envsz + 4 * i) n.

Lemma envsz_loop m1 :
  has_block m1 →
  for_each (λ '(key, value) '(counter, m),
    if counter <? MAX_ENVC then
      l ← arith 64 (Z.of_nat (length key) + Z.of_nat (length value));
      n ← arith_signed 32 (to_signed 32 l + 2);
      m ← store 4 m (args_ptr + SysCmdsize.envsz + 4 * counter) n;
      Ret (counter + 1, m)
    else Ret (counter, m)) vars (0, m1) =
  Ret (Z.of_nat (length (env_strings vars)), writes (size_words envsz_ptr 0 (env_strings vars)) m1).
Proof.
  intros Hm1. etrans; [|etrans; [apply (env_loop envsz_body vars 0 m1); lia|]].
  { apply for_each_ext. intros [key value] [c m']. unfold envsz_body.
    destruct (c <? MAX_ENVC); [|done]. destruct (arith 64 _) as [l| |]; cbn; [|done|done].
    by destruct (arith_signed 32 _). }
  change (Z.to_nat (128 - 0)) with 128%nat.
  rewrite (for_each_writes has_block _ (λ '(i, (key, value)),
    (envsz_ptr + 4 * i, le_split 4 (Z.of_nat (length (key ++ [61] ++ value)) + 1)))).
  - cbn [mbind exec_bind]. unfold env_strings, size_words.
    rewrite length_fmap, indexed_fmap, <- list_fmap_compose. do 3 f_equal.
    apply list_fmap_ext. by intros ? [? []].
  - done.
  - intros [i [key value]] m' (k & Hk & ->)%elem_of_indexed Hm'. split; [|exact Hm'].
    assert (short (key ++ [61] ++ value)) as Hs.
    { apply (Forall_lookup_1 _ _ k _ Hvars). unfold env_strings.
      by rewrite list_lookup_fmap, Hk. }
    apply lookup_lt_Some in Hk. rewrite length_take in Hk.
    unfold envsz_body, short in *. rewrite !length_app in *. cbn [length] in *.
    arith_ok. rewrite to_signed_small by (cbn; lia). arith_signed_ok.
    rewrite store_valid; cbn [fst snd].
    + do 3 f_equal. lia.
    + in_block.
Qed.

Lemma cmdsize_result :
  cmdsize kernel_path args vars m args_ptr =
  Ret (writes cmdsize_writes
         (writes [(args_ptr + SysCmdsize.argc, le_split 4 0);
                  (args_ptr + SysCmdsize.envc, le_split 4 0)] m)).
Proof.
  unfold cmdsize.
  rewrite store_valid by in_block. cbn [mbind exec_bind].
  rewrite store_valid by in_block.
  cbn [mbind exec_bind].
  set (m1 := write_bytes (write_bytes m _ _) _ _).
  assert (has_block m1) as Hm1 by exact Hvalid.
  pose proof (Forall_inv Hargv) as Hpath.
  rewrite string_size by done. cbn [mbind exec_bind].
  rewrite store_valid by in_block.
  cbn [mbind exec_bind]. set (m2 := write_bytes m1 _ _).
  assert (has_block m2) as Hm2 by exact Hvalid.
  destruct (cmdsize_scan m2 Hm2) as (s & Hscan & Hmem & Hargc).
  fold argsz_body. rewrite Hscan. cbn [mbind exec_bind]. rewrite Hargc, Hmem.
  cbn [mbind exec_bind].
  rewrite store_valid by in_block.
  cbn [mbind exec_bind]. rewrite envsz_loop by (by apply valid_writes).
  cbn [mbind exec_bind].
  rewrite store_valid by in_block. f_equal. unfold cmdsize_writes.
  rewrite writes_app, writes_cons, writes_app. unfold argv_strings.
  rewrite size_words_cons, !writes_cons. cbn [fst snd length].
  by rewrite Nat2Z.inj_succ, <- Z.add_1_l, Z.mul_0_r, (Z.add_0_r argsz_ptr).
Qed.

Lemma elem_of_cmdsize_writes w :
  w ∈ cmdsize_writes → args_ptr ≤ w.1 ∧ w.1 + Z.of_nat (length w.2) ≤ args_ptr + 1032.
Proof.
  pose proof length_env_strings vars as Henv.
  unfold cmdsize_writes. rewrite elem_of_app, elem_of_cons, elem_of_app, list_elem_of_singleton.
  intros [Hw|[->|[Hw| ->]]]; [|in_block| |in_block];
    apply elem_of_size_words in Hw as (i & Hi & Hw & Hl); cbn [length argv_strings] in Hi;
    rewrite Hw, Hl; in_block.
Qed.

Lemma cmdsize_writes_apart : pairwise_apart cmdsize_writes.
Proof.
  pose proof length_env_strings vars as Henv.
  unfold cmdsize_writes. apply pairwise_apart_app; [apply size_words_apart| |].
  - split; [|apply pairwise_apart_app; [apply size_words_apart|by repeat constructor|]].
    + apply Forall_app. split; [|repeat constructor; unfold write_apart, apart; in_block].
      apply Forall_forall. intros w (i & Hi & Hw & Hl)%elem_of_size_words.
      unfold write_apart, apart. rewrite Hw, Hl. in_block.
    + intros w1 w2 (i & Hi & Hw & Hl)%elem_of_size_words ->%list_elem_of_singleton.
      unfold write_apart, apart. rewrite Hw, Hl. in_block.
  - intros w1 w2 (i & Hi & Hw & Hl)%elem_of_size_words Hw2. cbn [length argv_strings] in Hi.
    unfold write_apart, apart. rewrite Hw, Hl.
    rewrite elem_of_cons, elem_of_app, list_elem_of_singleton in Hw2.
    destruct Hw2 as [->|[(j & Hj & Hw2 & Hl2)%elem_of_size_words| ->]]; [in_block| |in_block].
    rewrite Hw2, Hl2. in_block.
Qed.


End Cmdsize.


(** ** [cmdval] *)

(** The [i]-th string, with its NUL, where the [i]-th pointer points. *)
Definition copies (vm_start : Z) (ps : list Z) (ss : list (list Z)) : list (Z * list Z) :=
  (λ '(i, s), (ps !!! Z.to_nat i + vm_start, s ++ [0])) <$> indexed 0 ss.

Lemma elem_of_copies vm_start ps ss i p s :
  ps !! i = Some p → ss !! i = Some s → (p + vm_start, s ++ [0]) ∈ copies vm_start ps ss.
Proof.
  intros Hp Hs. apply list_elem_of_lookup. exists i. unfold copies.
  rewrite list_lookup_fmap, lookup_indexed, Hs.
  cbn [fmap option_fmap option_map]. rewrite Z.add_0_l, Nat2Z.id.
  by rewrite (list_lookup_total_correct _ _ _ Hp).
Qed.

Section Copy.
Context `{Profile} (m0 : mem) (arr : Z) (ps : list Z) (ss : list (list Z))
  (protected : Z → Prop).

(** [protected] holds of the addresses the strings do not overwrite. *)
Definition unchanged (m' : mem) : Prop :=
  mem_base m' = mem_base m0 ∧ mem_size m' = mem_size m0 ∧
  ∀ x, protected x → peek m' x = peek m0 x.

Definition spares (w : Z * list Z) : Prop :=
  ∀ x, w.1 ≤ x < w.1 + Z.of_nat (length w.2) → ¬ protected x.

Lemma unchanged_write m' w :
  unchanged m' → spares w → unchanged (write_bytes m' w.1 w.2).
Proof.
  intros (Hb & Hs & Hp) Hw. split_and!; [done|done|]. intros x Hx.
  rewrite peek_write_out, Hp; [done|done|]. intros Hin. by apply (Hw x).
Qed.

Lemma unchanged_writes ws m' :
  unchanged m' → Forall spares ws → unchanged (writes ws m').
Proof.
  intros Hm' Hws. revert m' Hm'. induction Hws as [|w ws Hw _ IH]; intros m' Hm'; [done|].
  rewrite writes_cons. by apply IH, unchanged_write.
Qed.

Lemma unchanged_load n m' a :
  unchanged m' → (∀ x, a ≤ x < a + Z.of_nat n → protected x) → load n m' a = load n m0 a.
Proof. intros (Hb & Hs & Hp) Ha. apply load_ext; [done|done|]. auto. Qed.

Hypothesis Hwf : mem_wf m0.
Hypothesis Hlen : length ps = length ss.
Hypothesis Hload : ∀ i p, ps !! i = Some p →
  load 8 m0 (arr + mem_base m0 + 8 * Z.of_nat i) = Ret p.
Hypothesis Hprot : ∀ x, arr + mem_base m0 ≤ x < arr + mem_base m0 + 8 * Z.of_nat (length ps) →
  protected x.
Hypothesis Hcopies : Forall (λ w, valid m0 w.1 (Z.of_nat (length w.2)) ∧ spares w)
  (copies (mem_base m0) ps ss).
Hypothesis Harr : 0 ≤ arr.

Lemma copy_loop m' :
  unchanged m' →
  for_each (λ '(i, s) m, copy_string (mem_base m0) (arr + mem_base m0) i (s ++ [0]) m)
    (indexed 0 ss) m' = Ret (writes (copies (mem_base m0) ps ss) m').
Proof.
  intros Hm'. apply (for_each_writes unchanged); [done|].
  intros [i s] m1 (k & Hk & ->)%elem_of_indexed Hm1. rewrite Z.add_0_l, Nat2Z.id.
  destruct (lookup_lt_is_Some_2 ps k) as [p Hp].
  { rewrite Hlen. by eapply lookup_lt_Some. }
  rewrite (list_lookup_total_correct _ _ _ Hp).
  pose proof (elem_of_copies (mem_base m0) _ _ _ _ _ Hp Hk) as Hin.
  rewrite Forall_forall in Hcopies. destruct (Hcopies _ Hin) as [Hv Hsp].
  split; [|by apply unchanged_write]. cbn [fst snd] in *.
  pose proof (Hload _ _ Hp) as Hl. pose proof (load_fits 8 _ _ _ Hwf Hl) as Hfit.
  assert (valid m0 (arr + mem_base m0 + 8 * Z.of_nat k) 8) as Hva.
  { revert Hl. unfold load, load_bytes. by case_decide. }
  pose proof (lookup_lt_Some _ _ _ Hp). destruct Hwf as [Hb0 Hs0 He0 _].
  unfold valid in Hv, Hva. rewrite length_app in Hv. cbn [length] in Hv.
  unfold copy_string. arith_ok.
  replace (arr + mem_base m0 + Z.of_nat k * 8) with (arr + mem_base m0 + 8 * Z.of_nat k) by lia.
  rewrite (unchanged_load 8 m1) by (done || (intros; apply Hprot; lia)).
  rewrite Hl. cbn [mbind exec_bind]. unfold host_address. arith_ok.
  unfold store_bytes. destruct Hm1 as (Hb1 & Hs1 & _).
  rewrite decide_True; [done|]. unfold valid. rewrite Hb1, Hs1, length_app. cbn [length]. lia.
Qed.

End Copy.

Section Cmdval.
Context `{Profile} (kernel_path : list Z) (args : list (list Z))
  (vars : list (list Z * list Z)) (m : mem) (args_ptr argv envp : Z)
  (argv_ps env_ps : list Z).

(** What the guest set up: the block, the two arrays of pointers, and room for
    the strings, all in its memory and apart from one another. *)
Definition guest_tables : list (Z * Z) :=
  [(args_ptr, 16);
   (argv + mem_base m, 8 * Z.of_nat (length argv_ps));
   (envp + mem_base m, 8 * Z.of_nat (length env_ps))].

Definition cmdval_writes : list (Z * list Z) :=
  copies (mem_base m) argv_ps (argv_strings kernel_path args) ++
  copies (mem_base m) env_ps (env_strings vars).

Definition room (w : Z * list Z) : Prop :=
  valid m w.1 (Z.of_nat (length w.2)) ∧
  Forall (λ t, apart w.1 (Z.of_nat (length w.2)) t.1 t.2) guest_tables.

#[export] Instance room_dec w : Decision (room w).
Proof. unfold room. apply _. Defined.

Hypothesis Hwf : mem_wf m.
Hypothesis Hargs : Z.of_nat (length args) < 2 ^ 31.
Hypothesis Hargv : load 8 m (args_ptr + SysCmdval.argv) = Ret argv.
Hypothesis Henvp : load 8 m (args_ptr + SysCmdval.envp) = Ret envp.
Hypothesis Henvp_range : envp + mem_base m < 2 ^ 64.
Hypothesis Hargv_len : length argv_ps = length (argv_strings kernel_path args).
Hypothesis Henv_len : length env_ps = length (env_strings vars).
Hypothesis Hargv_ps : ∀ i p, argv_ps !! i = Some p →
  load 8 m (argv + mem_base m + 8 * Z.of_nat i) = Ret p.
Hypothesis Henv_ps : ∀ i p, env_ps !! i = Some p →
  load 8 m (envp + mem_base m + 8 * Z.of_nat i) = Ret p.
Hypothesis Hroom : Forall room cmdval_writes.
Hypothesis Hapart : pairwise_apart cmdval_writes.

Definition in_tables (x : Z) : Prop :=
  Exists (λ t, t.1 ≤ x < t.1 + t.2) guest_tables.

Lemma room_spares w : room w → valid m w.1 (Z.of_nat (length w.2)) ∧ spares in_tables w.
Proof.
  intros [Hv Ht]. split; [done|]. intros x Hx Hin. unfold in_tables in Hin.
  rewrite Exists_exists in Hin. rewrite Forall_forall in Ht.
  destruct Hin as (t & Hin & Hxt). specialize (Ht t Hin). unfold apart in Ht. lia.
Qed.

Lemma argv_in_range : 0 ≤ argv ∧ argv + mem_base m < 2 ^ 64.
Proof.
  pose proof (load_fits 8 _ _ _ Hwf Hargv) as Hf.
  destruct argv_ps as [|p ps]; [done|]. specialize (Hargv_ps 0%nat p eq_refl).
  revert Hargv_ps. unfold load, load_bytes. case_decide as Hv; [|done]. intros _.
  unfold valid, fits in *. destruct Hwf. lia.
Qed.

Definition argv_body (i : Z) (argument : list Z) (m' : mem) : exec mem :=
  copy_string (mem_base m) (argv + mem_base m) i (argument ++ [0]) m'.

Lemma unchanged_self : unchanged m in_tables m.
Proof. done. Qed.

Lemma argv_loop :
  ∃ m1 s, argv_body 0 kernel_path m = Ret m1 ∧
    for_each (scan_argument argv_body) args (Scan 0 0 false m1) = Ret s ∧
    scan_mem s = writes (copies (mem_base m) argv_ps (argv_strings kernel_path args)) m.
Proof.
  assert (for_each (λ '(i, s) m', argv_body i s m')
    (indexed 0 (argv_strings kernel_path args)) m =
    Ret (writes (copies (mem_base m) argv_ps (argv_strings kernel_path args)) m)) as Hloop.
  { apply (copy_loop m argv argv_ps _ in_tables); [done..| | |apply argv_in_range|done].
    - intros x Hx. right. by left.
    - apply Forall_app in Hroom as [Hr _]. eapply Forall_impl; [exact Hr|apply room_spares]. }
  revert Hloop. unfold argv_strings at 1. rewrite indexed_cons. cbn [for_each].
  intros (m1 & Hfirst & Hrest)%bind_Ret. exists m1. rewrite scan_all by lia.
  revert Hrest. generalize (writes (copies (mem_base m) argv_ps (argv_strings kernel_path args)) m).
  unfold app_args. intros m2.
  destruct (after_separator args) as [rest|]; cbn [default from_option id].
  - rewrite Z.add_0_l. intros ->. eexists. by split_and!.
  - intros [= <-]. eexists. by split_and!.
Qed.

Lemma envp_loop m1 :
  unchanged m in_tables m1 →
  for_each (λ '(key, value) '(counter, m'),
    if counter <? MAX_ENVC then
      m' ← copy_string (mem_base m) (envp + mem_base m) counter (key ++ [61] ++ value ++ [0]) m';
      Ret (counter + 1, m')
    else Ret (counter, m')) vars (0, m1) =
  Ret (Z.of_nat (length (env_strings vars)),
       writes (copies (mem_base m) env_ps (env_strings vars)) m1).
Proof.
  intros Hm1. etrans; [|etrans; [apply (env_loop (λ i '(key, value) m',
    copy_string (mem_base m) (envp + mem_base m) i ((key ++ [61] ++ value) ++ [0]) m') vars 0 m1);
    lia|]].
  { apply for_each_ext. intros [key value] [c m']. by rewrite <- !app_assoc. }
  change (Z.to_nat (128 - 0)) with 128%nat.
  assert (for_each (λ '(i, s) m',
      copy_string (mem_base m) (envp + mem_base m) i (s ++ [0]) m')
    (indexed 0 (env_strings vars)) m1 =
    Ret (writes (copies (mem_base m) env_ps (env_strings vars)) m1)) as Hloop.
  { apply (copy_loop m envp env_ps _ in_tables); [done..| | | |done].
    - intros x Hx. right. right. by left.
    - apply Forall_app in Hroom as [_ Hr]. eapply Forall_impl; [exact Hr|apply room_spares].
    - apply (load_fits 8 _ _ _ Hwf Henvp). }
  unfold env_strings in Hloop at 1. rewrite indexed_fmap, for_each_fmap in Hloop.
  erewrite for_each_ext; [rewrite Hloop|by intros [i []] m'].
  cbn [mbind exec_bind]. unfold env_strings. by rewrite length_fmap.
Qed.

Lemma cmdval_result :
  cmdval (mem_base m) kernel_path args vars m args_ptr = Ret (writes cmdval_writes m).
Proof.
  unfold cmdval. rewrite Hargv. cbn [mbind exec_bind].
  pose proof argv_in_range. pose proof (load_fits 8 _ _ _ Hwf Henvp). destruct Hwf.
  unfold host_address. arith_ok.
  destruct argv_loop as (m1 & s & Hfirst & Hscan & Hmem). unfold argv_body in Hfirst.
  rewrite Hfirst. cbn [mbind exec_bind]. fold argv_body. rewrite Hscan.
  cbn [mbind exec_bind]. rewrite Hmem.
  assert (unchanged m in_tables (writes (copies (mem_base m) argv_ps
    (argv_strings kernel_path args)) m)) as Hun.
  { apply unchanged_writes; [done|]. apply Forall_app in Hroom as [Hr _].
    eapply Forall_impl; [exact Hr|apply room_spares]. }
  rewrite (unchanged_load m in_tables) by (done || (unfold SysCmdval.envp; intros; left; cbn [fst snd]; lia)).
  rewrite Henvp. cbn [mbind exec_bind]. arith_ok. rewrite envp_loop by done.
  cbn [mbind exec_bind]. unfold cmdval_writes. by rewrite writes_app.
Qed.

(** C16: after [cmdval] the guest finds every argument and every variable, with its NUL, where its
    pointers point; the rest of its memory is untouched. *)
Theorem cmdval_correct :
  ∃ m', cmdval (mem_base m) kernel_path args vars m args_ptr = Ret m' ∧
    (∀ i p s, argv_ps !! i = Some p → argv_strings kernel_path args !! i = Some s →
       peeks m' (p + mem_base m) (length s + 1) = s ++ [0]) ∧
    (∀ i p s, env_ps !! i = Some p → env_strings vars !! i = Some s →
       peeks m' (p + mem_base m) (length s + 1) = s ++ [0]) ∧
    ∀ x, Forall (λ w, ¬ (w.1 ≤ x < w.1 + Z.of_nat (length w.2))) cmdval_writes →
       peek m' x = peek m x.
Proof.
  exists (writes cmdval_writes m).
  assert (∀ p s, (p + mem_base m, s ++ [0]) ∈ cmdval_writes →
    peeks (writes cmdval_writes m) (p + mem_base m) (length s + 1) = s ++ [0]) as Hpeeks.
  { intros p s Hin. pose proof (peeks_writes _ m _ Hapart Hin) as Hp. cbn [fst snd] in Hp.
    by rewrite length_app in Hp. }
  split_and!.
  - apply cmdval_result.
  - intros i p s Hp Hs. apply Hpeeks, elem_of_app. left. by eapply elem_of_copies.
  - intros i p s Hp Hs. apply Hpeeks, elem_of_app. right. by eapply elem_of_copies.
  - intros x Hx. by apply peek_writes_out.
Qed.

End Cmdval.

(** ** A run: uhyve /k -- ab, with A=b in the environment *)
Module Example.
Definition base : Z := 0x10000000.
Definition kernel_path : list Z := [47; 107].
Definition args : list (list Z) := [[117]; [47; 107]; separator; [97; 98]].
Definition vars : list (list Z * list Z) := [([65], [98])].
Definition block : Z := base + 0x2000.

(** The block at 0x2000, the arrays at 0x3000 and 0x3100, the strings at 0x4000. *)
Definition memory : mem :=
  writes [(base + 0x2000, le_split 8 0x3000 ++ le_split 8 0x3100);
          (base + 0x3000, le_split 8 0x4000 ++ le_split 8 0x4010);
          (base + 0x3100, le_split 8 0x4020)] (Mem base 0x100000 ∅).

Lemma cmdline_memory_wf : mem_wf memory.
Proof.
  unfold memory, writes. cbn [foldl fst snd].
  repeat apply mem_wf_write; [|evaluate..]. by split.
Qed.


Lemma cmdval_correct_witness :
  ∃ m', cmdval (H := debug_profile) base kernel_path args vars memory block = Ret m' ∧
    peeks m' (0x4010 + base) 3 = [97; 98; 0].
Proof.
  destruct (cmdval_correct (H := debug_profile) kernel_path args vars memory block
    0x3000 0x3100 [0x4000; 0x4010] [0x4020]) as (m' & Hr & Hargv & _).
  - exact cmdline_memory_wf.
  - done.
  - by vm_compute.
  - by vm_compute.
  - done.
  - by vm_compute.
  - by vm_compute.
  - intros [|[|i]] p [= <-]; by vm_compute.
  - intros [|i] p [= <-]; by vm_compute.
  - evaluate.
  - evaluate.
  - exists m'. split; [exact Hr|]. by apply (Hargv 1%nat 0x4010 [97; 98]).
Defined.
End Example.
