(* ===== verification/Loader.v ===== *)
(** * Loading the kernel (src/vm.rs)

    [Vm::load_kernel] parses the kernel's ELF file, fills in the boot
    information the guest reads, copies the segments into guest memory and
    applies the relocations; the helpers that determine the processor's
    frequency are part of it.  The ELF parser (goblin), the [cpuid] wrapper
    (raw_cpuid), the clocks and the file system are parameters.  The receiver is
    any implementation of the trait [Vm], described by a class with its laws. *)

From S2P Require Import Prelude Memory Consts.

(** ** Parameters *)

Inductive io_error :=
| InvalidData
| OsError (code : Z).

(** A parsed ELF file: the parts of [goblin::elf::Elf] the loader uses. *)
Record ProgramHeader := {
  p_type : Z;
  p_offset : Z;
  p_vaddr : Z;
  p_filesz : Z;
  p_memsz : Z;
}.

Record Reloc := {
  r_offset : Z;
  r_addend : option Z;
  r_type : Z;
}.

Record Elf := {
  libraries : list (list Z);
  e_type : Z;
  e_machine : Z;
  entry : Z;
  program_headers : list ProgramHeader;
  dynrelas : list Reloc;
}.

Class Goblin (GE : Type) := {
  elf_parse : list Z → result GE Elf;
  ET_DYN : Z;
  EM_X86_64 : Z;
  PT_LOAD : Z;
  PT_TLS : Z;
  R_X86_64_RELATIVE : Z;
}.

(** [raw_cpuid::CpuId]: the leaves the loader looks at. *)
Record TscInfo := {
  tsc_frequency : option Z;
  denominator : Z;
  numerator : Z;
}.

Class CpuId := {
  get_tsc_info : option TscInfo;
  processor_base_frequency : option Z;
  (** The hypervisor leaf, and the frequency in kHz it reports. *)
  get_hypervisor_info : option (option Z);
}.

(** The outside world of one call: the kernel's file, the seconds since 1970
    ([None] before it), and the two readings of the time-stamp counter. *)
Record host_env := HostEnv {
  fs_read : list Z → result io_error (list Z);
  now_secs : option Z;
  rdtsc_start : Z;
  rdtsc_end : Z;
}.

(** ** The trait [Vm] *)

Class Vm (V : Type) := {
  (** What [guest_mem] points to. *)
  guest_mem : V → mem;
  set_guest_mem : mem → V → V;
  get_offset : V → Z;
  set_offset : Z → V → V;
  get_entry_point : V → Z;
  set_entry_point : Z → V → V;
  boot_info_ptr : V → Z;
  set_boot_info : Z → V → V;
  vm_kernel_path : V → list Z;
  (** The four octets of an address. *)
  get_ip : V → option (list Z);
  get_gateway : V → option (list Z);
  get_mask : V → option (list Z);
  verbose : V → bool;
}.

Class VmLaws V `{Vm V} : Prop := {
  mem_set_mem m v : guest_mem (set_guest_mem m v) = m;
  mem_set_offset o v : guest_mem (set_offset o v) = guest_mem v;
  mem_set_entry e v : guest_mem (set_entry_point e v) = guest_mem v;
  mem_set_boot p v : guest_mem (set_boot_info p v) = guest_mem v;
  offset_set_mem m v : get_offset (set_guest_mem m v) = get_offset v;
  offset_set_offset o v : get_offset (set_offset o v) = o;
  offset_set_entry e v : get_offset (set_entry_point e v) = get_offset v;
  offset_set_boot p v : get_offset (set_boot_info p v) = get_offset v;
  entry_set_mem m v : get_entry_point (set_guest_mem m v) = get_entry_point v;
  entry_set_entry e v : get_entry_point (set_entry_point e v) = e;
  entry_set_boot p v : get_entry_point (set_boot_info p v) = get_entry_point v;
  boot_set_mem m v : boot_info_ptr (set_guest_mem m v) = boot_info_ptr v;
  boot_set_boot p v : boot_info_ptr (set_boot_info p v) = p;
  verbose_set_offset o v : verbose (set_offset o v) = verbose v;
  verbose_set_entry e v : verbose (set_entry_point e v) = verbose v;
  verbose_set_boot p v : verbose (set_boot_info p v) = verbose v;
  octets_ip v ip : get_ip v = Some ip → length ip = 4%nat;
  octets_gateway v ip : get_gateway v = Some ip → length ip = 4%nat;
  octets_mask v ip : get_mask v = Some ip → length ip = 4%nat;
}.

Create Rewrite HintDb vm.
#[export] Hint Rewrite @mem_set_mem @mem_set_offset @mem_set_entry @mem_set_boot
  @offset_set_mem @offset_set_offset @offset_set_entry @offset_set_boot
  @entry_set_mem @entry_set_entry @entry_set_boot @boot_set_mem @boot_set_boot
  @verbose_set_offset @verbose_set_entry @verbose_set_boot
  using typeclasses eauto : vm.

(** ** The boot information: offsets of the [repr(C)] structure *)

Module BootInfo.
Definition magic_number : Z := 0.
Definition version : Z := 4.
Definition base : Z := 8.
Definition limit : Z := 16.
Definition image_size : Z := 24.
Definition tls_start : Z := 32.
Definition tls_filesz : Z := 40.
Definition tls_memsz : Z := 48.
Definition current_stack_address : Z := 56.
Definition current_percore_address : Z := 64.
Definition host_logical_addr : Z := 72.
Definition boot_gtod : Z := 80.
Definition mb_info : Z := 88.
Definition cmdline : Z := 96.
Definition cmdsize : Z := 104.
Definition cpu_freq : Z := 112.
Definition boot_processor : Z := 116.
Definition cpu_online : Z := 120.
Definition possible_cpus : Z := 124.
Definition current_boot_id : Z := 128.
Definition uartport : Z := 132.
Definition single_kernel : Z := 134.
Definition uhyve : Z := 135.
Definition hcip : Z := 136.
Definition hcgateway : Z := 140.
Definition hcmask : Z := 144.

(** [BootInfo::new()]: the fields in memory order, without the padding. *)
Definition new : list Z :=
  le_split 4 0xC0DECAFE ++ le_split 4 1 ++
  le_split 8 0 ++ le_split 8 0 ++ le_split 8 0 ++
  le_split 8 0 ++ le_split 8 0 ++ le_split 8 0 ++
  le_split 8 0 ++ le_split 8 0 ++ le_split 8 0 ++ le_split 8 0 ++
  le_split 8 0 ++ le_split 8 0 ++ le_split 8 0 ++
  le_split 4 0 ++ le_split 4 (unot 32 0) ++ le_split 4 0 ++ le_split 4 0 ++ le_split 4 0 ++
  le_split 2 0 ++ [1] ++ [0] ++
  [255; 255; 255; 255] ++ [255; 255; 255; 255] ++ [255; 255; 255; 0].
End BootInfo.

(** ** Processor frequency *)

Definition MHZ_TO_HZ : Z := 1000000.
Definition KHZ_TO_HZ : Z := 1000.

(** Integer division panics on a zero divisor, in every build. *)
Definition rust_div (a b : Z) : exec Z := if b =? 0 then Panic else Ret (a / b).

Section Frequency.
Context `{Profile, CpuId}.

Definition detect_freq_from_cpuid : exec (result unit Z) :=
  match get_tsc_info with
  | None => Ret (Err ())
  | Some tinfo =>
      freq ← match tsc_frequency tinfo with
             | Some f => Ret (Some f)
             | None =>
                 match processor_base_frequency with
                 | None => Ret None
                 | Some base =>
                     cpu_base_freq_hz ← arith 64 (base * MHZ_TO_HZ);
                     x ← arith 64 (cpu_base_freq_hz * denominator tinfo);
                     crystal_hz ← rust_div x (numerator tinfo);
                     y ← arith 64 (crystal_hz * numerator tinfo);
                     z ← rust_div y (denominator tinfo);
                     Ret (Some z)
                 end
             end;
      let hz := default 0 freq in
      if 0 <? hz then
        mhz ← unwrap (try_into 32 (hz / MHZ_TO_HZ)); Ret (Ok mhz)
      else Ret (Err ())
  end.

Definition detect_freq_from_cpuid_hypervisor_info : exec (result unit Z) :=
  match get_hypervisor_info with
  | None => Ret (Err ())
  | Some None => Ret (Err ())
  | Some (Some khz) =>
      hz ← arith 64 (khz * KHZ_TO_HZ);
      mhz ← unwrap (try_into 32 (hz / MHZ_TO_HZ));
      if 0 <? mhz then Ret (Ok mhz) else Ret (Err ())
  end.

Definition get_cpu_frequency_from_os (env : host_env) : exec (result unit Z) :=
  if 0 <? rdtsc_start env then
    d ← arith 64 (rdtsc_end env - rdtsc_start env);
    x ← arith 64 (d * 100);
    mhz ← unwrap (try_into 32 (x / MHZ_TO_HZ));
    Ret (Ok mhz)
  else Ret (Err ()).

(** The three sources in the order [load_kernel] tries them. *)
Definition cpu_mhz (env : host_env) : exec Z :=
  r ← detect_freq_from_cpuid;
  match r with
  | Ok mhz => Ret mhz
  | Err _ =>
      r ← detect_freq_from_cpuid_hypervisor_info;
      match r with
      | Ok mhz => Ret mhz
      | Err _ =>
          r ← get_cpu_frequency_from_os env;
          match r with Ok mhz => Ret mhz | Err _ => Ret 0 end
      end
  end.

End Frequency.

(** ** [load_kernel] *)

Inductive LoadKernelError (GE : Type) :=
| Io (e : io_error)
| GoblinError (e : GE)
| InsufficientMemory.
Arguments Io {GE} e.
Arguments GoblinError {GE} e.
Arguments InsufficientMemory {GE}.

(** [Iterator::try_for_each], threading the state the closure mutates. *)
Fixpoint try_for_each {A S E} (f : A → S → exec (S * result E unit)) (l : list A) (s : S) :
  exec (S * result E unit) :=
  match l with
  | [] => Ret (s, Ok ())
  | a :: l' =>
      '(s', r) ← f a s;
      match r with Ok _ => try_for_each f l' s' | Err e => Ret (s', Err e) end
  end.

Section Load.
Context `{Profile, CpuId, Goblin GE, Vm V}.
(** [cfg!(target_os = "linux")]. *)
Context (target_linux : bool).

(** The closure over one program header; the state is guest memory and
    [image_size].  [vm_slice] is all of guest memory. *)
Definition load_segment (is_dyn : bool) (start_address : Z) (buffer : list Z)
    (ph : ProgramHeader) (s : mem * Z) : exec ((mem * Z) * result (LoadKernelError GE) unit) :=
  let '(m, image_size) := s in
  let vm_mem_length := mem_size m in
  let boot_info := mem_base m + BOOT_INFO_ADDR in
  if p_type ph =? PT_LOAD then
    region_start ← (if is_dyn then arith 64 (start_address + p_vaddr ph) else Ret (p_vaddr ph));
    region_end ← arith 64 (region_start + p_filesz ph);
    let kernel_start := p_offset ph in
    kernel_end ← arith 64 (kernel_start + p_filesz ph);
    memory_end ← arith 64 (region_start + p_memsz ph);
    if vm_mem_length <? memory_end then Ret (s, Err InsufficientMemory)
    else
      rust_assert ((region_start <=? region_end) && (region_end <=? vm_mem_length)) ;;
      rust_assert ((kernel_start <=? kernel_end) && (kernel_end <=? Z.of_nat (length buffer))) ;;
      rust_assert (region_end - region_start =? kernel_end - kernel_start) ;;
      m ← store_bytes m (mem_base m + region_start)
            (take (Z.to_nat (kernel_end - kernel_start)) (drop (Z.to_nat kernel_start) buffer));
      bss ← arith 64 (p_memsz ph - p_filesz ph);
      zero_end ← arith 64 (region_end + bss);
      rust_assert ((region_end <=? zero_end) && (zero_end <=? vm_mem_length)) ;;
      m ← store_bytes m (mem_base m + region_end)
            (replicate (Z.to_nat (zero_end - region_end)) 0);
      image_size ← (if is_dyn then arith 64 (p_vaddr ph + p_memsz ph)
                    else arith 64 (image_size + p_memsz ph));
      m ← store 8 m (boot_info + BootInfo.image_size) image_size;
      Ret ((m, image_size), Ok ())
  else if p_type ph =? PT_TLS then
    tls_start ← (if is_dyn then arith 64 (start_address + p_vaddr ph) else Ret (p_vaddr ph));
    m ← store 8 m (boot_info + BootInfo.tls_start) tls_start;
    m ← store 8 m (boot_info + BootInfo.tls_filesz) (p_filesz ph);
    m ← store 8 m (boot_info + BootInfo.tls_memsz) (p_memsz ph);
    Ret ((m, image_size), Ok ())
  else Ret (s, Ok ()).

Definition relocate (start_address : Z) (rela : Reloc) (m : mem) : exec mem :=
  if r_type rela =? R_X86_64_RELATIVE then
    a ← arith 64 (mem_base m + start_address);
    offset ← arith 64 (a + r_offset rela);
    v ← arith_signed 64 (start_address + default 0 (r_addend rela));
    store 8 m offset v
  else Ret m.

Definition store_octets (ip : option (list Z)) (field : Z) (m : mem) : exec mem :=
  match ip with
  | Some octets => store_bytes m (mem_base m + BOOT_INFO_ADDR + field) octets
  | None => Ret m
  end.

(** From [BootInfo::new()] to the frequency: the boot information. *)
Definition write_boot_info (env : host_env) (start_address : Z) (v : V) (m : mem) : exec mem :=
  let boot_info := mem_base m + BOOT_INFO_ADDR in
  m ← store 8 m (boot_info + BootInfo.base) start_address;
  m ← store 8 m (boot_info + BootInfo.limit) (mem_size m);
  m ← store 4 m (boot_info + BootInfo.possible_cpus) 1;
  m ← store 1 m (boot_info + BootInfo.uhyve) (if target_linux then 0x3 else 0x1);
  m ← store 4 m (boot_info + BootInfo.current_boot_id) 0;
  m ← store 2 m (boot_info + BootInfo.uartport) (if verbose v then UHYVE_UART_PORT else 0);
  stack ← arith 64 (start_address - KERNEL_STACK_SIZE);
  m ← store 8 m (boot_info + BootInfo.current_stack_address) stack;
  m ← store 8 m (boot_info + BootInfo.host_logical_addr) (mem_base m);
  secs ← unwrap (now_secs env);
  micros ← arith 64 (secs * 1000000);
  m ← store 8 m (boot_info + BootInfo.boot_gtod) micros;
  mhz ← cpu_mhz env;
  store 4 m (boot_info + BootInfo.cpu_freq) mhz.

Definition load_kernel (env : host_env) (v : V) : exec (V * result (LoadKernelError GE) unit) :=
  match fs_read env (vm_kernel_path v) with
  | Err e => Ret (v, Err (Io e))
  | Ok buffer =>
  match elf_parse buffer with
  | Err e => Ret (v, Err (GoblinError e))
  | Ok elf =>
  if negb (bool_decide (libraries elf = [])) then Ret (v, Err (Io InvalidData))
  else
  let is_dyn := e_type elf =? ET_DYN in
  if negb (e_machine elf =? EM_X86_64) then Ret (v, Err (Io InvalidData))
  else
  let m := guest_mem v in
  let boot_info := mem_base m + BOOT_INFO_ADDR in
  m ← store_bytes m boot_info BootInfo.new;
  m ← store_octets (get_ip v) BootInfo.hcip m;
  m ← store_octets (get_gateway v) BootInfo.hcgateway m;
  m ← store_octets (get_mask v) BootInfo.hcmask m;
  '(start_address, elf_entry) ←
    (if is_dyn then e ← arith 64 (0x400000 + entry elf); Ret (0x400000, e)
     else Ret (0x800000, entry elf));
  let v := set_boot_info boot_info (set_entry_point elf_entry (set_offset start_address v)) in
  m ← write_boot_info env start_address v m;
  '((m, _), r) ← try_for_each (load_segment is_dyn start_address buffer)
                   (program_headers elf) (m, 0);
  match r with
  | Err e => Ret (set_guest_mem m v, Err e)
  | Ok _ =>
      m ← for_each (relocate start_address) (dynrelas elf) m;
      Ret (set_guest_mem m v, Ok ())
  end
  end
  end.

End Load.

(** ** Loops that may return early *)

Lemma try_for_each_inv {A S E} (P : list A → S → Prop)
    (f : A → S → exec (S * result E unit)) l s :
  P [] s →
  (∀ pre a post s, l = pre ++ a :: post → P pre s →
     ∃ s', f a s = Ret (s', Ok ()) ∧ P (pre ++ [a]) s') →
  ∃ s', try_for_each f l s = Ret (s', Ok ()) ∧ P l s'.
Proof.
  intros H0 Hstep. cut (∀ pre post s, l = pre ++ post → P pre s →
    ∃ s', try_for_each f post s = Ret (s', Ok ()) ∧ P l s').
  { intros Hc. by apply (Hc []). }
  intros pre post. revert pre. induction post as [|a post IH]; intros pre s1 Hl HP.
  - rewrite app_nil_r in Hl. subst. by exists s1.
  - destruct (Hstep pre a post s1 Hl HP) as (s2 & Hf & HP2).
    cbn. rewrite Hf. cbn. apply (IH (pre ++ [a])); [|done].
    by rewrite <- app_assoc.
Qed.

Lemma try_for_each_app {A S E} (f : A → S → exec (S * result E unit)) l1 l2 s :
  try_for_each f (l1 ++ l2) s =
    ('(s', r) ← try_for_each f l1 s;
     match r with Ok _ => try_for_each f l2 s' | Err e => Ret (s', Err e) end).
Proof.
  revert s. induction l1 as [|a l1 IH]; intros s; cbn; [done|].
  destruct (f a s) as [[s' [u|e]]| |]; cbn; [apply IH|done..].
Qed.

(** A loop that returns early does so at its first element that fails. *)
Lemma try_for_each_Err {A S E} (f : A → S → exec (S * result E unit)) l s s' e :
  try_for_each f l s = Ret (s', Err e) →
  ∃ pre a post s1, l = pre ++ a :: post ∧
    try_for_each f pre s = Ret (s1, Ok ()) ∧ f a s1 = Ret (s', Err e).
Proof.
  revert s. induction l as [|a l IH]; intros s Hl; cbn in Hl; [done|].
  destruct (f a s) as [[s1 [[]|e1]]| |] eqn:Hf; cbn in Hl; [|injection Hl as -> ->|done..].
  - destruct (IH s1 Hl) as (pre & b & post & s2 & -> & Hpre & Hb).
    exists (a :: pre), b, post, s2. cbn. by rewrite Hf.
  - by exists [], a, l, s.
Qed.

Lemma try_for_each_Ok {A S E} (P : S → Prop) (Q : A → Prop)
    (f : A → S → exec (S * result E unit)) l s s' :
  (∀ a s s', P s → f a s = Ret (s', Ok ()) → P s' ∧ Q a) →
  P s → try_for_each f l s = Ret (s', Ok ()) → P s' ∧ Forall Q l.
Proof.
  intros Hf. revert s. induction l as [|a l IH]; intros s HP Hl; cbn in Hl.
  - injection Hl as ->. by split.
  - destruct (f a s) as [[s1 [[]|e]]| |] eqn:Ha; cbn in Hl; [|done..].
    destruct (Hf _ _ _ HP Ha) as [HP1 HQ]. destruct (IH s1 HP1 Hl) as [??]. split; auto.
Qed.

Lemma safe_try_for_each {A S E} (P : S → Prop) (Q : A → Prop)
    (f : A → S → exec (S * result E unit)) l s :
  P s → Forall Q l → (∀ a s, Q a → P s → safe (λ r, P r.1) (f a s)) →
  safe (λ r, P r.1) (try_for_each f l s).
Proof.
  intros HP Hl Hf. revert s HP. induction Hl as [|a l Ha _ IH]; intros s HP; cbn; [done|].
  apply (safe_bind (λ r, P r.1)); [by apply Hf|]. intros [s' [u|e]] HP'; [by apply IH|done].
Qed.

Ltac boot_offset :=
  unfold BootInfo.magic_number, BootInfo.base, BootInfo.limit, BootInfo.image_size,
    BootInfo.tls_start, BootInfo.tls_filesz, BootInfo.tls_memsz,
    BootInfo.current_stack_address, BootInfo.host_logical_addr, BootInfo.boot_gtod,
    BootInfo.cpu_freq, BootInfo.possible_cpus, BootInfo.uartport, BootInfo.uhyve,
    BootInfo.hcip, BootInfo.hcgateway, BootInfo.hcmask; lia.

(** ** Segments *)

Section Segments.
Context `{Profile, Goblin GE} (is_dyn : bool) (start_address : Z) (buffer : list Z).

(** Where a segment belongs in guest memory, and what belongs there: the
    bytes of the file, then zeros. *)
Definition segment_start (ph : ProgramHeader) : Z :=
  if is_dyn then start_address + p_vaddr ph else p_vaddr ph.

Definition segment_image (ph : ProgramHeader) : list Z :=
  take (Z.to_nat (p_filesz ph)) (drop (Z.to_nat (p_offset ph)) buffer) ++
  replicate (Z.to_nat (p_memsz ph - p_filesz ph)) 0.

(** The header's fields are 64-bit unsigned integers. *)
Definition header_wf (ph : ProgramHeader) : Prop :=
  fits 64 (p_vaddr ph) ∧ fits 64 (p_offset ph) ∧ fits 64 (p_filesz ph) ∧ fits 64 (p_memsz ph).
#[export] Instance header_wf_dec ph : Decision (header_wf ph).
Proof. unfold header_wf. apply _. Defined.

(** A loadable segment fits the guest's memory and the file has its bytes. *)
Definition segment_fits (size : Z) (ph : ProgramHeader) : Prop :=
  header_wf ph ∧ segment_start ph < 2 ^ 64 ∧
  (p_type ph = PT_LOAD →
     segment_start ph + p_memsz ph ≤ size ∧ p_filesz ph ≤ p_memsz ph ∧
     p_offset ph + p_filesz ph ≤ Z.of_nat (length buffer)).
#[export] Instance segment_fits_dec size ph : Decision (segment_fits size ph).
Proof. unfold segment_fits. apply _. Defined.

Definition next_image_size (image_size : Z) (ph : ProgramHeader) : Z :=
  if is_dyn then p_vaddr ph + p_memsz ph else image_size + p_memsz ph.

(** Guest memory that holds the boot information. *)
Definition boot_mem (m : mem) : Prop :=
  0 < mem_base m ∧ BOOT_INFO_ADDR + 152 ≤ mem_size m ∧ mem_base m + mem_size m ≤ 2 ^ 47.

Definition boot_ptr (m : mem) : Z := mem_base m + BOOT_INFO_ADDR.

(** *** All headers: the writes of the loop, in order *)

Definition segment_write (base : Z) (ph : ProgramHeader) : Z * list Z :=
  (base + segment_start ph, segment_image ph).

Definition image_after (image_size : Z) (ph : ProgramHeader) : Z :=
  if p_type ph =? PT_LOAD then next_image_size image_size ph else image_size.

Definition header_writes (base image_size : Z) (ph : ProgramHeader) : list (Z * list Z) :=
  let boot_info := base + BOOT_INFO_ADDR in
  if p_type ph =? PT_LOAD then
    [segment_write base ph;
     (boot_info + BootInfo.image_size, le_split 8 (next_image_size image_size ph))]
  else if p_type ph =? PT_TLS then
    [(boot_info + BootInfo.tls_start, le_split 8 (segment_start ph));
     (boot_info + BootInfo.tls_filesz, le_split 8 (p_filesz ph));
     (boot_info + BootInfo.tls_memsz, le_split 8 (p_memsz ph))]
  else [].

Fixpoint headers_writes (base image_size : Z) (phs : list ProgramHeader) : list (Z * list Z) :=
  match phs with
  | [] => []
  | ph :: phs' =>
      header_writes base image_size ph ++ headers_writes base (image_after image_size ph) phs'
  end.

Definition is_load (ph : ProgramHeader) : Prop := p_type ph = PT_LOAD.
Definition is_tls (ph : ProgramHeader) : Prop := p_type ph = PT_TLS.
#[export] Instance is_load_dec ph : Decision (is_load ph).
Proof. unfold is_load. apply _. Defined.
#[export] Instance is_tls_dec ph : Decision (is_tls ph).
Proof. unfold is_tls. apply _. Defined.

Definition segments (base : Z) (phs : list ProgramHeader) : list (Z * list Z) :=
  segment_write base <$> filter is_load phs.

Lemma headers_writes_app base image_size l1 l2 :
  headers_writes base image_size (l1 ++ l2) =
  headers_writes base image_size l1 ++ headers_writes base (foldl image_after image_size l1) l2.
Proof.
  revert image_size. induction l1 as [|ph l1 IH]; intros image_size; cbn; [done|].
  by rewrite IH, app_assoc.
Qed.

(** Besides the segments, the loop writes to four fields. *)
Lemma elem_of_headers_writes base image_size phs w :
  w ∈ headers_writes base image_size phs →
  w ∈ segments base phs ∨
  (Exists is_load phs ∧ length w.2 = 8%nat ∧
     w.1 = base + BOOT_INFO_ADDR + BootInfo.image_size) ∨
  (Exists is_tls phs ∧ length w.2 = 8%nat ∧
     base + BOOT_INFO_ADDR + BootInfo.tls_start ≤ w.1 ≤
     base + BOOT_INFO_ADDR + BootInfo.tls_memsz).
Proof.
  revert image_size. induction phs as [|ph phs IH]; intros image_size; cbn [headers_writes].
  { by intros ?%not_elem_of_nil. }
  unfold segments. rewrite filter_cons, !Exists_cons. intros [Hw|Hw]%elem_of_app.
  - unfold header_writes in Hw. case_decide as Hl; unfold is_load, is_tls in *.
    + rewrite (proj2 (Z.eqb_eq _ _) Hl) in Hw.
      apply elem_of_cons in Hw as [->| ->%list_elem_of_singleton]; [left; left|right; left].
      split; [by left|done].
    + rewrite (proj2 (Z.eqb_neq _ _) Hl) in Hw. right. right.
      destruct (Z.eqb_spec (p_type ph) PT_TLS); [|by apply not_elem_of_nil in Hw].
      rewrite !elem_of_cons in Hw. unfold BootInfo.tls_start, BootInfo.tls_filesz, BootInfo.tls_memsz in *.
      destruct Hw as [->|[->|[->|Hw%not_elem_of_nil]]]; [| | |done];
        (split; [by left|split; [done|cbn [fst]; lia]]).
  - apply IH in Hw as [Hw|[(?&?)|(?&?)]]; [left|right; left; tauto|right; right; tauto].
    case_decide; [by right|done].
Qed.

(** Segments apart from one another and from the boot information. *)
Definition segments_apart (base : Z) (phs : list ProgramHeader) : Prop :=
  pairwise_apart (segments base phs) ∧
  Forall (λ w, apart w.1 (Z.of_nat (length w.2)) (base + BOOT_INFO_ADDR) 152)
    (segments base phs).
#[export] Instance segments_apart_dec base phs : Decision (segments_apart base phs).
Proof. unfold segments_apart. apply _. Defined.

Lemma segment_loaded base image_size phs ph m :
  segments_apart base phs → ph ∈ phs → is_load ph →
  peeks (writes (headers_writes base image_size phs) m)
    (base + segment_start ph) (length (segment_image ph)) = segment_image ph.
Proof.
  intros [Hap Hboot] Hin Hl. revert image_size m.
  induction phs as [|ph' phs IH]; intros image_size m; [by apply not_elem_of_nil in Hin|].
  cbn [headers_writes]. revert Hap Hboot. unfold segments. rewrite filter_cons.
  case_decide as Hl'; fold (segments base phs); intros Hap Hboot.
  - cbn in Hap, Hboot. destruct Hap as [Hap' Hap]. apply Forall_cons in Hboot as [Hb' Hboot].
    apply elem_of_cons in Hin as [->|Hin]; [|rewrite writes_app; by apply IH].
    unfold header_writes. rewrite (proj2 (Z.eqb_eq _ _) Hl').
    apply (peeks_writes_last [] (segment_write base ph')). apply Forall_cons. split.
    { cbn in Hb'. unfold write_apart, apart, BootInfo.image_size in *. cbn in *. lia. }
    apply Forall_forall. intros w Hw%elem_of_headers_writes. rewrite Forall_forall in Hap'.
    destruct Hw as [Hw|[(_ & Hlen & Hw)|(_ & Hlen & Hw)]]; [by apply Hap'| |];
      unfold write_apart, apart, BootInfo.image_size, BootInfo.tls_start, BootInfo.tls_memsz in *;
      rewrite Hlen; cbn in *; lia.
  - apply elem_of_cons in Hin as [->|Hin]; [done|]. rewrite writes_app. by apply IH.
Qed.

(** The other fields of the boot information are left alone. *)
Lemma boot_field_kept n base image_size phs m k :
  segments_apart base phs → 0 ≤ k → k + Z.of_nat n ≤ 152 →
  k + Z.of_nat n ≤ 24 ∨ 56 ≤ k →
  load n (writes (headers_writes base image_size phs) m) (base + BOOT_INFO_ADDR + k) =
  load n m (base + BOOT_INFO_ADDR + k).
Proof.
  intros [_ Hboot] Hk Hn Hout. apply load_writes_out. apply Forall_forall.
  intros w [Hw|[(_ & Hlen & Hw)|(_ & Hlen & Hw)]]%elem_of_headers_writes.
  - rewrite Forall_forall in Hboot. specialize (Hboot w Hw). unfold apart in *. lia.
  - unfold apart, BootInfo.image_size in *. rewrite Hlen. lia.
  - unfold apart, BootInfo.tls_start, BootInfo.tls_memsz in *. rewrite Hlen. lia.
Qed.

Lemma load_field_last ws1 a v ws2 m :
  valid m a 8 → fits 64 v → Forall (write_apart (a, le_split 8 v)) ws2 →
  load 8 (writes (ws1 ++ (a, le_split 8 v) :: ws2) m) a = Ret v.
Proof.
  intros Hv Hf Hap. rewrite load_valid by (by apply valid_writes).
  pose proof (peeks_writes_last ws1 (a, le_split 8 v) ws2 m Hap) as Hp.
  cbn [fst snd] in Hp. rewrite length_le_split in Hp. rewrite Hp, le_combine_split.
  by rewrite wrap_fits.
Qed.

(** The fields of the boot information a later header may overwrite. *)
Lemma headers_spare base image_size l k v :
  Forall (λ w, apart w.1 (Z.of_nat (length w.2)) (base + BOOT_INFO_ADDR) 152)
    (segments base l) →
  k = BootInfo.image_size ∧ ¬ Exists is_load l ∨
  BootInfo.tls_start ≤ k ≤ BootInfo.tls_memsz ∧ ¬ Exists is_tls l →
  Forall (write_apart (base + BOOT_INFO_ADDR + k, le_split 8 v))
    (headers_writes base image_size l).
Proof.
  intros Hboot Hk. apply Forall_forall. intros w Hw%elem_of_headers_writes.
  unfold write_apart, apart, BootInfo.image_size, BootInfo.tls_start, BootInfo.tls_memsz in *.
  cbn [fst snd]. rewrite length_le_split.
  destruct Hw as [Hw|[(He & Hlen & Hw)|(He & Hlen & Hw)]].
  - rewrite Forall_forall in Hboot. specialize (Hboot w Hw). unfold apart in Hboot. lia.
  - rewrite Hlen. destruct Hk as [[_ Hk]|Hk]; [done|]. lia.
  - rewrite Hlen. destruct Hk as [Hk|[_ Hk]]; [lia|done].
Qed.

Lemma segments_app base l1 l2 : segments base (l1 ++ l2) = segments base l1 ++ segments base l2.
Proof. unfold segments. by rewrite filter_app, fmap_app. Qed.

Lemma segments_apart_suffix base l1 l2 :
  segments_apart base (l1 ++ l2) →
  Forall (λ w, apart w.1 (Z.of_nat (length w.2)) (base + BOOT_INFO_ADDR) 152) (segments base l2).
Proof. intros [_ Hb]. rewrite segments_app in Hb. by apply Forall_app in Hb as [_ Hb]. Qed.

Lemma image_size_field base image_size l1 ph l2 m :
  segments_apart base (l1 ++ ph :: l2) → is_load ph → ¬ Exists is_load l2 →
  valid m (base + BOOT_INFO_ADDR) 152 →
  fits 64 (next_image_size (foldl image_after image_size l1) ph) →
  load 8 (writes (headers_writes base image_size (l1 ++ ph :: l2)) m)
    (base + BOOT_INFO_ADDR + BootInfo.image_size) =
  Ret (next_image_size (foldl image_after image_size l1) ph).
Proof.
  intros Hap Hl Hl2 Hv Hf. rewrite cons_middle in Hap. rewrite app_assoc in Hap.
  apply segments_apart_suffix in Hap. rewrite headers_writes_app. cbn [headers_writes].
  unfold header_writes. rewrite (proj2 (Z.eqb_eq _ _) Hl).
  set (rest := headers_writes base _ l2).
  change ([segment_write base ph; ?w] ++ rest) with ([segment_write base ph] ++ w :: rest).
  rewrite app_assoc. apply load_field_last; [|done|].
  - unfold valid, BootInfo.image_size in *. lia.
  - apply headers_spare; [done|]. by left.
Qed.

Lemma tls_fields base image_size l1 ph l2 m :
  segments_apart base (l1 ++ ph :: l2) → PT_LOAD ≠ PT_TLS → is_tls ph → ¬ Exists is_tls l2 →
  valid m (base + BOOT_INFO_ADDR) 152 → header_wf ph → fits 64 (segment_start ph) →
  let m' := writes (headers_writes base image_size (l1 ++ ph :: l2)) m in
  load 8 m' (base + BOOT_INFO_ADDR + BootInfo.tls_start) = Ret (segment_start ph) ∧
  load 8 m' (base + BOOT_INFO_ADDR + BootInfo.tls_filesz) = Ret (p_filesz ph) ∧
  load 8 m' (base + BOOT_INFO_ADDR + BootInfo.tls_memsz) = Ret (p_memsz ph).
Proof.
  intros Hap Hne Ht Hl2 Hv (_ & _ & Hf & Hm) Hs m'. unfold m'. clear m'.
  rewrite cons_middle, app_assoc in Hap.
  apply segments_apart_suffix in Hap. rewrite headers_writes_app. cbn [headers_writes].
  unfold header_writes. unfold is_tls in Ht. rewrite Ht.
  rewrite (proj2 (Z.eqb_neq _ _)), Z.eqb_refl by done.
  set (rest := headers_writes base _ l2).
  set (w1 := (_, le_split 8 (segment_start ph))). set (w2 := (_, le_split 8 (p_filesz ph))).
  set (w3 := (_, le_split 8 (p_memsz ph))).
  assert (∀ k v, BootInfo.tls_start ≤ k ≤ BootInfo.tls_memsz →
    Forall (write_apart (base + BOOT_INFO_ADDR + k, le_split 8 v)) rest) as Hrest
    by (intros; apply headers_spare; [done|by right]).
  unfold BootInfo.tls_start, BootInfo.tls_filesz, BootInfo.tls_memsz in *.
  split_and!.
  - apply (load_field_last _ _ _ (w2 :: w3 :: rest)); [unfold valid in *; lia|done|].
    repeat (apply Forall_cons; split; [unfold write_apart, apart; cbn; lia|]). apply Hrest. lia.
  - change ([w1; w2; w3] ++ rest) with ([w1] ++ w2 :: w3 :: rest). rewrite app_assoc.
    apply load_field_last; [unfold valid in *; lia|done|].
    apply Forall_cons; split; [unfold write_apart, apart; cbn; lia|]. apply Hrest. lia.
  - change ([w1; w2; w3] ++ rest) with ([w1; w2] ++ w3 :: rest). rewrite app_assoc.
    apply load_field_last; [unfold valid in *; lia|done|]. apply Hrest. lia.
Qed.

Lemma image_after_other image_size phs :
  ¬ Exists is_load phs → foldl image_after image_size phs = image_size.
Proof.
  intros Hno. induction phs as [|ph phs IH]; [done|]. rewrite Exists_cons in Hno.
  cbn [foldl]. unfold image_after at 2. rewrite (proj2 (Z.eqb_neq _ _)) by tauto. tauto.
Qed.

Definition total_memsz (phs : list ProgramHeader) : Z :=
  foldr (λ ph n, p_memsz ph + n) 0 (filter is_load phs).

(** A static kernel's image size is the sum over its segments. *)
Lemma image_size_static image_size phs :
  is_dyn = false → foldl image_after image_size phs = image_size + total_memsz phs.
Proof.
  intros Hdyn. revert image_size. induction phs as [|ph phs IH]; intros image_size;
    cbn [foldl]; [cbn; lia|].
  rewrite IH. unfold image_after, next_image_size, total_memsz. rewrite Hdyn, filter_cons.
  destruct (Z.eqb_spec (p_type ph) PT_LOAD).
  - rewrite decide_True by done. cbn [foldr]. lia.
  - by rewrite decide_False by done.
Qed.

(** *** The loop *)

Hypothesis Hstart : 0 ≤ start_address < 2 ^ 32.
Hypothesis Hbuffer : Z.of_nat (length buffer) < 2 ^ 63.

Lemma length_segment_image ph size :
  segment_fits size ph → p_type ph = PT_LOAD →
  Z.of_nat (length (segment_image ph)) = p_memsz ph.
Proof.
  intros ((Hv & Ho & Hf & Hm) & _ & Hl) Ht. destruct (Hl Ht) as (? & ? & ?).
  unfold segment_image, fits in *. rewrite length_app, length_take, length_drop, length_replicate.
  lia.
Qed.

Lemma load_segment_load ph m image_size :
  boot_mem m → segment_fits (mem_size m) ph → p_type ph = PT_LOAD →
  0 ≤ next_image_size image_size ph < 2 ^ 64 →
  load_segment (GE := GE) is_dyn start_address buffer ph (m, image_size) =
    Ret ((write_bytes (write_bytes m (mem_base m + segment_start ph) (segment_image ph))
            (boot_ptr m + BootInfo.image_size)
            (le_split 8 (next_image_size image_size ph)),
          next_image_size image_size ph), Ok ()).
Proof.
  intros (Hb & Hs & He) ((Hv & Ho & Hf & Hm) & Hst & Hl) Ht Himg.
  destruct (Hl Ht) as (Hend & Hfm & Hfile). unfold fits in *.
  unfold load_segment. rewrite (proj2 (Z.eqb_eq _ _) Ht).
  assert ((if is_dyn then arith 64 (start_address + p_vaddr ph) else Ret (p_vaddr ph)) =
    Ret (segment_start ph)) as ->.
  { unfold segment_start in *. destruct is_dyn; [|done]. by rewrite arith_fits by (unfold fits; lia). }
  assert (0 ≤ segment_start ph) by (unfold segment_start; destruct is_dyn; lia).
  cbn [mbind exec_bind]. arith_ok.
  rewrite (proj2 (Z.ltb_ge _ _)) by lia.
  rewrite !(proj2 (Z.leb_le _ _)), (proj2 (Z.eqb_eq _ _)) by lia.
  cbn [andb rust_assert mbind exec_bind].
  replace (p_offset ph + p_filesz ph - p_offset ph) with (p_filesz ph) by lia.
  set (file := take _ _). assert (Z.of_nat (length file) = p_filesz ph) as Hfl.
  { unfold file. rewrite length_take, length_drop. lia. }
  rewrite store_bytes_valid by (unfold valid; lia). cbn [mbind exec_bind].
  rewrite store_bytes_valid by
    (unfold valid; rewrite length_replicate; cbn [mem_base mem_size write_bytes]; lia).
  cbn [mbind exec_bind]. rewrite base_write.
  replace (mem_base m + (segment_start ph + p_filesz ph))
    with (mem_base m + segment_start ph + Z.of_nat (length file)) by lia.
  rewrite write_app.
  replace (segment_start ph + p_filesz ph + (p_memsz ph - p_filesz ph) -
    (segment_start ph + p_filesz ph)) with (p_memsz ph - p_filesz ph) by lia.
  assert ((if is_dyn then arith 64 (p_vaddr ph + p_memsz ph)
           else arith 64 (image_size + p_memsz ph)) = Ret (next_image_size image_size ph)) as ->.
  { unfold next_image_size in *. by destruct is_dyn; rewrite arith_fits. }
  cbn [mbind exec_bind]. rewrite store_valid; [done|].
  unfold valid, BOOT_INFO_ADDR, BootInfo.image_size in *. cbn. lia.
Qed.

Lemma load_segment_writes ph m image_size :
  boot_mem m → segment_fits (mem_size m) ph →
  (p_type ph = PT_LOAD → 0 ≤ next_image_size image_size ph < 2 ^ 64) →
  load_segment (GE := GE) is_dyn start_address buffer ph (m, image_size) =
    Ret ((writes (header_writes (mem_base m) image_size ph) m, image_after image_size ph), Ok ()).
Proof.
  intros Hboot Hfits Himg. unfold header_writes, image_after.
  destruct (Z.eqb_spec (p_type ph) PT_LOAD) as [Ht|Ht].
  { rewrite load_segment_load; auto. }
  unfold load_segment. rewrite (proj2 (Z.eqb_neq _ _) Ht).
  destruct (p_type ph =? PT_TLS); [|done].
  destruct Hboot as (Hb & Hs & He). destruct Hfits as ((Hv & _) & Hst & _). unfold fits in *.
  assert ((if is_dyn then arith 64 (start_address + p_vaddr ph) else Ret (p_vaddr ph)) =
    Ret (segment_start ph)) as ->.
  { unfold segment_start in *. destruct is_dyn; [|done]. by rewrite arith_fits by (unfold fits; lia). }
  cbn [mbind exec_bind].
  unfold BootInfo.tls_start, BootInfo.tls_filesz, BootInfo.tls_memsz, BOOT_INFO_ADDR in *.
  do 3 (rewrite store_valid by (unfold valid; rewrite ?base_write, ?size_write; lia);
    cbn [mbind exec_bind]).
  done.
Qed.

Lemma image_after_bound size image_size ph :
  segment_fits size ph → size ≤ 2 ^ 47 → 0 ≤ image_size →
  0 ≤ image_after image_size ph ≤ image_size + 2 ^ 47 ∧
  (p_type ph = PT_LOAD → 0 ≤ next_image_size image_size ph ≤ image_size + 2 ^ 47).
Proof.
  intros ((Hv & Ho & Hf & Hm) & Hst & Hl) Hsize Himg.
  unfold image_after, next_image_size, segment_start, fits in *.
  destruct (Z.eqb_spec (p_type ph) PT_LOAD) as [Ht|Ht]; [|lia].
  destruct (Hl Ht) as (? & ? & ?). destruct is_dyn; lia.
Qed.

Lemma image_fold_bound size phs image_size :
  Forall (segment_fits size) phs → size ≤ 2 ^ 47 → 0 ≤ image_size →
  0 ≤ foldl image_after image_size phs ≤ image_size + Z.of_nat (length phs) * 2 ^ 47.
Proof.
  intros Hfits Hsize. revert image_size.
  induction Hfits as [|ph phs Hph _ IH]; intros image_size Himg; cbn [foldl length]; [lia|].
  destruct (image_after_bound size image_size ph) as [Ha _]; [done..|].
  specialize (IH (image_after image_size ph)). lia.
Qed.

Lemma segments_loop phs m image_size :
  boot_mem m → Forall (segment_fits (mem_size m)) phs →
  0 ≤ image_size → image_size + Z.of_nat (length phs) * 2 ^ 47 < 2 ^ 64 →
  try_for_each (load_segment (GE := GE) is_dyn start_address buffer) phs (m, image_size) =
    Ret ((writes (headers_writes (mem_base m) image_size phs) m,
          foldl image_after image_size phs), Ok ()).
Proof.
  intros Hboot Hfits. revert m image_size Hboot Hfits.
  induction phs as [|ph phs IH]; intros m image_size Hboot Hfits Himg Hlen; [done|].
  apply Forall_cons in Hfits as [Hph Hfits].
  destruct (image_after_bound (mem_size m) image_size ph) as [Ha Hn];
    [done|destruct Hboot as (? & _ & ?); lia|done|].
  cbn [length try_for_each headers_writes foldl] in *.
  rewrite load_segment_writes by (done || (intros; specialize (Hn ltac:(done)); lia)).
  cbn [mbind exec_bind]. rewrite writes_app, IH; rewrite ?writes_base, ?writes_size; try done.
  - unfold boot_mem in *. by rewrite writes_base, writes_size.
  - lia.
  - lia.
Qed.

(** The bounds checks of the slices keep every access inside guest memory,
    whatever the headers say and whether or not arithmetic wraps around. *)
Lemma load_segment_safe base size ph s :
  boot_mem s.1 → mem_base s.1 = base → mem_size s.1 = size → header_wf ph →
  safe (λ r, boot_mem r.1.1 ∧ mem_base r.1.1 = base ∧ mem_size r.1.1 = size)
    (load_segment (GE := GE) is_dyn start_address buffer ph s).
Proof.
  destruct s as [m image_size]. cbn [fst]. intros Hm Hbase Hsize (Hv & Ho & Hf & Hz).
  pose proof Hm as (Hb & Hs & He). unfold load_segment.
  assert (safe (fits 64)
    (if is_dyn then arith 64 (start_address + p_vaddr ph) else Ret (p_vaddr ph))) as Hstart'
    by (destruct is_dyn; [by apply safe_arith|done]).
  assert (∀ k n, 0 ≤ k → k + n ≤ 152 → valid m (mem_base m + BOOT_INFO_ADDR + k) n) as Hfield
    by (intros; unfold valid, BOOT_INFO_ADDR in *; lia).
  destruct (p_type ph =? PT_LOAD); [|destruct (p_type ph =? PT_TLS); [|done]].
  - apply (safe_bind _ _ _ _ Hstart'). intros region_start Hrs.
    apply (safe_bind _ _ _ _ (safe_arith 64 _ ltac:(done))). intros region_end Hre.
    apply (safe_bind _ _ _ _ (safe_arith 64 _ ltac:(done))). intros kernel_end Hke.
    apply (safe_bind _ _ _ _ (safe_arith 64 _ ltac:(done))). intros memory_end Hme.
    destruct (mem_size m <? memory_end); [done|].
    apply (safe_bind _ _ _ _ (safe_assert _)). intros _ [H1%Z.leb_le H2%Z.leb_le]%andb_prop.
    apply (safe_bind _ _ _ _ (safe_assert _)). intros _ [H3%Z.leb_le H4%Z.leb_le]%andb_prop.
    apply (safe_bind _ _ _ _ (safe_assert _)). intros _ H5%Z.eqb_eq. unfold fits in *.
    eapply safe_bind; [apply safe_store_bytes; rewrite length_take, length_drop; unfold valid; lia|].
    intros m1 ->. apply (safe_bind _ _ _ _ (safe_arith 64 _ ltac:(done))). intros bss Hbss.
    apply (safe_bind _ _ _ _ (safe_arith 64 _ ltac:(done))). intros zero_end Hze.
    apply (safe_bind _ _ _ _ (safe_assert _)). intros _ [H6%Z.leb_le H7%Z.leb_le]%andb_prop.
    eapply safe_bind;
      [apply safe_store_bytes; rewrite length_replicate; unfold valid;
       rewrite ?base_write, ?size_write; lia|].
    intros m2 ->. apply (safe_bind (fits 64)); [destruct is_dyn; by apply safe_arith|].
    intros image_size' _. eapply safe_bind; [apply safe_store, Hfield; boot_offset|].
    by intros m3 ->.
  - apply (safe_bind _ _ _ _ Hstart'). intros tls Htls.
    do 3 (eapply safe_bind; [apply safe_store, Hfield; boot_offset|]; intros ? ->). done.
Qed.

End Segments.

(** ** Relocations *)

Section Relocations.
Context `{Profile, Goblin GE} (start_address : Z).

Definition is_relative (rela : Reloc) : Prop := r_type rela = R_X86_64_RELATIVE.
#[export] Instance is_relative_dec rela : Decision (is_relative rela).
Proof. unfold is_relative. apply _. Defined.

Definition reloc_value (rela : Reloc) : Z := start_address + default 0 (r_addend rela).

Definition reloc_write (base : Z) (rela : Reloc) : Z * list Z :=
  (base + start_address + r_offset rela, le_split 8 (reloc_value rela)).

Definition reloc_writes (base : Z) (relas : list Reloc) : list (Z * list Z) :=
  reloc_write base <$> filter is_relative relas.

(** The arithmetic stays in range. *)
Definition reloc_wf (base : Z) (rela : Reloc) : Prop :=
  0 ≤ r_offset rela ∧ base + start_address + r_offset rela < 2 ^ 64 ∧
  - 2 ^ 63 ≤ reloc_value rela < 2 ^ 63.
#[export] Instance reloc_wf_dec base rela : Decision (reloc_wf base rela).
Proof. unfold reloc_wf. apply _. Defined.

(** The relocated word is in the guest's memory. *)
Definition reloc_inside (m : mem) (rela : Reloc) : Prop :=
  is_relative rela → valid m (mem_base m + start_address + r_offset rela) 8.
#[export] Instance reloc_inside_dec m rela : Decision (reloc_inside m rela).
Proof. unfold reloc_inside. apply _. Defined.

Lemma relocate_spec m rela :
  0 ≤ mem_base m → 0 ≤ start_address → reloc_wf (mem_base m) rela →
  relocate start_address rela m =
    if decide (is_relative rela) then
      if decide (valid m (mem_base m + start_address + r_offset rela) 8)
      then Ret (write_bytes m (reloc_write (mem_base m) rela).1 (reloc_write (mem_base m) rela).2)
      else Fault
    else Ret m.
Proof.
  intros Hb Hs (Ho & Ha & Hv). unfold relocate, is_relative.
  case_decide as Hr; [|by rewrite (proj2 (Z.eqb_neq _ _) Hr)].
  rewrite (proj2 (Z.eqb_eq _ _) Hr). arith_ok. unfold reloc_value in Hv. arith_signed_ok.
  unfold store, store_bytes. by rewrite length_le_split.
Qed.

Lemma relocs_loop m relas :
  0 ≤ mem_base m → 0 ≤ start_address →
  Forall (reloc_wf (mem_base m)) relas → Forall (reloc_inside m) relas →
  for_each (relocate start_address) relas m = Ret (writes (reloc_writes (mem_base m) relas) m).
Proof.
  intros Hb Hs Hwf. revert m Hb Hwf. induction relas as [|rela relas IH]; intros m Hb Hwf Hin; [done|].
  apply Forall_cons in Hwf as [Hw Hwf]. apply Forall_cons in Hin as [Hi Hin].
  cbn [for_each]. rewrite relocate_spec by done. unfold reloc_writes. rewrite filter_cons.
  case_decide as Hr; [|by apply IH]. rewrite decide_True by by apply Hi.
  cbn [mbind exec_bind fmap list_fmap]. rewrite IH by done. done.
Qed.

(** Relocations write through a raw pointer: the first one outside the guest's
    memory is undefined behaviour. *)
Lemma relocs_fault m relas :
  0 ≤ mem_base m → 0 ≤ start_address → Forall (reloc_wf (mem_base m)) relas →
  ¬ Forall (reloc_inside m) relas → for_each (relocate start_address) relas m = Fault.
Proof.
  intros Hb Hs Hwf. revert m Hb Hwf. induction relas as [|rela relas IH]; intros m Hb Hwf Hin.
  { by destruct Hin. }
  apply Forall_cons in Hwf as [Hw Hwf]. rewrite Forall_cons in Hin.
  cbn [for_each]. rewrite relocate_spec by done.
  case_decide as Hr.
  - case_decide as Hv; [|done]. cbn [mbind exec_bind]. apply IH; [done..|].
    intros Hall. apply Hin. split; [by intros _|exact Hall].
  - cbn [mbind exec_bind]. apply IH; [done..|]. intros Hall. apply Hin. split; [|done].
    by intros ?.
Qed.

End Relocations.

(** ** The boot information *)

(** The fields of the boot information are inside the guest's memory. *)
Ltac boot_field :=
  unfold boot_mem, valid, BOOT_INFO_ADDR, BootInfo.base, BootInfo.limit, BootInfo.possible_cpus,
    BootInfo.uhyve, BootInfo.current_boot_id, BootInfo.uartport,
    BootInfo.current_stack_address, BootInfo.host_logical_addr, BootInfo.boot_gtod,
    BootInfo.cpu_freq,
    BootInfo.hcip, BootInfo.hcgateway, BootInfo.hcmask in *;
  rewrite ?base_write, ?size_write; lia.

Section Boot.
Context `{Profile, CpuId, Goblin GE, Vm V, !VmLaws V} (target_linux : bool).

Definition octets_write (base : Z) (ip : option (list Z)) (field : Z) : list (Z * list Z) :=
  match ip with
  | Some octets => [(base + BOOT_INFO_ADDR + field, octets)]
  | None => []
  end.

Definition net_writes (v : V) (base : Z) : list (Z * list Z) :=
  [(base + BOOT_INFO_ADDR, BootInfo.new)] ++
  octets_write base (get_ip v) BootInfo.hcip ++
  octets_write base (get_gateway v) BootInfo.hcgateway ++
  octets_write base (get_mask v) BootInfo.hcmask.

Definition info_writes (v : V) (base size start_address micros mhz : Z) : list (Z * list Z) :=
  let boot_info := base + BOOT_INFO_ADDR in
  [(boot_info + BootInfo.base, le_split 8 start_address);
   (boot_info + BootInfo.limit, le_split 8 size);
   (boot_info + BootInfo.possible_cpus, le_split 4 1);
   (boot_info + BootInfo.uhyve, le_split 1 (if target_linux then 0x3 else 0x1));
   (boot_info + BootInfo.current_boot_id, le_split 4 0);
   (boot_info + BootInfo.uartport, le_split 2 (if verbose v then UHYVE_UART_PORT else 0));
   (boot_info + BootInfo.current_stack_address, le_split 8 (start_address - KERNEL_STACK_SIZE));
   (boot_info + BootInfo.host_logical_addr, le_split 8 base);
   (boot_info + BootInfo.boot_gtod, le_split 8 micros);
   (boot_info + BootInfo.cpu_freq, le_split 4 mhz)].

Lemma store_octets_writes m ip field :
  boot_mem m → (∀ o, ip = Some o → length o = 4%nat) → 0 ≤ field ≤ 148 →
  store_octets ip field m = Ret (writes (octets_write (mem_base m) ip field) m).
Proof.
  intros (Hb & Hs & He) Hip Hf. destruct ip as [o|]; [|done].
  unfold store_octets, octets_write. specialize (Hip o eq_refl).
  rewrite store_bytes_valid; [done|]. unfold valid, BOOT_INFO_ADDR in *. lia.
Qed.

(** A write to the boot information at [base]. *)
Definition in_boot_info (base : Z) (w : Z * list Z) : Prop :=
  base + BOOT_INFO_ADDR ≤ w.1 ∧ w.1 + Z.of_nat (length w.2) ≤ base + BOOT_INFO_ADDR + 152.

Lemma octets_write_inside base ip field :
  (∀ o, ip = Some o → length o = 4%nat) → 0 ≤ field ≤ 148 →
  Forall (in_boot_info base) (octets_write base ip field).
Proof.
  intros Hip Hf. destruct ip as [o|]; [|done]. apply Forall_singleton.
  unfold in_boot_info. cbn [fst snd]. rewrite (Hip o) by done. lia.
Qed.

Lemma boot_writes_inside v base size start_address micros mhz :
  Forall (in_boot_info base)
    (net_writes v base ++ info_writes v base size start_address micros mhz).
Proof.
  unfold net_writes. rewrite !Forall_app. split_and!.
  - apply Forall_singleton. unfold in_boot_info. cbn [fst snd].
    change (length BootInfo.new) with 148%nat. lia.
  - apply octets_write_inside; [apply octets_ip|boot_field].
  - apply octets_write_inside; [apply octets_gateway|boot_field].
  - apply octets_write_inside; [apply octets_mask|boot_field].
  - unfold info_writes. repeat (apply Forall_cons; split); try apply Forall_nil;
      try exact I; unfold in_boot_info; cbn [fst snd]; rewrite ?length_le_split; boot_field.
Qed.

Lemma boot_mem_writes ws m : boot_mem m → boot_mem (writes ws m).
Proof. unfold boot_mem. by rewrite writes_base, writes_size. Qed.

(** What [load_kernel] needs to reach the segments. *)
Record bootable (env : host_env) (v : V) (buffer : list Z) (elf : Elf) (secs mhz : Z) : Prop := {
  k_read : fs_read env (vm_kernel_path v) = Ok buffer;
  k_parse : elf_parse buffer = Ok elf;
  k_libraries : libraries elf = [];
  k_machine : e_machine elf = EM_X86_64;
  k_mem : boot_mem (guest_mem v);
  k_entry : 0 ≤ entry elf < 2 ^ 64 - 0x400000;
  k_buffer : Z.of_nat (length buffer) < 2 ^ 63;
  k_headers : Z.of_nat (length (program_headers elf)) < 2 ^ 16;
  k_now : now_secs env = Some secs;
  k_secs : 0 ≤ secs * 1000000 < 2 ^ 64;
  k_mhz : cpu_mhz env = Ret mhz;
  k_freq : fits 32 mhz;
}.

Definition elf_is_dyn (elf : Elf) : bool := e_type elf =? ET_DYN.
Definition load_address (elf : Elf) : Z := if elf_is_dyn elf then 0x400000 else 0x800000.
Definition load_entry (elf : Elf) : Z :=
  if elf_is_dyn elf then 0x400000 + entry elf else entry elf.

Lemma write_boot_info_writes env v m start_address secs mhz :
  boot_mem m → 0x400000 ≤ start_address < 2 ^ 32 →
  now_secs env = Some secs → 0 ≤ secs * 1000000 < 2 ^ 64 → cpu_mhz env = Ret mhz →
  write_boot_info target_linux env start_address v m =
  Ret (writes (info_writes v (mem_base m) (mem_size m) start_address (secs * 1000000) mhz) m).
Proof.
  intros Hm Hst Hnow Hsecs Hmhz. unfold write_boot_info.
  do 6 (rewrite store_valid by boot_field; cbn [mbind exec_bind]).
  rewrite arith_fits by (unfold fits, KERNEL_STACK_SIZE; lia). cbn [mbind exec_bind].
  do 2 (rewrite store_valid by boot_field; cbn [mbind exec_bind]).
  rewrite Hnow. cbn [unwrap mbind exec_bind]. rewrite arith_fits by done. cbn [mbind exec_bind].
  rewrite store_valid by boot_field. cbn [mbind exec_bind]. rewrite Hmhz. cbn [mbind exec_bind].
  rewrite store_valid by boot_field. done.
Qed.

Definition booted_vm (v : V) (elf : Elf) : V :=
  set_boot_info (mem_base (guest_mem v) + BOOT_INFO_ADDR)
    (set_entry_point (load_entry elf) (set_offset (load_address elf) v)).

Definition boot_memory (v : V) (elf : Elf) (secs mhz : Z) : mem :=
  let m := guest_mem v in
  writes (net_writes v (mem_base m) ++
          info_writes v (mem_base m) (mem_size m) (load_address elf) (secs * 1000000) mhz) m.

Lemma verbose_booted v elf : verbose (booted_vm v elf) = verbose v.
Proof. unfold booted_vm. by autorewrite with vm. Qed.

Lemma load_kernel_boot env v buffer elf secs mhz :
  bootable env v buffer elf secs mhz →
  load_kernel target_linux env v =
    ('((m, _), r) ← try_for_each (load_segment (elf_is_dyn elf) (load_address elf) buffer)
       (program_headers elf) (boot_memory v elf secs mhz, 0);
     match r with
     | Err e => Ret (set_guest_mem m (booted_vm v elf), Err e)
     | Ok _ =>
         m ← for_each (relocate (load_address elf)) (dynrelas elf) m;
         Ret (set_guest_mem m (booted_vm v elf), Ok ())
     end).
Proof.
  intros [Hread Hparse Hlibs Hmach Hm Hentry Hbuf Hph Hnow Hsecs Hmhz Hfreq].
  unfold load_kernel. rewrite Hread, Hparse, Hlibs, Hmach, Z.eqb_refl. cbn [negb].
  rewrite bool_decide_eq_true_2 by done. cbn [negb].
  assert (boot_mem (guest_mem v)) as (Hb & Hs & He) by done.
  rewrite store_bytes_valid by
    (change (length BootInfo.new) with 148%nat; unfold valid, BOOT_INFO_ADDR in *; lia).
  cbn [mbind exec_bind].
  rewrite store_octets_writes; [|done|apply octets_ip|unfold BootInfo.hcip; lia].
  cbn [mbind exec_bind].
  rewrite store_octets_writes;
    [|by apply boot_mem_writes|apply octets_gateway|unfold BootInfo.hcgateway; lia].
  cbn [mbind exec_bind].
  rewrite store_octets_writes;
    [|by do 2 apply boot_mem_writes|apply octets_mask|unfold BootInfo.hcmask; lia].
  cbn [mbind exec_bind]. rewrite !writes_base, base_write.
  assert ((if e_type elf =? ET_DYN then e ← arith 64 (0x400000 + entry elf); Ret (0x400000, e)
           else Ret (0x800000, entry elf)) = Ret (load_address elf, load_entry elf)) as ->.
  { unfold load_address, load_entry, elf_is_dyn. destruct (e_type elf =? ET_DYN); [|done].
    by arith_ok. }
  cbn [mbind exec_bind]. fold (booted_vm v elf). 
  rewrite <- !writes_app.
  assert (0x400000 ≤ load_address elf < 2 ^ 32)
    by (unfold load_address; destruct (elf_is_dyn elf); lia).
  erewrite write_boot_info_writes; [|by apply boot_mem_writes|done..].
  cbn [mbind exec_bind]. rewrite <- writes_app, !writes_base, !writes_size, base_write, size_write.
  unfold info_writes. by rewrite verbose_booted.
Qed.

End Boot.

(** ** [load_kernel] *)

Section LoadKernel.
Context `{Profile, CpuId, Goblin GE, Vm V, !VmLaws V} (target_linux : bool).
Context (env : host_env) (v : V) (buffer : list Z) (elf : Elf) (secs mhz : Z).
Hypothesis Hboot : bootable env v buffer elf secs mhz.

Definition vm_base : Z := mem_base (guest_mem v).
Definition elf_segments : list (Z * list Z) :=
  segments (elf_is_dyn elf) (load_address elf) buffer vm_base (program_headers elf).
Definition elf_relocs : list (Z * list Z) :=
  reloc_writes (load_address elf) vm_base (dynrelas elf).
Definition outside (x : Z) (w : Z * list Z) : Prop :=
  ¬ (w.1 ≤ x < w.1 + Z.of_nat (length w.2)).

(** The segments fit guest memory and the file, the relocations point into
    guest memory. *)
Definition segments_fit : Prop :=
  Forall (segment_fits (elf_is_dyn elf) (load_address elf) buffer (mem_size (guest_mem v)))
    (program_headers elf).
Definition relocs_wf : Prop :=
  Forall (reloc_wf (load_address elf) vm_base) (dynrelas elf).
Definition relocs_inside : Prop :=
  Forall (reloc_inside (load_address elf) (guest_mem v)) (dynrelas elf).

Definition segments_memory : mem :=
  writes (headers_writes (elf_is_dyn elf) (load_address elf) buffer vm_base 0
            (program_headers elf)) (boot_memory target_linux v elf secs mhz).

Lemma load_address_range : 0x400000 ≤ load_address elf < 2 ^ 32.
Proof. unfold load_address. destruct (elf_is_dyn elf); lia. Qed.

Lemma boot_memory_boot : boot_mem (boot_memory target_linux v elf secs mhz).
Proof. apply boot_mem_writes, Hboot. Qed.

Lemma load_kernel_segments :
  segments_fit →
  load_kernel target_linux env v =
    (m ← for_each (relocate (load_address elf)) (dynrelas elf) segments_memory;
     Ret (set_guest_mem m (booted_vm v elf), Ok ())).
Proof.
  intros Hfit. rewrite (load_kernel_boot target_linux _ _ _ _ _ _ Hboot).
  pose proof load_address_range. pose proof (k_headers _ _ _ _ _ _ Hboot).
  rewrite segments_loop; [| |apply Hboot|apply boot_memory_boot| | |].
  - cbn [mbind exec_bind]. unfold segments_memory, boot_memory. by rewrite writes_base.
  - lia.
  - unfold boot_memory. by rewrite writes_size.
  - lia.
  - lia.
Qed.

Lemma segments_memory_base : mem_base segments_memory = vm_base.
Proof. unfold segments_memory, boot_memory. by rewrite !writes_base. Qed.

Lemma segments_memory_inside :
  relocs_inside → Forall (reloc_inside (load_address elf) segments_memory) (dynrelas elf).
Proof.
  intros Hin. eapply Forall_impl; [exact Hin|]. intros rela Hr Hrel. specialize (Hr Hrel).
  rewrite segments_memory_base. unfold segments_memory, boot_memory. by rewrite !valid_writes.
Qed.

Definition loaded_memory : mem := writes elf_relocs segments_memory.

Lemma load_kernel_loaded :
  segments_fit → relocs_wf → relocs_inside →
  load_kernel target_linux env v = Ret (set_guest_mem loaded_memory (booted_vm v elf), Ok ()).
Proof.
  intros Hfit Hwf Hin. rewrite load_kernel_segments by done.
  pose proof load_address_range. destruct (k_mem _ _ _ _ _ _ Hboot) as (Hb & _).
  rewrite relocs_loop; rewrite ?segments_memory_base; [done| | |done|].
  - unfold vm_base. lia.
  - lia.
  - by apply segments_memory_inside.
Qed.

Lemma boot_memory_outside x :
  ¬ (vm_base + BOOT_INFO_ADDR ≤ x < vm_base + BOOT_INFO_ADDR + 152) →
  peek (boot_memory target_linux v elf secs mhz) x = peek (guest_mem v) x.
Proof.
  intros Hx. apply peek_writes_out. eapply Forall_impl; [apply boot_writes_inside|].
  unfold in_boot_info, vm_base in *. cbn. lia.
Qed.

(** Loading the segments writes their place and, of the boot information, the
    size of the image and the thread-local storage. *)
Lemma loaded_memory_keeps x :
  ¬ (vm_base + BOOT_INFO_ADDR + BootInfo.image_size ≤ x <
     vm_base + BOOT_INFO_ADDR + BootInfo.tls_memsz + 8) →
  Forall (outside x) elf_segments → Forall (outside x) elf_relocs →
  peek loaded_memory x = peek (boot_memory target_linux v elf secs mhz) x.
Proof.
  intros Hx Hseg Hrel. unfold loaded_memory, segments_memory.
  rewrite peek_writes_out by done. apply peek_writes_out.
  apply Forall_forall. intros w Hw%elem_of_headers_writes.
  unfold elf_segments in Hseg. rewrite Forall_forall in Hseg.
  destruct Hw as [Hw|[(_ & Hlen & Hw)|(_ & Hlen & Hw)]]; [by apply Hseg| |];
    unfold BootInfo.image_size, BootInfo.tls_start, BootInfo.tls_memsz in *; rewrite Hlen; lia.
Qed.

Lemma loaded_memory_outside x :
  ¬ (vm_base + BOOT_INFO_ADDR ≤ x < vm_base + BOOT_INFO_ADDR + 152) →
  Forall (outside x) elf_segments → Forall (outside x) elf_relocs →
  peek loaded_memory x = peek (guest_mem v) x.
Proof.
  intros Hx Hseg Hrel. rewrite loaded_memory_keeps; [by apply boot_memory_outside| |done..].
  unfold BootInfo.image_size, BootInfo.tls_memsz; lia.
Qed.

Lemma loaded_memory_segment ph i b :
  segments_apart (elf_is_dyn elf) (load_address elf) buffer vm_base (program_headers elf) →
  ph ∈ program_headers elf → is_load ph → segment_image buffer ph !! i = Some b →
  Forall (outside (vm_base + segment_start (elf_is_dyn elf) (load_address elf) ph + Z.of_nat i))
    elf_relocs →
  peek loaded_memory (vm_base + segment_start (elf_is_dyn elf) (load_address elf) ph + Z.of_nat i) = b.
Proof.
  intros Hap Hph Hl Hb Hx. unfold loaded_memory. rewrite peek_writes_out by done.
  pose proof (segment_loaded (elf_is_dyn elf) (load_address elf) buffer vm_base 0 (program_headers elf) ph (boot_memory target_linux v elf secs mhz)
    Hap Hph Hl) as Hseg.
  pose proof (lookup_lt_Some _ _ _ Hb) as Hi.
  apply (f_equal (.!! i)) in Hseg. rewrite lookup_peeks, Hb in Hseg by done.
  by injection Hseg.
Qed.

(** C9: A kernel whose segments fit guest memory and whose relocations point
    into it is loaded: every loadable segment is in guest memory, its file
    bytes followed by zeros, at its address plus the load offset; every
    relative relocation holds the load address plus its addend; nothing else
    of guest memory changes but the boot information; and the VM knows the
    load offset, the entry point and the boot information. *)
Theorem load_kernel_correct :
  segments_fit → relocs_wf → relocs_inside →
  segments_apart (elf_is_dyn elf) (load_address elf) buffer vm_base (program_headers elf) →
  pairwise_apart elf_relocs →
  ∃ v', load_kernel target_linux env v = Ret (v', Ok ()) ∧
    get_offset v' = load_address elf ∧ get_entry_point v' = load_entry elf ∧
    boot_info_ptr v' = vm_base + BOOT_INFO_ADDR ∧
    (∀ ph i b, ph ∈ program_headers elf → is_load ph →
       segment_image buffer ph !! i = Some b →
       let x := vm_base + segment_start (elf_is_dyn elf) (load_address elf) ph + Z.of_nat i in
       Forall (outside x) elf_relocs → peek (guest_mem v') x = b) ∧
    (∀ rela, rela ∈ dynrelas elf → is_relative rela →
       load 8 (guest_mem v') (vm_base + load_address elf + r_offset rela) =
         Ret (wrap 64 (reloc_value (load_address elf) rela))) ∧
    (∀ x, ¬ (vm_base + BOOT_INFO_ADDR ≤ x < vm_base + BOOT_INFO_ADDR + 152) →
       Forall (outside x) elf_segments → Forall (outside x) elf_relocs →
       peek (guest_mem v') x = peek (guest_mem v) x).
Proof.
  intros Hfit Hwf Hin Hap Hrap. eexists. split; [by apply load_kernel_loaded|].
  unfold booted_vm. autorewrite with vm. split_and!; [done..| | |].
  - intros ph i b Hph Hl Hb Hx. by apply loaded_memory_segment.
  - intros rela Hrela Hrel. unfold loaded_memory. apply load_writes; [|done|].
    + unfold relocs_inside in Hin. rewrite Forall_forall in Hin.
      specialize (Hin rela Hrela Hrel). unfold segments_memory, boot_memory.
      by rewrite !valid_writes.
    + apply list_elem_of_fmap. exists rela. split; [done|]. by apply list_elem_of_filter.
  - intros x Hx Hseg Hrel. by apply loaded_memory_outside.
Qed.

(** Relocations apart from the boot information. *)
Definition relocs_spare_boot : Prop :=
  Forall (λ w, apart (vm_base + BOOT_INFO_ADDR) 152 w.1 (Z.of_nat (length w.2))) elf_relocs.

Lemma field_kept n k :
  segments_apart (elf_is_dyn elf) (load_address elf) buffer vm_base (program_headers elf) →
  relocs_spare_boot → 0 ≤ k → k + Z.of_nat n ≤ 24 ∨ 56 ≤ k → k + Z.of_nat n ≤ 152 →
  load n loaded_memory (vm_base + BOOT_INFO_ADDR + k) =
  load n (boot_memory target_linux v elf secs mhz) (vm_base + BOOT_INFO_ADDR + k).
Proof.
  intros Hap Hrel Hk Hout Hn. unfold loaded_memory. rewrite load_writes_out.
  - by apply boot_field_kept.
  - eapply Forall_impl; [exact Hrel|]. cbn. unfold apart. lia.
Qed.

(** Peels the writes of [info_writes] off a load. *)
Ltac info_field :=
  unfold boot_memory; rewrite writes_app; unfold info_writes; rewrite !writes_cons;
  cbn [fst snd]; fold vm_base; unfold writes at 1; cbn [foldl];
  unfold BootInfo.base, BootInfo.limit, BootInfo.possible_cpus, BootInfo.uhyve,
    BootInfo.current_boot_id, BootInfo.uartport, BootInfo.current_stack_address,
    BootInfo.host_logical_addr, BootInfo.boot_gtod, BootInfo.cpu_freq,
    BootInfo.hcip, BootInfo.hcgateway, BootInfo.hcmask, BootInfo.magic_number;
  repeat first
  [ rewrite load_write_eq by
      (lia || (unfold valid; rewrite ?base_write, ?size_write, ?writes_base, ?writes_size;
               fold vm_base; boot_field))
  | rewrite load_write_disjoint by (rewrite ?length_le_split; lia) ].

Lemma boot_memory_info :
  let field n k := load n (boot_memory target_linux v elf secs mhz)
    (vm_base + BOOT_INFO_ADDR + k) in
  field 8%nat BootInfo.base = Ret (load_address elf) ∧
  field 8%nat BootInfo.limit = Ret (mem_size (guest_mem v)) ∧
  field 4%nat BootInfo.possible_cpus = Ret 1 ∧
  field 1%nat BootInfo.uhyve = Ret (if target_linux then 3 else 1) ∧
  field 2%nat BootInfo.uartport = Ret (if verbose v then UHYVE_UART_PORT else 0) ∧
  field 8%nat BootInfo.current_stack_address = Ret (load_address elf - KERNEL_STACK_SIZE) ∧
  field 8%nat BootInfo.host_logical_addr = Ret vm_base ∧
  field 8%nat BootInfo.boot_gtod = Ret (secs * 1000000) ∧
  field 4%nat BootInfo.cpu_freq = Ret mhz.
Proof.
  intros field. unfold field. clear field.
  destruct Hboot as [_ _ _ _ (Hb & Hs & He) _ _ _ _ Hsecs _ Hfreq].
  pose proof load_address_range. fold vm_base in *.
  split_and!.
  all: info_field; f_equal; apply wrap_fits; unfold fits, BOOT_INFO_ADDR, KERNEL_STACK_SIZE, UHYVE_UART_PORT in *.
  all: try done; try lia.
  - by destruct target_linux.
  - by destruct (verbose v).
Qed.

Definition no_address : list Z := [255; 255; 255; 255].

Lemma boot_info_new k :
  0 ≤ k ≤ 144 →
  load 4 (write_bytes (guest_mem v) (vm_base + BOOT_INFO_ADDR) BootInfo.new) (vm_base + BOOT_INFO_ADDR + k) =
  Ret (le_combine (take 4 (drop (Z.to_nat k) BootInfo.new))).
Proof.
  intros Hk. pose proof (k_mem _ _ _ _ _ _ Hboot) as Hm. unfold vm_base.
  apply load_write_inside; [lia| |boot_field]. change (length BootInfo.new) with 148%nat. lia.
Qed.

(** Peels the addresses off a load as well. *)
Ltac net_field :=
  pose proof (k_mem _ _ _ _ _ _ Hboot) as Hm; pose proof (octets_ip v) as Hip;
  pose proof (octets_gateway v) as Hgw; pose proof (octets_mask v) as Hmask;
  info_field; unfold net_writes, octets_write;
  destruct (get_ip v) as [o1|], (get_gateway v) as [o2|], (get_mask v) as [o3|];
  cbn [app default from_option id]; rewrite !writes_cons; cbn [fst snd];
  unfold writes; cbn [foldl]; try specialize (Hip _ eq_refl); try specialize (Hgw _ eq_refl);
  try specialize (Hmask _ eq_refl);
  unfold BootInfo.hcip, BootInfo.hcgateway, BootInfo.hcmask;
  repeat first
    [ rewrite load_write_bytes by
        (done || lia || (unfold valid; rewrite ?base_write, ?size_write; fold vm_base; boot_field))
    | rewrite load_write_disjoint by lia ].

Lemma boot_memory_net :
  let field n k := load n (boot_memory target_linux v elf secs mhz)
    (vm_base + BOOT_INFO_ADDR + k) in
  field 4%nat BootInfo.magic_number = Ret 0xC0DECAFE ∧
  field 4%nat BootInfo.hcip = Ret (le_combine (default no_address (get_ip v))) ∧
  field 4%nat BootInfo.hcgateway = Ret (le_combine (default no_address (get_gateway v))) ∧
  field 4%nat BootInfo.hcmask = Ret (le_combine (default [255; 255; 255; 0] (get_mask v))).
Proof.
  intros field. unfold field. clear field. pose proof boot_info_new as Hnew.
  split_and!; net_field; try done; by rewrite Hnew by lia.
Qed.

(** No core is up yet. *)
Lemma boot_memory_online :
  load 4 (boot_memory target_linux v elf secs mhz) (vm_base + BOOT_INFO_ADDR + BootInfo.cpu_online) = Ret 0.
Proof.
  pose proof boot_info_new as Hnew. unfold BootInfo.cpu_online. net_field; by rewrite Hnew by lia.
Qed.

Lemma segment_field_kept k :
  relocs_spare_boot → 0 ≤ k → k + 8 ≤ 152 →
  load 8 loaded_memory (vm_base + BOOT_INFO_ADDR + k) =
  load 8 segments_memory (vm_base + BOOT_INFO_ADDR + k).
Proof.
  intros Hrel Hk Hk'. unfold loaded_memory. apply load_writes_out.
  eapply Forall_impl; [exact Hrel|]. cbn. unfold apart. lia.
Qed.

Lemma boot_memory_valid : valid (boot_memory target_linux v elf secs mhz)
  (vm_base + BOOT_INFO_ADDR) 152.
Proof.
  pose proof (k_mem _ _ _ _ _ _ Hboot). unfold boot_memory. apply valid_writes.
  unfold vm_base. boot_field.
Qed.

Lemma segment_fits_suffix l1 ph l2 :
  segments_fit → program_headers elf = l1 ++ ph :: l2 →
  segment_fits (elf_is_dyn elf) (load_address elf) buffer (mem_size (guest_mem v)) ph.
Proof.
  unfold segments_fit. intros Hfit Heq. rewrite Heq in Hfit.
  by apply Forall_app in Hfit as [_ [? _]%Forall_cons].
Qed.

(** The image size: the end of a relocatable kernel's last segment, the sum
    of a static kernel's segments. *)
Lemma image_size_loaded l1 ph l2 :
  segments_fit → relocs_spare_boot →
  segments_apart (elf_is_dyn elf) (load_address elf) buffer vm_base (program_headers elf) →
  program_headers elf = l1 ++ ph :: l2 → is_load ph → ¬ Exists is_load l2 →
  load 8 loaded_memory (vm_base + BOOT_INFO_ADDR + BootInfo.image_size) =
    Ret (if elf_is_dyn elf then p_vaddr ph + p_memsz ph else total_memsz (program_headers elf)).
Proof.
  intros Hfit Hrel Hap Heq Hl Hl2. rewrite segment_field_kept by (done || boot_offset).
  pose proof (segment_fits_suffix _ _ _ Hfit Heq) as Hph.
  assert (0 ≤ load_address elf < 2 ^ 32) as Hrange by (pose proof load_address_range; lia).
  pose proof (k_mem _ _ _ _ _ _ Hboot) as (Hb & _ & He).
  pose proof (k_headers _ _ _ _ _ _ Hboot) as Hlen. rewrite Heq, length_app in Hlen.
  unfold segments_fit in Hfit. rewrite Heq in Hfit, Hap. apply Forall_app in Hfit as [Hl1 _].
  destruct (image_fold_bound (elf_is_dyn elf) (load_address elf) buffer Hrange
    (mem_size (guest_mem v)) l1 0) as [Hlow Hhigh]; [done|lia|lia|].
  edestruct (image_after_bound (elf_is_dyn elf) (load_address elf) buffer Hrange
    (mem_size (guest_mem v))) as [_ Hn]; [exact Hph|lia|exact Hlow|]. specialize (Hn Hl).
  unfold segments_memory. rewrite Heq, image_size_field;
    [|done|done|done|exact boot_memory_valid|unfold fits; cbn [length] in Hlen; lia].
  f_equal. destruct (elf_is_dyn elf) eqn:Hdyn; [done|].
  pose proof (image_size_static false 0 (l1 ++ ph :: l2) eq_refl) as Htotal.
  rewrite foldl_app in Htotal. cbn [foldl] in Htotal.
  rewrite image_after_other, Z.add_0_l in Htotal by done. rewrite <- Htotal.
  unfold image_after at 2. by rewrite (proj2 (Z.eqb_eq _ _) Hl).
Qed.


(** C26: The boot information the guest finds: the load address, the memory
    size, the stack below the image, the serial port only when verbose, the
    time, the frequency, the configured addresses or the defaults, the image
    size and the thread-local storage of the kernel. *)
Theorem load_kernel_boot_info :
  segments_fit → relocs_wf → relocs_inside →
  segments_apart (elf_is_dyn elf) (load_address elf) buffer vm_base (program_headers elf) →
  relocs_spare_boot → PT_LOAD ≠ PT_TLS →
  ∃ v', load_kernel target_linux env v = Ret (v', Ok ()) ∧
    let field n k := load n (guest_mem v') (vm_base + BOOT_INFO_ADDR + k) in
    field 4%nat BootInfo.magic_number = Ret 0xC0DECAFE ∧
    field 8%nat BootInfo.base = Ret (load_address elf) ∧
    field 8%nat BootInfo.limit = Ret (mem_size (guest_mem v)) ∧
    field 4%nat BootInfo.possible_cpus = Ret 1 ∧
    field 1%nat BootInfo.uhyve = Ret (if target_linux then 3 else 1) ∧
    field 2%nat BootInfo.uartport = Ret (if verbose v then UHYVE_UART_PORT else 0) ∧
    field 8%nat BootInfo.current_stack_address = Ret (load_address elf - KERNEL_STACK_SIZE) ∧
    field 8%nat BootInfo.host_logical_addr = Ret vm_base ∧
    field 8%nat BootInfo.boot_gtod = Ret (secs * 1000000) ∧
    field 4%nat BootInfo.cpu_freq = Ret mhz ∧
    field 4%nat BootInfo.hcip = Ret (le_combine (default no_address (get_ip v))) ∧
    field 4%nat BootInfo.hcgateway = Ret (le_combine (default no_address (get_gateway v))) ∧
    field 4%nat BootInfo.hcmask = Ret (le_combine (default [255; 255; 255; 0] (get_mask v))) ∧
    (∀ l1 ph l2, program_headers elf = l1 ++ ph :: l2 → is_load ph → ¬ Exists is_load l2 →
       field 8%nat BootInfo.image_size =
         Ret (if elf_is_dyn elf then p_vaddr ph + p_memsz ph
              else total_memsz (program_headers elf))) ∧
    (∀ l1 ph l2, program_headers elf = l1 ++ ph :: l2 → is_tls ph → ¬ Exists is_tls l2 →
       field 8%nat BootInfo.tls_start = Ret (segment_start (elf_is_dyn elf) (load_address elf) ph) ∧
       field 8%nat BootInfo.tls_filesz = Ret (p_filesz ph) ∧
       field 8%nat BootInfo.tls_memsz = Ret (p_memsz ph)).
Proof.
  intros Hfit Hwf Hin Hap Hrel Hne. eexists. split; [by apply load_kernel_loaded|].
  rewrite mem_set_mem. intros field. unfold field. clear field.
  destruct boot_memory_info as (? & ? & ? & ? & ? & ? & ? & ? & ?).
  destruct boot_memory_net as (? & ? & ? & ?).
  do 13 (split; [by rewrite field_kept by (done || boot_offset)|]). split.
  - intros. by eapply image_size_loaded.
  - intros l1 ph l2 Heq Ht Hl2.
    rewrite !segment_field_kept by (done || boot_offset). unfold segments_memory. rewrite Heq.
    destruct (segment_fits_suffix _ _ _ Hfit Heq) as (Hph & Hst & _).
    apply tls_fields; rewrite <- ?Heq; [done..|exact boot_memory_valid|done|].
    pose proof load_address_range. destruct Hph as ([??] & _). unfold fits, segment_start in *.
    destruct (elf_is_dyn elf); lia.
Qed.

(** C25: Segments never leave guest memory: whatever the program headers say, a
    kernel whose relocations point into guest memory is loaded, rejected or
    stopped by a panic without an access outside of it.  Relocations are not
    checked: one that points elsewhere is written there. *)
Theorem load_kernel_memory_safe :
  Forall header_wf (program_headers elf) → relocs_wf →
  (relocs_inside → load_kernel target_linux env v ≠ Fault) ∧
  (segments_fit → ¬ relocs_inside → load_kernel target_linux env v = Fault).
Proof.
  intros Hhdr Hwf. pose proof load_address_range as Hrange.
  destruct (k_mem _ _ _ _ _ _ Hboot) as (Hb & _ & _). split.
  - intros Hin. rewrite (load_kernel_boot target_linux _ _ _ _ _ _ Hboot).
    eapply (safe_no_fault (λ _, True)).
    eapply (safe_bind (λ r : (mem * Z) * result (LoadKernelError GE) unit,
      boot_mem r.1.1 ∧ mem_base r.1.1 = vm_base ∧ mem_size r.1.1 = mem_size (guest_mem v))).
    + apply (safe_try_for_each (λ s : mem * Z, boot_mem s.1 ∧ mem_base s.1 = vm_base ∧
        mem_size s.1 = mem_size (guest_mem v)) header_wf); [|done|].
      * split; [apply boot_memory_boot|]. unfold boot_memory. cbn [fst].
        by rewrite writes_base, writes_size.
      * intros ph s Hph (Hs & Hbase & Hsize). by apply load_segment_safe.
    + intros [[m n] [u|e]] (Hm & Hbase & Hsize); [|done]. cbn [fst] in *.
      rewrite relocs_loop; [done|unfold vm_base in *; lia|lia|by rewrite Hbase|].
      eapply Forall_impl; [exact Hin|]. intros rela Hr Hrel. specialize (Hr Hrel).
      unfold valid in *. by rewrite Hbase, Hsize.
  - intros Hfit Hout. rewrite load_kernel_segments by done.
    rewrite relocs_fault; [done| |lia| |]; rewrite ?segments_memory_base;
      [unfold vm_base; lia|done|].
    intros Hall. apply Hout. eapply Forall_impl; [exact Hall|]. intros rela Hr Hrel.
    specialize (Hr Hrel). rewrite segments_memory_base in Hr.
    unfold segments_memory, boot_memory in Hr. by rewrite !valid_writes in Hr.
Qed.

(** A kernel that does not fit is rejected: the first loadable segment that
    ends beyond guest memory makes [load_kernel] return [InsufficientMemory]. *)
Lemma load_kernel_insufficient l1 ph l2 :
  program_headers elf = l1 ++ ph :: l2 →
  Forall (segment_fits (elf_is_dyn elf) (load_address elf) buffer (mem_size (guest_mem v))) l1 →
  is_load ph → header_wf ph →
  let start := segment_start (elf_is_dyn elf) (load_address elf) ph in
  start + p_filesz ph < 2 ^ 64 → p_offset ph + p_filesz ph < 2 ^ 64 →
  mem_size (guest_mem v) < start + p_memsz ph < 2 ^ 64 →
  ∃ v', load_kernel target_linux env v = Ret (v', Err InsufficientMemory).
Proof.
  intros Heq Hl1 Hl (Hv & Ho & Hf & Hz) start Hend Hfile Hsize.
  rewrite (load_kernel_boot target_linux _ _ _ _ _ _ Hboot), Heq, try_for_each_app.
  pose proof load_address_range as Hrange.
  pose proof (k_headers _ _ _ _ _ _ Hboot) as Hlen. rewrite Heq, length_app in Hlen.
  rewrite segments_loop; [|lia|apply Hboot|apply boot_memory_boot| |lia|lia].
  2: { unfold boot_memory. by rewrite writes_size. }
  cbn [mbind exec_bind try_for_each]. unfold load_segment.
  rewrite (proj2 (Z.eqb_eq _ _) Hl). fold (elf_is_dyn elf).
  assert ((if elf_is_dyn elf then arith 64 (load_address elf + p_vaddr ph)
           else Ret (p_vaddr ph)) = Ret start) as ->.
  { unfold start, segment_start, fits in *. destruct (elf_is_dyn elf); [|done].
    by rewrite arith_fits by (unfold fits; lia). }
  assert (0 ≤ start) by (unfold start, segment_start, fits in *; destruct (elf_is_dyn elf); lia).
  unfold fits in *. cbn [mbind exec_bind]. arith_ok. unfold boot_memory.
  rewrite !writes_size, (proj2 (Z.ltb_lt _ _)) by lia. eexists. done.
Qed.

End LoadKernel.

(** ** The errors of [load_kernel] *)

Section Errors.
Context `{Profile, CpuId, Goblin GE, Vm V, !VmLaws V} (target_linux : bool).

(** Why an executable is refused before anything is written. *)
Inductive refused (env : host_env) (v : V) : LoadKernelError GE → Prop :=
| refused_read e : fs_read env (vm_kernel_path v) = Err e → refused env v (Io e)
| refused_parse buffer e :
    fs_read env (vm_kernel_path v) = Ok buffer → elf_parse buffer = Err e →
    refused env v (GoblinError e)
| refused_elf buffer elf :
    fs_read env (vm_kernel_path v) = Ok buffer → elf_parse buffer = Ok elf →
    libraries elf ≠ [] ∨ e_machine elf ≠ EM_X86_64 → refused env v (Io InvalidData).

(** The end of a segment in guest memory, as the code computes it. *)
Definition memory_end (elf : Elf) (ph : ProgramHeader) : Z :=
  wrap 64 ((if elf_is_dyn elf then wrap 64 (load_address elf + p_vaddr ph) else p_vaddr ph)
           + p_memsz ph).

(** An executable that passed the checks and whose segment [ph] is the first
    that ends beyond [size] bytes of memory. *)
Definition overflows (env : host_env) (v : V) (size : Z) (elf : Elf) (ph : ProgramHeader) : Prop :=
  ∃ buffer pre post,
    fs_read env (vm_kernel_path v) = Ok buffer ∧ elf_parse buffer = Ok elf ∧
    libraries elf = [] ∧ e_machine elf = EM_X86_64 ∧
    program_headers elf = pre ++ ph :: post ∧ is_load ph ∧ size < memory_end elf ph ∧
    Forall (λ ph', is_load ph' → memory_end elf ph' ≤ size) pre.

(** What one header does to the mapping, and when it fails. *)
Lemma load_segment_outcome elf buffer ph m i s r :
  load_segment (elf_is_dyn elf) (load_address elf) buffer ph (m, i) = Ret (s, r) →
  same_map m s.1 ∧
  match r with
  | Ok _ => is_load ph → memory_end elf ph ≤ mem_size m
  | Err e => e = InsufficientMemory ∧ is_load ph ∧ mem_size m < memory_end elf ph
  end.
Proof.
  unfold load_segment, is_load. destruct (p_type ph =? PT_LOAD) eqn:Hl.
  - apply Z.eqb_eq in Hl. intros Hs.
    apply bind_Ret in Hs as (start & Hstart & Hs).
    apply bind_Ret in Hs as (rend & _ & Hs). apply bind_Ret in Hs as (kend & _ & Hs).
    apply bind_Ret in Hs as (mend & Hmend & Hs). apply arith_Ret in Hmend.
    assert (mend = memory_end elf ph) as ->.
    { rewrite Hmend. unfold memory_end. destruct (elf_is_dyn elf).
      - by apply arith_Ret in Hstart as ->.
      - by injection Hstart as ->. }
    destruct (mem_size m <? memory_end elf ph) eqn:Hm.
    + injection Hs as <- <-. apply Z.ltb_lt in Hm. done.
    + apply Z.ltb_ge in Hm. exec_inv.
      repeat match goal with
      | H : store_bytes _ _ _ = Ret _ |- _ => apply store_bytes_map in H
      | H : store _ _ _ _ = Ret _ |- _ => apply store_map in H
      end. split; [|done]. cbn. by repeat (etrans; [eassumption|]).
  - apply Z.eqb_neq in Hl. destruct (p_type ph =? PT_TLS); intros Hs; exec_inv;
      repeat match goal with
      | H : store _ _ _ _ = Ret _ |- _ => apply store_map in H
      end; (split; [|done]); cbn; by repeat (etrans; [eassumption|]).
Qed.

Lemma store_octets_map ip field m m' : store_octets ip field m = Ret m' → same_map m m'.
Proof. destruct ip; cbn; [apply store_bytes_map|by intros [= <-]]. Qed.

Lemma write_boot_info_map env start v m m' :
  write_boot_info target_linux env start v m = Ret m' → same_map m m'.
Proof.
  unfold write_boot_info. intros Hw. exec_inv.
  repeat match goal with H : store _ _ _ _ = Ret _ |- _ => apply store_map in H end.
  by repeat (etrans; [eassumption|]).
Qed.

Lemma load_segments_outcome elf buffer phs m i s e :
  try_for_each (load_segment (elf_is_dyn elf) (load_address elf) buffer) phs (m, i) =
    Ret (s, Err e) →
  same_map m s.1 ∧ e = InsufficientMemory ∧
  ∃ pre ph post, phs = pre ++ ph :: post ∧ is_load ph ∧ mem_size m < memory_end elf ph ∧
    Forall (λ ph', is_load ph' → memory_end elf ph' ≤ mem_size m) pre.
Proof.
  intros (pre & ph & post & [m1 i1] & -> & Hpre & Hph)%try_for_each_Err.
  apply (try_for_each_Ok (λ s, same_map m s.1)
    (λ ph', is_load ph' → memory_end elf ph' ≤ mem_size m)) in Hpre as [Hm1 Hall]; [| |done].
  - apply load_segment_outcome in Hph as [Hs (-> & Hl & Hend)]. destruct Hm1 as [Hb1 Hs1].
    cbn in Hb1, Hs1. rewrite Hs1 in Hend. split_and!; [|done|].
    + etrans; [|exact Hs]. done.
    + by exists pre, ph, post.
  - intros a [m2 i2] s2 Hm2 Ha. apply load_segment_outcome in Ha as [Hs Ha].
    destruct Hm2 as [Hb2 Hs2]. cbn in Hb2, Hs2. rewrite Hs2 in Ha. split; [|done].
    etrans; [|exact Hs]. done.
Qed.

(** An executable that passes the checks. *)
Definition accepted (env : host_env) (v : V) (buffer : list Z) (elf : Elf) : Prop :=
  fs_read env (vm_kernel_path v) = Ok buffer ∧ elf_parse buffer = Ok elf ∧
  libraries elf = [] ∧ e_machine elf = EM_X86_64.

Lemma refused_returns env v e :
  refused env v e → load_kernel target_linux env v = Ret (v, Err e).
Proof.
  intros Hr. unfold load_kernel. destruct Hr as [e' Hf|buf e' Hf Hp|buf elf Hf Hp Hc];
    rewrite Hf, ?Hp; [done..|].
  case_bool_decide as Hlib; cbn; [|done]. destruct Hc as [Hc|Hc]; [done|].
  by rewrite (proj2 (Z.eqb_neq _ _) Hc).
Qed.

Lemma refused_or_accepted env v :
  (∃ e, refused env v e) ∨ ∃ buffer elf, accepted env v buffer elf.
Proof.
  destruct (fs_read env (vm_kernel_path v)) as [buf|e] eqn:Hf; [|left; eauto using refused_read].
  destruct (elf_parse buf) as [elf|e] eqn:Hp; [|left; eauto using refused_parse].
  destruct (decide (libraries elf = [])); [|left; eauto using refused_elf].
  destruct (decide (e_machine elf = EM_X86_64)); [|left; eauto using refused_elf].
  right. by exists buf, elf.
Qed.

Lemma accepted_error env v v' buffer elf e :
  accepted env v buffer elf → load_kernel target_linux env v = Ret (v', Err e) →
  e = InsufficientMemory ∧ same_map (guest_mem v) (guest_mem v') ∧
  (∃ ph, overflows env v (mem_size (guest_mem v)) elf ph) ∧
  get_offset v' = load_address elf ∧
  get_entry_point v' =
    if elf_is_dyn elf then wrap 64 (load_address elf + entry elf) else entry elf.
Proof.
  intros (Hf & Hp & Hlib & Hmach) Hl. unfold load_kernel in Hl.
  rewrite Hf, Hp, bool_decide_eq_true_2, Hmach, Z.eqb_refl in Hl by done. cbn [negb] in Hl.
  fold (elf_is_dyn elf) in Hl.
  apply bind_Ret in Hl as (m1 & Hm1%store_bytes_map & Hl).
  apply bind_Ret in Hl as (m2 & Hm2%store_octets_map & Hl).
  apply bind_Ret in Hl as (m3 & Hm3%store_octets_map & Hl).
  apply bind_Ret in Hl as (m4 & Hm4%store_octets_map & Hl).
  apply bind_Ret in Hl as ([start ent] & Hse & Hl).
  assert (start = load_address elf ∧ ent = if elf_is_dyn elf
    then wrap 64 (load_address elf + entry elf) else entry elf) as [-> ->].
  { unfold load_address. destruct (elf_is_dyn elf); [|by injection Hse as <- <-].
    apply bind_Ret in Hse as (e2 & ->%arith_Ret & [= <- <-]). done. }
  apply bind_Ret in Hl as (m5 & Hm5%write_boot_info_map & Hl).
  apply bind_Ret in Hl as ([[m6 i] [u|e6]] & Hm6 & Hl).
  { by apply bind_Ret in Hl as (m7 & _ & ?). }
  assert (same_map (guest_mem v) m5) as Hm by (by repeat (etrans; [eassumption|])).
  injection Hl as <- <-. apply load_segments_outcome in Hm6 as (Hm6 & -> & Hph).
  destruct Hph as (pre & ph & post & Heq & Hload & Hend & Hpre).
  rewrite (proj2 Hm) in Hend, Hpre. autorewrite with vm.
  split_and!; [done|by etrans| |done..]. by exists ph, buffer, pre, post.
Qed.

(** C24: The errors of [load_kernel]: a file that cannot be read, that goblin
    cannot parse, that needs libraries or is for another machine is refused with
    the error of that check and a machine untouched; and every other error is
    [InsufficientMemory], returned for the first loadable segment whose end, as
    the code computes it, lies beyond guest memory, with the mapping in place
    and the load address and the entry point set.  Whatever the file holds,
    whatever the build does on an overflow. *)
Theorem load_kernel_errors (env : host_env) (v : V) e :
  (refused env v e → load_kernel target_linux env v = Ret (v, Err e)) ∧
  (∀ v', load_kernel target_linux env v = Ret (v', Err e) →
     (refused env v e ∧ v' = v) ∨
     (e = InsufficientMemory ∧ same_map (guest_mem v) (guest_mem v') ∧
      ∃ elf, (∃ ph, overflows env v (mem_size (guest_mem v)) elf ph) ∧
        get_offset v' = load_address elf ∧
        get_entry_point v' =
          if elf_is_dyn elf then wrap 64 (load_address elf + entry elf) else entry elf)).
Proof.
  split; [apply refused_returns|]. intros v' Hl.
  destruct (refused_or_accepted env v) as [(e' & Hr)|(buf & elf & Ha)].
  - rewrite (refused_returns _ _ _ Hr) in Hl. injection Hl as <- <-. by left.
  - right. destruct (accepted_error _ _ _ _ _ _ Ha Hl) as (-> & ? & ? & ?).
    split_and!; [done..|]. by exists elf.
Qed.

End Errors.

(** ** Frequency *)

(** A processor that reports its base frequency but no crystal clock: the
    detour over the crystal clock loses at most one MHz, and nothing when the
    crystal's frequency is a whole number. *)
Lemma detect_freq_from_base `{Profile, CpuId} tinfo b :
  get_tsc_info = Some tinfo → tsc_frequency tinfo = None →
  processor_base_frequency = Some b →
  0 < b < 2 ^ 16 → 0 < denominator tinfo → 0 < numerator tinfo →
  b * 1000000 * denominator tinfo < 2 ^ 64 →
  numerator tinfo ≤ 999998 * denominator tinfo →
  ∃ mhz, detect_freq_from_cpuid = Ret (Ok mhz) ∧ b - 1 ≤ mhz ≤ b ∧
    ((numerator tinfo | b * 1000000 * denominator tinfo) → mhz = b).
Proof.
  intros Htsc Hnone Hbase Hb Hd Hn Hfit Hratio. unfold detect_freq_from_cpuid.
  rewrite Htsc, Hnone, Hbase. unfold MHZ_TO_HZ, rust_div. arith_ok.
  rewrite (proj2 (Z.eqb_neq (denominator tinfo) 0)) by lia.
  rewrite (proj2 (Z.eqb_neq (numerator tinfo) 0)) by lia. cbn [mbind exec_bind].
  set (d := denominator tinfo) in *. set (n := numerator tinfo) in *.
  set (x := b * 1000000) in *. set (c := x * d / n).
  assert (c * n ≤ x * d < c * n + n) as Hc.
  { pose proof (Z.div_mod (x * d) n). pose proof (Z.mod_pos_bound (x * d) n). subst c. lia. }
  assert (0 ≤ c) by (apply Z.div_pos; nia).
  rewrite arith_fits by (unfold fits; nia). cbn [mbind exec_bind].
  cbn [default from_option id].
  set (y := c * n / d). assert (y * d ≤ c * n < y * d + d) as Hy.
  { pose proof (Z.div_mod (c * n) d). pose proof (Z.mod_pos_bound (c * n) d). subst y. lia. }
  assert (x - 999998 ≤ y ≤ x) as Hyx by nia.
  rewrite (proj2 (Z.ltb_lt _ _)) by lia.
  assert (b - 1 ≤ y / 1000000 ≤ b) as Hm.
  { split; [apply Z.div_le_lower_bound|apply Z.div_le_upper_bound]; lia. }
  unfold try_into. rewrite decide_True by (unfold fits; lia).
  eexists. split; [done|]. split; [done|]. intros Hdiv.
  assert (c * n = x * d) as Hexact.
  { destruct Hdiv as [q Hq]. subst c. by rewrite Hq, Z.div_mul by lia. }
  assert (y = x) as -> by nia. subst x. by rewrite Z.div_mul.
Qed.
