(* ===== verification/Virtqueue.v ===== *)
(** * Split virtqueues (src/linux/virtqueue.rs)

    A virtqueue is three arrays in guest memory: the descriptor table, the ring
    of available buffers the guest fills, and the ring of used buffers the
    device fills.  A [Vring] is its host address. *)

From S2P Require Import Prelude Memory Consts.

Definition QUEUE_LIMIT : Z := 256.

(** Sizes and offsets of the [repr(C)] structures. *)
Module VringDescriptor.
Definition addr : Z := 0.
Definition len : Z := 8.
Definition flags : Z := 12.
Definition next : Z := 14.
Definition size_of : Z := 16.
End VringDescriptor.

Module VringUsedElement.
Definition id : Z := 0.
Definition len : Z := 4.
Definition size_of : Z := 8.
End VringUsedElement.

(** [a % b] on unsigned integers panics on a zero divisor. *)
Definition rust_rem (a b : Z) : exec Z := if b =? 0 then Panic else Ret (a mod b).

Module Vring.
Section Vring.
Context `{Profile}.

Definition index (m : mem) (ring : Z) : exec Z := load 2 m (ring + 2).

Definition advance_index (m : mem) (ring : Z) : exec mem :=
  i ← index m ring;
  new_value ← arith 16 (i + 1);
  store 2 m (ring + 2) new_value.

(** The address of an element of [elem_size] bytes; the offset is a [u16]. *)
Definition ring_elem (elem_size ring index : Z) : exec Z :=
  x ← arith 16 (index * elem_size);
  off ← arith 16 (4 + x);
  Ret (ring + off).

End Vring.
End Vring.

Record Virtqueue := {
  descriptor_table : Z;
  available_ring : Z;
  used_ring : Z;
  last_seen_available : Z;
  last_seen_used : Z;
  queue_size : Z;
}.

Definition set_last_seen (n : Z) (q : Virtqueue) : Virtqueue := {|
  descriptor_table := descriptor_table q;
  available_ring := available_ring q;
  used_ring := used_ring q;
  last_seen_available := n;
  last_seen_used := last_seen_used q;
  queue_size := queue_size q;
|}.

Section Virtqueue.
Context `{Profile}.

(** [AvailIter::next]. *)
Definition avail_next (m : mem) (q : Virtqueue) : exec (option Z * Virtqueue) :=
  avail ← Vring.index m (available_ring q);
  if last_seen_available q =? avail then Ret (None, q)
  else
    index ← rust_rem (last_seen_available q) (queue_size q);
    last ← arith 16 (last_seen_available q + 1);
    Ret (Some index, set_last_seen last q).

Definition align (addr boundary : Z) : exec Z :=
  x ← arith 64 (addr + boundary);
  y ← arith 64 (x - 1);
  mask ← arith 64 (boundary - 1);
  Ret (Z.land y (unot 64 mask)).

Definition get_available_ring_offset : Z := VringDescriptor.size_of * QUEUE_LIMIT.

Definition get_used_ring_offset : exec Z :=
  align (get_available_ring_offset + 2 * (QUEUE_LIMIT + 3)) PAGE_SIZE.

Definition new (mem_ptr size : Z) : exec Virtqueue :=
  used ← get_used_ring_offset;
  Ret {| descriptor_table := mem_ptr;
         available_ring := mem_ptr + get_available_ring_offset;
         used_ring := mem_ptr + used;
         last_seen_available := 0;
         last_seen_used := 0;
         queue_size := wrap 16 size |}.

Definition get_descriptor (q : Virtqueue) (index : Z) : Z :=
  descriptor_table q + VringDescriptor.size_of * index.

Definition add_used (m : mem) (q : Virtqueue) (desc_index len : Z) : exec mem :=
  used ← Vring.index m (used_ring q);
  tgt_index ← rust_rem used (queue_size q);
  used_elem ← Vring.ring_elem VringUsedElement.size_of (used_ring q) tgt_index;
  m ← store 4 m (used_elem + VringUsedElement.id) desc_index;
  m ← store 4 m (used_elem + VringUsedElement.len) len;
  Vring.advance_index m (used_ring q).

(** [for index in queue.avail_iter() { indices.push(index) }]; the counters are
    16 bits wide, so [2^16] rounds are enough. *)
Fixpoint collect (fuel : nat) (m : mem) (q : Virtqueue) : option (exec (list Z * Virtqueue)) :=
  match fuel with
  | O => None
  | S fuel' =>
      match avail_next m q with
      | Ret (None, q') => Some (Ret ([], q'))
      | Ret (Some index, q') =>
          match collect fuel' m q' with
          | Some (Ret (indices, q'')) => Some (Ret (index :: indices, q''))
          | r => r
          end
      | Panic => Some Panic
      | Fault => Some Fault
      end
  end.

End Virtqueue.

(** ** Layout *)

Lemma used_ring_offset `{Profile} : get_used_ring_offset = Ret 8192.
Proof.
  unfold get_used_ring_offset, align. 
  change (get_available_ring_offset + 2 * (QUEUE_LIMIT + 3)) with 4614. unfold PAGE_SIZE.
  by arith_ok.
Qed.

(** A virtqueue of 256 entries at a host address: where its parts are. *)
Definition queue_at (base last : Z) (q : Virtqueue) : Prop :=
  descriptor_table q = base ∧ available_ring q = base + 4096 ∧ used_ring q = base + 8192 ∧
  last_seen_available q = last ∧ queue_size q = 256.

(** This is what [Virtqueue::new] computes. *)
Lemma new_queue_at `{Profile} base q :
  new base QUEUE_LIMIT = Ret q → queue_at base 0 q.
Proof. unfold new. rewrite used_ring_offset. by intros [= <-]. Qed.

Lemma new_returns `{Profile} base : ∃ q, new base QUEUE_LIMIT = Ret q.
Proof. unfold new. rewrite used_ring_offset. by eexists. Qed.

Lemma queue_at_set base last last' q :
  queue_at base last q → queue_at base last' (set_last_seen last' q).
Proof. intros (?&?&?&?&?). by split_and!. Qed.

(** The queue at its position in the available ring. *)
Lemma new_queue_last `{Profile} base q last :
  new base QUEUE_LIMIT = Ret q → queue_at base last (set_last_seen last q).
Proof. intros Hq. eapply queue_at_set, new_queue_at, Hq. Qed.

(** ** The available ring *)

(** The descriptors pending between two values of the free-running index. *)
Definition pending (last : Z) (n : nat) : list Z :=
  (λ k, (last + k) mod 256) <$> seqZ 0 (Z.of_nat n).

Lemma pending_S last n : pending last (S n) = last mod 256 :: pending (last + 1) n.
Proof.
  unfold pending. rewrite seqZ_cons by lia. cbn [fmap list_fmap]. rewrite Z.add_0_r. f_equal.
  replace (Z.pred (Z.of_nat (S n))) with (Z.of_nat n) by lia.
  change (Z.succ 0) with (1 + 0). rewrite <- fmap_add_seqZ, <- list_fmap_compose.
  apply list_fmap_ext. intros i k _. cbn. f_equal. lia.
Qed.

Lemma pending_wrap last n : pending (wrap 16 last) n = pending last n.
Proof.
  unfold pending. apply list_fmap_ext. intros i k _. unfold wrap.
  rewrite <- (Z.add_mod_idemp_l (last mod 2 ^ 16)), <- (Z.add_mod_idemp_l last) by lia.
  do 2 f_equal. apply Z.mod_mod_divide. by exists 256.
Qed.

Section Collect.
Context `{Profile} (m : mem) (base avail : Z).
Hypothesis Havail : load 2 m (base + 4096 + 2) = Ret avail.
Hypothesis Hfits : fits 16 avail.

Lemma avail_next_done q : queue_at base avail q → avail_next m q = Ret (None, q).
Proof.
  intros (Hd & Ha & Hu & Hl & Hq). unfold avail_next, Vring.index.
  rewrite Ha, Havail, Hl. cbn [mbind exec_bind]. by rewrite Z.eqb_refl.
Qed.

Lemma avail_next_some q last :
  queue_at base last q → last ≠ avail →
  avail_next m q =
    (last' ← arith 16 (last + 1); Ret (Some (last mod 256), set_last_seen last' q)).
Proof.
  intros (Hd & Ha & Hu & Hl & Hq) Hne. unfold avail_next, Vring.index.
  rewrite Ha, Havail, Hl, Hq. cbn [mbind exec_bind]. by rewrite (proj2 (Z.eqb_neq _ _)).
Qed.

Lemma set_last_seen_twice a b q : set_last_seen a (set_last_seen b q) = set_last_seen a q.
Proof. done. Qed.

Lemma set_last_seen_self last q : queue_at base last q → set_last_seen last q = q.
Proof. intros (_&_&_&<-&_). by destruct q. Qed.

Lemma collect_run n fuel q last :
  fits 16 last → queue_at base last q → (n < fuel)%nat → Z.of_nat n < 2 ^ 16 →
  wrap 16 (last + Z.of_nat n) = avail →
  (overflow_checks = true → last + Z.of_nat n < 2 ^ 16) →
  collect fuel m q = Some (Ret (pending last n, set_last_seen avail q)).
Proof.
  revert fuel q last. induction n as [|n IH]; intros fuel q last Hlast Hq Hfuel Hn Havl Hover.
  - rewrite Z.add_0_r, wrap_fits in Havl by done. subst last.
    destruct fuel as [|fuel]; [lia|]. cbn [collect]. rewrite avail_next_done by done.
    by rewrite (set_last_seen_self avail).
  - destruct fuel as [|fuel]; [lia|]. cbn [collect].
    assert (last ≠ avail) as Hne.
    { intros ->. unfold wrap, fits in *. pose proof (Z.div_mod (avail + Z.of_nat (S n)) (2 ^ 16)).
      nia. }
    rewrite (avail_next_some q last) by done.
    assert (arith 16 (last + 1) = Ret (wrap 16 (last + 1))) as ->.
    { unfold arith. case_decide; [by rewrite wrap_fits|].
      destruct overflow_checks; [|done]. unfold fits in *. lia. }
    cbn [mbind exec_bind].
    rewrite (IH fuel (set_last_seen (wrap 16 (last + 1)) q) (wrap 16 (last + 1))).
    + by rewrite pending_wrap, pending_S.
    + by apply wrap_range.
    + by eapply queue_at_set.
    + lia.
    + lia.
    + rewrite <- Havl. unfold wrap. rewrite Z.add_mod_idemp_l by lia. f_equal. lia.
    + intros Hc. specialize (Hover Hc). rewrite wrap_fits; unfold fits in *; lia.
Qed.

(** With overflow checks the collection cannot cross the end of the index. *)
Lemma collect_overflow fuel q last :
  overflow_checks = true → fits 16 last → avail < last → queue_at base last q →
  2 ^ 16 - last ≤ Z.of_nat fuel → collect fuel m q = Some Panic.
Proof.
  intros Hc. revert q last. induction fuel as [|fuel IH]; intros q last Hlast Hlt Hq Hfuel.
  { unfold fits in *. lia. }
  cbn [collect]. rewrite (avail_next_some q last) by (done || lia).
  unfold arith. case_decide as Hf.
  - cbn [mbind exec_bind]. rewrite (IH _ (last + 1)); [done|done|lia| |lia].
    by eapply queue_at_set.
  - by rewrite Hc.
Qed.

End Collect.

Lemma index_distance `{Profile} last avail :
  fits 16 last → fits 16 avail → last ≤ avail ∨ overflow_checks = false →
  fits 16 (wrap 16 (avail - last)) ∧ wrap 16 (last + wrap 16 (avail - last)) = avail ∧
  (overflow_checks = true → last + wrap 16 (avail - last) < 2 ^ 16).
Proof.
  intros Hl Ha Hover. split_and!.
  - by apply wrap_range.
  - unfold wrap, fits in *. rewrite Z.add_mod_idemp_r by lia.
    rewrite Z.add_sub_assoc, Z.add_comm, Z.add_simpl_r. by apply Z.mod_small.
  - intros Hc. unfold fits in *. destruct Hover as [Hle|]; [|congruence].
    rewrite wrap_fits by (unfold fits; lia). lia.
Qed.

(** Iterating over the available ring yields every buffer the guest added
    since the last time, once and in order, and ends after at most [2^16 - 1]
    of them; in a build without overflow checks this also holds when the
    guest's free-running index has wrapped around. *)
Lemma collect_correct `{Profile} m base last avail q :
  load 2 m (base + 4096 + 2) = Ret avail → fits 16 avail → fits 16 last →
  queue_at base last q → last ≤ avail ∨ overflow_checks = false →
  collect (Z.to_nat (2 ^ 16)) m q =
    Some (Ret (pending last (Z.to_nat (wrap 16 (avail - last))), set_last_seen avail q)).
Proof.
  intros Havail Ha Hl Hq Hover. destruct (index_distance last avail) as ([??] & ? & ?); [done..|].
  apply (collect_run m base); rewrite ?Z2Nat.id by lia; done || lia.
Qed.

(** In a build with overflow checks the same loop panics as soon as the
    guest's index wraps around, which the virtio rings do by design. *)
Lemma collect_panics_on_wraparound `{Profile} m base last avail q :
  overflow_checks = true →
  load 2 m (base + 4096 + 2) = Ret avail → fits 16 avail → fits 16 last → avail < last →
  queue_at base last q → collect (Z.to_nat (2 ^ 16)) m q = Some Panic.
Proof.
  intros Hc Havail Ha Hl Hlt Hq. apply (collect_overflow m base avail Havail _ _ last); try done.
  unfold fits in *. lia.
Qed.

(** Whatever the guest left in the ring, the loop ends within [2^16] rounds: the
    position meets the guest's index, or the loop panics or leaves guest
    memory. *)
Lemma collect_terminates `{Profile} fuel m q :
  mem_wf m → fits 16 (last_seen_available q) → 2 ^ 16 ≤ Z.of_nat fuel →
  collect fuel m q ≠ None.
Proof.
  intros Hm Hq Hfuel. destruct (Vring.index m (available_ring q)) as [avail| |] eqn:Havail.
  2, 3: destruct fuel; [lia|]; cbn [collect]; unfold avail_next; by rewrite Havail.
  pose proof (load_fits 2 m _ avail Hm Havail) as Ha. change (8 * Z.of_nat 2) with 16 in Ha.
  assert (wrap 16 (avail - last_seen_available q) < Z.of_nat fuel) as Hleft.
  { pose proof (wrap_range 16 (avail - last_seen_available q) ltac:(lia)). unfold fits in *. lia. }
  clear Hfuel. revert q Hq Havail Hleft. induction fuel as [|fuel IH]; intros q Hq Havail Hleft.
  { pose proof (wrap_range 16 (avail - last_seen_available q) ltac:(lia)). unfold fits in *. lia. }
  cbn [collect]. unfold avail_next. rewrite Havail. cbn [mbind exec_bind].
  destruct (Z.eqb_spec (last_seen_available q) avail) as [|Hne]; [done|].
  destruct (rust_rem _ _) as [i| |]; [|done..]. cbn [mbind exec_bind].
  destruct (arith 16 _) as [last| |] eqn:Hlast; [|done..]. cbn [mbind exec_bind].
  apply arith_Ret in Hlast as ->.
  assert (collect fuel m (set_last_seen (wrap 16 (last_seen_available q + 1)) q) ≠ None) as Hrec.
  { apply IH; [by apply wrap_range|done|]. cbn [last_seen_available set_last_seen].
    unfold wrap in *. rewrite Zminus_mod_idemp_r.
    assert (1 ≤ (avail - last_seen_available q) mod 2 ^ 16).
    { unfold fits in *. pose proof (Z.mod_pos_bound (avail - last_seen_available q) (2 ^ 16) ltac:(lia)).
      pose proof (Z.div_mod (avail - last_seen_available q) (2 ^ 16) ltac:(lia)). nia. }
    replace (avail - (last_seen_available q + 1)) with ((avail - last_seen_available q) - 1) by lia.
    rewrite <- Zminus_mod_idemp_l, Z.mod_small; [lia|].
    pose proof (Z.mod_pos_bound (avail - last_seen_available q) (2 ^ 16) ltac:(lia)). lia. }
  by destruct (collect fuel m _) as [[[]| |]|].
Qed.

(** A queue that [Virtqueue::new] made, at some position. *)
Definition queue_wf (q : Virtqueue) : Prop :=
  ∃ base last, queue_at base last q ∧ fits 16 last.

Lemma new_queue_wf `{Profile} base q : new base QUEUE_LIMIT = Ret q → queue_wf q.
Proof. intros Hq. exists base, 0. split; [by apply new_queue_at|done]. Qed.

(** Collecting changes nothing but the position. *)
Lemma avail_next_wf `{Profile} m q r q' : queue_wf q → avail_next m q = Ret (r, q') → queue_wf q'.
Proof.
  intros (base & last & Hq & Hl) Hnext. unfold avail_next in Hnext. exec_inv.
  destruct (_ =? _); exec_inv; simplify_eq; [by exists base, last|].
  match goal with Ha : arith 16 _ = Ret _ |- _ => apply arith_Ret in Ha as -> end.
  eexists base, _. split; [by eapply queue_at_set|]. by apply wrap_range.
Qed.

Lemma collect_queue_wf `{Profile} fuel m q indices q' :
  queue_wf q → default Panic (collect fuel m q) = Ret (indices, q') → queue_wf q'.
Proof.
  revert q indices. induction fuel as [|fuel IH]; intros q indices Hq; cbn [collect]; [done|].
  destruct (avail_next m q) as [[[i|] q1]| |] eqn:Hnext; [| |done..];
    apply avail_next_wf in Hnext; try done; [|by intros [= _ <-]].
  intros Hc. destruct (collect fuel m q1) as [[[l q2]| |]|] eqn:Hrec; try done.
  injection Hc as _ <-. apply (IH q1 l Hnext). by rewrite Hrec.
Qed.

(** ** The used ring *)

Definition used_elem (base u : Z) : Z := base + 8192 + 4 + 8 * (u mod 256).

Definition used_writes (base u desc_index len : Z) : list (Z * list Z) :=
  [(used_elem base u, le_split 4 desc_index);
   (used_elem base u + 4, le_split 4 len);
   (base + 8192 + 2, le_split 2 (u + 1))].

Lemma used_writes_inside base u desc_index len :
  Forall (λ w, base + 8192 ≤ w.1 ∧ w.1 + Z.of_nat (length w.2) ≤ base + 8192 + 2052)
    (used_writes base u desc_index len).
Proof.
  pose proof (Z.mod_pos_bound u 256).
  repeat (apply Forall_cons; split); [..|done]; unfold used_elem; cbn [fst snd];
    rewrite length_le_split; lia.
Qed.

Lemma used_writes_apart base u desc_index len :
  pairwise_apart (used_writes base u desc_index len).
Proof.
  pose proof (Z.mod_pos_bound u 256). unfold used_writes, used_elem.
  cbn [pairwise_apart]. split_and!; repeat (apply Forall_cons; split); try apply Forall_nil;
    try exact I; unfold write_apart, apart; cbn [fst snd]; rewrite !length_le_split; lia.
Qed.

(** Whether the increment of the used index goes through. *)
Definition can_advance `{Profile} (u : Z) : Prop := u + 1 < 2 ^ 16 ∨ overflow_checks = false.

(** The increment comes last. *)
Lemma add_used_eq `{Profile} m base last q u desc_index len :
  queue_at base last q → valid m (base + 8192) 2052 →
  load 2 m (base + 8192 + 2) = Ret u → fits 16 u →
  add_used m q desc_index len =
    (_ ← arith 16 (u + 1); Ret (writes (used_writes base u desc_index len) m)).
Proof.
  intros (Hd & Ha & Hu & Hl & Hq) Hv Hload Hfit.
  pose proof (Z.mod_pos_bound u 256 ltac:(lia)) as Hmod.
  unfold add_used, Vring.index. rewrite Hu, Hload. cbn [mbind exec_bind].
  rewrite Hq. unfold rust_rem. cbn [Z.eqb mbind exec_bind].
  unfold Vring.ring_elem, VringUsedElement.size_of, VringUsedElement.id, VringUsedElement.len.
  rewrite (arith_fits 16 (u mod 256 * 8)) by (unfold fits; lia). cbn [mbind exec_bind].
  rewrite (arith_fits 16 (4 + u mod 256 * 8)) by (unfold fits; lia). cbn [mbind exec_bind].
  rewrite !Z.add_0_r.
  replace (base + 8192 + (4 + u mod 256 * 8)) with (used_elem base u)
    by (unfold used_elem; lia).
  assert (base + 8192 + 4 ≤ used_elem base u ≤ base + 8192 + 2044) as He
    by (unfold used_elem; lia).
  unfold valid in Hv.
  do 2 (rewrite store_valid by (unfold valid; rewrite ?base_write, ?size_write; lia);
    cbn [mbind exec_bind]).
  unfold Vring.advance_index, Vring.index.
  rewrite !load_write_disjoint, Hload by (rewrite length_le_split; lia). cbn [mbind exec_bind].
  unfold arith. case_decide as Hf; [|destruct overflow_checks; [done|]]; cbn [mbind exec_bind];
    rewrite store_valid by (unfold valid; rewrite ?base_write, ?size_write; lia); [done|].
  unfold used_writes. unfold fits in *. by assert (u + 1 = 65536) as -> by lia.
Qed.

Lemma add_used_writes `{Profile} m base last q u desc_index len :
  queue_at base last q → valid m (base + 8192) 2052 →
  load 2 m (base + 8192 + 2) = Ret u → fits 16 u → can_advance u →
  add_used m q desc_index len = Ret (writes (used_writes base u desc_index len) m).
Proof.
  intros Hq Hv Hload Hfit Hover. rewrite (add_used_eq m base last q u) by done. unfold arith.
  case_decide as Hf; [done|]. unfold fits in *. destruct Hover as [|Hc]; [lia|]. by rewrite Hc.
Qed.

(** [add_used] appends to the used ring: the guest finds the descriptor and
    the length in the slot of the old index, the index is one further (it
    wraps around in a build without overflow checks), and every other byte of
    guest memory is as before. *)
Lemma add_used_correct `{Profile} m base last q u desc_index len :
  queue_at base last q → valid m (base + 8192) 2052 →
  load 2 m (base + 8192 + 2) = Ret u → fits 16 u → fits 32 desc_index → fits 32 len →
  can_advance u →
  ∃ m', add_used m q desc_index len = Ret m' ∧
    load 2 m' (base + 8192 + 2) = Ret (wrap 16 (u + 1)) ∧
    load 4 m' (used_elem base u + VringUsedElement.id) = Ret desc_index ∧
    load 4 m' (used_elem base u + VringUsedElement.len) = Ret len ∧
    ∀ x, ¬ (base + 8192 + 2 ≤ x < base + 8192 + 4) →
         ¬ (used_elem base u ≤ x < used_elem base u + 8) → peek m' x = peek m x.
Proof.
  intros Hq Hv Hload Hfit Hid Hlen Hover. eexists. split; [by eapply add_used_writes|].
  pose proof (used_writes_apart base u desc_index len) as Hap.
  pose proof (Z.mod_pos_bound u 256 ltac:(lia)). unfold valid in Hv.
  assert (base + 8192 + 4 ≤ used_elem base u ≤ base + 8192 + 2044) as He
    by (unfold used_elem; lia).
  unfold VringUsedElement.id, VringUsedElement.len. rewrite Z.add_0_r. split_and!.
  - apply load_writes; [unfold valid; lia|done|]. do 2 right. left.
  - rewrite <- (wrap_fits 32 desc_index) at 2 by done.
    apply (load_writes 4); [unfold valid; lia|done|]. left.
  - rewrite <- (wrap_fits 32 len) at 2 by done.
    apply (load_writes 4); [unfold valid; lia|done|]. right. left.
  - intros x Hx1 Hx2. apply peek_writes_out.
    repeat (apply Forall_cons; split); [..|done]; cbn [fst snd];
      change (length (le_split ?n _)) with n; lia.
Qed.

(** ** Every access stays in the queue's three pages *)

Section Bounds.
Context `{Profile}.

(** Entry [i] of the descriptor table and of both rings. *)
Definition entry_inside (base : Z) (q : Virtqueue) (i : Z) : Prop :=
  (base ≤ get_descriptor q i ∧ get_descriptor q i + VringDescriptor.size_of ≤ base + 4096) ∧
  (∃ a, Vring.ring_elem 2 (available_ring q) i = Ret a ∧ base + 4096 + 4 ≤ a ∧ a + 2 ≤ base + 8192) ∧
  (∃ a, Vring.ring_elem VringUsedElement.size_of (used_ring q) i = Ret a ∧
    base + 8192 + 4 ≤ a ∧ a + VringUsedElement.size_of ≤ base + 12288).

Lemma entries_inside base last q i : queue_at base last q → 0 ≤ i < 256 → entry_inside base q i.
Proof.
  intros (Hd & Ha & Hu & _ & _) Hi. unfold entry_inside, get_descriptor, Vring.ring_elem.
  rewrite Hd, Ha, Hu. unfold VringDescriptor.size_of, VringUsedElement.size_of.
  split; [lia|]. split; arith_ok; (eexists; split; [done|lia]).
Qed.

Lemma collect_inside fuel m q indices q' :
  queue_size q = 256 → collect fuel m q = Some (Ret (indices, q')) → Forall (λ i, 0 ≤ i < 256) indices.
Proof.
  revert q indices. induction fuel as [|fuel IH]; intros q indices Hq; cbn [collect]; [done|].
  destruct (avail_next m q) as [[[i|] q1]| |] eqn:Hnext; try done; [|by intros [= <- _]].
  unfold avail_next in Hnext. exec_inv. destruct (_ =? _); exec_inv; [simplify_eq|].
  unfold rust_rem in *. rewrite Hq in *. simplify_eq/=.
  match goal with |- context [collect fuel m ?q1] =>
    destruct (collect fuel m q1) as [[[l q2]| |]|] eqn:Hrec; try done end.
  intros [= <- ->]. constructor; [by apply Z.mod_pos_bound|]. by eapply IH; [|exact Hrec].
Qed.

(** Whether [add_used] returns, and what it leaves alone. *)
Lemma add_used_inside m base last q desc_index len :
  queue_at base last q → mem_wf m → valid m base 12288 →
  match add_used m q desc_index len with
  | Ret m' => ∀ x, ¬ (base + 8192 ≤ x < base + 12288) → peek m' x = peek m x
  | Panic => overflow_checks = true ∧ load 2 m (base + 8192 + 2) = Ret (2 ^ 16 - 1)
  | Fault => False
  end.
Proof.
  intros Hq Hwf Hv. unfold valid in Hv.
  assert (∃ u, load 2 m (base + 8192 + 2) = Ret u) as [u Hu].
  { eexists. apply load_valid. unfold valid. lia. }
  pose proof (load_fits 2 m _ u Hwf Hu) as Hfit. change (8 * Z.of_nat 2) with 16 in Hfit.
  rewrite (add_used_eq m base last q u) by (done || (unfold valid; lia)).
  assert (∀ x, ¬ (base + 8192 ≤ x < base + 12288) →
    peek (writes (used_writes base u desc_index len) m) x = peek m x) as Hout.
  { intros x Hx. apply peek_writes_out. eapply Forall_impl; [apply used_writes_inside|].
    intros w Hw. cbn in *. lia. }
  unfold arith. case_decide as Hf; [done|]. destruct overflow_checks; [|done].
  split; [done|]. rewrite Hu. f_equal. unfold fits in *. lia.
Qed.

(** C23: The layout [Virtqueue::new] computes for the address the guest gave: the
    256 entries of the descriptor table and of both rings lie inside the three
    pages from that address on, each array in a page of its own, and their
    offsets fit 16 bits.  At any position, the device only takes entries below
    256 from the available ring, and its loop ends within [2^16] rounds; and
    [add_used] changes nothing outside the used ring's page, and panics only at
    the end of the 16-bit index in a build with overflow checks. *)
Theorem queue_bounds m base last desc_index len :
  mem_wf m → valid m base 12288 →
  ∃ q0, new base QUEUE_LIMIT = Ret q0 ∧
  let q := set_last_seen last q0 in
  (∀ i, 0 ≤ i < 256 → entry_inside base q i) ∧
  (∀ fuel indices q', collect fuel m q = Some (Ret (indices, q')) →
     Forall (λ i, 0 ≤ i < 256) indices) ∧
  (fits 16 last → ∀ fuel, 2 ^ 16 ≤ Z.of_nat fuel → collect fuel m q ≠ None) ∧
  match add_used m q desc_index len with
  | Ret m' => ∀ x, ¬ (base + 8192 ≤ x < base + 12288) → peek m' x = peek m x
  | Panic => overflow_checks = true ∧ load 2 m (base + 8192 + 2) = Ret (2 ^ 16 - 1)
  | Fault => False
  end.
Proof.
  intros Hwf Hv. destruct (new_returns base) as [q0 Hnew]. exists q0. split; [done|]. intros q.
  pose proof (new_queue_last base q0 last Hnew) as Hq. fold q in Hq.
  split; [intros i; by eapply entries_inside|]. split_and!.
  - intros fuel indices q'. apply collect_inside. apply Hq.
  - intros Hlast fuel Hfuel. by apply collect_terminates.
  - by eapply add_used_inside.
Qed.

End Bounds.

(** ** A queue at 0x20000 of the guest, with three buffers available *)
Module Example.
Definition host : Z := 0x10000000.
Definition base : Z := host + 0x20000.
Definition memory (avail used : Z) : mem :=
  writes [(base + 4096 + 2, le_split 2 avail); (base + 8192 + 2, le_split 2 used)]
    (Mem host 0x100000 ∅).
Definition queue (last : Z) : Virtqueue := {|
  descriptor_table := base; available_ring := base + 4096; used_ring := base + 8192;
  last_seen_available := last; last_seen_used := 0; queue_size := 256 |}.

Lemma collect_correct_example :
  collect (H := release_profile) (Z.to_nat (2 ^ 16)) (memory 1 0) (queue 65534) =
    Some (Ret ([254; 255; 0], queue 1)).
Proof.
  apply (collect_correct (H := release_profile) (memory 1 0) base 65534 1).
  - by vm_compute.
  - evaluate.
  - evaluate.
  - by split_and!.
  - by right.
Qed.

Lemma queue_bounds_witness :
  ∃ m', add_used (H := debug_profile) (memory 3 5) (queue 3) 2 1 = Ret m' ∧
    entry_inside (H := debug_profile) base (queue 3) 255 ∧ peek m' (base + 4096 + 2) = 3.
Proof.
  destruct (queue_bounds (H := debug_profile) (memory 3 5) base 3 2 1)
    as (q0 & [= <-] & Hin & _ & _ & Hused).
  - apply mem_wf_writes; [by split|evaluate].
  - evaluate.
  - change (set_last_seen 3 _) with (queue 3) in Hin, Hused.
    destruct (add_used (H := debug_profile) (memory 3 5) (queue 3) 2 1) as [m'| |];
      [|destruct Hused as [_ Hu]; vm_compute in Hu; discriminate Hu|contradiction].
    exists m'. split; [reflexivity|]. split; [apply Hin; lia|].
    rewrite Hused; [by vm_compute|unfold base; lia].
Defined.

Lemma collect_panics_on_wraparound_example :
  collect (H := debug_profile) (Z.to_nat (2 ^ 16)) (memory 1 0) (queue 65534) = Some Panic.
Proof.
  apply (collect_panics_on_wraparound (H := debug_profile) (memory 1 0) base 65534 1).
  - done.
  - by vm_compute.
  - evaluate.
  - evaluate.
  - done.
  - by split_and!.
Qed.

Lemma add_used_correct_example :
  ∃ m', add_used (H := debug_profile) (memory 3 5) (queue 3) 2 1 = Ret m' ∧
    load 2 m' (base + 8192 + 2) = Ret 6.
Proof.
  destruct (add_used_correct (H := debug_profile) (memory 3 5) base 3 (queue 3) 5 2 1)
    as (m' & Hr & Hidx & _).
  - by split_and!.
  - evaluate.
  - by vm_compute.
  - evaluate.
  - evaluate.
  - evaluate.
  - by left.
  - by exists m'.
Qed.
End Example.
