(* ===== verification/Virtio.v ===== *)
(** * The virtio network device (src/linux/virtio.rs)

    [VirtioNetPciDevice]: the PCI configuration registers, the handshake by
    which the driver brings the device up, the registration of virtqueues, and
    the transmission of packets.  The TAP device (tun_tap, mac_address) and the
    constants of virtio_bindings are parameters; what is sent to the TAP device
    is a list of packets.  A [dest] slice is the list of bytes of the port
    access; reading it through a raw pointer past its end is a [Fault]. *)

From S2P Require Import Prelude Memory Consts Paging AddressSpace Virtqueue.

Definition STATUS_ACKNOWLEDGE : Z := 1.
Definition STATUS_DRIVER : Z := 2.
Definition STATUS_DRIVER_OK : Z := 4.
Definition STATUS_FEATURES_OK : Z := 8.
Definition STATUS_DRIVER_NEEDS_RESET : Z := 64.
Definition STATUS_FAILED : Z := 128.

Definition VENDOR_ID_REGISTER : Z := 0x0.
Definition DEVICE_ID_REGISTER : Z := 0x2.
Definition STATUS_REGISTER : Z := 0x6.
Definition CLASS_REGISTER : Z := 0x8.
Definition BAR0_REGISTER : Z := 0x10.
Definition TX_QUEUE : Z := 1.
Definition IOBASE : Z := 0xc000.
Definition ETHARP_HWADDR_LEN : Z := 6.

Definition VIRTIO_PCI_HOST_FEATURES : Z := IOBASE.
Definition VIRTIO_PCI_GUEST_FEATURES : Z := IOBASE + 4.
Definition VIRTIO_PCI_QUEUE_PFN : Z := IOBASE + 8.
Definition VIRTIO_PCI_QUEUE_SEL : Z := IOBASE + 14.
Definition VIRTIO_PCI_QUEUE_NOTIFY : Z := IOBASE + 16.
Definition VIRTIO_PCI_STATUS : Z := IOBASE + 18.
Definition VIRTIO_PCI_ISR : Z := IOBASE + 19.
Definition VIRTIO_PCI_CONFIG_OFF_MSIX_OFF : Z := 20.
Definition VIRTIO_PCI_CONFIG_OFF_MSIX_OFF_MAX : Z := VIRTIO_PCI_CONFIG_OFF_MSIX_OFF + 5.
Definition VIRTIO_PCI_LINK_STATUS_MSIX_OFF : Z :=
  ETHARP_HWADDR_LEN + VIRTIO_PCI_CONFIG_OFF_MSIX_OFF.

(** [virtio_bindings]: feature bits and the size of the packet header. *)
Class VirtioNet := {
  VIRTIO_NET_F_STATUS : Z;
  VIRTIO_NET_F_MAC : Z;
  size_of_virtio_net_hdr : Z;
}.

Definition HOST_FEATURES `{VirtioNet} : Z :=
  Z.lor (ushl 32 1 VIRTIO_NET_F_STATUS) (ushl 32 1 VIRTIO_NET_F_MAC).

(** The TAP device: the outcome of [Iface::new], and the address of an
    interface by its name. *)
Record tap_env (T : Type) := TapEnv {
  iface_new : result Z T;
  mac_address_by_name : T → result Z (option (list Z));
}.
Arguments iface_new {T} _.
Arguments mac_address_by_name {T} _ _.

Record VirtioNetPciDevice (T : Type) := Device {
  registers : list Z;
  requested_features : Z;
  selected_queue_num : Z;
  virt_queues : list Virtqueue;
  iface : option T;
  mac_addr : list Z;
}.
Arguments Device {T} _ _ _ _ _ _.
Arguments registers {T} _.
Arguments requested_features {T} _.
Arguments selected_queue_num {T} _.
Arguments virt_queues {T} _.
Arguments iface {T} _.
Arguments mac_addr {T} _.

(** ** Slices *)

(** [slice[i]] and [slice[i] = v]. *)
Definition slice_get (l : list Z) (i : Z) : exec Z := unwrap (l !! Z.to_nat i).
Definition slice_set (l : list Z) (i v : Z) : exec (list Z) :=
  if decide (i < Z.of_nat (length l)) then Ret (<[Z.to_nat i := v]> l) else Panic.

Definition read_u16 (l : list Z) (address : Z) : exec Z :=
  a ← slice_get l address;
  b ← slice_get l (address + 1);
  Ret (Z.lor a (Z.shiftl b 8)).

Definition write_u16 (l : list Z) (address value : Z) : exec (list Z) :=
  l ← slice_set l address (Z.land value 0xff);
  slice_set l (address + 1) (Z.land (Z.shiftr value 8) 0xff).

(** [*(slice.as_ptr() as *const T)] for a [T] of [n] bytes. *)
Definition read_raw (n : nat) (l : list Z) : exec Z :=
  if decide (n ≤ length l)%nat then Ret (le_combine (take n l)) else Fault.

(** [dest[0..bytes.len()].clone_from_slice(bytes)]. *)
Definition clone_prefix (dest bytes : list Z) : exec (list Z) :=
  rust_assert (Z.of_nat (length bytes) <=? Z.of_nat (length dest)) ;;
  Ret (bytes ++ drop (length bytes) dest).

Section Device.
Context {T : Type}.

Definition set_registers (r : list Z) (d : VirtioNetPciDevice T) : VirtioNetPciDevice T :=
  Device r (requested_features d) (selected_queue_num d) (virt_queues d) (iface d) (mac_addr d).
Definition set_queues (qs : list Virtqueue) (d : VirtioNetPciDevice T) : VirtioNetPciDevice T :=
  Device (registers d) (requested_features d) (selected_queue_num d) qs (iface d) (mac_addr d).

Definition new_device : exec (VirtioNetPciDevice T) :=
  let registers := replicate 0x40 0 in
  registers ← write_u16 registers VENDOR_ID_REGISTER 0x1AF4;
  registers ← write_u16 registers DEVICE_ID_REGISTER 0x1000;
  registers ← write_u16 registers (CLASS_REGISTER + 2) 0x0200;
  registers ← write_u16 registers BAR0_REGISTER IOBASE;
  registers ← slice_set registers STATUS_REGISTER STATUS_DRIVER_NEEDS_RESET;
  Ret (Device registers 0 0 [] None (replicate 6 0)).

Definition handle_read (d : VirtioNetPciDevice T) (address : Z) (dest_len : nat) : exec (list Z) :=
  rust_assert (address <=? Z.of_nat (length (registers d))) ;;
  let rest := drop (Z.to_nat address) (registers d) in
  rust_assert (Z.of_nat dest_len <=? Z.of_nat (length rest)) ;;
  Ret (take dest_len rest).

(** The loop of [handle_write], at byte [i]. *)
Fixpoint handle_write_from (registers : list Z) (address i : Z) (dest : list Z) :
  exec (list Z) :=
  match dest with
  | [] => Ret registers
  | var :: dest' =>
      registers ← slice_set registers (address + i) var;
      handle_write_from registers address (i + 1) dest'
  end.

Definition handle_write (d : VirtioNetPciDevice T) (address : Z) (dest : list Z) : exec (VirtioNetPciDevice T) :=
  r ← handle_write_from (registers d) address 0 dest; Ret (set_registers r d).

Definition read_status_reg (d : VirtioNetPciDevice T) : exec Z := slice_get (registers d) STATUS_REGISTER.

Definition write_status_reg (d : VirtioNetPciDevice T) (status : Z) : exec (VirtioNetPciDevice T) :=
  r ← slice_set (registers d) STATUS_REGISTER status; Ret (set_registers r d).

(** [registers[STATUS_REGISTER] |= STATUS_DRIVER_NEEDS_RESET]. *)
Definition needs_reset (d : VirtioNetPciDevice T) : exec (VirtioNetPciDevice T) :=
  status ← read_status_reg d; write_status_reg d (Z.lor status STATUS_DRIVER_NEEDS_RESET).

Definition read_status (d : VirtioNetPciDevice T) (dest_len : nat) : exec (list Z) :=
  handle_read d (Z.land STATUS_REGISTER 0x3FFF) dest_len.

Definition write_status_reset (d : VirtioNetPciDevice T) (dest : list Z) : exec (VirtioNetPciDevice T) :=
  b ← slice_get dest 0;
  if b =? STATUS_ACKNOWLEDGE then write_status_reg d b else Ret d.

Definition write_status_acknowledge (d : VirtioNetPciDevice T) (dest : list Z) : exec (VirtioNetPciDevice T) :=
  b ← slice_get dest 0;
  if b =? Z.lor STATUS_ACKNOWLEDGE STATUS_DRIVER then write_status_reg d b else Ret d.

Definition write_status_features (d : VirtioNetPciDevice T) (dest : list Z) : exec (VirtioNetPciDevice T) :=
  b ← slice_get dest 0;
  if b =? Z.lor (Z.lor STATUS_ACKNOWLEDGE STATUS_DRIVER) STATUS_FEATURES_OK
  then write_status_reg d b else Ret d.

Definition get_mac_addr (env : tap_env T) (d : VirtioNetPciDevice T) : exec (VirtioNetPciDevice T) :=
  match iface d with
  | Some tap =>
      match mac_address_by_name env tap with
      | Ok (Some ma) =>
          Ret (Device (registers d) (requested_features d) (selected_queue_num d)
                 (virt_queues d) (iface d) ma)
      | Ok None => needs_reset d
      | Err _ => needs_reset d
      end
  | None => Ret d
  end.

Definition write_status_ok (env : tap_env T) (d : VirtioNetPciDevice T) (dest : list Z) : exec (VirtioNetPciDevice T) :=
  b ← slice_get dest 0;
  if b =? Z.lor (Z.lor (Z.lor STATUS_ACKNOWLEDGE STATUS_DRIVER) STATUS_FEATURES_OK)
            STATUS_DRIVER_OK
  then
    d ← write_status_reg d b;
    '(d, tap) ← match iface_new env with
                | Ok tap => Ret (d, Some tap)
                | Err _ => d ← needs_reset d; Ret (d, None)
                end;
    get_mac_addr env (Device (registers d) (requested_features d) (selected_queue_num d)
                        (virt_queues d) tap (mac_addr d))
  else Ret d.

Definition write_status (env : tap_env T) (d : VirtioNetPciDevice T) (dest : list Z) : exec (VirtioNetPciDevice T) :=
  status ← read_status_reg d;
  b ← slice_get dest 0;
  if b =? 0 then
    d ← write_status_reg d 0;
    Ret (Device (registers d) 0 0 [] None (mac_addr d))
  else if (status =? STATUS_DRIVER_NEEDS_RESET) || (status =? 0) then write_status_reset d dest
  else if status =? STATUS_ACKNOWLEDGE then write_status_acknowledge d dest
  else if status =? Z.lor STATUS_ACKNOWLEDGE STATUS_DRIVER then write_status_features d dest
  else if status =? Z.lor (Z.lor STATUS_ACKNOWLEDGE STATUS_DRIVER) STATUS_FEATURES_OK
  then write_status_ok env d dest
  else Ret d.

Definition read_mac_byte (d : VirtioNetPciDevice T) (dest : list Z) (index : Z) : exec (list Z) :=
  b ← slice_get (mac_addr d) index; slice_set dest 0 b.

Definition write_selected_queue (d : VirtioNetPciDevice T) (dest : list Z) : exec (VirtioNetPciDevice T) :=
  n ← read_raw 2 dest;
  Ret (Device (registers d) (requested_features d) n (virt_queues d) (iface d) (mac_addr d)).

Definition write_requested_features `{VirtioNet} (d : VirtioNetPciDevice T) (dest : list Z) : exec (VirtioNetPciDevice T) :=
  status ← read_status_reg d;
  if status =? Z.lor STATUS_ACKNOWLEDGE STATUS_DRIVER then
    requested ← read_raw 4 dest;
    Ret (Device (registers d) (Z.land (Z.lor (requested_features d) requested) HOST_FEATURES)
           (selected_queue_num d) (virt_queues d) (iface d) (mac_addr d))
  else Ret d.

Definition read_requested_features (d : VirtioNetPciDevice T) (dest : list Z) : exec (list Z) :=
  status ← read_status_reg d;
  if status =? Z.lor STATUS_ACKNOWLEDGE STATUS_DRIVER
  then clone_prefix dest (le_split 4 (requested_features d))
  else Ret dest.

Definition read_link_status (d : VirtioNetPciDevice T) (dest : list Z) : exec (list Z) :=
  status ← read_status_reg d;
  if negb (Z.land status STATUS_FAILED =? 0) || negb (Z.land status STATUS_DRIVER_NEEDS_RESET =? 0)
  then slice_set dest 0 0
  else match iface d with Some _ => slice_set dest 0 1 | None => slice_set dest 0 0 end.

Definition read_host_features `{VirtioNet} (dest : list Z) : exec (list Z) :=
  clone_prefix dest (le_split 4 HOST_FEATURES).

Definition reset_interrupt (d : VirtioNetPciDevice T) : VirtioNetPciDevice T := d.

End Device.

(** ** Queues and packets *)

Section Transmit.
Context `{Profile, VirtioNet} {T : Type} (vm_start : Z).
(** Rounds for collecting the available buffers; [2^16] are always enough. *)
Context (fuel : nat).

Definition write_pfn (d : VirtioNetPciDevice T) (dest : list Z) : exec (VirtioNetPciDevice T) :=
  status ← read_status_reg d;
  if negb (Z.land status STATUS_FEATURES_OK =? 0) && (Z.land status STATUS_DRIVER_OK =? 0)
     && (selected_queue_num d =? Z.of_nat (length (virt_queues d)))
  then
    gpa ← read_raw 8 dest;
    hva ← host_address vm_start gpa;
    queue ← new hva QUEUE_LIMIT;
    Ret (set_queues (virt_queues d ++ [queue]) d)
  else Ret d.

(** Guest memory, the device, and the packets handed to the [send] of the TAP
    device so far; the code ignores what [send] returns. *)
Record tx_state := Tx {
  tx_mem : mem;
  tx_device : VirtioNetPciDevice T;
  tx_sent : list (list Z);
}.

(** The body of the loop over the collected indices. *)
Definition send_packet (tx_queue : Virtqueue) (index : Z) (s : tx_state) : exec tx_state :=
  let desc := get_descriptor tx_queue index in
  let m := tx_mem s in
  addr ← load 8 m (desc + VringDescriptor.addr);
  gpa ← load 8 m addr;
  hva ← host_address vm_start gpa;
  '(d, sent) ←
    match iface (tx_device s) with
    | Some tap =>
        len ← load 4 m (desc + VringDescriptor.len);
        n ← arith 64 (len - size_of_virtio_net_hdr);
        (** An allocation of more than [isize::MAX] bytes panics. *)
        rust_assert (n <? 2 ^ 63) ;;
        slice ← load_bytes m hva (Z.to_nat n);
        Ret (tx_device s, tx_sent s ++ [slice])
    | None => d ← needs_reset (tx_device s); Ret (d, tx_sent s)
    end;
  m ← add_used m tx_queue index 1;
  Ret (Tx m d sent).

Definition send_available_packets (s : tx_state) : exec tx_state :=
  tx_queue ← unwrap (virt_queues (tx_device s) !! Z.to_nat TX_QUEUE);
  '(send_indices, tx_queue) ← default Panic (collect fuel (tx_mem s) tx_queue);
  let d := set_queues (<[Z.to_nat TX_QUEUE := tx_queue]> (virt_queues (tx_device s)))
             (tx_device s) in
  for_each (send_packet tx_queue) send_indices (Tx (tx_mem s) d (tx_sent s)).

Definition handle_notify_output (s : tx_state) (dest : list Z) : exec tx_state :=
  tx_num ← read_u16 dest 0;
  if tx_num =? 1 then
    status ← read_status_reg (tx_device s);
    if Z.land status STATUS_DRIVER_OK =? STATUS_DRIVER_OK then send_available_packets s
    else Ret s
  else Ret s.

End Transmit.
Arguments Tx {T} _ _ _.
Arguments tx_mem {T} _.
Arguments tx_device {T} _.
Arguments tx_sent {T} _.

(** ** Configuration space *)

Lemma slice_set_ok l i v :
  0 ≤ i < Z.of_nat (length l) → slice_set l i v = Ret (<[Z.to_nat i := v]> l).
Proof. intros. unfold slice_set. by rewrite decide_True by lia. Qed.

Lemma handle_write_from_spec r address i dest :
  0 ≤ address → 0 ≤ i →
  handle_write_from r address i dest =
    if decide (dest = [] ∨ address + i + Z.of_nat (length dest) ≤ Z.of_nat (length r))
    then Ret (list_inserts (Z.to_nat (address + i)) dest r) else Panic.
Proof.
  intros Ha. revert r i. induction dest as [|b dest IH]; intros r i Hi; cbn [handle_write_from].
  { by rewrite decide_True by by left. }
  cbn [length]. unfold slice_set. destruct (decide (address + i < Z.of_nat (length r))) as [Hb|Hb].
  - cbn [mbind exec_bind]. rewrite IH, length_insert by lia. cbn [list_inserts].
    replace (Z.to_nat (address + (i + 1))) with (S (Z.to_nat (address + i))) by lia.
    rewrite list_insert_inserts_lt by lia.
    destruct dest as [|b' dest]; repeat case_decide; try done; cbn [length] in *;
      intuition (done || lia).
  - rewrite decide_False; [done|]. intros [|]; [done|lia].
Qed.

(** The configuration space: a write inside the 64 bytes is read back and
    changes nothing else; an access that reaches beyond them panics. *)
Lemma config_access {T} (d : VirtioNetPciDevice T) address dest :
  length (registers d) = 64%nat → 0 ≤ address → dest ≠ [] →
  if decide (address + Z.of_nat (length dest) ≤ 64) then
    ∃ d', handle_write d address dest = Ret d' ∧
      handle_read d' address (length dest) = Ret dest ∧
      (∀ i, ¬ (Z.to_nat address ≤ i < Z.to_nat address + length dest)%nat →
         registers d' !! i = registers d !! i) ∧
      set_registers (registers d) d' = d
  else handle_write d address dest = Panic ∧ handle_read d address (length dest) = Panic.
Proof.
  intros Hlen Ha Hne. unfold handle_write, handle_read.
  rewrite handle_write_from_spec, Z.add_0_r, Hlen by lia. destruct (decide (_ ≤ 64)) as [Hin|Hout].
  - rewrite decide_True by by right. eexists. split; [done|]. cbn [registers set_registers].
    rewrite length_inserts, Hlen, length_drop, length_inserts, Hlen.
    rewrite !(proj2 (Z.leb_le _ _)) by lia. cbn [rust_assert mbind exec_bind]. split_and!.
    + f_equal. apply list_eq. intros i. destruct (decide (i < length dest)%nat).
      * rewrite lookup_take_lt, lookup_drop, list_lookup_inserts by lia. f_equal. lia.
      * rewrite !lookup_ge_None_2; [done|lia|rewrite length_take; lia].
    + intros i Hi. destruct (decide (i < Z.to_nat address)%nat).
      * by apply list_lookup_inserts_lt.
      * apply list_lookup_inserts_ge. lia.
    + by destruct d.
  - rewrite decide_False by (intros [|]; [done|lia]). split; [done|].
    rewrite length_drop, Hlen. destruct (Z.leb_spec address (Z.of_nat 64)); [|done].
    cbn [rust_assert mbind exec_bind]. by rewrite (proj2 (Z.leb_gt _ _)) by lia.
Qed.

(** ** The handshake *)

Section Handshake.
Context `{VirtioNet} {T : Type}.

Definition status_of (d : VirtioNetPciDevice T) : Z := registers d !!! 6%nat.

(** The statuses of a device the driver talks to: untouched or reset, then
    acknowledged, driver found, features accepted, running, and running with
    a request to be reset. *)
Definition handshake_status (s : Z) : Prop :=
  s = 64 ∨ s = 0 ∨ s = 1 ∨ s = 3 ∨ s = 11 ∨ s = 15 ∨ s = 79.
#[export] Instance handshake_status_dec s : Decision (handshake_status s).
Proof. unfold handshake_status. apply _. Defined.

(** The device with another status. *)
Definition with_status (s : Z) (d : VirtioNetPciDevice T) : VirtioNetPciDevice T :=
  set_registers (<[6%nat := s]> (registers d)) d.

Definition wf_registers (d : VirtioNetPciDevice T) : Prop := length (registers d) = 64%nat.

(** What holds whatever the guest does, which may also write the status byte
    through the configuration space: the registers are there, the features in
    force are offered ones, and every queue is laid out as [Virtqueue::new]
    does it. *)
Record device_wf (d : VirtioNetPciDevice T) : Prop := {
  dev_registers : wf_registers d;
  dev_features : Z.ldiff (requested_features d) HOST_FEATURES = 0;
  dev_queues : Forall queue_wf (virt_queues d);
}.

(** What holds while the status is written through its port only. *)
Record device_inv (d : VirtioNetPciDevice T) : Prop := {
  inv_wf : device_wf d;
  inv_status : handshake_status (status_of d);
  inv_queues : virt_queues d ≠ [] → status_of d = 11 ∨ status_of d = 15 ∨ status_of d = 79;
  inv_iface : iface d ≠ None → status_of d = 15 ∨ status_of d = 79;
}.

Lemma read_status_reg_ok d : wf_registers d → read_status_reg d = Ret (status_of d).
Proof.
  intros Hl. unfold read_status_reg, slice_get, status_of.
  change (Z.to_nat STATUS_REGISTER) with 6%nat. unfold wf_registers in Hl.
  rewrite (list_lookup_lookup_total_lt (registers d) 6) by lia. done.
Qed.

Lemma write_status_reg_ok d s : wf_registers d → write_status_reg d s = Ret (with_status s d).
Proof.
  intros Hl. unfold write_status_reg. rewrite slice_set_ok; [done|].
  unfold STATUS_REGISTER. unfold wf_registers in Hl. lia.
Qed.

Lemma status_with d s : wf_registers d → status_of (with_status s d) = s.
Proof.
  intros Hl. unfold status_of. cbn [registers set_registers with_status].
  unfold wf_registers in Hl. apply list_lookup_total_insert_eq. lia.
Qed.

Lemma wf_with d s : wf_registers d → wf_registers (with_status s d).
Proof. unfold wf_registers. cbn. by rewrite length_insert. Qed.

Lemma needs_reset_ok d :
  wf_registers d → needs_reset d = Ret (with_status (Z.lor (status_of d) 64) d).
Proof.
  intros Hl. unfold needs_reset. rewrite read_status_reg_ok by done. cbn [mbind exec_bind].
  by rewrite write_status_reg_ok.
Qed.

Lemma new_device_inv : ∃ d, new_device (T := T) = Ret d ∧ device_inv d.
Proof.
  eexists. split; [vm_compute; reflexivity|]. split; try done.
  vm_compute. repeat constructor.
Qed.

(** *** [write_status] *)

(** What [write_status] makes of a byte, one case per transition. *)
Inductive handshake (env : tap_env T) (b : Z) (d : VirtioNetPciDevice T) :
  VirtioNetPciDevice T → Prop :=
| hs_reset : b = 0 →
    handshake env b d (Device (<[6%nat := 0]> (registers d)) 0 0 [] None (mac_addr d))
| hs_acknowledge : status_of d = 64 ∨ status_of d = 0 → b = 1 →
    handshake env b d (with_status 1 d)
| hs_driver : status_of d = 1 → b = 3 → handshake env b d (with_status 3 d)
| hs_features : status_of d = 3 → b = 11 → handshake env b d (with_status 11 d)
| hs_no_tap e : status_of d = 11 → b = 15 → iface_new env = Err e →
    handshake env b d
      (Device (<[6%nat := 79]> (registers d)) (requested_features d) (selected_queue_num d)
         (virt_queues d) None (mac_addr d))
| hs_ok tap ma : status_of d = 11 → b = 15 → iface_new env = Ok tap →
    mac_address_by_name env tap = Ok (Some ma) →
    handshake env b d
      (Device (<[6%nat := 15]> (registers d)) (requested_features d) (selected_queue_num d)
         (virt_queues d) (Some tap) ma)
| hs_no_mac tap : status_of d = 11 → b = 15 → iface_new env = Ok tap →
    (∀ ma, mac_address_by_name env tap ≠ Ok (Some ma)) →
    handshake env b d
      (Device (<[6%nat := 79]> (registers d)) (requested_features d) (selected_queue_num d)
         (virt_queues d) (Some tap) (mac_addr d))
| hs_ignored : b ≠ 0 → (status_of d = 64 ∨ status_of d = 0 → b ≠ 1) →
    (status_of d = 1 → b ≠ 3) → (status_of d = 3 → b ≠ 11) → (status_of d = 11 → b ≠ 15) →
    handshake env b d d.

Lemma insert_twice (l : list Z) a b : <[6%nat := b]> (<[6%nat := a]> l) = <[6%nat := b]> l.
Proof. apply list_insert_insert_eq. Qed.

Lemma needs_reset_running r f n qs i ma :
  length r = 64%nat →
  needs_reset (Device (T := T) (<[6%nat := 15]> r) f n qs i ma) =
    Ret (Device (<[6%nat := 79]> r) f n qs i ma).
Proof.
  intros Hl. rewrite needs_reset_ok by (unfold wf_registers; cbn; by rewrite length_insert).
  unfold with_status, status_of, set_registers. cbn [registers requested_features
    selected_queue_num virt_queues iface mac_addr].
  by rewrite list_lookup_total_insert_eq, insert_twice by lia.
Qed.

Lemma write_status_ok_spec env d rest :
  wf_registers d → status_of d = 11 →
  ∃ d', write_status_ok env d (15 :: rest) = Ret d' ∧ handshake env 15 d d'.
Proof.
  intros Hl Hs. unfold write_status_ok.
  change (slice_get (15 :: rest) 0) with (Ret 15). cbn [mbind exec_bind].
  change (15 =? _) with true. cbv match.
  rewrite write_status_reg_ok by done. unfold with_status, set_registers.
  cbn [mbind exec_bind].
  destruct (iface_new env) as [tap|e] eqn:Htap; cbn [mbind exec_bind].
  - unfold get_mac_addr. cbn [registers requested_features selected_queue_num virt_queues iface
      mac_addr].
    destruct (mac_address_by_name env tap) as [[ma|]|e] eqn:Hmac;
      rewrite ?needs_reset_running by done; eexists; (split; [done|]).
    + by eapply hs_ok.
    + apply hs_no_mac; [done..|congruence].
    + apply hs_no_mac; [done..|congruence].
  - rewrite needs_reset_running by done. unfold get_mac_addr.
    cbn [mbind exec_bind registers requested_features selected_queue_num virt_queues iface
      mac_addr].
    eexists. split; [done|]. by eapply hs_no_tap.
Qed.

Lemma write_status_spec env d b rest :
  wf_registers d → ∃ d', write_status env d (b :: rest) = Ret d' ∧ handshake env b d d'.
Proof.
  intros Hl. unfold write_status, write_status_reset, write_status_acknowledge,
    write_status_features.
  rewrite read_status_reg_ok by done. change (slice_get (b :: rest) 0) with (Ret b).
  cbn [mbind exec_bind].
  change (Z.lor (Z.lor STATUS_ACKNOWLEDGE STATUS_DRIVER) STATUS_FEATURES_OK) with 11.
  change (Z.lor STATUS_ACKNOWLEDGE STATUS_DRIVER) with 3.
  unfold STATUS_DRIVER_NEEDS_RESET, STATUS_ACKNOWLEDGE.
  rewrite !write_status_reg_ok by done.
  destruct (Z.eqb_spec b 0) as [->|Hb].
  { exists (Device (<[6%nat := 0]> (registers d)) 0 0 [] None (mac_addr d)).
    split; [done|by apply hs_reset]. }
  destruct (Z.eqb_spec (status_of d) 64) as [Hs|H64]; cbn [orb];
    [|destruct (Z.eqb_spec (status_of d) 0) as [Hs|H0];
      [|destruct (Z.eqb_spec (status_of d) 1) as [Hs|H1];
        [|destruct (Z.eqb_spec (status_of d) 3) as [Hs|H3];
          [|destruct (Z.eqb_spec (status_of d) 11) as [Hs|H11]]]]].
  - destruct (Z.eqb_spec b 1) as [->|]; eexists; (split; [done|]).
    + apply hs_acknowledge; auto.
    + apply hs_ignored; auto; congruence.
  - destruct (Z.eqb_spec b 1) as [->|]; eexists; (split; [done|]).
    + apply hs_acknowledge; auto.
    + apply hs_ignored; auto; congruence.
  - destruct (Z.eqb_spec b 3) as [->|]; eexists; (split; [done|]).
    + by apply hs_driver.
    + apply hs_ignored; auto; intros; try congruence; lia.
  - destruct (Z.eqb_spec b 11) as [->|]; eexists; (split; [done|]).
    + by apply hs_features.
    + apply hs_ignored; auto; intros; try congruence; lia.
  - destruct (Z.eqb_spec b 15) as [->|Hb']; [by apply write_status_ok_spec|].
    exists d. split.
    + unfold write_status_ok. change (slice_get (b :: rest) 0) with (Ret b).
      cbn [mbind exec_bind]. change (b =? _) with (b =? 15).
      by rewrite (proj2 (Z.eqb_neq b 15) Hb').
    + apply hs_ignored; auto; intros; try congruence; lia.
  - exists d. split; [done|]. apply hs_ignored; auto; intros; try congruence; lia.
Qed.

(** *** The invariant *)

Lemma status_insert (l : list Z) v : length l = 64%nat → <[6%nat := v]> l !!! 6%nat = v.
Proof. intros. apply list_lookup_total_insert_eq. lia. Qed.

End Handshake.

Section Wf.
Context `{Profile, VirtioNet} {T : Type}.
Implicit Types d : VirtioNetPciDevice T.

Lemma new_device_wf : ∃ d, new_device = Ret d ∧ device_wf d.
Proof. destruct (new_device_inv (T := T)) as (d & Hd & Hi). exists d. by split; [|apply Hi]. Qed.

Lemma with_status_wf s d : device_wf d → device_wf (with_status s d).
Proof. intros [Hl Hf Hs]. split; [by apply wf_with|done|done]. Qed.

Lemma needs_reset_wf d d' : device_wf d → needs_reset d = Ret d' → device_wf d'.
Proof.
  intros Hd Hn. rewrite needs_reset_ok in Hn by apply Hd. exec_inv. by apply with_status_wf.
Qed.

Lemma write_status_wf env d d' addr :
  device_wf d → write_status env d addr = Ret d' → device_wf d'.
Proof.
  intros Hd Hw. destruct addr as [|b rest].
  { unfold write_status in Hw. exec_inv. done. }
  destruct (write_status_spec env d b rest) as (d1 & Hd1 & Hh); [apply Hd|].
  assert (d1 = d') as -> by congruence. clear Hw Hd1. destruct Hd as [Hl Hf Hs].
  unfold wf_registers in *.
  destruct Hh; try done; split; unfold wf_registers; cbn; rewrite ?length_insert; try done;
    constructor.
Qed.

Lemma write_features_wf d d' addr :
  device_wf d → write_requested_features d addr = Ret d' → device_wf d'.
Proof.
  intros [Hl Hf Hs] Hw. unfold write_requested_features in Hw.
  rewrite read_status_reg_ok in Hw by done. cbn [mbind exec_bind] in Hw.
  destruct (_ =? _); exec_inv; [|done]. split; try done. cbn [requested_features]. bits.
Qed.

Lemma write_pfn_wf vm_start d d' addr :
  device_wf d → write_pfn vm_start d addr = Ret d' → device_wf d'.
Proof.
  intros [Hl Hf Hs] Hw. unfold write_pfn in Hw. exec_inv.
  destruct (_ && _); exec_inv; [|done]. split; [done|done|].
  cbn [virt_queues set_queues]. apply Forall_app. split; [done|]. apply Forall_singleton.
  by eapply new_queue_wf.
Qed.

Lemma handle_write_wf d d' address addr :
  0 ≤ address → device_wf d → handle_write d address addr = Ret d' → device_wf d'.
Proof.
  intros Ha [Hl Hf Hs] Hw. unfold handle_write in Hw. exec_inv.
  match goal with Hr : handle_write_from _ _ _ _ = Ret _ |- _ => rename Hr into Hregs end.
  rewrite handle_write_from_spec in Hregs by lia. case_decide; [|done]. exec_inv.
  split; [|done|done]. unfold wf_registers. cbn. by rewrite length_inserts.
Qed.

Lemma add_used_map m q i n m' : add_used m q i n = Ret m' → same_map m m'.
Proof. intros Ha. unfold add_used, Vring.advance_index in Ha. exec_inv. map_chain. Qed.

Lemma notify_wf vm_start fuel (s s' : tx_state (T := T)) addr :
  device_wf (tx_device s) → handle_notify_output vm_start fuel s addr = Ret s' →
  device_wf (tx_device s') ∧ same_map (tx_mem s) (tx_mem s').
Proof.
  intros Hd Hn. unfold handle_notify_output in Hn. exec_inv.
  destruct (_ =? 1); [|by exec_inv]. exec_inv. destruct (_ =? STATUS_DRIVER_OK); [|by exec_inv].
  unfold send_available_packets in Hn. exec_inv.
  match goal with Hp : unwrap _ = Ret ?q |- _ => rename q into queue; rename Hp into Hqueue end.
  match goal with Hp : default Panic _ = Ret ?p |- _ =>
    destruct p as [idxs queue']; rename Hp into Hcollect end.
  eapply (for_each_preserves (λ s', device_wf (tx_device s') ∧ same_map (tx_mem s) (tx_mem s')))
    in Hn; [exact Hn| |].
  - split; [|done]. destruct Hd as [Hl Hf Hz]. split; [done|done|].
    cbn [tx_device virt_queues set_queues]. apply Forall_insert; [done|].
    apply unwrap_Ret in Hqueue. eapply collect_queue_wf; [|exact Hcollect].
    exact (Forall_lookup_1 _ _ _ _ Hz Hqueue).
  - intros i s1 s2 [Hd1 Hm1] Hs. unfold send_packet in Hs. exec_inv.
    match goal with Hp : match iface _ with _ => _ end = Ret ?p |- _ =>
      destruct p as [d' sent]; rename Hp into Hm end. exec_inv.
    match goal with Ha : add_used _ _ _ _ = Ret _ |- _ => apply add_used_map in Ha end.
    cbn [tx_mem tx_device]. split; [|by etrans].
    destruct (iface (tx_device s1)); exec_inv; [done|by eapply needs_reset_wf].
Qed.

End Wf.

Section Reachable.
Context `{Profile, VirtioNet} {T : Type}.
Implicit Types d : VirtioNetPciDevice T.

(** The accesses of a driver, through the ports of the device and through the
    configuration space; [direct] tells those that write the status byte
    through the latter. *)
Inductive device_step : bool → VirtioNetPciDevice T → VirtioNetPciDevice T → Prop :=
| step_status env d d' dest : write_status env d dest = Ret d' → device_step false d d'
| step_features d d' dest : write_requested_features d dest = Ret d' → device_step false d d'
| step_select d d' dest : write_selected_queue d dest = Ret d' → device_step false d d'
| step_pfn vm_start d d' dest : write_pfn vm_start d dest = Ret d' → device_step false d d'
| step_notify vm_start fuel s s' dest :
    handle_notify_output vm_start fuel s dest = Ret s' →
    device_step false (tx_device s) (tx_device s')
| step_config d d' address dest :
    0 ≤ address → handle_write d address dest = Ret d' →
    device_step (bool_decide (address ≤ 6 < address + Z.of_nat (length dest))) d d'
| step_interrupt d : device_step false d (reset_interrupt d).

Lemma device_step_wf direct d d' : device_step direct d d' → device_wf d → device_wf d'.
Proof.
  destruct 1 as [env d d' dest Hw|d d' dest Hw|d d' dest Hw|vm_start d d' dest Hw
    |vm_start fuel s s' dest Hw|d d' address dest Ha Hw|d]; intros Hd.
  - by eapply write_status_wf.
  - by eapply write_features_wf.
  - unfold write_selected_queue in Hw. exec_inv. by destruct Hd.
  - by eapply write_pfn_wf.
  - by eapply notify_wf.
  - by eapply handle_write_wf.
  - done.
Qed.

Lemma handshake_inv env b d d' :
  device_inv d → device_wf d' → handshake env b d d' → device_inv d'.
Proof.
  intros [Hwf Hs Hq Hi] Hwf' Hh. pose proof (dev_registers _ Hwf) as Hl. unfold wf_registers in Hl.
  unfold handshake_status in Hs.
  destruct Hh; (split; [exact Hwf'|..]); unfold status_of, handshake_status in *;
    cbn [registers requested_features selected_queue_num virt_queues iface mac_addr
      with_status set_registers] in *;
    rewrite ?status_insert by done; try done; try lia; intros; try lia.
  all: match goal with Hne : ?l ≠ _ |- _ => specialize (Hq Hne) || specialize (Hi Hne); lia end.
Qed.

Lemma pfn_inv vm_start d d' dest :
  device_inv d → device_wf d' → write_pfn vm_start d dest = Ret d' → device_inv d'.
Proof.
  intros Hd Hwf' Hw. pose proof Hd as [Hwf Hs Hq Hi]. unfold write_pfn in Hw.
  rewrite read_status_reg_ok in Hw by apply Hwf. cbn [mbind exec_bind] in Hw.
  unfold STATUS_FEATURES_OK, STATUS_DRIVER_OK in Hw.
  destruct (negb (Z.land (status_of d) 8 =? 0) && (Z.land (status_of d) 4 =? 0)) eqn:Hbits;
    cbn [andb] in Hw; [|exec_inv; done].
  destruct (selected_queue_num d =? Z.of_nat (length (virt_queues d))); exec_inv; [|done].
  assert (status_of d = 11) as Hst.
  { unfold handshake_status in Hs.
    destruct Hs as [E|[E|[E|[E|[E|[E|E]]]]]]; rewrite E in Hbits; by vm_compute in Hbits || done. }
  split; try done. intros _. by left.
Qed.

(** While the device transmits, it is running. *)
Definition running (d : VirtioNetPciDevice T) : Prop := status_of d = 15 ∨ status_of d = 79.

Lemma needs_reset_running_inv d d' :
  wf_registers d → running d → needs_reset d = Ret d' → wf_registers d' ∧ running d'.
Proof.
  intros Hl Hrun Hr. rewrite needs_reset_ok in Hr by done. exec_inv. split; [by apply wf_with|].
  unfold running. rewrite status_with by done. by destruct Hrun as [-> | ->]; [right|right].
Qed.

Lemma notify_inv vm_start fuel (s s' : tx_state (T := T)) dest :
  device_inv (tx_device s) → device_wf (tx_device s') →
  handle_notify_output vm_start fuel s dest = Ret s' → device_inv (tx_device s').
Proof.
  intros Hd Hwf' Hn. unfold handle_notify_output in Hn. exec_inv.
  destruct (_ =? 1); [|by exec_inv]. pose proof Hd as [Hwf Hs Hq Hi].
  rewrite read_status_reg_ok in Hn by apply Hwf. cbn [mbind exec_bind] in Hn.
  destruct (Z.eqb_spec (Z.land (status_of (tx_device s)) STATUS_DRIVER_OK) STATUS_DRIVER_OK)
    as [Hok|]; [|by exec_inv].
  assert (running (tx_device s)) as Hrun.
  { unfold handshake_status, running in *.
    destruct Hs as [E|[E|[E|[E|[E|[E|E]]]]]]; rewrite E in Hok |- *; try done; auto. }
  unfold send_available_packets in Hn. exec_inv.
  match goal with Hp : default Panic _ = Ret ?p |- _ => destruct p as [idxs queue'] end.
  eapply (for_each_preserves (λ s, wf_registers (tx_device s) ∧ running (tx_device s))) in Hn.
  - destruct Hn as [_ Hrun']. split; [done| |by auto|done].
    unfold handshake_status. destruct Hrun' as [-> | ->]; lia.
  - split; [apply Hwf|exact Hrun].
  - intros i s1 s2 [Hl1 Hr1] Hp. unfold send_packet in Hp. exec_inv.
    match goal with Hm : match iface _ with _ => _ end = Ret ?p |- _ => destruct p as [d' sent] end.
    exec_inv. destruct (iface (tx_device s1)); exec_inv; [done|]. by eapply needs_reset_running_inv.
Qed.

Lemma config_inv d d' address dest :
  device_inv d → device_wf d' → 0 ≤ address → ¬ (address ≤ 6 < address + Z.of_nat (length dest)) →
  handle_write d address dest = Ret d' → device_inv d'.
Proof.
  intros [Hwf Hs Hq Hi] Hwf' Ha Hout Hw. unfold handle_write in Hw. exec_inv.
  match goal with Hr : handle_write_from _ _ _ _ = Ret _ |- _ => rename Hr into Hregs end.
  rewrite handle_write_from_spec, Z.add_0_r in Hregs by lia. case_decide; [|done]. exec_inv.
  assert (list_inserts (Z.to_nat address) dest (registers d) !!! 6%nat = registers d !!! 6%nat)
    as Hst.
  { destruct (decide (address ≤ 6)); [apply list_lookup_total_inserts_ge|apply list_lookup_total_inserts_lt]; lia. }
  split; unfold status_of in *; cbn [registers virt_queues iface set_registers
    requested_features] in *; rewrite ?Hst; done.
Qed.

Lemma device_step_inv d d' : device_step false d d' → device_inv d → device_inv d'.
Proof.
  intros Hstep Hd. pose proof (device_step_wf _ _ _ Hstep (inv_wf _ Hd)) as Hwf.
  remember false as direct eqn:Hdirect.
  destruct Hstep as [env d d' dest Hw|d d' dest Hw|d d' dest Hw|vm_start d d' dest Hw
    |vm_start fuel s s' dest Hw|d d' address dest Ha Hw|d].
  - destruct dest as [|b rest]; [unfold write_status in Hw; by exec_inv|].
    destruct (write_status_spec env d b rest) as (d1 & Hd1 & Hh); [apply Hd|].
    assert (d1 = d') as -> by congruence. by eapply handshake_inv.
  - unfold write_requested_features in Hw. exec_inv. destruct (_ =? _); exec_inv; [|done].
    by destruct Hd.
  - unfold write_selected_queue in Hw. exec_inv. by destruct Hd.
  - by eapply pfn_inv.
  - by eapply notify_inv.
  - apply bool_decide_eq_false in Hdirect. by eapply config_inv.
  - done.
Qed.

(** C22: Every state the device reaches, whatever the guest writes to its ports
    and to the configuration space, has all its registers, only features in
    force that the host offers, and only queues of 256 entries laid out as
    [Virtqueue::new] does it, at a 16-bit position.  As long as the guest does
    not write the status byte through the configuration space, the status also
    is one of the seven values of the handshake, queues exist only once
    features are accepted, and the TAP device only once the driver is
    running. *)
Theorem device_reachable_inv d0 d :
  new_device = Ret d0 → rtc (λ d d', ∃ direct, device_step direct d d') d0 d →
  device_wf d ∧ (rtc (device_step false) d0 d → device_inv d).
Proof.
  intros Hnew Hsteps. destruct (new_device_inv (T := T)) as (d1 & Hd1 & Hinv).
  assert (d1 = d0) as -> by congruence. split.
  - pose proof (inv_wf _ Hinv) as Hwf. clear -Hsteps Hwf.
    induction Hsteps as [|d0 d1 d2 [direct Hstep] _ IH]; [done|]. by eapply IH, device_step_wf.
  - intros Hquiet. clear -Hquiet Hinv.
    induction Hquiet as [|d0 d1 d2 Hstep _ IH]; [done|]. by apply IH, (device_step_inv d0).
Qed.

End Reachable.

(** ** Transmission *)

Section TransmitSpec.
Context `{Profile, VirtioNet} {T : Type} (vm_start base : Z).

(** A range of guest memory apart from the used ring of the queue. *)
Definition spares_used (a n : Z) : Prop := apart a n (base + 8192) 2052.

(** Descriptor [i] leads to the packet [data], the way the code follows it: its
    address is the host address of a word, which holds the guest-physical
    address of the packet, and its length counts a header the packet does not
    have. *)
Record descriptor_ok (m : mem) (i : Z) (data : list Z) : Prop := {
  desc_index : 0 ≤ i < 256;
  desc_packet : ∃ addr gpa len,
    load 8 m (base + 16 * i) = Ret addr ∧ load 8 m addr = Ret gpa ∧ spares_used addr 8 ∧
    load 4 m (base + 16 * i + 8) = Ret len ∧ fits 32 len ∧
    0 ≤ size_of_virtio_net_hdr ≤ len ∧ fits 64 (gpa + vm_start) ∧
    load_bytes m (gpa + vm_start) (Z.to_nat (len - size_of_virtio_net_hdr)) = Ret data ∧
    spares_used (gpa + vm_start) (len - size_of_virtio_net_hdr);
}.

Definition same_but_used (m m' : mem) : Prop :=
  mem_base m' = mem_base m ∧ mem_size m' = mem_size m ∧
  ∀ x, ¬ (base + 8192 ≤ x < base + 8192 + 2052) → peek m' x = peek m x.

Lemma same_but_used_load n m m' a :
  same_but_used m m' → spares_used a (Z.of_nat n) → load n m' a = load n m a.
Proof.
  intros (Hb & Hs & Hx) Ha. apply load_ext; [done..|]. intros x Hin. apply Hx.
  unfold spares_used, apart in Ha. lia.
Qed.

Lemma descriptor_ok_same m m' i data :
  same_but_used m m' → descriptor_ok m i data → descriptor_ok m' i data.
Proof.
  intros Hm [Hi (addr & gpa & len & H1 & H2 & H3 & H4 & H5 & H6 & H7 & H8 & H9)].
  split; [done|]. exists addr, gpa, len. split_and!; try (done || lia).
  - rewrite <- H1. apply same_but_used_load; [done|]. unfold spares_used, apart. lia.
  - rewrite <- H2. by apply same_but_used_load.
  - rewrite <- H4. apply same_but_used_load; [done|]. unfold spares_used, apart. lia.
  - rewrite <- H8. destruct Hm as (Hb & Hs & Hx). apply load_bytes_ext; [done..|].
    intros x Hin. apply Hx. unfold spares_used, apart in H9. lia.
Qed.

Lemma used_writes_same m u i len :
  same_but_used m (writes (used_writes base u i len) m).
Proof.
  split_and!; [apply writes_base|apply writes_size|]. intros x Hx. apply peek_writes_out.
  eapply Forall_impl; [apply used_writes_inside|]. cbn. lia.
Qed.

Lemma send_packet_ok q last (s : tx_state (T := T)) tap i data u :
  queue_at base last q → iface (tx_device s) = Some tap →
  descriptor_ok (tx_mem s) i data → valid (tx_mem s) (base + 8192) 2052 →
  load 2 (tx_mem s) (base + 8192 + 2) = Ret u → fits 16 u → can_advance u →
  send_packet vm_start q i s =
    Ret (Tx (writes (used_writes base u i 1) (tx_mem s)) (tx_device s) (tx_sent s ++ [data])).
Proof.
  intros Hq Htap [Hi (addr & gpa & len & H1 & H2 & H3 & H4 & H5 & H6 & H7 & H8 & H9)] Hv Hu Hfu Ha.
  unfold send_packet, get_descriptor, VringDescriptor.size_of, VringDescriptor.addr,
    VringDescriptor.len. destruct (Hq) as (-> & _). rewrite Z.add_0_r, H1. cbn [mbind exec_bind].
  rewrite H2. cbn [mbind exec_bind]. unfold host_address. rewrite arith_fits by done.
  cbn [mbind exec_bind]. rewrite Htap, H4. cbn [mbind exec_bind]. unfold fits in H5.
  arith_ok. rewrite (proj2 (Z.ltb_lt _ _)) by lia. cbn [rust_assert mbind exec_bind].
  rewrite H8. cbn [mbind exec_bind]. by erewrite add_used_writes by done.
Qed.

Lemma used_elem_wrap u : used_elem base (wrap 16 u) = used_elem base u.
Proof.
  unfold used_elem, wrap. do 2 f_equal. apply Z.mod_mod_divide. by exists 256.
Qed.

(** Different slots of the used ring do not overlap. *)
Lemma used_elem_apart u k j :
  0 ≤ k < 256 → 0 ≤ j < 256 → k ≠ j →
  used_elem base (u + k) + 8 ≤ used_elem base (u + j) ∨
  used_elem base (u + j) + 8 ≤ used_elem base (u + k).
Proof.
  intros Hk Hj Hne. unfold used_elem.
  pose proof (Z.div_mod (u + k) 256). pose proof (Z.div_mod (u + j) 256).
  pose proof (Z.mod_pos_bound (u + k) 256). pose proof (Z.mod_pos_bound (u + j) 256). nia.
Qed.

Lemma used_elem_range u :
  base + 8192 + 4 ≤ used_elem base u ∧ used_elem base u + 8 ≤ base + 8192 + 2052.
Proof. unfold used_elem. pose proof (Z.mod_pos_bound u 256). lia. Qed.

(** The bytes of the used ring that reporting [n] buffers from [u] on writes. *)
Definition reported (u : Z) (n : nat) (x : Z) : Prop :=
  base + 8192 + 2 ≤ x < base + 8192 + 4 ∨
  ∃ k, 0 ≤ k < Z.of_nat n ∧ used_elem base (u + k) ≤ x < used_elem base (u + k) + 8.

Lemma used_writes_frame m u i len x :
  ¬ reported u 1 x → peek (writes (used_writes base u i len) m) x = peek m x.
Proof.
  intros Hx. assert (¬ (used_elem base u ≤ x < used_elem base u + 8)) as He.
  { intros Hin. apply Hx. right. exists 0. rewrite Z.add_0_r. lia. }
  apply peek_writes_out. repeat (apply Forall_cons; split); [..|done]; cbn [fst snd];
    change (length (le_split ?n _)) with n; intros Hin; [lia|lia|]. apply Hx. left. lia.
Qed.

Lemma used_writes_loads m u i len :
  valid m (base + 8192) 2052 → fits 32 i → fits 32 len →
  let m' := writes (used_writes base u i len) m in
  load 2 m' (base + 8192 + 2) = Ret (wrap 16 (u + 1)) ∧
  load 4 m' (used_elem base u) = Ret i ∧ load 4 m' (used_elem base u + 4) = Ret len.
Proof.
  intros Hv Hi Hl m'. unfold m'. pose proof (used_writes_apart base u i len) as Hap.
  pose proof (used_elem_range u). unfold valid in Hv. split_and!.
  - apply load_writes; [unfold valid; lia|done|]. do 2 right. left.
  - rewrite <- (wrap_fits 32 i) at 2 by done.
    apply (load_writes 4); [unfold valid; lia|done|]. left.
  - rewrite <- (wrap_fits 32 len) at 2 by done.
    apply (load_writes 4); [unfold valid; lia|done|]. right. left.
Qed.

(** What the guest reads after [n] buffers were reported. *)
Record transmitted (m m' : mem) (u : Z) (indices : list Z) : Prop := {
  tx_same : same_but_used m m';
  tx_index : load 2 m' (base + 8192 + 2) = Ret (wrap 16 (u + Z.of_nat (length indices)));
  tx_elems : ∀ k i, indices !! k = Some i →
    load 4 m' (used_elem base (u + Z.of_nat k)) = Ret i ∧
    load 4 m' (used_elem base (u + Z.of_nat k) + 4) = Ret 1;
  tx_frame : ∀ x, ¬ reported u (length indices) x → peek m' x = peek m x;
}.

Lemma same_but_used_trans m1 m2 m3 :
  same_but_used m1 m2 → same_but_used m2 m3 → same_but_used m1 m3.
Proof.
  intros (H1 & H2 & H3) (H4 & H5 & H6). split_and!; [congruence..|].
  intros x Hx. by rewrite H6, H3.
Qed.

Lemma reported_mono u n x : reported (u + 1) n x → reported u (S n) x.
Proof.
  intros [Hx|(k & Hk & Hx)]; [by left|]. right. exists (k + 1). split; [lia|].
  by replace (u + (k + 1)) with (u + 1 + k) by lia.
Qed.

Lemma transmitted_cons m u i indices m' :
  valid m (base + 8192) 2052 → fits 32 i → (length indices < 256)%nat →
  transmitted (writes (used_writes base u i 1) m) m' (u + 1) indices →
  transmitted m m' u (i :: indices).
Proof.
  intros Hv Hi Hlen [Hsame Hidx Helems Hframe].
  destruct (used_writes_loads m u i 1 Hv Hi) as (_ & Hid & Hln); [done|].
  pose proof (used_elem_range u) as Hr.
  assert (∀ x, used_elem base u ≤ x < used_elem base u + 8 → ¬ reported (u + 1) (length indices) x)
    as Hfirst.
  { intros x Hx [Hin|(k & Hk & Hin)]; [lia|].
    destruct (used_elem_apart u 0 (k + 1)); rewrite ?Z.add_0_r, ?Z.add_assoc in *; try lia.
    - replace (u + 1 + k) with (u + k + 1) in Hin by lia. lia.
    - replace (u + 1 + k) with (u + k + 1) in Hin by lia. lia. }
  split.
  - eapply same_but_used_trans; [apply used_writes_same|done].
  - rewrite Hidx. cbn [length]. do 2 f_equal. lia.
  - intros [|k] j Hj; cbn in Hj.
    + injection Hj as <-. rewrite Z.add_0_r, <- Hid, <- Hln. destruct Hsame as (Hb & Hs & _).
      split; apply load_ext; try done; intros x Hx; apply Hframe, Hfirst; lia.
    + replace (u + Z.of_nat (S k)) with (u + 1 + Z.of_nat k) by lia. by apply Helems.
  - intros x Hx. cbn [length] in Hx. rewrite Hframe, used_writes_frame; [done| |].
    + intros [Hin|(k & Hk & Hin)]; apply Hx; [by left|]. right. exists k. split; [lia|done].
    + intros Hin. by apply Hx, reported_mono.
Qed.

Lemma transmitted_wrap m m' u indices :
  transmitted m m' (wrap 16 u) indices → transmitted m m' u indices.
Proof.
  assert (∀ k, used_elem base (wrap 16 u + k) = used_elem base (u + k)) as He.
  { intros k. rewrite <- (used_elem_wrap (u + k)), <- (used_elem_wrap (wrap 16 u + k)).
    f_equal. unfold wrap. by rewrite Z.add_mod_idemp_l. }
  intros [Hsame Hidx Helems Hframe]. split; [done| | |].
  - rewrite Hidx. f_equal. unfold wrap. by rewrite Z.add_mod_idemp_l.
  - intros k i Hk. rewrite <- !He. by apply Helems.
  - intros x Hx. apply Hframe. intros [Hin|(k & Hk & Hin)]; apply Hx; [by left|].
    right. exists k. by rewrite <- He.
Qed.

Lemma send_loop q last tap indices packets (s : tx_state (T := T)) u :
  queue_at base last q → iface (tx_device s) = Some tap →
  Forall2 (descriptor_ok (tx_mem s)) indices packets →
  valid (tx_mem s) (base + 8192) 2052 →
  load 2 (tx_mem s) (base + 8192 + 2) = Ret u → fits 16 u →
  u + Z.of_nat (length indices) < 2 ^ 16 ∨ overflow_checks = false →
  (length indices ≤ 256)%nat →
  ∃ m', for_each (send_packet vm_start q) indices s =
          Ret (Tx m' (tx_device s) (tx_sent s ++ packets)) ∧
        transmitted (tx_mem s) m' u indices.
Proof.
  intros Hq Htap Hdesc. revert s u Htap Hdesc. revert packets.
  induction indices as [|i indices IH]; intros packets s u Htap Hdesc Hv Hu Hfu Hover Hlen.
  - apply Forall2_nil_inv_l in Hdesc as ->. exists (tx_mem s). rewrite app_nil_r. cbn.
    split; [by destruct s|]. split; [done| |by intros [] ?|done].
    cbn. by rewrite Z.add_0_r, wrap_fits.
  - apply Forall2_cons_inv_l in Hdesc as (data & packets' & Hd & Hdesc & ->).
    cbn [length for_each] in *.
    erewrite send_packet_ok; [|done..|unfold can_advance; destruct Hover; [left; lia|by right]].
    cbn [mbind exec_bind]. set (m1 := writes _ _).
    assert (fits 32 i) as Hi by (destruct Hd as [? _]; unfold fits; lia).
    destruct (used_writes_loads (tx_mem s) u i 1 Hv Hi ltac:(done)) as (Hidx & _).
    destruct (IH packets' (Tx m1 (tx_device s) (tx_sent s ++ [data])) (wrap 16 (u + 1)))
      as (m' & Hloop & Htx); cbn [tx_mem tx_device]; try done.
    + eapply Forall2_impl; [exact Hdesc|]. intros j dat. apply descriptor_ok_same.
      apply used_writes_same.
    + by apply wrap_range.
    + destruct Hover; [left|by right]. rewrite wrap_fits by (unfold fits in *; lia). lia.
    + lia.
    + exists m'. rewrite Hloop. cbn [tx_sent tx_device]. rewrite <- app_assoc. split; [done|].
      apply transmitted_cons; [done..|lia|]. by apply transmitted_wrap.
Qed.

Lemma length_pending last n : length (pending last n) = n.
Proof. unfold pending. rewrite length_fmap, length_seqZ. lia. Qed.

Lemma send_available_start fuel (s : tx_state (T := T)) q :
  virt_queues (tx_device s) !! 1%nat = Some q →
  send_available_packets vm_start fuel s =
    ('(send_indices, q') ← default Panic (collect fuel (tx_mem s) q);
     for_each (send_packet vm_start q') send_indices
       (Tx (tx_mem s)
          (set_queues (<[1%nat := q']> (virt_queues (tx_device s))) (tx_device s)) (tx_sent s))).
Proof.
  intros Hq. unfold send_available_packets.
  change (Z.to_nat TX_QUEUE) with 1%nat. by rewrite Hq.
Qed.


End TransmitSpec.

(** ** What the device does not check *)

Section Unchecked.
Context `{Profile, VirtioNet} {T : Type} (vm_start : Z).

Lemma send_packet_fault base q last i (s : tx_state (T := T)) addr :
  queue_at base last q → load 8 (tx_mem s) (base + 16 * i) = Ret addr →
  0 ≤ addr < mem_base (tx_mem s) → send_packet vm_start q i s = Fault.
Proof.
  intros (Hd & _) Hdesc Haddr. unfold send_packet, get_descriptor, VringDescriptor.size_of,
    VringDescriptor.addr. rewrite Hd, Z.add_0_r, Hdesc. cbn [mbind exec_bind].
  assert (load 8 (tx_mem s) addr = Fault) as ->; [|done].
  unfold load, load_bytes. rewrite decide_False; [done|]. unfold valid. lia.
Qed.

(** The handshake does not ask for queues: a driver that acknowledges the
    device, finds it, accepts the features and starts without registering a
    queue, then notifies the transmit queue, makes the hypervisor panic. *)
Lemma notify_without_queue_panics (env : tap_env T) fuel m sent d0 :
  new_device = Ret d0 →
  ∃ d1 d2 d3 d4,
    write_status env d0 [1] = Ret d1 ∧ write_status env d1 [3] = Ret d2 ∧
    write_status env d2 [11] = Ret d3 ∧ write_status env d3 [15] = Ret d4 ∧
    handle_notify_output vm_start fuel (Tx m d4 sent) [1; 0] = Panic.
Proof.
  intros [= <-]. destruct env as [[tap|e] mac].
  - destruct (mac tap) as [[ma|]|e] eqn:Hmac; do 4 eexists;
      do 3 (split; [vm_compute; reflexivity|]);
      (split; [vm_compute; rewrite Hmac; reflexivity|vm_compute; reflexivity]).
  - do 4 eexists. do 4 (split; [vm_compute; reflexivity|]). vm_compute. reflexivity.
Qed.

(** The address in a descriptor is followed as a host pointer: a
    guest-physical address there makes the transmission leave guest memory. *)
Lemma notify_guest_address_faults (s : tx_state (T := T)) fuel base q last avail addr :
  wf_registers (tx_device s) →
  Z.land (status_of (tx_device s)) STATUS_DRIVER_OK = STATUS_DRIVER_OK →
  virt_queues (tx_device s) !! 1%nat = Some q → queue_at base last q →
  fits 16 last → load 2 (tx_mem s) (base + 4096 + 2) = Ret avail → fits 16 avail →
  last < avail → (Z.to_nat (avail - last) < fuel)%nat →
  load 8 (tx_mem s) (base + 16 * (last mod 256)) = Ret addr →
  0 ≤ addr < mem_base (tx_mem s) →
  handle_notify_output vm_start fuel s [1; 0] = Fault.
Proof.
  intros Hl Hok Hq1 Hq Hlast Hav Hfav Hlt Hfuel Hdesc Haddr.
  unfold handle_notify_output. rewrite (eq_refl : read_u16 [1; 0] 0 = Ret 1).
  cbn [mbind exec_bind Z.eqb Pos.eqb]. rewrite read_status_reg_ok by done. cbn [mbind exec_bind].
  rewrite Hok, Z.eqb_refl, (send_available_start vm_start fuel s q) by done. unfold fits in *.
  rewrite (collect_run (tx_mem s) base avail Hav Hfav (Z.to_nat (avail - last)) _ q last);
    [|done|done|done|lia|rewrite wrap_fits by (unfold fits; lia); lia|lia].
  cbn [default from_option id mbind exec_bind].
  destruct (Z.to_nat (avail - last)) as [|k] eqn:Hk; [lia|].
  rewrite pending_S. cbn [for_each].
  rewrite (send_packet_fault base (set_last_seen avail q) avail _ _ addr);
    [done|by eapply queue_at_set|done|done].
Qed.

End Unchecked.

(** The statuses in their order: reset or untouched, acknowledged, driver found,
    features accepted, driver running. *)
Definition next_status (s b : Z) : bool :=
  (s =? 64) && (b =? 1) || (s =? 0) && (b =? 1) || (s =? 1) && (b =? 3) || (s =? 3) && (b =? 11) ||
  (s =? 11) && (b =? 15).

(** [d'] is [d] but for the status, the TAP device and the MAC address. *)
Record same_negotiation {T} (d d' : VirtioNetPciDevice T) : Prop := {
  sn_registers i : i ≠ 6%nat → registers d' !! i = registers d !! i;
  sn_features : requested_features d' = requested_features d;
  sn_selected : selected_queue_num d' = selected_queue_num d;
  sn_queues : virt_queues d' = virt_queues d;
}.

(** C37: What a write of the byte [b] to the status port does, in every state of
    the device.  Zero resets it: status, features, selected queue, queues and
    TAP device are cleared, the other registers and the MAC address kept.
    Every other byte counts only when it is the next step of the handshake,
    acknowledged, driver found, features accepted, driver running, and
    otherwise changes nothing.  A step changes the status alone, but for the
    last one, which also opens the TAP device and takes its MAC address; when
    one of these fails, the status says that the device needs a reset. *)
Theorem write_status_in_order `{VirtioNet} {T} (env : tap_env T) d b rest :
  wf_registers d →
  ∃ d', write_status env d (b :: rest) = Ret d' ∧
    if b =? 0 then
      (∀ i, i ≠ 6%nat → registers d' !! i = registers d !! i) ∧ status_of d' = 0 ∧
      requested_features d' = 0 ∧ selected_queue_num d' = 0 ∧ virt_queues d' = [] ∧
      iface d' = None ∧ mac_addr d' = mac_addr d
    else if next_status (status_of d) b then
      same_negotiation d d' ∧
      if b =? 15 then
        match iface_new env with
        | Err _ => status_of d' = 79 ∧ iface d' = None ∧ mac_addr d' = mac_addr d
        | Ok tap =>
            iface d' = Some tap ∧
            match mac_address_by_name env tap with
            | Ok (Some ma) => status_of d' = 15 ∧ mac_addr d' = ma
            | _ => status_of d' = 79 ∧ mac_addr d' = mac_addr d
            end
        end
      else status_of d' = b ∧ iface d' = iface d ∧ mac_addr d' = mac_addr d
    else d' = d.
Proof.
  intros Hl. destruct (write_status_spec env d b rest Hl) as (d' & Hd' & Hh).
  exists d'. split; [done|]. unfold wf_registers in Hl.
  assert (∀ v i, i ≠ 6%nat → <[6%nat := v]> (registers d) !! i = registers d !! i) as Hother
    by (intros; by apply list_lookup_insert_ne).
  destruct Hh as [->|[Hs|Hs] ->|Hs ->|Hs ->|e Hs -> Htap|tap ma Hs -> Htap Hma|tap Hs -> Htap Hma
    |Hb H1 H2 H3 H4].
  9: { rewrite (proj2 (Z.eqb_neq b 0) Hb).
    destruct (next_status (status_of d) b) eqn:Hnext; [|done]. unfold next_status in Hnext. lia. }
  all: cbn [Z.eqb Pos.eqb]; rewrite ?Hs; cbn [next_status Z.eqb Pos.eqb andb orb]; rewrite ?Htap;
    unfold status_of; cbn [registers requested_features selected_queue_num virt_queues iface
      mac_addr with_status set_registers]; rewrite ?status_insert by done;
    (split; [first [exact (Hother _)|split; [exact (Hother _)|done..]]|]); try by split_and!.
  { split; [done|]. by rewrite Hma. }
  split; [done|].
  destruct (mac_address_by_name env tap) as [[ma|]|] eqn:Hm; [by destruct (Hma ma)|done|done].
Qed.

(** ** A running device with one packet to send *)
Module Example.
Definition net : VirtioNet := {|
  VIRTIO_NET_F_STATUS := 16; VIRTIO_NET_F_MAC := 5; size_of_virtio_net_hdr := 10 |}.
Definition tap : tap_env unit := TapEnv _ (Ok ()) (λ _, Ok (Some [2; 0; 0; 0; 0; 1])).
Definition host : Z := 0x10000000.
Definition base : Z := host + 0x20000.

(** One descriptor: through the word at [host + 0x30000] to the packet at
    guest address 0x40000, 12 bytes of which 10 are header. *)
Definition memory (addr : Z) : mem :=
  writes [(base, le_split 8 addr ++ le_split 4 12);
          (host + 0x30000, le_split 8 0x40000);
          (host + 0x40000, [222; 173]);
          (base + 4096 + 2, le_split 2 1)] (Mem host 0x100000 ∅).
Definition queue : Virtqueue := {|
  descriptor_table := base; available_ring := base + 4096; used_ring := base + 8192;
  last_seen_available := 0; last_seen_used := 0; queue_size := 256 |}.
Definition running : VirtioNetPciDevice unit :=
  Device (<[6%nat := 15]> (replicate 64 0)) 0 0 [queue; queue] (Some ()) (replicate 6 0).
Definition state (addr : Z) : tx_state := Tx (memory addr) running [].


Lemma notify_guest_address_faults_example :
  handle_notify_output (H := debug_profile) (H0 := net) host 10 (state 0x30000) [1; 0] = Fault.
Proof.
  apply (notify_guest_address_faults (H := debug_profile) (H0 := net) host (state 0x30000) 10
    base queue 0 1 0x30000).
  - done.
  - done.
  - done.
  - by split_and!.
  - evaluate.
  - by vm_compute.
  - evaluate.
  - done.
  - evaluate.
  - by vm_compute.
  - done.
Qed.

Definition fresh : VirtioNetPciDevice unit :=
  match new_device with Ret d => d | _ => running end.

Lemma device_reachable_inv_witness :
  device_wf (H := net) (with_status 200 (with_status 1 fresh)) ∧
  device_inv (H := net) (with_status 3 (with_status 1 fresh)).
Proof.
  pose (first := step_status (H := debug_profile) (H0 := net) tap fresh (with_status 1 fresh) [1] eq_refl).
  pose (second := step_status (H := debug_profile) (H0 := net) tap (with_status 1 fresh)
    (with_status 3 (with_status 1 fresh)) [3] eq_refl).
  pose (poke := step_config (H := debug_profile) (H0 := net) (with_status 1 fresh)
    (with_status 200 (with_status 1 fresh)) 6 [200] ltac:(done) eq_refl).
  split.
  - refine (proj1 (device_reachable_inv (H := debug_profile) (H0 := net) fresh _ eq_refl _)).
    exact (rtc_l _ _ _ _ (ex_intro _ _ first) (rtc_once _ _ (ex_intro _ _ poke))).
  - refine (proj2 (device_reachable_inv (H := debug_profile) (H0 := net) fresh _ eq_refl _) _).
    + exact (rtc_l _ _ _ _ (ex_intro _ _ first) (rtc_once _ _ (ex_intro _ _ second))).
    + exact (rtc_l _ _ _ _ first (rtc_once _ _ second)).
Defined.

Lemma notify_without_queue_panics_example :
  ∃ d4 : VirtioNetPciDevice unit, handle_notify_output (H := debug_profile) (H0 := net) host 10
          (Tx (memory 0) d4 []) [1; 0] = Panic.
Proof.
  destruct (notify_without_queue_panics (H := debug_profile) (H0 := net) host tap 10
    (memory 0) [] fresh) as (d1 & d2 & d3 & d4 & _ & _ & _ & _ & Hp).
  - done.
  - by exists d4.
Qed.

Lemma write_status_in_order_witness :
  ∃ d', write_status tap fresh [1] = Ret d' ∧ status_of d' = 1 ∧ iface d' = None.
Proof.
  destruct (write_status_in_order (H := net) tap fresh 1 []) as (d' & Hw & _ & Hs & Hi & _).
  - reflexivity.
  - exists d'. split; [exact Hw|]. split; [exact Hs|exact Hi].
Defined.
End Example.
