(* ===== verification/LinuxVm.v ===== *)
(** * The virtual machine on Linux (src/linux/uhyve.rs)

    [MmapMemory] maps the guest's memory, [Uhyve::new] registers it with KVM
    (around the hole below 4 GiB), sets up the devices and writes the boot
    tables; [Uhyve] implements the trait [Vm], which discharges the interface
    the loader is proved against.  KVM, [mmap], [EventFd::new] and the TAP
    device are parameters. *)

From S2P Require Import Prelude Memory Consts Paging AddressSpace Loader Virtqueue Virtio.

Definition KVM_32BIT_MAX_MEM_SIZE : Z := Z.shiftl 1 32.
Definition KVM_32BIT_GAP_SIZE : Z := Z.shiftl 768 20.
Definition KVM_32BIT_GAP_START : Z := KVM_32BIT_MAX_MEM_SIZE - KVM_32BIT_GAP_SIZE.

(** ** Addresses as strings: [Ipv4Addr::from_str] *)

Record Ipv4Addr := Ipv4 { octet_a : Z; octet_b : Z; octet_c : Z; octet_d : Z }.

Definition octets (ip : Ipv4Addr) : list Z := [octet_a ip; octet_b ip; octet_c ip; octet_d ip].

(** The fields between dots. *)
Fixpoint split_dots (s : list Z) : list (list Z) :=
  match s with
  | [] => [[]]
  | c :: s' =>
      if c =? 46 then [] :: split_dots s'
      else match split_dots s' with
           | [] => [[c]]
           | field :: fields => (c :: field) :: fields
           end
  end.

Definition is_digit (c : Z) : bool := (48 <=? c) && (c <=? 57).

(** One to three decimal digits, no leading zero, at most 255. *)
Definition parse_octet (s : list Z) : option Z :=
  let value := fold_left (λ n c, 10 * n + (c - 48)) s 0 in
  if (1 <=? Z.of_nat (length s)) && (Z.of_nat (length s) <=? 3) && forallb is_digit s
     && ((length s =? 1)%nat || negb (bool_decide (head s = Some 48))) && (value <=? 255)
  then Some value else None.

Definition ipv4_from_str (s : list Z) : option Ipv4Addr :=
  match split_dots s with
  | [a; b; c; d] =>
      a ← parse_octet a; b ← parse_octet b; c ← parse_octet c; d ← parse_octet d;
      Some (Ipv4 a b c d)
  | _ => None
  end.

(** [specs.ip.map(|s| Ipv4Addr::from_str(s).expect(..))]. *)
Definition parse_address (s : option (list Z)) : exec (option Ipv4Addr) :=
  match s with
  | None => Ret None
  | Some s => ip ← unwrap (ipv4_from_str s); Ret (Some ip)
  end.

(** ** Arguments of [Uhyve::new] *)

(** The structure [Parameter] of src/vm.rs. *)
Record Specs := {
  par_mem_size : Z;
  par_num_cpus : Z;
  par_verbose : bool;
  par_hugepage : bool;
  par_mergeable : bool;
  par_ip : option (list Z);
  par_gateway : option (list Z);
  par_mask : option (list Z);
  par_nic : option (list Z);
  par_gdbport : option Z;
}.

Record kvm_userspace_memory_region := Region {
  slot : Z;
  region_flags : Z;
  memory_size : Z;
  guest_phys_addr : Z;
  userspace_addr : Z;
}.

Inductive kvm_cap :=
| KVM_CAP_X2APIC_API
| KVM_CAP_TSC_DEADLINE_TIMER
| KVM_CAP_IRQFD
| KVM_CAP_X86_DISABLE_EXITS.

(** KVM: a virtual machine is a state [K]; an [ioctl] may fail with an error
    number. *)
Class Kvm (K : Type) := {
  kvm_create_vm : result Z K;
  kvm_set_user_memory_region : K → kvm_userspace_memory_region → result Z K;
  kvm_create_irq_chip : K → result Z K;
  kvm_enable_cap : K → kvm_cap → Z → result Z K;
  kvm_register_irqfd : K → Z → result Z K;
  KVM_X2APIC_API_USE_32BIT_IDS : Z;
  KVM_X2APIC_API_DISABLE_BROADCAST_QUIRK : Z;
  KVM_X86_DISABLE_EXITS_PAUSE : Z;
  KVM_X86_DISABLE_EXITS_MWAIT : Z;
  KVM_X86_DISABLE_EXITS_HLT : Z;
}.

(** The address space of the process, whether [EventFd::new] succeeds, and the
    TAP device by its name. *)
Class HostMemory := {
  eventfd_available : bool;
  mmap : Z → option Z;
  munmap : Z → Z → bool;
  madvise_mergeable : Z → Z → bool;
  madvise_hugepage : Z → Z → bool;
  tap_available : list Z → bool;
}.

(** [mmap] returns a range of the user half of the address space. *)
Class HostMemoryLaws `{HostMemory} : Prop := {
  mmap_range size a : mmap size = Some a → 0 < size ∧ 0 < a ∧ a + size ≤ 2 ^ 47;
}.

(** ** [MmapMemory] *)

Record MmapMemory := {
  mmap_flags : Z;
  mmap_memory_size : Z;
  mmap_guest_address : Z;
  mmap_host_address : Z;
}.

Section MmapMemory.
Context `{HostMemory}.

(** The second component is the contents of the new mapping. *)
Definition mmap_memory_new (flags size guest_address : Z) (huge_pages mergeable : bool) :
  exec (MmapMemory * mem) :=
  host_address ← unwrap (mmap size);
  (if mergeable then rust_assert (madvise_mergeable host_address size) else Ret ()) ;;
  (if huge_pages then rust_assert (madvise_hugepage host_address size) else Ret ()) ;;
  Ret ({| mmap_flags := flags; mmap_memory_size := size;
          mmap_guest_address := guest_address; mmap_host_address := host_address |},
       Mem host_address size ∅).

(** [Drop for MmapMemory]. *)
Definition mmap_memory_drop (mm : MmapMemory) : exec unit :=
  if 0 <? mmap_memory_size mm then
    rust_assert (munmap (mmap_host_address mm) (mmap_memory_size mm))
  else Ret ().

(** What is unmapped in the end is what was mapped. *)
Lemma mmap_memory_dropped `{!HostMemoryLaws} flags size guest_address huge_pages mergeable mm m :
  mmap_memory_new flags size guest_address huge_pages mergeable = Ret (mm, m) →
  mmap_memory_drop mm = rust_assert (munmap (mem_base m) (mem_size m)).
Proof.
  unfold mmap_memory_new, mmap_memory_drop. intros Hn. exec_inv.
  match goal with Hu : unwrap (mmap _) = Ret _ |- _ => apply unwrap_Ret, mmap_range in Hu end.
  cbn. by rewrite (proj2 (Z.ltb_lt _ _)) by lia.
Qed.

End MmapMemory.

(** ** [Uhyve] *)

Record Uhyve (K T : Type) := {
  vm_fd : K;
  offset : Z;
  entry_point : Z;
  vm_memory : MmapMemory;
  (** What [vm_memory] maps. *)
  contents : mem;
  num_cpus : Z;
  path : list Z;
  boot_info : Z;
  uhyve_verbose : bool;
  ip : option Ipv4Addr;
  gateway : option Ipv4Addr;
  mask : option Ipv4Addr;
  uhyve_device : option (list Z);
  virtio_device : VirtioNetPciDevice T;
  gdb_port : option Z;
}.
Arguments vm_fd {K T} _.
Arguments offset {K T} _.
Arguments entry_point {K T} _.
Arguments vm_memory {K T} _.
Arguments contents {K T} _.
Arguments num_cpus {K T} _.
Arguments path {K T} _.
Arguments boot_info {K T} _.
Arguments uhyve_verbose {K T} _.
Arguments ip {K T} _.
Arguments gateway {K T} _.
Arguments mask {K T} _.
Arguments uhyve_device {K T} _.
Arguments virtio_device {K T} _.
Arguments gdb_port {K T} _.

Section Uhyve.
Context `{Profile, HostMemory, Kvm K} {T : Type}.

Definition region_low (mm : MmapMemory) (mem_size : Z) : kvm_userspace_memory_region :=
  let sz := if mem_size <? KVM_32BIT_GAP_START then mem_size else KVM_32BIT_GAP_START in
  Region 0 (mmap_flags mm) sz (mmap_guest_address mm) (mmap_host_address mm).

Definition region_high (mm : MmapMemory) (mem_size : Z) : exec kvm_userspace_memory_region :=
  a ← arith 64 (mem_size - KVM_32BIT_GAP_START);
  size ← arith 64 (a - KVM_32BIT_GAP_SIZE);
  b ← arith 64 (mmap_guest_address mm + KVM_32BIT_GAP_START);
  guest ← arith 64 (b + KVM_32BIT_GAP_SIZE);
  c ← arith 64 (mmap_host_address mm + KVM_32BIT_GAP_START);
  user ← arith 64 (c + KVM_32BIT_GAP_SIZE);
  Ret (Region 1 (mmap_flags mm) size guest user).

(** Registering the memory: the part below the hole, and the part above 4 GiB. *)
Definition register_memory (mm : MmapMemory) (mem_size : Z) (vm : K) : exec (result Z K) :=
  vm ←? Ret (kvm_set_user_memory_region vm (region_low mm mem_size));
  gap_end ← arith 64 (KVM_32BIT_GAP_START + KVM_32BIT_GAP_SIZE);
  if gap_end <? mem_size then
    region ← region_high mm mem_size;
    Ret (kvm_set_user_memory_region vm region)
  else Ret (Ok vm).

(** [result.expect(..)] and [result.expect_err(..)]. *)
Definition expect {A E} (r : result E A) : exec A :=
  match r with Ok a => Ret a | Err _ => Panic end.
Definition expect_err {A E} (r : result E A) : exec E :=
  match r with Ok _ => Panic | Err e => Ret e end.

(** [UhyveNetwork::new], up to its threads, which NetMemory.v follows: the TAP
    device must exist.  The network is known by the name of its device. *)
Definition network_new (name : list Z) (start : Z) : exec (list Z) :=
  rust_assert (tap_available name) ;; Ret name.

(** [Uhyve::new] once the memory is registered: interrupts, capabilities,
    network, and the boot tables. *)
Definition uhyve_finish (kernel_path : list Z) (specs : Specs)
    (ip_addr gw_addr mask : option Ipv4Addr) (mm : MmapMemory) (m : mem)
    (virtio_device : VirtioNetPciDevice T) (vm : K) : exec (result Z (Uhyve K T)) :=
  vm ←? Ret (kvm_create_irq_chip vm);
  vm ← expect (kvm_enable_cap vm KVM_CAP_X2APIC_API
                 (Z.lor KVM_X2APIC_API_USE_32BIT_IDS KVM_X2APIC_API_DISABLE_BROADCAST_QUIRK));
  _ ← expect_err (kvm_enable_cap vm KVM_CAP_TSC_DEADLINE_TIMER 0);
  _ ← expect_err (kvm_enable_cap vm KVM_CAP_IRQFD 0);
  vm ← expect (kvm_enable_cap vm KVM_CAP_X86_DISABLE_EXITS
                 (Z.lor (Z.lor KVM_X86_DISABLE_EXITS_PAUSE KVM_X86_DISABLE_EXITS_MWAIT)
                    KVM_X86_DISABLE_EXITS_HLT));
  rust_assert eventfd_available ;;
  vm ←? Ret (kvm_register_irqfd vm UHYVE_IRQ_NET);
  uhyve_device ← match par_nic specs with
                 | Some nic =>
                     start ← arith 64 (mmap_host_address mm + SHAREDQUEUE_START);
                     network ← network_new nic start; Ret (Some network)
                 | None => Ret None
                 end;
  rust_assert (bool_decide (par_gdbport specs = None) || (par_num_cpus specs =? 1)) ;;
  m ← init_guest_mem m;
  Ret (Ok {|
    vm_fd := vm; offset := 0; entry_point := 0; vm_memory := mm; contents := m;
    num_cpus := par_num_cpus specs; path := kernel_path; boot_info := 0;
    uhyve_verbose := par_verbose specs; ip := ip_addr; gateway := gw_addr; mask := mask;
    uhyve_device := uhyve_device; virtio_device := virtio_device;
    gdb_port := par_gdbport specs |}).

Definition uhyve_new (kernel_path : list Z) (specs : Specs) : exec (result Z (Uhyve K T)) :=
  ip_addr ← parse_address (par_ip specs);
  gw_addr ← parse_address (par_gateway specs);
  mask ← parse_address (par_mask specs);
  vm ←? Ret kvm_create_vm;
  '(mm, m) ← mmap_memory_new 0 (par_mem_size specs) 0 (par_hugepage specs) (par_mergeable specs);
  virtio_device ← new_device;
  vm ←? register_memory mm (par_mem_size specs) vm;
  uhyve_finish kernel_path specs ip_addr gw_addr mask mm m virtio_device vm.

(** *** The trait [Vm] *)

Definition with_loader_fields (off entry boot : Z) (m : mem) (v : Uhyve K T) : Uhyve K T := {|
  vm_fd := vm_fd v; offset := off; entry_point := entry; vm_memory := vm_memory v;
  contents := m; num_cpus := num_cpus v; path := path v; boot_info := boot;
  uhyve_verbose := uhyve_verbose v; ip := ip v; gateway := gateway v; mask := mask v;
  uhyve_device := uhyve_device v; virtio_device := virtio_device v; gdb_port := gdb_port v |}.

#[export] Instance uhyve_vm : Vm (Uhyve K T) := {|
  guest_mem := contents;
  set_guest_mem m v := with_loader_fields (offset v) (entry_point v) (boot_info v) m v;
  get_offset := offset;
  set_offset o v := with_loader_fields o (entry_point v) (boot_info v) (contents v) v;
  get_entry_point := entry_point;
  set_entry_point e v := with_loader_fields (offset v) e (boot_info v) (contents v) v;
  boot_info_ptr := boot_info;
  set_boot_info p v := with_loader_fields (offset v) (entry_point v) p (contents v) v;
  vm_kernel_path := path;
  get_ip v := octets <$> ip v;
  get_gateway v := octets <$> gateway v;
  get_mask v := octets <$> mask v;
  verbose := uhyve_verbose;
|}.

#[export] Instance uhyve_vm_laws : VmLaws (Uhyve K T).
Proof.
  split; try done; intros v o Ho; cbn in Ho;
    [destruct (ip v)|destruct (gateway v)|destruct (mask v)]; cbn in Ho; try done;
    by injection Ho as <-.
Qed.

Definition cpu_online (v : Uhyve K T) : exec Z :=
  if boot_info v =? 0 then Ret 0 else load 4 (contents v) (boot_info v + BootInfo.cpu_online).

End Uhyve.

(** ** The memory KVM sees *)

Section Regions.
Context `{Profile}.

(** The regions [Uhyve::new] registers, one after the other. *)
Definition memory_regions (mm : MmapMemory) (mem_size : Z) :
    exec (list kvm_userspace_memory_region) :=
  gap_end ← arith 64 (KVM_32BIT_GAP_START + KVM_32BIT_GAP_SIZE);
  if gap_end <? mem_size then
    high ← region_high mm mem_size; Ret [region_low mm mem_size; high]
  else Ret [region_low mm mem_size].

Fixpoint register_regions `{Kvm K} (vm : K) (rs : list kvm_userspace_memory_region) : result Z K :=
  match rs with
  | [] => Ok vm
  | r :: rs' =>
      match kvm_set_user_memory_region vm r with
      | Ok vm' => register_regions vm' rs'
      | Err e => Err e
      end
  end.

(** What a region maps. *)
Definition region_maps (r : kvm_userspace_memory_region) (gpa hva : Z) : Prop :=
  guest_phys_addr r ≤ gpa < guest_phys_addr r + memory_size r ∧
  hva = userspace_addr r + (gpa - guest_phys_addr r).

(** The range below 4 GiB the devices occupy. *)
Definition in_gap (gpa : Z) : Prop := 0xd0000000 ≤ gpa < 2 ^ 32.

Section Mapped.
Context (mm : MmapMemory) (size : Z).
Hypothesis Hguest : mmap_guest_address mm = 0.
Hypothesis Hsize : 0 ≤ size.
Hypothesis Hhost : 0 < mmap_host_address mm.
Hypothesis Hend : mmap_host_address mm + size ≤ 2 ^ 47.

Lemma gap_end : arith 64 (KVM_32BIT_GAP_START + KVM_32BIT_GAP_SIZE) = Ret (2 ^ 32).
Proof. change (KVM_32BIT_GAP_START + KVM_32BIT_GAP_SIZE) with (2 ^ 32). by arith_ok. Qed.

Lemma region_high_eq :
  2 ^ 32 < size →
  region_high mm size =
    Ret (Region 1 (mmap_flags mm) (size - 2 ^ 32) (2 ^ 32) (mmap_host_address mm + 2 ^ 32)).
Proof.
  intros Hlt. unfold region_high. change KVM_32BIT_GAP_START with 0xd0000000.
  change KVM_32BIT_GAP_SIZE with 0x30000000. rewrite Hguest. arith_ok.
  do 2 f_equal; lia.
Qed.

Lemma memory_regions_returns : ∃ rs, memory_regions mm size = Ret rs.
Proof.
  unfold memory_regions. rewrite gap_end. cbn [mbind exec_bind].
  destruct (Z.ltb_spec (2 ^ 32) size); [rewrite region_high_eq by done|]; by eexists.
Qed.

Lemma register_memory_regions `{Kvm K} (vm : K) rs :
  memory_regions mm size = Ret rs → register_memory mm size vm = Ret (register_regions vm rs).
Proof.
  unfold memory_regions, register_memory, try_bind. rewrite gap_end. cbn [mbind exec_bind].
  destruct (2 ^ 32 <? size); intros Hrs; exec_inv; cbn [register_regions];
    destruct (kvm_set_user_memory_region vm _) as [vm1|]; try done.
  match goal with Hh : region_high _ _ = Ret _ |- _ => rewrite Hh end. cbn [mbind exec_bind].
  by destruct (kvm_set_user_memory_region vm1 _).
Qed.

Lemma memory_regions_map rs gpa hva :
  memory_regions mm size = Ret rs → 0 ≤ gpa →
  (∃ r, r ∈ rs ∧ region_maps r gpa hva) ↔
  gpa < size ∧ ¬ in_gap gpa ∧ hva = mmap_host_address mm + gpa.
Proof.
  unfold memory_regions. rewrite gap_end. cbn [mbind exec_bind]. intros Hrs Hgpa.
  assert (region_maps (region_low mm size) gpa hva ↔
    gpa < size ∧ gpa < 0xd0000000 ∧ hva = mmap_host_address mm + gpa) as Hlow.
  { unfold region_low, region_maps. change KVM_32BIT_GAP_START with 0xd0000000.
    cbn [guest_phys_addr memory_size userspace_addr]. rewrite Hguest.
    destruct (Z.ltb_spec size 0xd0000000); lia. }
  unfold in_gap. destruct (Z.ltb_spec (2 ^ 32) size) as [Hlt|Hle].
  - rewrite region_high_eq in Hrs by done. injection Hrs as <-.
    rewrite <- Exists_exists, !Exists_cons, Exists_nil, Hlow. unfold region_maps.
    cbn [guest_phys_addr memory_size userspace_addr]. lia.
  - injection Hrs as <-. rewrite <- Exists_exists, Exists_cons, Exists_nil, Hlow. lia.
Qed.

(** C39: KVM's view of guest memory agrees with [host_address].  [Uhyve::new]
    registers one or two regions, in different slots, whatever KVM answers up
    to its first refusal.  Of a mapping of [size] bytes, a guest-physical
    address is backed by one of them exactly when it is below [size] and
    outside the hole below 4 GiB, and then by the host address at the same
    distance from the start of the mapping. *)
Theorem memory_regions_correct :
  ∃ rs, memory_regions mm size = Ret rs ∧
    (∀ K `(Kvm K) (vm : K), register_memory mm size vm = Ret (register_regions vm rs)) ∧
    NoDup (slot <$> rs) ∧
    ∀ gpa hva, 0 ≤ gpa →
      (∃ r, r ∈ rs ∧ region_maps r gpa hva) ↔
      gpa < size ∧ ¬ in_gap gpa ∧ hva = mmap_host_address mm + gpa.
Proof.
  destruct memory_regions_returns as [rs Hrs]. exists rs. split; [done|]. split_and!.
  - intros K HK vm. by apply register_memory_regions.
  - unfold memory_regions in Hrs. rewrite gap_end in Hrs. cbn [mbind exec_bind] in Hrs.
    destruct (Z.ltb_spec (2 ^ 32) size) as [Hlt|];
      [rewrite region_high_eq in Hrs by done|]; injection Hrs as <-; cbn; evaluate.
  - intros gpa hva. by apply memory_regions_map.
Qed.

End Mapped.
End Regions.

(** ** [Uhyve::new] *)

Section New.
Context `{Profile, HostMemory, !HostMemoryLaws, Kvm K} {T : Type}.

Definition mapping (specs : Specs) (host : Z) : MmapMemory := {|
  mmap_flags := 0; mmap_memory_size := par_mem_size specs;
  mmap_guest_address := 0; mmap_host_address := host |}.

(** The host grants what the arguments ask for. *)
Record host_ready (specs : Specs) (host : Z) (ips : list (option Ipv4Addr)) : Prop := {
  h_addresses : ∃ a b c, ips = [a; b; c] ∧ parse_address (par_ip specs) = Ret a ∧
    parse_address (par_gateway specs) = Ret b ∧ parse_address (par_mask specs) = Ret c;
  h_mmap : mmap (par_mem_size specs) = Some host;
  h_mergeable : par_mergeable specs = true → madvise_mergeable host (par_mem_size specs) = true;
  h_hugepage : par_hugepage specs = true → madvise_hugepage host (par_mem_size specs) = true;
  h_eventfd : eventfd_available = true;
  h_tap nic : par_nic specs = Some nic → tap_available nic = true;
}.

(** The capabilities: the x2APIC and the disabled exits have to be granted, and
    the code goes on only when the two probes in between are refused. *)
Definition capabilities (vm : K) : option K :=
  match kvm_enable_cap vm KVM_CAP_X2APIC_API
          (Z.lor KVM_X2APIC_API_USE_32BIT_IDS KVM_X2APIC_API_DISABLE_BROADCAST_QUIRK) with
  | Ok vm1 =>
      match kvm_enable_cap vm1 KVM_CAP_TSC_DEADLINE_TIMER 0, kvm_enable_cap vm1 KVM_CAP_IRQFD 0,
            kvm_enable_cap vm1 KVM_CAP_X86_DISABLE_EXITS
              (Z.lor (Z.lor KVM_X86_DISABLE_EXITS_PAUSE KVM_X86_DISABLE_EXITS_MWAIT)
                 KVM_X86_DISABLE_EXITS_HLT) with
      | Err _, Err _, Ok vm2 => Some vm2
      | _, _, _ => None
      end
  | Err _ => None
  end.

Lemma mmap_memory_new_ok specs host ips :
  host_ready specs host ips →
  mmap_memory_new 0 (par_mem_size specs) 0 (par_hugepage specs) (par_mergeable specs) =
    Ret (mapping specs host, Mem host (par_mem_size specs) ∅).
Proof.
  intros [_ Hm Hmerge Hhuge _ _]. unfold mmap_memory_new. rewrite Hm. cbn [unwrap mbind exec_bind].
  destruct (par_mergeable specs); [rewrite Hmerge by done|]; cbn [rust_assert mbind exec_bind];
    (destruct (par_hugepage specs); [rewrite Hhuge by done|]); done.
Qed.

Lemma new_device_ok : ∃ d, new_device (T := T) = Ret d.
Proof. by eexists. Qed.

(** [Uhyve::new] up to the memory. *)
Lemma uhyve_new_registers kernel_path specs host a b c d0 rs :
  host_ready specs host [a; b; c] → new_device (T := T) = Ret d0 →
  memory_regions (mapping specs host) (par_mem_size specs) = Ret rs →
  uhyve_new kernel_path specs =
  match kvm_create_vm with
  | Err e => Ret (Err e)
  | Ok vm0 =>
      match register_regions vm0 rs with
      | Ok vm => uhyve_finish kernel_path specs a b c (mapping specs host)
                   (Mem host (par_mem_size specs) ∅) d0 vm
      | Err e => Ret (Err e)
      end
  end.
Proof.
  intros Hready Hd0 Hrs.
  pose proof Hready as [(a' & b' & c' & [= <- <- <-] & Ha & Hb & Hc) Hmap _ _ _ _].
  pose proof (mmap_range _ _ Hmap) as (Hs0 & Hh & He).
  unfold uhyve_new. rewrite Ha, Hb, Hc. unfold try_bind. cbn [mbind exec_bind].
  destruct kvm_create_vm as [vm0|]; [|done].
  rewrite (mmap_memory_new_ok specs host _ Hready). cbn [mbind exec_bind].
  rewrite Hd0. cbn [mbind exec_bind].
  by rewrite (register_memory_regions (mapping specs host) (par_mem_size specs) vm0 rs Hrs).
Qed.

(** [Uhyve::new] from there on. *)
Lemma uhyve_finish_eq kernel_path specs a b c host d0 vm m :
  host_ready specs host [a; b; c] → 0 < host < 2 ^ 47 →
  init_guest_mem (Mem host (par_mem_size specs) ∅) = Ret m →
  uhyve_finish kernel_path specs a b c (mapping specs host)
    (Mem host (par_mem_size specs) ∅) d0 vm =
  match kvm_create_irq_chip vm with
  | Err e => Ret (Err e)
  | Ok vm1 =>
      match capabilities vm1 with
      | None => Panic
      | Some vm2 =>
          match kvm_register_irqfd vm2 UHYVE_IRQ_NET with
          | Err e => Ret (Err e)
          | Ok vm' =>
              if bool_decide (par_gdbport specs = None) || (par_num_cpus specs =? 1) then
                Ret (Ok {|
                  vm_fd := vm'; offset := 0; entry_point := 0; vm_memory := mapping specs host;
                  contents := m; num_cpus := par_num_cpus specs; path := kernel_path; boot_info := 0;
                  uhyve_verbose := par_verbose specs; ip := a; gateway := b; mask := c;
                  uhyve_device := par_nic specs; virtio_device := d0; gdb_port := par_gdbport specs |}
                  : result Z (Uhyve K T))
              else Panic
          end
      end
  end.
Proof.
  intros [_ _ _ _ Hevent Hnic] Hhost Hinit.
  unfold uhyve_finish, try_bind, capabilities. cbn [mbind exec_bind].
  destruct (kvm_create_irq_chip vm) as [vm1|]; [|done].
  destruct (kvm_enable_cap vm1 KVM_CAP_X2APIC_API _) as [vm2|]; [|done].
  cbn [expect mbind exec_bind].
  destruct (kvm_enable_cap vm2 KVM_CAP_TSC_DEADLINE_TIMER 0); [done|].
  cbn [expect_err mbind exec_bind].
  destruct (kvm_enable_cap vm2 KVM_CAP_IRQFD 0); [done|]. cbn [expect_err mbind exec_bind].
  destruct (kvm_enable_cap vm2 KVM_CAP_X86_DISABLE_EXITS _) as [vm3|]; [|done].
  cbn [expect mbind exec_bind]. rewrite Hevent. cbn [rust_assert mbind exec_bind].
  destruct (kvm_register_irqfd vm3 _) as [vm'|]; [|done].
  assert (match par_nic specs with
          | Some nic =>
              start ← arith 64 (mmap_host_address (mapping specs host) + SHAREDQUEUE_START);
              network ← network_new nic start; Ret (Some network)
          | None => Ret None
          end = Ret (par_nic specs)) as ->.
  { destruct (par_nic specs) as [nic|]; [|done]. unfold network_new. rewrite (Hnic nic) by done.
    unfold SHAREDQUEUE_START, mapping. cbn [mmap_host_address]. by arith_ok. }
  cbn [mbind exec_bind]. destruct (_ || _); [|done]. cbn [rust_assert mbind exec_bind].
  by rewrite Hinit.
Qed.


End New.

(** ** A machine and a small relocatable kernel *)
Module Example.
#[local] Existing Instance debug_profile.
#[local] Instance example_kvm : Kvm unit := {|
  kvm_create_vm := Ok ();
  kvm_set_user_memory_region _ _ := Ok ();
  kvm_create_irq_chip _ := Ok ();
  kvm_enable_cap _ c _ :=
    match c with
    | KVM_CAP_TSC_DEADLINE_TIMER | KVM_CAP_IRQFD => Err 22
    | _ => Ok ()
    end;
  kvm_register_irqfd _ _ := Ok ();
  KVM_X2APIC_API_USE_32BIT_IDS := 1;
  KVM_X2APIC_API_DISABLE_BROADCAST_QUIRK := 2;
  KVM_X86_DISABLE_EXITS_MWAIT := 1;
  KVM_X86_DISABLE_EXITS_HLT := 2;
  KVM_X86_DISABLE_EXITS_PAUSE := 4;
|}.

Definition host : Z := 0x7f0000000000.
#[local] Instance example_memory : HostMemory := {|
  eventfd_available := true;
  mmap size := if decide (0 < size ≤ 2 ^ 40) then Some host else None;
  munmap _ _ := true;
  madvise_mergeable _ _ := true;
  madvise_hugepage _ _ := true;
  tap_available _ := true;
|}.
#[local] Instance example_memory_laws : HostMemoryLaws.
Proof. split. intros size a. cbn. case_decide; [|done]. intros [= <-]. unfold host. lia. Qed.

#[local] Instance example_cpuid : CpuId := {|
  get_tsc_info := Some {| tsc_frequency := None; denominator := 2; numerator := 200 |};
  processor_base_frequency := Some 2600;
  get_hypervisor_info := None;
|}.

(** Two loadable bytes followed by two zero bytes, and one relocation. *)
Definition text : ProgramHeader :=
  {| p_type := 1; p_offset := 1; p_vaddr := 0x20; p_filesz := 2; p_memsz := 4 |}.
Definition tls : ProgramHeader :=
  {| p_type := 7; p_offset := 1; p_vaddr := 0x20; p_filesz := 2; p_memsz := 4 |}.
Definition kernel : Elf := {|
  libraries := []; e_type := 3; e_machine := 62; entry := 0x10;
  program_headers := [text; tls];
  dynrelas := [{| r_offset := 0x40; r_addend := Some 0x20; r_type := 8 |}];
|}.
#[local] Instance example_goblin : Goblin unit := {|
  elf_parse _ := Ok kernel;
  ET_DYN := 3; EM_X86_64 := 62; PT_LOAD := 1; PT_TLS := 7; R_X86_64_RELATIVE := 8;
|}.

Definition env : host_env := HostEnv (λ _, Ok [1; 2; 3; 4]) (Some 1660000000) 0 0.
Definition specs (size : Z) : Specs := {|
  par_mem_size := size; par_num_cpus := 1; par_verbose := true; par_hugepage := true;
  par_mergeable := false; par_ip := Some [49; 48; 46; 48; 46; 48; 46; 50]; par_gateway := None;
  par_mask := None; par_nic := None; par_gdbport := None |}.
Definition machine (size : Z) : Uhyve unit unit := {|
  vm_fd := (); offset := 0; entry_point := 0; vm_memory := mapping (specs size) host;
  contents := Mem host size ∅; num_cpus := 1; path := []; boot_info := 0;
  uhyve_verbose := true; ip := Some (Ipv4 10 0 0 2); gateway := None; mask := None;
  uhyve_device := None;
  virtio_device := Device (replicate 64 0) 0 0 [] None (replicate 6 0); gdb_port := None |}.

Lemma bootable_example size :
  0x10000 ≤ size ≤ 2 ^ 32 → bootable env (machine size) [1; 2; 3; 4] kernel 1660000000 2600.
Proof.
  intros Hs. split.
  - reflexivity.
  - reflexivity.
  - reflexivity.
  - reflexivity.
  - unfold boot_mem, BOOT_INFO_ADDR, host. cbn [guest_mem uhyve_vm machine contents mem_base mem_size].
    unfold host. lia.
  - cbn [entry kernel]. lia.
  - cbn [length]. lia.
  - cbn [length program_headers kernel]. lia.
  - reflexivity.
  - lia.
  - by vm_compute.
  - unfold fits. lia.
Qed.

Lemma load_kernel_correct_witness :
  ∃ v', load_kernel true env (machine 0x800000) = Ret (v', Ok ()) ∧
    get_entry_point v' = 0x400010 ∧ peek (guest_mem v') (host + 0x400020) = 2.
Proof.
  destruct (load_kernel_correct true env (machine 0x800000) [1; 2; 3; 4] kernel 1660000000 2600)
    as (v' & Hl & _ & He & _ & Hseg & _).
  - by apply bootable_example.
  - evaluate.
  - evaluate.
  - evaluate.
  - evaluate.
  - evaluate.
  - exists v'. split_and!; [exact Hl|exact He|].
    apply (Hseg text 0%nat 2); [by left|reflexivity|reflexivity|].
    constructor; [|constructor]. unfold outside. evaluate.
Defined.

Lemma load_kernel_boot_info_witness :
  ∃ v', load_kernel true env (machine 0x800000) = Ret (v', Ok ()) ∧
    load 8 (guest_mem v') (host + BOOT_INFO_ADDR + BootInfo.limit) = Ret 0x800000.
Proof.
  destruct (load_kernel_boot_info true env (machine 0x800000) [1; 2; 3; 4] kernel 1660000000 2600)
    as (v' & Hl & _ & _ & Hlimit & _).
  - by apply bootable_example.
  - evaluate.
  - evaluate.
  - evaluate.
  - evaluate.
  - evaluate.
  - by vm_compute.
  - exists v'. split; [exact Hl|exact Hlimit].
Defined.

Lemma load_kernel_memory_safe_witness :
  load_kernel true env (machine 0x800000) ≠ Fault.
Proof.
  destruct (load_kernel_memory_safe true env (machine 0x800000) [1; 2; 3; 4] kernel
    1660000000 2600) as [Hsafe _].
  - by apply bootable_example.
  - evaluate.
  - evaluate.
  - apply Hsafe. evaluate.
Defined.

Lemma load_kernel_insufficient_example :
  ∃ v', load_kernel true env (machine 0x20000) = Ret (v', Err InsufficientMemory).
Proof.
  apply (load_kernel_insufficient true env (machine 0x20000) [1; 2; 3; 4] kernel
    1660000000 2600 ltac:(by apply bootable_example) [] text [tls]).
  - reflexivity.
  - constructor.
  - reflexivity.
  - evaluate.
  - by vm_compute.
  - by vm_compute.
  - by vm_compute.
Qed.

Lemma load_kernel_errors_witness :
  ∃ v' elf ph, load_kernel true env (machine 0x20000) = Ret (v', Err InsufficientMemory) ∧
    overflows env (machine 0x20000) 0x20000 elf ph.
Proof.
  destruct load_kernel_insufficient_example as (v' & Hl).
  destruct (proj2 (load_kernel_errors true env (machine 0x20000) InsufficientMemory) v' Hl)
    as [[Hr _]|(_ & _ & elf & [ph Hph] & _)]; [by inversion Hr|].
  exists v', elf, ph. split; [exact Hl|exact Hph].
Defined.

Lemma detect_freq_from_base_example :
  ∃ mhz, detect_freq_from_cpuid = Ret (Ok mhz) ∧ 2599 ≤ mhz ≤ 2600.
Proof.
  destruct (detect_freq_from_base {| tsc_frequency := None; denominator := 2; numerator := 200 |}
    2600) as (mhz & Hd & Hr & _).
  - reflexivity.
  - reflexivity.
  - reflexivity.
  - lia.
  - by vm_compute.
  - by vm_compute.
  - by vm_compute.
  - by vm_compute.
  - exists mhz. split; [exact Hd|exact Hr].
Qed.

(** A machine of 8 GiB has memory above the hole. *)
Lemma memory_regions_correct_witness :
  ∃ rs, memory_regions (mapping (specs (2 ^ 33)) host) (2 ^ 33) = Ret rs ∧
    ∃ r, r ∈ rs ∧ region_maps r (2 ^ 32) (host + 2 ^ 32).
Proof.
  destruct (memory_regions_correct (mapping (specs (2 ^ 33)) host) (2 ^ 33)) as (rs & Hrs & _ & _ & Hmap).
  - reflexivity.
  - evaluate.
  - evaluate.
  - exists rs. split; [exact Hrs|]. apply (Hmap (2 ^ 32)); [lia|].
    unfold in_gap. cbn [mapping mmap_host_address]. lia.
Defined.

Lemma example_granted : host_ready (specs 0x800000) host [Some (Ipv4 10 0 0 2); None; None].
Proof.
  split; [|by vm_compute|done|done|done|done].
  exists (Some (Ipv4 10 0 0 2)), None, None. split_and!; by vm_compute.
Qed.

End Example.
