(* ===== verification/KvmVcpu.v ===== *)
(** * A virtual CPU as KVM presents it

    The register structures of kvm_bindings, with the fields uhyve reads or
    writes, and the [ioctl]s of kvm_ioctls' [VcpuFd] that get and set them, as
    a class over an abstract vCPU state: an [ioctl] may fail with an error
    number; one that sets a structure determines what the one that gets it
    returns, and leaves the other structures alone.  A second class holds what
    bringing a vCPU up and running it needs: CPUID leaves, machine-specific
    registers, the multiprocessing state, guest debugging, and [KVM_RUN], in
    which the guest changes its memory and leaves with an exit. *)

From S2P Require Import Prelude Memory.

Record kvm_regs := KvmRegs {
  rax : Z; rbx : Z; rcx : Z; rdx : Z; rsi : Z; rdi : Z; rsp : Z; rbp : Z;
  r8 : Z; r9 : Z; r10 : Z; r11 : Z; r12 : Z; r13 : Z; r14 : Z; r15 : Z;
  rip : Z; rflags : Z;
}.

Record kvm_segment := KvmSegment {
  seg_base : Z; seg_limit : Z; selector : Z; seg_type : Z; present : Z; dpl : Z;
  db : Z; seg_s : Z; seg_l : Z; seg_g : Z; avl : Z; unusable : Z;
}.

Record kvm_dtable := KvmDtable { dt_base : Z; dt_limit : Z }.

Record kvm_sregs := KvmSregs {
  cs : kvm_segment; ds : kvm_segment; es : kvm_segment; fs : kvm_segment;
  gs : kvm_segment; ss : kvm_segment; tr : kvm_segment; ldt : kvm_segment;
  gdt : kvm_dtable; idt : kvm_dtable;
  cr0 : Z; cr2 : Z; cr3 : Z; cr4 : Z; cr8 : Z; efer : Z; apic_base : Z;
}.

Record kvm_fpu := KvmFpu {
  fpr : list (list Z);
  fcw : Z; fsw : Z; ftwx : Z; pad1 : Z; last_opcode : Z; last_ip : Z; last_dp : Z;
  fpu_xmm : list (list Z);
  fpu_mxcsr : Z; pad2 : Z;
}.

Class KvmVcpu (C : Type) := {
  get_regs : C → result Z kvm_regs;
  set_regs : C → kvm_regs → result Z C;
  get_sregs : C → result Z kvm_sregs;
  set_sregs : C → kvm_sregs → result Z C;
  get_fpu : C → result Z kvm_fpu;
  set_fpu : C → kvm_fpu → result Z C;
}.

Class KvmVcpuLaws C `{KvmVcpu C} : Prop := {
  regs_set_regs c r c' : set_regs c r = Ok c' → get_regs c' = Ok r;
  regs_set_sregs c s c' : set_sregs c s = Ok c' → get_regs c' = get_regs c;
  regs_set_fpu c f c' : set_fpu c f = Ok c' → get_regs c' = get_regs c;
  sregs_set_regs c r c' : set_regs c r = Ok c' → get_sregs c' = get_sregs c;
  sregs_set_sregs c s c' : set_sregs c s = Ok c' → get_sregs c' = Ok s;
  sregs_set_fpu c f c' : set_fpu c f = Ok c' → get_sregs c' = get_sregs c;
  fpu_set_fpu c f c' : set_fpu c f = Ok c' → get_fpu c' = Ok f;
}.

(** The structure with another selector. *)
Definition with_selector (s : kvm_segment) (sel : Z) : kvm_segment :=
  KvmSegment (seg_base s) (seg_limit s) sel (seg_type s) (present s) (dpl s) (db s)
    (seg_s s) (seg_l s) (seg_g s) (avl s) (unusable s).

(** ** Bringing a vCPU up and running it *)

Record kvm_cpuid_entry2 := CpuidEntry {
  cpuid_function : Z; cpuid_index : Z; cpuid_flags : Z;
  cpuid_eax : Z; cpuid_ebx : Z; cpuid_ecx : Z; cpuid_edx : Z;
}.

Record kvm_msr_entry := MsrEntry { msr_index : Z; msr_data : Z }.

Record kvm_debug_exit_arch := DebugExit { dbg_exception : Z; dbg_pc : Z; dbg_dr6 : Z; dbg_dr7 : Z }.

Record kvm_guest_debug := GuestDebug { dbg_control : Z; dbg_debugreg : list Z }.

(** kvm_ioctls' [VcpuExit]: the exits uhyve tells apart.  [IoIn] carries the
    buffer whose contents the guest will receive. *)
Inductive VcpuExit :=
| ExitHlt
| ExitShutdown
| ExitIoIn (port : Z) (addr : list Z)
| ExitIoOut (port : Z) (addr : list Z)
| ExitDebug (debug : kvm_debug_exit_arch)
| ExitInternalError
| ExitOther.

Class KvmRun (C : Type) := {
  (** [KVM.get_supported_cpuid] and [KVM.get_msr_index_list]. *)
  kvm_supported_cpuid : result Z (list kvm_cpuid_entry2);
  kvm_msr_index_list : result Z (list Z);
  (** [Msrs::from_entries] fails beyond this many entries. *)
  kvm_max_msr_entries : Z;
  kvm_mp_state_runnable : Z;
  set_cpuid2 : C → list kvm_cpuid_entry2 → result Z C;
  set_msrs : C → list kvm_msr_entry → result Z C;
  set_mp_state : C → Z → result Z C;
  set_guest_debug : C → kvm_guest_debug → result Z C;
  (** The guest runs until it exits; it may write its memory. *)
  vcpu_run : C → mem → C * mem * result Z VcpuExit;
  (** The contents of an [IoIn] buffer, given back to the guest. *)
  vcpu_complete_in : C → list Z → C;
}.

(** The registers of [kvm_sregs] that are also machine-specific registers:
    APIC base, EFER, and the bases of FS and GS. *)
Definition sregs_msrs : list Z := [0x1b; 0xc0000080; 0xc0000100; 0xc0000101].

Class KvmRunLaws C `{KvmVcpu C, KvmRun C} : Prop := {
  sregs_set_cpuid2 c es c' : set_cpuid2 c es = Ok c' → get_sregs c' = get_sregs c;
  regs_set_cpuid2 c es c' : set_cpuid2 c es = Ok c' → get_regs c' = get_regs c;
  sregs_set_mp_state c s c' : set_mp_state c s = Ok c' → get_sregs c' = get_sregs c;
  regs_set_mp_state c s c' : set_mp_state c s = Ok c' → get_regs c' = get_regs c;
  sregs_set_msrs c es c' : set_msrs c es = Ok c' →
    Forall (λ e, msr_index e ∉ sregs_msrs) es → get_sregs c' = get_sregs c;
  regs_set_msrs c es c' : set_msrs c es = Ok c' → get_regs c' = get_regs c;
  (** The guest cannot move or resize its memory, and writes bytes. *)
  run_mem_base c m c' m' r : vcpu_run c m = (c', m', r) → mem_base m' = mem_base m;
  run_mem_size c m c' m' r : vcpu_run c m = (c', m', r) → mem_size m' = mem_size m;
  run_mem_wf c m c' m' r : vcpu_run c m = (c', m', r) → mem_wf m → mem_wf m';
}.
