(* ===== verification/GdbRegs.v ===== *)
(** * Registers between KVM and the debugger (src/linux/gdb/regs.rs)

    [read] collects the registers of a vCPU for the debugger, [write] puts the
    debugger's registers into a vCPU.  [X86_64CoreRegs] is gdbstub_arch's
    structure; fixed-size arrays are lists. *)

From S2P Require Import Prelude Memory KvmVcpu.

Record X86SegmentRegs := SegmentRegs {
  seg_cs : Z; seg_ss : Z; seg_ds : Z; seg_es : Z; seg_fs : Z; seg_gs : Z;
}.

Record X87FpuInternalRegs := FpuInternal {
  fctrl : Z; fstat : Z; ftag : Z; fiseg : Z; fioff : Z; foseg : Z; fooff : Z; fop : Z;
}.

Record X86_64CoreRegs := CoreRegs {
  core_regs : list Z;
  core_eflags : Z;
  core_rip : Z;
  core_segments : X86SegmentRegs;
  core_st : list (list Z);
  core_fpu : X87FpuInternalRegs;
  core_xmm : list Z;
  core_mxcsr : Z;
}.

(** ** General-purpose registers *)

Record Regs := MkRegs { regs : list Z; eflags : Z; regs_rip : Z }.

Definition regs_from_kvm (r : kvm_regs) : Regs :=
  MkRegs [rax r; rbx r; rcx r; rdx r; rsi r; rdi r; rbp r; rsp r;
          r8 r; r9 r; r10 r; r11 r; r12 r; r13 r; r14 r; r15 r]
    (wrap 32 (rflags r)) (rip r).

Definition regs_to_kvm (r : Regs) : kvm_regs := {|
  rax := regs r !!! 0%nat; rbx := regs r !!! 1%nat; rcx := regs r !!! 2%nat;
  rdx := regs r !!! 3%nat; rsi := regs r !!! 4%nat; rdi := regs r !!! 5%nat;
  rbp := regs r !!! 6%nat; rsp := regs r !!! 7%nat; r8 := regs r !!! 8%nat;
  r9 := regs r !!! 9%nat; r10 := regs r !!! 10%nat; r11 := regs r !!! 11%nat;
  r12 := regs r !!! 12%nat; r13 := regs r !!! 13%nat; r14 := regs r !!! 14%nat;
  r15 := regs r !!! 15%nat; rflags := eflags r; rip := regs_rip r;
|}.

(** ** Segments *)

Definition sregs_from_kvm (s : kvm_sregs) : X86SegmentRegs :=
  SegmentRegs (selector (cs s)) (selector (ss s)) (selector (ds s)) (selector (es s))
    (selector (fs s)) (selector (gs s)).

(** [Sregs::update]: the selectors must fit 16 bits. *)
Definition sregs_update (r : X86SegmentRegs) (s : kvm_sregs) : exec kvm_sregs :=
  c ← unwrap (try_into 16 (seg_cs r));
  st ← unwrap (try_into 16 (seg_ss r));
  d ← unwrap (try_into 16 (seg_ds r));
  e ← unwrap (try_into 16 (seg_es r));
  f ← unwrap (try_into 16 (seg_fs r));
  g ← unwrap (try_into 16 (seg_gs r));
  Ret (KvmSregs (with_selector (cs s) c) (with_selector (ds s) d) (with_selector (es s) e)
         (with_selector (fs s) f) (with_selector (gs s) g) (with_selector (ss s) st)
         (tr s) (ldt s) (gdt s) (idt s) (cr0 s) (cr2 s) (cr3 s) (cr4 s) (cr8 s)
         (efer s) (apic_base s)).

(** ** Floating point *)

Record Fpu := MkFpu {
  st : list (list Z);
  fpu : X87FpuInternalRegs;
  xmm : list Z;
  mxcsr : Z;
}.

Definition fpu_from_kvm (f : kvm_fpu) : Fpu := {|
  st := take 10 <$> fpr f;
  fpu := {| fctrl := fcw f; fstat := fsw f; ftag := ftwx f;
            fiseg := wrap 32 (last_ip f); fioff := wrap 32 (Z.shiftr (last_ip f) 32);
            foseg := wrap 32 (last_dp f); fooff := wrap 32 (Z.shiftr (last_dp f) 32);
            fop := last_opcode f |};
  xmm := le_combine <$> fpu_xmm f;
  mxcsr := fpu_mxcsr f;
|}.

Definition fpu_to_kvm (f : Fpu) : exec kvm_fpu :=
  let fpr := (λ r, r ++ replicate 6 0) <$> st f in
  let last_ip := Z.lor (fiseg (fpu f)) (ushl 64 (fioff (fpu f)) 32) in
  let last_dp := Z.lor (foseg (fpu f)) (ushl 64 (fooff (fpu f)) 32) in
  let xmm := le_split 16 <$> xmm f in
  fcw ← unwrap (try_into 16 (fctrl (fpu f)));
  fsw ← unwrap (try_into 16 (fstat (fpu f)));
  ftwx ← unwrap (try_into 8 (ftag (fpu f)));
  last_opcode ← unwrap (try_into 16 (fop (fpu f)));
  Ret (KvmFpu fpr fcw fsw ftwx 0 last_opcode last_ip last_dp xmm (mxcsr f) 0).

(** ** Reading and writing a vCPU *)

Section Vcpu.
Context `{KvmVcpu C}.

Definition read (vcpu : C) : result Z X86_64CoreRegs :=
  match get_regs vcpu with
  | Err e => Err e
  | Ok r =>
      match get_sregs vcpu with
      | Err e => Err e
      | Ok s =>
          match get_fpu vcpu with
          | Err e => Err e
          | Ok f =>
              let r := regs_from_kvm r in
              let f := fpu_from_kvm f in
              Ok (CoreRegs (regs r) (eflags r) (regs_rip r) (sregs_from_kvm s)
                    (st f) (fpu f) (xmm f) (mxcsr f))
          end
      end
  end.

Definition write (r : X86_64CoreRegs) (vcpu : C) : exec (result Z C) :=
  let kvm_regs := regs_to_kvm (MkRegs (core_regs r) (core_eflags r) (core_rip r)) in
  vcpu ←? Ret (set_regs vcpu kvm_regs);
  kvm_sregs ←? Ret (get_sregs vcpu);
  kvm_sregs ← sregs_update (core_segments r) kvm_sregs;
  vcpu ←? Ret (set_sregs vcpu kvm_sregs);
  kvm_fpu ← fpu_to_kvm (MkFpu (core_st r) (core_fpu r) (core_xmm r) (core_mxcsr r));
  vcpu ←? Ret (set_fpu vcpu kvm_fpu);
  Ret (Ok vcpu).

End Vcpu.

(** ** Well-formed structures: every field has its width *)

Record core_wf (r : X86_64CoreRegs) : Prop := {
  wf_regs : length (core_regs r) = 16%nat;
  wf_eflags : fits 32 (core_eflags r);
  wf_segments : Forall (fits 16) [seg_cs (core_segments r); seg_ss (core_segments r);
    seg_ds (core_segments r); seg_es (core_segments r); seg_fs (core_segments r);
    seg_gs (core_segments r)];
  wf_st : Forall (λ x, length x = 10%nat) (core_st r);
  wf_words : Forall (fits 16) [fctrl (core_fpu r); fstat (core_fpu r); fop (core_fpu r)];
  wf_ftag : fits 8 (ftag (core_fpu r));
  wf_pointers : Forall (fits 32) [fiseg (core_fpu r); fioff (core_fpu r); foseg (core_fpu r);
    fooff (core_fpu r)];
  wf_xmm : Forall (fits 128) (core_xmm r);
}.

Record kvm_wf (r : kvm_regs) (s : kvm_sregs) (f : kvm_fpu) : Prop := {
  kwf_rflags : fits 32 (rflags r);
  kwf_selectors : Forall (fits 16) [selector (cs s); selector (ss s); selector (ds s);
    selector (es s); selector (fs s); selector (gs s)];
  (** The upper six bytes of a register are reserved. *)
  kwf_fpr : Forall (λ x, ∃ y, length y = 10%nat ∧ x = y ++ replicate 6 0) (fpr f);
  kwf_words : Forall (fits 16) [fcw f; fsw f; last_opcode f];
  kwf_ftwx : fits 8 (ftwx f);
  kwf_pointers : Forall (fits 64) [last_ip f; last_dp f];
  kwf_xmm : Forall (λ x, length x = 16%nat ∧ Forall is_byte x) (fpu_xmm f);
  kwf_pad : pad1 f = 0 ∧ pad2 f = 0;
}.

(** ** Round trips of the parts *)

Lemma list_of_16 (l : list Z) :
  length l = 16%nat →
  [l !!! 0; l !!! 1; l !!! 2; l !!! 3; l !!! 4; l !!! 5; l !!! 6; l !!! 7; l !!! 8; l !!! 9;
   l !!! 10; l !!! 11; l !!! 12; l !!! 13; l !!! 14; l !!! 15]%nat = l.
Proof. intros Hl. do 17 (destruct l as [|? l]; [done|]). done. Qed.

Lemma regs_from_to r :
  length (regs r) = 16%nat → fits 32 (eflags r) → regs_from_kvm (regs_to_kvm r) = r.
Proof.
  intros Hl He. destruct r as [l e i]. cbn in *.
  unfold regs_from_kvm, regs_to_kvm. cbn [rax rbx rcx rdx rsi rdi rbp rsp r8 r9 r10 r11 r12 r13
    r14 r15 rflags rip regs eflags regs_rip]. by rewrite list_of_16, wrap_fits.
Qed.

Lemma regs_to_from r : fits 32 (rflags r) → regs_to_kvm (regs_from_kvm r) = r.
Proof.
  intros Hf. destruct r. unfold regs_from_kvm, regs_to_kvm. cbn in *. by rewrite wrap_fits.
Qed.

Lemma try_into_fits w z : fits w z → unwrap (try_into w z) = Ret z.
Proof. intros. unfold try_into. by rewrite decide_True. Qed.

(** Splitting a 64-bit word in halves and joining them. *)
Lemma join_halves z : fits 64 z → Z.lor (wrap 32 z) (ushl 64 (wrap 32 (Z.shiftr z 32)) 32) = z.
Proof.
  intros Hz. unfold ushl. bits; [f_equal; lia|]. by rewrite (testbit_fits 64 z).
Qed.

Lemma split_halves lo hi :
  fits 32 lo → fits 32 hi →
  wrap 32 (Z.lor lo (ushl 64 hi 32)) = lo ∧
  wrap 32 (Z.shiftr (Z.lor lo (ushl 64 hi 32)) 32) = hi.
Proof.
  intros Hl Hh. unfold ushl. split; bits.
  - by rewrite (testbit_fits 32 lo).
  - rewrite (testbit_fits 32 lo) by (done || lia). cbn [orb]. f_equal. lia.
  - by rewrite (testbit_fits 32 hi).
Qed.

Ltac forall_inv :=
  repeat match goal with
  | Hf : Forall _ (_ :: _) |- _ => apply Forall_cons in Hf as [? Hf]
  | Hf : Forall _ [] |- _ => clear Hf
  end.

Lemma fmap_id_on {A} (g : A → A) (P : A → Prop) l :
  Forall P l → (∀ x, P x → g x = x) → g <$> l = l.
Proof. intros Hl Hg. induction Hl; cbn; [done|]. by rewrite Hg, IHHl by done. Qed.

Lemma fpu_to_from f r s :
  kvm_wf r s f → fpu_to_kvm (fpu_from_kvm f) = Ret f.
Proof.
  intros [_ _ Hfpr Hw Ht Hp Hx [Hp1 Hp2]]. forall_inv. unfold fpu_to_kvm.
  cbn [fpu_from_kvm fpu st xmm mxcsr fctrl fstat ftag fop fiseg fioff foseg fooff].
  rewrite !try_into_fits by done. cbn [mbind exec_bind].
  rewrite !join_halves, <- !list_fmap_compose by done.
  rewrite (fmap_id_on _ _ _ Hfpr), (fmap_id_on _ _ _ Hx).
  - rewrite <- Hp1 at 1. rewrite <- Hp2. by destruct f.
  - intros x [Hl Hb]. cbn -[le_split]. rewrite <- Hl. by apply le_split_combine.
  - intros x (y & Hy & ->). cbn. by rewrite take_app_length'.
Qed.

Lemma fpu_from_to r k :
  core_wf r →
  fpu_to_kvm (MkFpu (core_st r) (core_fpu r) (core_xmm r) (core_mxcsr r)) = Ret k →
  fpu_from_kvm k = MkFpu (core_st r) (core_fpu r) (core_xmm r) (core_mxcsr r).
Proof.
  intros [_ _ _ Hst Hw Ht Hp Hx]. forall_inv. unfold fpu_to_kvm. cbn [fpu st xmm mxcsr].
  rewrite !try_into_fits by done. cbn [mbind exec_bind]. intros [= <-].
  unfold fpu_from_kvm. cbn [fpr fcw fsw ftwx last_opcode last_ip last_dp fpu_xmm fpu_mxcsr].
  rewrite <- !list_fmap_compose, (fmap_id_on _ _ _ Hst), (fmap_id_on _ _ _ Hx).
  - destruct (split_halves (fiseg (core_fpu r)) (fioff (core_fpu r))) as [-> ->]; [done..|].
    destruct (split_halves (foseg (core_fpu r)) (fooff (core_fpu r))) as [-> ->]; [done..|].
    by destruct (core_fpu r).
  - intros x Hfx. change (le_combine (le_split 16 x) = x). rewrite le_combine_split.
    by apply wrap_fits.
  - intros x Hlx. cbn. by rewrite take_app_length'.
Qed.

Lemma fpu_to_kvm_ok r :
  core_wf r → ∃ k, fpu_to_kvm (MkFpu (core_st r) (core_fpu r) (core_xmm r) (core_mxcsr r)) = Ret k.
Proof.
  intros [_ _ _ Hst Hw Ht Hp Hx]. forall_inv. unfold fpu_to_kvm. cbn [fpu st xmm mxcsr].
  rewrite !try_into_fits by done. by eexists.
Qed.

Lemma sregs_update_spec r s :
  Forall (fits 16) [seg_cs r; seg_ss r; seg_ds r; seg_es r; seg_fs r; seg_gs r] →
  ∃ s', sregs_update r s = Ret s' ∧ sregs_from_kvm s' = r.
Proof.
  intros Hs. forall_inv. unfold sregs_update. rewrite !try_into_fits by done.
  eexists. split; [done|]. by destruct r.
Qed.

Lemma sregs_update_same s :
  Forall (fits 16) [selector (cs s); selector (ss s); selector (ds s); selector (es s);
    selector (fs s); selector (gs s)] →
  sregs_update (sregs_from_kvm s) s = Ret s.
Proof.
  intros Hs. forall_inv. unfold sregs_update, sregs_from_kvm.
  cbn [seg_cs seg_ss seg_ds seg_es seg_fs seg_gs].
  rewrite !try_into_fits by done. cbn [mbind exec_bind].
  destruct s as [c d e f g t]. by destruct c, d, e, f, g, t.
Qed.

(** ** The vCPU *)

Section RoundTrips.
Context `{KvmVcpu C, !KvmVcpuLaws C}.

Lemma write_inv r vcpu vcpu' :
  write r vcpu = Ret (Ok vcpu') →
  ∃ s s' k, get_sregs vcpu = Ok s ∧ sregs_update (core_segments r) s = Ret s' ∧
    fpu_to_kvm (MkFpu (core_st r) (core_fpu r) (core_xmm r) (core_mxcsr r)) = Ret k ∧
    get_regs vcpu' = Ok (regs_to_kvm (MkRegs (core_regs r) (core_eflags r) (core_rip r))) ∧
    get_sregs vcpu' = Ok s' ∧ get_fpu vcpu' = Ok k.
Proof.
  intros Hw. unfold write in Hw. exec_inv.
  match goal with
  | Hr : set_regs vcpu _ = Ok ?c1, Hg : get_sregs ?c1 = Ok ?s, Hu : sregs_update _ ?s = Ret ?s',
    Hs : set_sregs ?c1 ?s' = Ok ?c2, Hk : fpu_to_kvm _ = Ret ?k,
    Hf : set_fpu ?c2 ?k = Ok vcpu' |- _ =>
      exists s, s', k; split_and!;
      [rewrite <- Hg; symmetry; by eapply sregs_set_regs|done|done| | |by eapply fpu_set_fpu];
      [rewrite (regs_set_fpu _ _ _ Hf), (regs_set_sregs _ _ _ Hs); by eapply regs_set_regs|
       rewrite (sregs_set_fpu _ _ _ Hf); by eapply sregs_set_sregs]
  end.
Qed.

Lemma write_no_panic r vcpu : core_wf r → ∃ res, write r vcpu = Ret res.
Proof.
  intros Hr. destruct (fpu_to_kvm_ok r Hr) as [k Hk]. unfold write, try_bind. cbn [mbind exec_bind].
  destruct (set_regs vcpu _) as [c1|e]; [|by eexists].
  destruct (get_sregs c1) as [s|e]; [|by eexists].
  destruct (sregs_update_spec (core_segments r) s) as (s' & -> & _); [apply Hr|].
  cbn [mbind exec_bind]. destruct (set_sregs c1 s') as [c2|e]; [|by eexists].
  rewrite Hk. cbn [mbind exec_bind]. destruct (set_fpu c2 k); by eexists.
Qed.

(** C28: What the debugger wrote is what it reads back: registers, selectors and
    floating-point state of their widths are written without a panic and,
    unless KVM reports an error, read unchanged. *)
Theorem write_read_roundtrip r vcpu :
  core_wf r →
  ∃ res, write r vcpu = Ret res ∧ ∀ vcpu', res = Ok vcpu' → read vcpu' = Ok r.
Proof.
  intros Hr. destruct (write_no_panic r vcpu Hr) as [res Hw]. exists res. split; [done|].
  intros vcpu' ->. destruct (write_inv _ _ _ Hw) as (s & s' & k & Hs & Hu & Hk & H1 & H2 & H3).
  unfold read. rewrite H1, H2, H3, (fpu_from_to r k Hr Hk), regs_from_to by apply Hr.
  destruct (sregs_update_spec (core_segments r) s) as (s'' & Hu' & Hseg); [apply Hr|].
  assert (s'' = s') as -> by congruence. rewrite Hseg. by destruct r.
Qed.

(** A debugger that only looks leaves the guest alone: writing back what was
    read gives the vCPU the registers it had. *)
Lemma read_write_roundtrip vcpu vcpu' r s f core :
  get_regs vcpu = Ok r → get_sregs vcpu = Ok s → get_fpu vcpu = Ok f → kvm_wf r s f →
  read vcpu = Ok core → write core vcpu = Ret (Ok vcpu') →
  get_regs vcpu' = Ok r ∧ get_sregs vcpu' = Ok s ∧ get_fpu vcpu' = Ok f.
Proof.
  intros H1 H2 H3 Hwf Hread Hw. unfold read in Hread. rewrite H1, H2, H3 in Hread.
  injection Hread as <-.
  destruct (write_inv _ _ _ Hw) as (s0 & s' & k & Hs & Hu & Hk & H1' & H2' & H3').
  cbn [core_regs core_eflags core_rip core_segments core_st core_fpu core_xmm core_mxcsr] in *.
  assert (s0 = s) as -> by congruence.
  rewrite sregs_update_same in Hu by apply Hwf. injection Hu as <-.
  change (fpu_to_kvm (fpu_from_kvm f) = Ret k) in Hk.
  rewrite (fpu_to_from f r s Hwf) in Hk. injection Hk as <-.
  split_and!; [|done|done]. rewrite H1'. f_equal. apply (regs_to_from r), Hwf.
Qed.

End RoundTrips.

(** ** A vCPU that stores what it is given *)
Module Example.
Record vcpu := { v_regs : kvm_regs; v_sregs : kvm_sregs; v_fpu : kvm_fpu }.
#[local] Instance example_vcpu : KvmVcpu vcpu := {|
  get_regs c := Ok (v_regs c);
  set_regs c r := Ok {| v_regs := r; v_sregs := v_sregs c; v_fpu := v_fpu c |};
  get_sregs c := Ok (v_sregs c);
  set_sregs c s := Ok {| v_regs := v_regs c; v_sregs := s; v_fpu := v_fpu c |};
  get_fpu c := Ok (v_fpu c);
  set_fpu c f := Ok {| v_regs := v_regs c; v_sregs := v_sregs c; v_fpu := f |};
|}.
#[local] Instance example_vcpu_laws : KvmVcpuLaws vcpu.
Proof. split; intros c x c' [= <-]; done. Qed.

Definition segment (n : Z) : kvm_segment := KvmSegment 0 0xfffff n 11 1 0 0 1 1 1 0 0.
Definition start : vcpu := {|
  v_regs := KvmRegs 1 2 3 4 5 6 7 8 9 10 11 12 13 14 15 16 0x400010 0x202;
  v_sregs := KvmSregs (segment 8) (segment 16) (segment 16) (segment 16) (segment 16) (segment 16)
    (segment 0) (segment 0) (KvmDtable 0x1000 23) (KvmDtable 0 0) 1 0 0x10000 32 0 0x500 0xfee00000;
  v_fpu := KvmFpu (replicate 8 (replicate 16 0)) 0x37f 0 0 0 0 0x123456789 0
    (replicate 16 (replicate 16 1)) 0x1f80 0 |}.
Definition core : X86_64CoreRegs :=
  match read start with Ok r => r | Err _ => CoreRegs [] 0 0 (SegmentRegs 0 0 0 0 0 0) []
    (FpuInternal 0 0 0 0 0 0 0 0) [] 0 end.

Lemma core_example : core_wf core.
Proof. split; evaluate. Qed.

Lemma write_read_roundtrip_witness :
  ∃ res, write core start = Ret res ∧ ∀ vcpu', res = Ok vcpu' → read vcpu' = Ok core.
Proof. apply write_read_roundtrip. exact core_example. Defined.

Definition after : vcpu := match write core start with Ret (Ok c) => c | _ => start end.

Lemma read_write_roundtrip_example : get_fpu after = Ok (v_fpu start).
Proof.
  apply (read_write_roundtrip start after (v_regs start) (v_sregs start) (v_fpu start) core).
  - reflexivity.
  - reflexivity.
  - reflexivity.
  - split; try evaluate. cbn. repeat (apply Forall_cons; split; [by exists (replicate 10 0)|]).
    apply Forall_nil. exact I.
  - reflexivity.
  - reflexivity.
Qed.
End Example.
