(* ===== verification/LinuxVcpu.v ===== *)
(** * A virtual CPU on Linux (src/linux/vcpu.rs)

    Bringing a vCPU up (CPUID, machine-specific registers, 64-bit mode) and
    [UhyveCPU::continue], the loop that runs the guest and serves its exits:
    hypercalls, the PCI configuration ports and the ports of the network
    device.  The virtio device, which the vCPUs share behind a mutex, guest
    memory and the outside world are part of the state the loop threads; the
    sender of the network channel keeps the list of what was sent. *)

From Stdlib Require Import Strings.String Strings.Ascii.
From S2P Require Import Prelude Memory Consts Paging AddressSpace Hypercalls CommandLine.
From S2P Require Import Virtqueue Virtio KvmVcpu.
Close Scope string_scope.

Definition CPUID_EXT_HYPERVISOR : Z := Z.shiftl 1 31.
Definition CPUID_TSC_DEADLINE : Z := Z.shiftl 1 24.
Definition CPUID_ENABLE_MSR : Z := Z.shiftl 1 5.
Definition MSR_IA32_MISC_ENABLE : Z := 0x000001a0.
Definition PCI_CONFIG_DATA_PORT : Z := 0xCFC.
Definition PCI_CONFIG_ADDRESS_PORT : Z := 0xCF8.

(** libc's [EINTR]. *)
Definition EINTR : Z := 4.

(** A byte string literal. *)
Definition bytes (s : string) : list Z := (λ c, Z.of_N (N_of_ascii c)) <$> list_ascii_of_string s.
Arguments bytes _%_string.

(** ** CPUID *)

(** [copy_nonoverlapping(id.as_ptr(), id_reg_values.as_mut_ptr(), id.len())]:
    the array of registers as its bytes. *)
Definition copy_id (id id_reg_values : list Z) : list Z := id ++ drop (length id) id_reg_values.

(** The [n]-th of the four registers. *)
Definition id_reg (id_reg_values : list Z) (n : nat) : Z :=
  le_combine (take 4 (drop (4 * n) id_reg_values)).

Definition set_id_regs (id_reg_values : list Z) (e : kvm_cpuid_entry2) : kvm_cpuid_entry2 :=
  CpuidEntry (cpuid_function e) (cpuid_index e) (cpuid_flags e)
    (id_reg id_reg_values 0) (id_reg id_reg_values 1)
    (id_reg id_reg_values 2) (id_reg id_reg_values 3).

Definition set_features (e : kvm_cpuid_entry2) : kvm_cpuid_entry2 :=
  CpuidEntry (cpuid_function e) (cpuid_index e) (cpuid_flags e) (cpuid_eax e) (cpuid_ebx e)
    (Z.lor (Z.lor (cpuid_ecx e) CPUID_EXT_HYPERVISOR) CPUID_TSC_DEADLINE)
    (Z.lor (cpuid_edx e) CPUID_ENABLE_MSR).

Definition disable_perfmon (e : kvm_cpuid_entry2) : kvm_cpuid_entry2 :=
  CpuidEntry (cpuid_function e) (cpuid_index e) (cpuid_flags e) 0 (cpuid_ebx e)
    (cpuid_ecx e) (cpuid_edx e).

(** [entries.iter().position(|&r| r.function == f).unwrap()], and the
    assignments to the fields of that entry. *)
Definition update_leaf (f : Z) (g : kvm_cpuid_entry2 → kvm_cpuid_entry2)
    (entries : list kvm_cpuid_entry2) : exec (list kvm_cpuid_entry2) :=
  '(i, _) ← unwrap (list_find (λ r, cpuid_function r = f) entries);
  Ret (alter g i entries).

Definition cpuid_entries (entries : list kvm_cpuid_entry2) : exec (list kvm_cpuid_entry2) :=
  let id_reg_values := copy_id (bytes "uhyve - unikerne") (replicate 16 0) in
  entries ← update_leaf 0x80000002 (set_id_regs id_reg_values) entries;
  let id_reg_values := copy_id (bytes "l hypervisor" ++ [0]) id_reg_values in
  entries ← update_leaf 0x80000003 (set_id_regs id_reg_values) entries;
  entries ← update_leaf 0x80000004 (set_id_regs (replicate 16 0)) entries;
  entries ← update_leaf 1 set_features entries;
  update_leaf 0x0A disable_perfmon entries.

(** ** The x86_64 crate's control-register flags *)
Class X86_64Control := {
  Cr0_PROTECTED_MODE_ENABLE : Z;
  Cr0_EXTENSION_TYPE : Z;
  Cr0_NUMERIC_ERROR : Z;
  Cr0_PAGING : Z;
  Cr4_PHYSICAL_ADDRESS_EXTENSION : Z;
}.

(** The bits the architecture gives them. *)
Class X86_64ControlLaws `{X86_64Control} : Prop := {
  Cr0_PE_bit : Cr0_PROTECTED_MODE_ENABLE = 2 ^ 0;
  Cr0_ET_bit : Cr0_EXTENSION_TYPE = 2 ^ 4;
  Cr0_NE_bit : Cr0_NUMERIC_ERROR = 2 ^ 5;
  Cr0_PG_bit : Cr0_PAGING = 2 ^ 31;
  Cr4_PAE_bit : Cr4_PHYSICAL_ADDRESS_EXTENSION = 2 ^ 5;
}.

Section Setup.
Context `{KvmVcpu C, KvmRun C, X86_64Control}.

Definition setup_cpuid (vcpu : C) : exec (result Z C) :=
  kvm_cpuid ←? Ret kvm_supported_cpuid;
  kvm_cpuid ← cpuid_entries kvm_cpuid;
  Ret (set_cpuid2 vcpu kvm_cpuid).

(** [msr_entries[0].index = ...; msr_entries[0].data = 1]. *)
Definition msr_entries (msr_list : list Z) : exec (list kvm_msr_entry) :=
  match (λ i, MsrEntry i 0) <$> msr_list with
  | [] => Panic
  | _ :: rest => Ret (MsrEntry MSR_IA32_MISC_ENABLE 1 :: rest)
  end.

Definition setup_msrs (vcpu : C) : exec (result Z C) :=
  msr_list ←? Ret kvm_msr_index_list;
  entries ← msr_entries msr_list;
  rust_assert (Z.of_nat (length entries) <=? kvm_max_msr_entries) ;;
  Ret (set_msrs vcpu entries).

Definition code_segment : kvm_segment := {|
  seg_base := 0; seg_limit := 0xffffffff; selector := Z.shiftl 1 3; seg_type := 11;
  present := 1; dpl := 0; db := 0; seg_s := 1; seg_l := 1; seg_g := 1;
  avl := 0; unusable := 0;
|}.

(** [seg] once [type_], [selector] and [l] have been assigned. *)
Definition data_segment : kvm_segment := {|
  seg_base := 0; seg_limit := 0xffffffff; selector := Z.shiftl 2 3; seg_type := 3;
  present := 1; dpl := 0; db := 0; seg_s := 1; seg_l := 0; seg_g := 1;
  avl := 0; unusable := 0;
|}.

Definition long_mode_sregs (s : kvm_sregs) : kvm_sregs := {|
  cs := code_segment; ds := data_segment; es := data_segment; fs := fs s; gs := gs s;
  ss := data_segment; tr := tr s; ldt := ldt s;
  gdt := KvmDtable BOOT_GDT (wrap 16 (8 * BOOT_GDT_MAX - 1)); idt := idt s;
  cr0 := Z.lor (Z.lor (Z.lor Cr0_PROTECTED_MODE_ENABLE Cr0_EXTENSION_TYPE) Cr0_NUMERIC_ERROR)
           Cr0_PAGING;
  cr2 := cr2 s; cr3 := BOOT_PML4; cr4 := Cr4_PHYSICAL_ADDRESS_EXTENSION; cr8 := cr8 s;
  efer := Z.lor (Z.lor EFER_LME EFER_LMA) EFER_NXE; apic_base := apic_base s;
|}.

Definition entry_regs (entry_point : Z) (r : kvm_regs) : kvm_regs := {|
  rax := rax r; rbx := rbx r; rcx := rcx r; rdx := rdx r; rsi := rsi r;
  rdi := BOOT_INFO_ADDR; rsp := rsp r; rbp := rbp r; r8 := r8 r; r9 := r9 r;
  r10 := r10 r; r11 := r11 r; r12 := r12 r; r13 := r13 r; r14 := r14 r; r15 := r15 r;
  rip := entry_point; rflags := 2;
|}.

Definition setup_long_mode (vcpu : C) (entry_point : Z) : exec (result Z C) :=
  sregs ←? Ret (get_sregs vcpu);
  vcpu ←? Ret (set_sregs vcpu (long_mode_sregs sregs));
  regs ←? Ret (get_regs vcpu);
  Ret (set_regs vcpu (entry_regs entry_point regs)).

Definition init (vcpu : C) (entry_point : Z) : exec (result Z C) :=
  vcpu ←? setup_long_mode vcpu entry_point;
  vcpu ←? setup_cpuid vcpu;
  vcpu ←? Ret (set_mp_state vcpu kvm_mp_state_runnable);
  setup_msrs vcpu.

End Setup.

(** ** The run loop *)

(** [mpsc::SyncSender<usize>]: what was sent, and whether the receiver is
    still there. *)
Record SyncSender := Sender { sender_sent : list Z; sender_connected : bool }.

Definition send (tx : SyncSender) (v : Z) : option SyncSender :=
  if sender_connected tx then Some (Sender (sender_sent tx ++ [v]) true) else None.

Record UhyveCPU (C : Type) := Cpu {
  cpu_id : Z;
  cpu_vcpu : C;
  cpu_vm_start : Z;
  cpu_kernel_path : list Z;
  cpu_tx : option SyncSender;
  cpu_pci_addr : option Z;
}.
Arguments Cpu {C} _ _ _ _ _ _.
Arguments cpu_id {C} _.
Arguments cpu_vcpu {C} _.
Arguments cpu_vm_start {C} _.
Arguments cpu_kernel_path {C} _.
Arguments cpu_tx {C} _.
Arguments cpu_pci_addr {C} _.

Inductive VcpuStopReason :=
| Debug (debug : kvm_debug_exit_arch)
| Exit (code : Z)
| Kick.

(** The vCPU with what it works on: guest memory and the host, the device, and
    the packets the device sent. *)
Record vm_state (C W T : Type) := State {
  st_cpu : UhyveCPU C;
  st_host : host W;
  st_device : VirtioNetPciDevice T;
  st_sent : list (list Z);
}.
Arguments State {C W T} _ _ _ _.
Arguments st_cpu {C W T} _.
Arguments st_host {C W T} _.
Arguments st_device {C W T} _.
Arguments st_sent {C W T} _.

(** [*(addr.as_ptr() as *mut u32) = v]. *)
Definition write_raw (n : nat) (addr : list Z) (v : Z) : exec (list Z) :=
  if decide (n ≤ length addr)%nat then Ret (le_split n v ++ drop n addr) else Fault.

(** [UhyveCPU::memory]: the host address of the slice. *)
Definition memory `{Profile} (m : mem) (vm_start start_addr len : Z) : exec Z :=
  phys ← virt_to_phys m vm_start start_addr;
  host ← host_address vm_start phys;
  if decide (valid m host len) then Ret host else Fault.

Section Run.
Context `{Profile, KvmVcpu C, KvmRun C, HostOS W, VirtioNet} {T : Type}.
(** The TAP device, the process's arguments and environment, and bounds on the
    rounds of the loops of [write] and of the transmission. *)
Context (env : tap_env T) (args : list (list Z)) (vars : list (list Z * list Z)).
Context (write_fuel tx_fuel : nat).
Implicit Types s : vm_state C W T.

Definition cpu_new (id : Z) (kernel_path : list Z) (vcpu : C) (vm_start : Z)
    (tx : option SyncSender) : UhyveCPU C :=
  Cpu id vcpu vm_start kernel_path tx None.

Definition with_vcpu (c : C) (s : vm_state C W T) : vm_state C W T :=
  let cpu := st_cpu s in
  State (Cpu (cpu_id cpu) c (cpu_vm_start cpu) (cpu_kernel_path cpu) (cpu_tx cpu)
           (cpu_pci_addr cpu)) (st_host s) (st_device s) (st_sent s).
Definition with_tx (tx : option SyncSender) (s : vm_state C W T) : vm_state C W T :=
  let cpu := st_cpu s in
  State (Cpu (cpu_id cpu) (cpu_vcpu cpu) (cpu_vm_start cpu) (cpu_kernel_path cpu) tx
           (cpu_pci_addr cpu)) (st_host s) (st_device s) (st_sent s).
Definition with_pci_addr (a : Z) (s : vm_state C W T) : vm_state C W T :=
  let cpu := st_cpu s in
  State (Cpu (cpu_id cpu) (cpu_vcpu cpu) (cpu_vm_start cpu) (cpu_kernel_path cpu) (cpu_tx cpu)
           (Some a)) (st_host s) (st_device s) (st_sent s).
Definition with_host (h : host W) (s : vm_state C W T) : vm_state C W T :=
  State (st_cpu s) h (st_device s) (st_sent s).
Definition with_mem (m : mem) (s : vm_state C W T) : vm_state C W T :=
  with_host (Host m (h_os (st_host s))) s.
Definition with_device (d : VirtioNetPciDevice T) (s : vm_state C W T) : vm_state C W T :=
  State (st_cpu s) (st_host s) d (st_sent s).

Definition io_in (s : vm_state C W T) (port : Z) (addr : list Z) : exec (vm_state C W T * list Z) :=
  let d := st_device s in
  if port =? PCI_CONFIG_DATA_PORT then
    addr ← match cpu_pci_addr (st_cpu s) with
           | Some pci_addr =>
               if Z.land pci_addr 0x1ff800 =? 0
               then handle_read d (Z.land pci_addr 0x3ff) (length addr)
               else write_raw 4 addr 0xffffffff
           | None => write_raw 4 addr 0xffffffff
           end;
    Ret (s, addr)
  else if port =? PCI_CONFIG_ADDRESS_PORT then Ret (s, addr)
  else if port =? VIRTIO_PCI_STATUS then
    addr ← read_status d (length addr); Ret (s, addr)
  else if port =? VIRTIO_PCI_HOST_FEATURES then
    addr ← read_host_features addr; Ret (s, addr)
  else if port =? VIRTIO_PCI_GUEST_FEATURES then
    addr ← read_requested_features d addr; Ret (s, addr)
  else if (VIRTIO_PCI_CONFIG_OFF_MSIX_OFF <=? port)
          && (port <=? VIRTIO_PCI_CONFIG_OFF_MSIX_OFF_MAX) then
    addr ← read_mac_byte d addr (port - VIRTIO_PCI_CONFIG_OFF_MSIX_OFF); Ret (s, addr)
  else if port =? VIRTIO_PCI_ISR then Ret (with_device (reset_interrupt d) s, addr)
  else if port =? VIRTIO_PCI_LINK_STATUS_MSIX_OFF then
    addr ← read_link_status d addr; Ret (s, addr)
  else Ret (s, addr).

(** The host address of a hypercall's arguments. *)
Definition data_addr (s : vm_state C W T) (addr : list Z) : exec Z :=
  a ← read_raw 4 addr;
  host_address (cpu_vm_start (st_cpu s)) a.

(** What an exit leads to: the loop goes on, stops, or returns an error. *)
Definition io_outcome : Type := result Z (option VcpuStopReason) * vm_state C W T.
Definition goes_on (s : vm_state C W T) : io_outcome := (Ok None, s).

(** Hypercalls other than [write]. *)
Definition hypercall (s : vm_state C W T) (port : Z) (p : Z) : exec io_outcome :=
  let vm_start := cpu_vm_start (st_cpu s) in
  let kernel_path := cpu_kernel_path (st_cpu s) in
  let h := st_host s in
  let on_host (r : exec (host W)) := h ← r; Ret (goes_on (with_host h s)) in
  let on_mem (r : exec mem) := m ← r; Ret (goes_on (with_mem m s)) in
  if port =? UHYVE_PORT_CMDSIZE then on_mem (cmdsize kernel_path args vars (h_mem h) p)
  else if port =? UHYVE_PORT_CMDVAL then on_mem (cmdval vm_start kernel_path args vars (h_mem h) p)
  else if port =? UHYVE_PORT_EXIT then
    code ← VirtualCPU.exit h p; Ret (Ok (Some (Exit code)), s)
  else if port =? UHYVE_PORT_OPEN then on_host (VirtualCPU.open vm_start h p)
  else if port =? UHYVE_PORT_READ then on_host (VirtualCPU.read vm_start h p)
  else if port =? UHYVE_PORT_UNLINK then on_host (VirtualCPU.unlink vm_start h p)
  else if port =? UHYVE_PORT_LSEEK then on_host (VirtualCPU.lseek h p)
  else on_host (VirtualCPU.close h p).

Definition hypercall_ports : list Z :=
  [UHYVE_PORT_CMDSIZE; UHYVE_PORT_CMDVAL; UHYVE_PORT_EXIT; UHYVE_PORT_OPEN; UHYVE_PORT_READ;
   UHYVE_PORT_UNLINK; UHYVE_PORT_LSEEK; UHYVE_PORT_CLOSE].

(** The configuration ports and the ports of the device. *)
Definition device_out (s : vm_state C W T) (port : Z) (addr : list Z) : exec (vm_state C W T) :=
  let d := st_device s in
  let vm_start := cpu_vm_start (st_cpu s) in
  let on_device (r : exec (VirtioNetPciDevice T)) := d ← r; Ret (with_device d s) in
  if port =? PCI_CONFIG_DATA_PORT then
    match cpu_pci_addr (st_cpu s) with
    | Some pci_addr =>
        if Z.land pci_addr 0x1ff800 =? 0
        then on_device (handle_write d (Z.land pci_addr 0x3ff) addr)
        else Ret s
    | None => Ret s
    end
  else if port =? PCI_CONFIG_ADDRESS_PORT then
    a ← read_raw 4 addr; Ret (with_pci_addr a s)
  else if port =? VIRTIO_PCI_STATUS then on_device (write_status env d addr)
  else if port =? VIRTIO_PCI_GUEST_FEATURES then on_device (write_requested_features d addr)
  else if port =? VIRTIO_PCI_QUEUE_NOTIFY then
    t ← handle_notify_output vm_start tx_fuel (Tx (h_mem (st_host s)) d (st_sent s)) addr;
    Ret (State (st_cpu s) (Host (tx_mem t) (h_os (st_host s))) (tx_device t) (tx_sent t))
  else if port =? VIRTIO_PCI_QUEUE_SEL then on_device (write_selected_queue d addr)
  else if port =? VIRTIO_PCI_QUEUE_PFN then on_device (write_pfn vm_start d addr)
  else Panic.

(** [None] when [write] did not end within [write_fuel] iterations. *)
Definition io_out (s : vm_state C W T) (port : Z) (addr : list Z) : option (exec io_outcome) :=
  if port =? UHYVE_UART_PORT then
    let '(h, r) := VirtualCPU.uart (st_host s) addr in
    let res := match r with Ok _ => Ok None | Err e => Err e end in
    Some (Ret (res, with_host h s))
  else if bool_decide (port ∈ hypercall_ports) then
    Some (p ← data_addr s addr; hypercall s port p)
  else if port =? UHYVE_PORT_NETWRITE then
    Some (match cpu_tx (st_cpu s) with
          | Some tx_channel => tx ← unwrap (send tx_channel 1); Ret (goes_on (with_tx (Some tx) s))
          | None => Ret (goes_on s)
          end)
  else if port =? UHYVE_PORT_WRITE then
    match data_addr s addr with
    | Ret p =>
        r ← VirtualCPU.write (cpu_vm_start (st_cpu s)) write_fuel (st_host s) p;
        Some ('(h, res) ← r;
              let res := match res with Ok _ => Ok None | Err e => Err e end in
              Ret (res, with_host h s))
    | Panic => Some Panic
    | Fault => Some Fault
    end
  else Some (s ← device_out s port addr; Ret (goes_on s)).

(** What [continue] does with the result of [KVM_RUN]. *)
Definition serve_exit (s : vm_state C W T) (r : result Z VcpuExit) : option (exec io_outcome) :=
  match r with
  | Ok ExitHlt => Some (Ret (goes_on s))
  | Ok ExitShutdown => Some (Ret (Ok (Some (Exit 0)), s))
  | Ok (ExitIoIn port addr) =>
      Some ('(s, addr) ← io_in s port addr;
            Ret (goes_on (with_vcpu (vcpu_complete_in (cpu_vcpu (st_cpu s)) addr) s)))
  | Ok (ExitIoOut port addr) => io_out s port addr
  | Ok (ExitDebug debug) => Some (Ret (Ok (Some (Debug debug)), s))
  | Ok ExitInternalError => Some Panic
  | Ok ExitOther => Some Panic
  | Err e => Some (Ret (if e =? EINTR then Ok (Some Kick) else Err e, s))
  end.

(** [None] when the guest has not stopped after [fuel] exits. *)
Fixpoint continue (fuel : nat) (s : vm_state C W T) :
    option (exec (result Z VcpuStopReason * vm_state C W T)) :=
  match fuel with
  | O => None
  | S fuel' =>
      let '(c, m, r) := vcpu_run (cpu_vcpu (st_cpu s)) (h_mem (st_host s)) in
      out ← serve_exit (with_mem m (with_vcpu c s)) r;
      match out with
      | Ret (Ok None, s) => continue fuel' s
      | Ret (Ok (Some reason), s) => Some (Ret (Ok reason, s))
      | Ret (Err e, s) => Some (Ret (Err e, s))
      | Panic => Some Panic
      | Fault => Some Fault
      end
  end.

Definition run (fuel : nat) (s : vm_state C W T) :
    option (exec (result Z (option Z) * vm_state C W T)) :=
  r ← continue fuel s;
  Some ('(reason, s) ← r;
        match reason with
        | Ok (Debug _) => Panic
        | Ok (Exit code) => Ret (Ok (Some code), s)
        | Ok Kick => Ret (Ok None, s)
        | Err e => Ret (Err e, s)
        end).

End Run.

(** ** CPUID leaves *)

(** The leaf the guest reads: the first entry with the function number. *)
Definition leaf (f : Z) (es : list kvm_cpuid_entry2) : option kvm_cpuid_entry2 :=
  snd <$> list_find (λ r, cpuid_function r = f) es.

Lemma leaf_cons f e es :
  leaf f (e :: es) = if decide (cpuid_function e = f) then Some e else leaf f es.
Proof.
  unfold leaf. cbn [list_find]. case_decide; [done|].
  by destruct (list_find _ es) as [[]|].
Qed.

Lemma update_leaf_cons f g e es :
  update_leaf f g (e :: es) =
  if decide (cpuid_function e = f) then Ret (g e :: es)
  else es' ← update_leaf f g es; Ret (e :: es').
Proof.
  unfold update_leaf. cbn [list_find]. case_decide; [done|].
  by destruct (list_find _ es) as [[]|].
Qed.

Lemma update_leaf_missing f g es : leaf f es = None → update_leaf f g es = Panic.
Proof. unfold leaf, update_leaf. by destruct (list_find _ es) as [[]|]. Qed.

Lemma update_leaf_spec f g es e :
  (∀ e, cpuid_function (g e) = cpuid_function e) → leaf f es = Some e →
  ∃ es', update_leaf f g es = Ret es' ∧
    ∀ f', leaf f' es' = if decide (f' = f) then Some (g e) else leaf f' es.
Proof.
  intros Hg. induction es as [|e0 es IH]; [done|].
  rewrite leaf_cons, update_leaf_cons. case_decide as Hf.
  - intros [= ->]. eexists. split; [done|]. intros f'. rewrite !leaf_cons, Hg.
    repeat case_decide; congruence.
  - intros (es' & -> & Hes)%IH. eexists. split; [done|]. intros f'.
    rewrite !leaf_cons, Hes. repeat case_decide; congruence.
Qed.

(** The bytes of a leaf, and the processor brand string: those of the three
    leaves up to the first NUL. *)
Definition leaf_bytes (e : kvm_cpuid_entry2) : list Z :=
  le_split 4 (cpuid_eax e) ++ le_split 4 (cpuid_ebx e) ++
  le_split 4 (cpuid_ecx e) ++ le_split 4 (cpuid_edx e).

Fixpoint until_nul (l : list Z) : list Z :=
  match l with [] => [] | b :: l' => if b =? 0 then [] else b :: until_nul l' end.

Definition brand_string (es : list kvm_cpuid_entry2) : option (list Z) :=
  a ← leaf 0x80000002 es; b ← leaf 0x80000003 es; c ← leaf 0x80000004 es;
  Some (until_nul (leaf_bytes a ++ leaf_bytes b ++ leaf_bytes c)).

(** The leaves uhyve edits. *)
Definition edited : list Z := [0x80000002; 0x80000003; 0x80000004; 1; 0x0A].

(** Edits in sequence: each edited leaf is edited once. *)
Fixpoint edit_of (f : Z) (us : list (Z * (kvm_cpuid_entry2 → kvm_cpuid_entry2))) :
    option (kvm_cpuid_entry2 → kvm_cpuid_entry2) :=
  match us with
  | [] => None
  | u :: us' => if decide (f = u.1) then Some u.2 else edit_of f us'
  end.

Lemma edit_of_None f us : f ∉ us.*1 → edit_of f us = None.
Proof.
  induction us as [|u us IH]; [done|]. cbn [fmap list_fmap edit_of].
  intros [Hne Hni]%not_elem_of_cons. rewrite decide_False by done. by apply IH.
Qed.

Lemma update_leaves_spec us es :
  NoDup us.*1 → Forall (λ u, ∀ e, cpuid_function (u.2 e) = cpuid_function e) us →
  if decide (Forall (λ f, is_Some (leaf f es)) us.*1) then
    ∃ es', for_each (λ u es, update_leaf u.1 u.2 es) us es = Ret es' ∧
      ∀ f, leaf f es' = match edit_of f us with Some g => g <$> leaf f es | None => leaf f es end
  else for_each (λ u es, update_leaf u.1 u.2 es) us es = Panic.
Proof.
  revert es. induction us as [|[f g] us IH]; intros es Hnd Hus.
  { cbn. by eexists. }
  cbn [fmap list_fmap fst] in Hnd. apply NoDup_cons in Hnd as [Hf Hnd].
  apply Forall_cons in Hus as [Hg Hus]. cbn [fmap list_fmap fst snd for_each] in *.
  destruct (leaf f es) as [e|] eqn:He; cycle 1.
  { rewrite update_leaf_missing by done. rewrite decide_False; [done|].
    intros [Hs _]%Forall_cons. rewrite He in Hs. by destruct Hs. }
  destruct (update_leaf_spec f g es e Hg He) as (es1 & -> & H1). cbn [mbind exec_bind].
  specialize (IH es1 Hnd Hus).
  assert (Forall (λ f, is_Some (leaf f es1)) us.*1 ↔
          Forall (λ f, is_Some (leaf f es)) (f :: us.*1)) as Hiff.
  { rewrite Forall_cons, He. split.
    - intros Hall. split; [done|]. eapply Forall_impl; [exact Hall|]. intros f'. cbn beta.
      rewrite H1. destruct (decide (f' = f)) as [->|]; [by rewrite He|done].
    - intros [_ Hall]. eapply Forall_impl; [exact Hall|]. intros f'. cbn beta.
      rewrite H1. by destruct (decide (f' = f)). }
  case_decide as Hd; case_decide as Hd'; try tauto.
  destruct IH as (es' & -> & Hes). eexists. split; [done|]. intros f'. rewrite Hes.
  cbn [edit_of fst snd]. rewrite H1. destruct (decide (f' = f)) as [->|]; [|done].
  by rewrite edit_of_None, He.
Qed.

(** The edits of [setup_cpuid]. *)
Definition edits : list (Z * (kvm_cpuid_entry2 → kvm_cpuid_entry2)) :=
  let id1 := copy_id (bytes "uhyve - unikerne") (replicate 16 0) in
  [(0x80000002, set_id_regs id1);
   (0x80000003, set_id_regs (copy_id (bytes "l hypervisor" ++ [0]) id1));
   (0x80000004, set_id_regs (replicate 16 0));
   (1, set_features);
   (0x0A, disable_perfmon)].

Lemma cpuid_entries_edits es :
  cpuid_entries es = for_each (λ u es, update_leaf u.1 u.2 es) edits es.
Proof.
  unfold cpuid_entries, edits. cbn [for_each fst snd].
  do 4 (destruct (update_leaf _ _ _); cbn [mbind exec_bind]; [|done|done]; clear es;
    rename a into es).
  by destruct (update_leaf _ _ es).
Qed.

(** C40: The guest sees the processor "uhyve - unikernel hypervisor", knows that
    it runs under a hypervisor and may use the TSC deadline timer and
    machine-specific registers, finds no performance counters, and sees KVM's
    values in every other leaf; a host that lacks one of the five leaves
    makes the set-up panic. *)
Theorem cpuid_entries_correct es :
  if decide (Forall (λ f, is_Some (leaf f es)) edited) then
    ∃ es', cpuid_entries es = Ret es' ∧
      brand_string es' = Some (bytes "uhyve - unikernel hypervisor") ∧
      (∀ f, f ∉ edited → leaf f es' = leaf f es) ∧
      (∀ e, leaf 1 es = Some e → ∃ e', leaf 1 es' = Some e' ∧
         cpuid_eax e' = cpuid_eax e ∧ cpuid_ebx e' = cpuid_ebx e ∧
         (∀ i, 0 ≤ i → Z.testbit (cpuid_ecx e') i =
            Z.testbit (cpuid_ecx e) i || bool_decide (i = 31 ∨ i = 24)) ∧
         (∀ i, 0 ≤ i → Z.testbit (cpuid_edx e') i =
            Z.testbit (cpuid_edx e) i || bool_decide (i = 5))) ∧
      (cpuid_eax <$> leaf 0x0A es') = Some 0
  else cpuid_entries es = Panic.
Proof.
  rewrite cpuid_entries_edits.
  pose proof (update_leaves_spec edits es) as Hs. change edits.*1 with edited in Hs.
  specialize (Hs ltac:(evaluate) ltac:(repeat constructor)).
  case_decide as Hall; [|exact Hs].
  destruct Hs as (es' & -> & Hes). exists es'. split; [done|].
  unfold edited in Hall. rewrite !Forall_cons in Hall.
  destruct Hall as ([e2 H2] & [e3 H3] & [e4 H4] & [e1 H1] & [ea Ha] & _).
  unfold brand_string. rewrite !Hes. cbn [edits edit_of fst snd].
  repeat (rewrite decide_True by done || rewrite decide_False by done).
  rewrite H2, H3, H4, H1, Ha. cbn [fmap option_fmap option_map mbind option_bind].
  split_and!; [reflexivity| | |done].
  - intros f Hf. rewrite Hes, edit_of_None; [done|exact Hf].
  - intros e [= <-]. eexists. split; [done|]. cbn [set_features cpuid_eax cpuid_ebx cpuid_ecx cpuid_edx].
    unfold CPUID_EXT_HYPERVISOR, CPUID_TSC_DEADLINE, CPUID_ENABLE_MSR.
    split_and!; try done; intros i Hi; rewrite !Z.lor_spec, !Z.shiftl_1_l, !testbit_pow2 by lia;
      rewrite <- ?orb_assoc; f_equal; repeat case_bool_decide; try done; lia.
Qed.

(** ** The state a vCPU starts in *)

(** 64-bit mode, as the architecture defines it: protection and paging on with
    physical-address extension, long mode enabled and active, a 64-bit code
    segment. *)
Definition in_long_mode (s : kvm_sregs) : Prop :=
  Z.testbit (cr0 s) 0 = true ∧ Z.testbit (cr0 s) 31 = true ∧ Z.testbit (cr4 s) 5 = true ∧
  Z.testbit (efer s) 8 = true ∧ Z.testbit (efer s) 10 = true ∧
  seg_l (cs s) = 1 ∧ db (cs s) = 0.

(** What the processor caches for a segment whose descriptor is [e]; [bit] is
    one bit of it. *)
Definition bit (e i : Z) : Z := Z.b2z (Z.testbit e i).
Definition segment_of (sel e : Z) : kvm_segment := {|
  seg_base := gdt_base e;
  seg_limit := if Z.testbit e 55 then gdt_limit e * 4096 + 4095 else gdt_limit e;
  selector := sel;
  seg_type := Z.land (Z.shiftr e 40) 15;
  present := bit e 47; dpl := Z.land (Z.shiftr e 45) 3; db := bit e 54; seg_s := bit e 44;
  seg_l := bit e 53; seg_g := bit e 55; avl := bit e 52; unusable := 0;
|}.

(** The descriptor a selector names in the table the processor uses. *)
Definition descriptor (m : mem) (s : kvm_sregs) (sel : Z) : exec Z :=
  if decide (sel + 7 ≤ dt_limit (gdt s)) then load 8 m (mem_base m + dt_base (gdt s) + sel)
  else Fault.

Definition with_db (d : Z) (s : kvm_segment) : kvm_segment :=
  KvmSegment (seg_base s) (seg_limit s) (selector s) (seg_type s) (present s) (dpl s) d
    (seg_s s) (seg_l s) (seg_g s) (avl s) (unusable s).

Section Init.
Context `{Profile, KvmVcpuLaws C} `{!KvmRun C} `{!KvmRunLaws C} `{X86_64ControlLaws}.

Lemma msr_entries_spec i rest :
  msr_entries (i :: rest) = Ret (MsrEntry MSR_IA32_MISC_ENABLE 1 :: ((λ i, MsrEntry i 0) <$> rest)).
Proof. done. Qed.

Lemma long_mode_sregs_correct s : in_long_mode (long_mode_sregs s).
Proof.
  unfold in_long_mode. cbn [long_mode_sregs cr0 cr4 efer cs].
  rewrite Cr0_PE_bit, Cr0_ET_bit, Cr0_NE_bit, Cr0_PG_bit, Cr4_PAE_bit. split_and!; done.
Qed.

(** A KVM that carries out whatever it is asked for. *)
Record kvm_accepts : Prop := {
  acc_get_sregs c : is_ok (get_sregs c);
  acc_set_sregs c s : is_ok (set_sregs c s);
  acc_get_regs c : is_ok (get_regs c);
  acc_set_regs c r : is_ok (set_regs c r);
  acc_set_cpuid2 c l : is_ok (set_cpuid2 c l);
  acc_set_mp_state c n : is_ok (set_mp_state c n);
  acc_set_msrs c l : is_ok (set_msrs c l);
}.

(** A vCPU for which [P] holds, unless KVM refused something. *)
Definition unless_refused (res : result Z C) (P : C → Prop) : Prop :=
  match res with Ok vcpu => P vcpu | Err _ => ¬ kvm_accepts end.

Lemma unless_refused_intro res P :
  (kvm_accepts → is_ok res) → (∀ vcpu, res = Ok vcpu → P vcpu) → unless_refused res P.
Proof. intros Hok HP. destruct res; [by apply HP|]. intros Ha. by destruct (Hok Ha). Qed.

Lemma refused {A} (r : result Z A) e : r = Err e → (kvm_accepts → is_ok r) → ¬ kvm_accepts.
Proof. intros -> Hok Ha. by destruct (Hok Ha). Qed.

Lemma setup_long_mode_spec vcpu entry_point :
  ∃ res, setup_long_mode vcpu entry_point = Ret res ∧ unless_refused res (λ vcpu',
    ∃ s r, get_sregs vcpu' = Ok (long_mode_sregs s) ∧ get_regs vcpu' = Ok (entry_regs entry_point r)).
Proof.
  unfold setup_long_mode, try_bind. cbn [mbind exec_bind].
  destruct (get_sregs vcpu) as [s|] eqn:Hc0;
    [|eexists; split; [done|]; eapply refused; [done|auto using acc_get_sregs]].
  destruct (set_sregs vcpu _) as [c1|] eqn:Hc1;
    [|eexists; split; [done|]; eapply refused; [done|auto using acc_set_sregs]].
  destruct (get_regs c1) as [r|] eqn:Hr;
    [|eexists; split; [done|]; eapply refused; [done|auto using acc_get_regs]].
  eexists. split; [done|]. apply unless_refused_intro; [auto using acc_set_regs|].
  intros vcpu' Hc2. exists s, r. split.
  - rewrite (sregs_set_regs _ _ _ Hc2). by eapply sregs_set_sregs.
  - by eapply regs_set_regs.
Qed.

(** What [init] needs of KVM: the CPUID leaves it edits, and a list of
    machine-specific registers to clear that fits and does not hold those of
    [kvm_sregs]. *)
Record kvm_supports (leaves : list kvm_cpuid_entry2) (i : Z) (rest : list Z) : Prop := {
  sup_cpuid : kvm_supported_cpuid = Ok leaves;
  sup_leaves : Forall (λ f, is_Some (leaf f leaves)) edited;
  sup_msrs : kvm_msr_index_list = Ok (i :: rest);
  sup_len : Z.of_nat (length (i :: rest)) ≤ kvm_max_msr_entries;
  sup_plain : Forall (λ i, i ∉ sregs_msrs) rest;
}.

Lemma setup_cpuid_spec leaves i rest vcpu :
  kvm_supports leaves i rest →
  ∃ res, setup_cpuid vcpu = Ret res ∧ unless_refused res (λ vcpu',
    get_sregs vcpu' = get_sregs vcpu ∧ get_regs vcpu' = get_regs vcpu).
Proof.
  intros [Hes Hleaves _ _ _]. unfold setup_cpuid, try_bind. rewrite Hes. cbn [mbind exec_bind].
  rewrite cpuid_entries_edits. pose proof (update_leaves_spec edits leaves) as Hs.
  specialize (Hs ltac:(evaluate) ltac:(repeat constructor)).
  rewrite decide_True in Hs by exact Hleaves. destruct Hs as (leavleaves' & -> & _).
  eexists. split; [done|]. apply unless_refused_intro; [auto using acc_set_cpuid2|]. intros vcpu' Hc.
  split; [by eapply sregs_set_cpuid2|by eapply regs_set_cpuid2].
Qed.

Lemma setup_msrs_spec leaves i rest vcpu :
  kvm_supports leaves i rest →
  ∃ res, setup_msrs vcpu = Ret res ∧ unless_refused res (λ vcpu',
    get_sregs vcpu' = get_sregs vcpu ∧ get_regs vcpu' = get_regs vcpu).
Proof.
  intros [_ _ Hmsrs Hlen Hplain]. unfold setup_msrs, try_bind. rewrite Hmsrs.
  cbn [mbind exec_bind]. rewrite msr_entries_spec. cbn [mbind exec_bind].
  unfold rust_assert. cbn [length] in *. rewrite length_fmap, (proj2 (Z.leb_le _ _)) by done.
  cbn [mbind exec_bind]. eexists. split; [done|].
  apply unless_refused_intro; [auto using acc_set_msrs|]. intros vcpu' Hc.
  split; [|by eapply regs_set_msrs].
  eapply sregs_set_msrs; [exact Hc|]. constructor.
  - evaluate.
  - apply Forall_fmap. exact Hplain.
Qed.

Lemma init_spec leaves i rest vcpu entry_point :
  kvm_supports leaves i rest →
  ∃ res, init vcpu entry_point = Ret res ∧ unless_refused res (λ vcpu',
    ∃ s r, get_sregs vcpu' = Ok (long_mode_sregs s) ∧ get_regs vcpu' = Ok (entry_regs entry_point r)).
Proof.
  intros Hsup.
  destruct (setup_long_mode_spec vcpu entry_point) as (r1 & Hc1 & Hl).
  unfold init, try_bind. rewrite Hc1. cbn [mbind exec_bind].
  destruct r1 as [c1|]; [|by eexists]. destruct Hl as (s & r & Hsregs & Hregs).
  destruct (setup_cpuid_spec leaves i rest c1 Hsup) as (r2 & Hc2 & Hc). rewrite Hc2.
  cbn [mbind exec_bind]. destruct r2 as [c2|]; [|by eexists].
  destruct Hc as [Hs2 Hr2].
  destruct (set_mp_state c2 _) as [c3|] eqn:Hc3;
    [|eexists; split; [done|]; eapply refused; [done|auto using acc_set_mp_state]].
  destruct (setup_msrs_spec leaves i rest c3 Hsup) as (r4 & -> & Hm).
  eexists. split; [done|]. destruct r4 as [vcpu'|]; [|exact Hm]. destruct Hm as [Hs4 Hr4].
  exists s, r.
  by rewrite Hs4, Hr4, (sregs_set_mp_state _ _ _ Hc3), (regs_set_mp_state _ _ _ Hc3), Hs2, Hr2.
Qed.

(** A vCPU comes up ready for the kernel: [init] does not panic on a KVM
    with the leaves it edits and, unless KVM refuses a request, leaves the
    processor in 64-bit mode on the boot page tables, which map the first GiB
    onto itself, at the entry point with the boot information's address in
    RDI; the code segment is what the boot GDT describes, and so are the data
    segments but for the D/B bit, which 64-bit mode ignores for them. *)
Lemma init_correct leaves i rest vcpu entry_point m0 m :
  kvm_supports leaves i rest → mem_wf m0 → 0x13000 ≤ mem_size m0 → init_guest_mem m0 = Ret m →
  ∃ res, init vcpu entry_point = Ret res ∧ unless_refused res (λ vcpu',
    ∃ s r, get_sregs vcpu' = Ok s ∧ get_regs vcpu' = Ok r ∧
      in_long_mode s ∧
      (∀ va, 0 ≤ va < 2 ^ 30 → ∃ path, x86_walk m 3 (cr3 s) va path va) ∧
      rip r = entry_point ∧ rdi r = BOOT_INFO_ADDR ∧ rflags r = 2 ∧
      (segment_of (selector (cs s)) <$> descriptor m s (selector (cs s))) = Ret (cs s) ∧
      Forall (λ seg, (segment_of (selector seg) <$> descriptor m s (selector seg)) =
                     Ret (with_db 1 seg)) [ds s; es s; ss s]).
Proof.
  intros Hsup Hwf Hsz Hinit.
  destruct (init_guest_mem_spec m0 Hwf Hsz)
    as (m1 & Hm & Hwf1 & Hb & Hs & Hbt & _ & Hcode & Hdata & _).
  assert (m1 = m) as -> by congruence. clear Hm.
  destruct (init_spec leaves i rest vcpu entry_point Hsup) as (res & -> & Hres).
  exists res. split; [done|]. destruct res as [vcpu'|]; [|exact Hres].
  destruct Hres as (s & r & Hsregs & Hregs). cbn [unless_refused].
  exists (long_mode_sregs s), (entry_regs entry_point r).
  split_and!; try done.
  - apply long_mode_sregs_correct.
  - intros va Hva. eexists. apply boot_walk; [done|lia|done].
  - unfold descriptor. cbn [long_mode_sregs cs code_segment selector gdt dt_base dt_limit].
    rewrite decide_True by done. rewrite Hb. change (Z.shiftl 1 3) with 8. by rewrite Hcode.
  - repeat constructor; unfold descriptor;
      cbn [long_mode_sregs ds es ss data_segment selector gdt dt_base dt_limit];
      (rewrite decide_True by done); rewrite Hb; change (Z.shiftl 2 3) with 16; by rewrite Hdata.
Qed.

End Init.
