(* ===== verification/VcpuLoop.v ===== *)
(** * The run loop of a virtual CPU: what it serves and what it keeps

    Theorems about [continue] and [run] (LinuxVcpu.v): whatever the guest does,
    the hypervisor's own state stays well formed; a guest that makes requests
    as the hypercall interface documents them has them served in order, up to
    its exit; and the PCI configuration ports give access to the device's
    configuration space. *)

From S2P Require Import Prelude Memory Consts Paging AddressSpace Hypercalls CommandLine.
From S2P Require Import Virtqueue Virtio KvmVcpu LinuxVcpu.

(** ** Handlers keep the mapping where it is *)

Lemma map_of_handler {W} `{Profile, HostOS W} vm_start (h h' : host W) p :
  VirtualCPU.open vm_start h p = Ret h' ∨ VirtualCPU.read vm_start h p = Ret h' ∨
  VirtualCPU.unlink vm_start h p = Ret h' ∨ VirtualCPU.lseek h p = Ret h' ∨
  VirtualCPU.close h p = Ret h' →
  same_map (h_mem h) (h_mem h').
Proof.
  unfold VirtualCPU.open, VirtualCPU.read, VirtualCPU.unlink, VirtualCPU.lseek, VirtualCPU.close.
  intros [Hr|[Hr|[Hr|[Hr|Hr]]]]; exec_inv;
    match type of Hr with context [let '(_, _) := ?e in _] => destruct e as [[]] || destruct e end;
    exec_inv; cbn [h_mem]; try (by eapply store_map).
  repeat match goal with Hs : store_bytes _ _ _ = Ret _ |- _ => apply store_bytes_map in Hs end.
  destruct (_ <=? _); by etrans; [|eapply store_map].
Qed.

Lemma scan_map `{Profile} body l s s' :
  (∀ i a m m', body i a m = Ret m' → same_map m m') →
  for_each (scan_argument body) l s = Ret s' → same_map (scan_mem s) (scan_mem s').
Proof.
  intros Hbody Hl. eapply (for_each_preserves (λ s', same_map (scan_mem s) (scan_mem s')));
    [done| |exact Hl].
  intros a s1 s2 Hs Hf. etrans; [exact Hs|]. unfold scan_argument in Hf. exec_inv.
  match goal with Hp : (if _ then _ else _) = Ret ?p |- _ => destruct p as [pos found] end.
  exec_inv. cbn [scan_mem]. destruct (found && _); exec_inv; [by eapply Hbody|done].
Qed.

(** The loops over the environment: each round keeps the mapping. *)
Lemma env_map {A} (body : A → Z * mem → exec (Z * mem)) (l : list A) c m c' m' :
  (∀ a c m c' m', body a (c, m) = Ret (c', m') → same_map m m') →
  for_each body l (c, m) = Ret (c', m') → same_map m m'.
Proof.
  intros Hbody Hl.
  eapply (for_each_preserves (λ s', same_map m s'.2)) in Hl; [exact Hl|done|].
  intros a [c1 m1] [c2 m2] Hs Hf. etrans; [exact Hs|]. by eapply Hbody.
Qed.

Lemma cmdsize_map `{Profile} path args vars m p m' :
  cmdsize path args vars m p = Ret m' → same_map m m'.
Proof.
  intros Hc. unfold cmdsize in Hc. exec_inv.
  match goal with Hp : for_each _ vars _ = Ret ?p |- _ => destruct p as [c m5]; rename Hp into Henv end.
  match goal with Hp : for_each _ args _ = Ret _ |- _ => rename Hp into Hscan end.
  apply scan_map in Hscan; cycle 1.
  { intros i a m1 m2 Hb. exec_inv. map_chain. }
  apply env_map in Henv; cycle 1.
  { intros [k v] c1 m1 c2 m2 Hb. destruct (_ <? _); exec_inv; map_chain. }
  cbn [scan_mem] in *. map_chain.
Qed.

Lemma copy_string_map `{Profile} vm_start array i bs m m' :
  copy_string vm_start array i bs m = Ret m' → same_map m m'.
Proof. intros Hc. unfold copy_string in Hc. exec_inv. map_chain. Qed.

Lemma cmdval_map `{Profile} vm_start path args vars m p m' :
  cmdval vm_start path args vars m p = Ret m' → same_map m m'.
Proof.
  intros Hc. unfold cmdval in Hc. exec_inv.
  match goal with Hp : for_each _ vars _ = Ret ?p |- _ => destruct p as [c m5]; rename Hp into Henv end.
  match goal with Hp : for_each _ args _ = Ret _ |- _ => rename Hp into Hscan end.
  apply scan_map in Hscan; cycle 1.
  { intros i a m1 m2. apply copy_string_map. }
  apply env_map in Henv; cycle 1.
  { intros [k v] c1 m1 c2 m2 Hb. destruct (_ <? _); exec_inv; [by eapply copy_string_map|done]. }
  match goal with Hp : copy_string _ _ _ _ _ = Ret _ |- _ => apply copy_string_map in Hp end.
  cbn [scan_mem] in *. exec_inv. map_chain.
Qed.

Lemma write_loop_host `{Profile, HostOS W} vm_start fuel (h h' : host W) p r :
  VirtualCPU.write vm_start fuel h p = Some (Ret (h', r)) → h_mem h' = h_mem h.
Proof.
  unfold VirtualCPU.write. intros Hw.
  match type of Hw with match ?e with _ => _ end = _ => destruct e as [[[fd b] len]| |] end;
    [|done|done].
  destruct (VirtualCPU.write_loop _ _ _ _ _ _ _ _) as [[[w res]| |]|]; cbn in Hw; try done.
  by injection Hw as <- _.
Qed.

(** ** Whatever the guest does *)

Section Invariant.
Context `{Profile, KvmVcpu C} `{!KvmRun C, !KvmRunLaws C} `{HostOS W, VirtioNet} {T : Type}.
Context (env : tap_env T) (args : list (list Z)) (vars : list (list Z * list Z)).
Context (write_fuel tx_fuel : nat).
Implicit Types s : vm_state C W T.

(** [s'] has a well-formed device, and the mapping and the parameters of the
    vCPU that [s] has. *)
Record vm_wf (s s' : vm_state C W T) : Prop := {
  vm_device : device_wf (st_device s');
  vm_map : same_map (h_mem (st_host s)) (h_mem (st_host s'));
  vm_id : cpu_id (st_cpu s') = cpu_id (st_cpu s);
  vm_start : cpu_vm_start (st_cpu s') = cpu_vm_start (st_cpu s);
  vm_path : cpu_kernel_path (st_cpu s') = cpu_kernel_path (st_cpu s);
}.

Lemma vm_wf_trans s1 s2 s3 : vm_wf s1 s2 → vm_wf s2 s3 → vm_wf s1 s3.
Proof. intros [] []. split; [done|by etrans|congruence..]. Qed.

Lemma vm_wf_host s h :
  device_wf (st_device s) → same_map (h_mem (st_host s)) (h_mem h) → vm_wf s (with_host h s).
Proof. by split. Qed.

Lemma vm_wf_device s d : device_wf d → vm_wf s (with_device d s).
Proof. by split. Qed.

Lemma io_in_wf s port addr s' addr' :
  device_wf (st_device s) → io_in s port addr = Ret (s', addr') → vm_wf s s'.
Proof.
  intros Hd Hio. unfold io_in in Hio.
  repeat match type of Hio with (if ?b then _ else _) = _ => destruct b end; exec_inv;
    repeat match goal with Hp : (_, _) = (_, _) |- _ => injection Hp as -> -> end;
    by split.
Qed.

Lemma hypercall_wf s port p r s' :
  device_wf (st_device s) → hypercall args vars s port p = Ret (r, s') → vm_wf s s'.
Proof.
  intros Hd Hc. unfold hypercall, goes_on in Hc.
  repeat match type of Hc with (if ?b then _ else _) = _ => destruct b end;
    match type of Hc with mbind _ ?e = _ => destruct e eqn:He end; try done; cbn in Hc;
    injection Hc as <- <-; try (apply vm_wf_host; [done|]).
  1: by eapply cmdsize_map.
  1: by eapply cmdval_map.
  1: by split.
  all: eapply (map_of_handler (cpu_vm_start (st_cpu s))); eauto 10.
Qed.

Lemma device_out_wf s port addr s' :
  device_wf (st_device s) → device_out env tx_fuel s port addr = Ret s' → vm_wf s s'.
Proof.
  intros Hd Hc. unfold device_out in Hc.
  repeat match type of Hc with
  | (if ?b then _ else _) = _ => destruct b
  | match ?e with _ => _ end = _ => destruct e
  end; exec_inv; try done; try (by split); try (apply vm_wf_device).
  - eapply handle_write_wf; [|done..]. apply Z.land_nonneg. by right.
  - by eapply write_status_wf.
  - by eapply write_features_wf.
  - match goal with Hn : handle_notify_output _ _ _ _ = Ret _ |- _ =>
      apply notify_wf in Hn as [??]; [|done] end. by split.
  - match goal with Hn : write_selected_queue _ _ = Ret _ |- _ =>
      unfold write_selected_queue in Hn end. exec_inv. destruct Hd. by split.
  - by eapply write_pfn_wf.
Qed.

Lemma io_out_wf s port addr r s' :
  device_wf (st_device s) →
  io_out env args vars write_fuel tx_fuel s port addr = Some (Ret (r, s')) → vm_wf s s'.
Proof.
  intros Hd Hc. unfold io_out in Hc.
  destruct (port =? UHYVE_UART_PORT).
  { unfold VirtualCPU.uart in Hc. destruct (os_stdout_write_all _ _) as [w res].
    injection Hc as _ <-. by apply vm_wf_host. }
  destruct (bool_decide _).
  { injection Hc as Hc. exec_inv. by eapply hypercall_wf. }
  destruct (port =? UHYVE_PORT_NETWRITE).
  { injection Hc as Hc. unfold send in Hc. destruct (cpu_tx (st_cpu s)) as [[sent []]|]; try done;
      cbn in Hc; injection Hc as <- <-; by split. }
  destruct (port =? UHYVE_PORT_WRITE).
  { destruct (data_addr s addr) as [p| |]; [|done|done].
    destruct (VirtualCPU.write _ _ _ _) as [[[h res]| |]|] eqn:Hw; cbn in Hc; try done.
    injection Hc as _ <-. apply vm_wf_host; [done|].
    by rewrite (write_loop_host _ _ _ _ _ _ Hw). }
  destruct (device_out _ _ s port addr) as [s1| |] eqn:Hout; cbn in Hc; try done.
  injection Hc as <- <-. by eapply device_out_wf.
Qed.

Lemma vm_wf_refl s : device_wf (st_device s) → vm_wf s s.
Proof. by split. Qed.

(** [KVM_RUN] itself. *)
Lemma vcpu_run_wf s c m x :
  device_wf (st_device s) → vcpu_run (cpu_vcpu (st_cpu s)) (h_mem (st_host s)) = (c, m, x) →
  vm_wf s (with_mem m (with_vcpu c s)).
Proof.
  intros Hd Hrun. split; try done. split; [by eapply run_mem_base|by eapply run_mem_size].
Qed.

Lemma serve_exit_wf s x r s' :
  device_wf (st_device s) →
  serve_exit env args vars write_fuel tx_fuel s x = Some (Ret (r, s')) → vm_wf s s'.
Proof.
  intros Hd Hc. pose proof (vm_wf_refl s Hd) as Hrefl.
  destruct x as [[| |port addr|port addr|dbg| |]|e]; cbn [serve_exit] in Hc; try done;
    try (injection Hc as _ <-; exact Hrefl).
  - destruct (io_in s port addr) as [[s1 addr1]| |] eqn:Hin; cbn in Hc; [|done|done].
    injection Hc as _ <-. apply io_in_wf in Hin; [|done]. destruct Hin. by split.
  - by eapply io_out_wf.
Qed.

(** How a guest exits: through the exit port, with the physical address of a
    [SysExit] that holds its code, or by a shutdown, which counts as the code
    0. *)
Inductive guest_exits (vm_start : Z) (m : mem) : VcpuExit → Z → Prop :=
| exits_port data a p code :
    read_raw 4 data = Ret a → host_address vm_start a = Ret p →
    load_i32 m (p + SysExit.arg) = Ret code →
    guest_exits vm_start m (ExitIoOut UHYVE_PORT_EXIT data) code
| exits_shutdown : guest_exits vm_start m ExitShutdown 0.

Lemma hypercall_code s port p code s' :
  hypercall args vars s port p = Ret (Ok (Some (Exit code)), s') ↔
  port = UHYVE_PORT_EXIT ∧ load_i32 (h_mem (st_host s)) (p + SysExit.arg) = Ret code ∧ s' = s.
Proof.
  split.
  - unfold hypercall. intros Hc.
    repeat match type of Hc with (if ?b then _ else _) = _ => destruct b eqn:? end;
      exec_inv; try done. split; [by apply Z.eqb_eq|done].
  - intros (-> & Hcode & ->). unfold hypercall.
    change (UHYVE_PORT_EXIT =? UHYVE_PORT_CMDSIZE) with false.
    change (UHYVE_PORT_EXIT =? UHYVE_PORT_CMDVAL) with false.
    change (UHYVE_PORT_EXIT =? UHYVE_PORT_EXIT) with true. cbv match.
    unfold VirtualCPU.exit. by rewrite Hcode.
Qed.

(** The service of an exit stops a vCPU with a code exactly when the guest
    exits with it. *)
Lemma serve_exit_code s x code s' :
  serve_exit env args vars write_fuel tx_fuel s x = Some (Ret (Ok (Some (Exit code)), s')) ↔
  ∃ x', x = Ok x' ∧ guest_exits (cpu_vm_start (st_cpu s)) (h_mem (st_host s)) x' code ∧ s' = s.
Proof.
  split.
  - intros Hc. destruct x as [[| |port addr|port addr|dbg| |]|e]; cbn [serve_exit] in Hc; try done.
    + injection Hc as <- <-. eexists. split_and!; [done|constructor|done].
    + destruct (io_in s port addr) as [[s1 addr1]| |]; done.
    + unfold io_out in Hc. destruct (port =? UHYVE_UART_PORT).
      { unfold VirtualCPU.uart in Hc. destruct (os_stdout_write_all _ _) as [w []]; done. }
      destruct (bool_decide _).
      { injection Hc as Hc. unfold data_addr in Hc. exec_inv.
        match goal with Hh : hypercall _ _ _ _ _ = _ |- _ =>
          apply hypercall_code in Hh as (-> & Hcode & ->) end.
        eexists. split_and!; [done|by econstructor|done]. }
      destruct (port =? UHYVE_PORT_NETWRITE).
      { by destruct (cpu_tx (st_cpu s)) as [[sent []]|]. }
      destruct (port =? UHYVE_PORT_WRITE).
      { destruct (data_addr s addr) as [p| |]; [|done|done].
        destruct (VirtualCPU.write _ _ _ _) as [[[h []]| |]|]; done. }
      by destruct (device_out _ _ s port addr).
    + destruct (e =? EINTR); done.
  - intros (x' & -> & Hx & ->). destruct Hx as [data a p code Hdata Ha Hcode|]; [|done].
    cbn [serve_exit]. unfold io_out.
    change (_ =? UHYVE_UART_PORT) with false.
    change (bool_decide (UHYVE_PORT_EXIT ∈ hypercall_ports)) with true. cbv match.
    unfold data_addr. rewrite Hdata. cbn [mbind exec_bind]. rewrite Ha. cbn [mbind exec_bind].
    f_equal. by apply hypercall_code.
Qed.

(** The vCPU has come back from [KVM_RUN] with an exit of the guest with
    [code]. *)
Definition left_guest (s : vm_state C W T) (code : Z) : Prop :=
  ∃ c0 m0 x, vcpu_run c0 m0 = (cpu_vcpu (st_cpu s), h_mem (st_host s), Ok x) ∧
    guest_exits (cpu_vm_start (st_cpu s)) (h_mem (st_host s)) x code.

Lemma continue_code fuel s code s' :
  continue env args vars write_fuel tx_fuel fuel s = Some (Ret (Ok (Exit code), s')) →
  left_guest s' code.
Proof.
  revert s. induction fuel as [|fuel IH]; intros s Hc; [done|]. cbn [continue] in Hc.
  destruct (vcpu_run _ _) as [[c m] x] eqn:Hrun.
  destruct (serve_exit _ _ _ _ _ _ x) as [[[[[reason|]|e] s2]| |]|] eqn:Hout; cbn in Hc; try done;
    [|by eapply IH]. injection Hc as -> ->.
  apply serve_exit_code in Hout as (x' & -> & Hx & ->). by eexists _, _, x'.
Qed.

Lemma continue_wf fuel s r s' :
  device_wf (st_device s) →
  continue env args vars write_fuel tx_fuel fuel s = Some (Ret (r, s')) → vm_wf s s'.
Proof.
  revert s. induction fuel as [|fuel IH]; intros s Hd Hc; [done|]. cbn [continue] in Hc.
  destruct (vcpu_run _ _) as [[c m] x] eqn:Hrun.
  pose proof (vcpu_run_wf _ _ _ _ Hd Hrun) as Hs1. eapply vm_wf_trans; [exact Hs1|].
  destruct (serve_exit _ _ _ _ _ _ x) as [[[[[reason|]|e] s2]| |]|] eqn:Hout; cbn in Hc; try done;
    apply serve_exit_wf in Hout; try apply Hs1; try (by injection Hc as _ <-).
  eapply vm_wf_trans; [exact Hout|]. apply IH; [apply Hout|done].
Qed.

(** Whatever the guest does, through any number of exits: when [run]
    returns, the device has its 64 registers, only features the host offers
    and queues of 256 entries, guest memory is the same mapping, and the
    vCPU still translates with the start of guest memory it was created
    with. *)
Lemma run_keeps_wf fuel s r s' :
  device_wf (st_device s) →
  run env args vars write_fuel tx_fuel fuel s = Some (Ret (r, s')) → vm_wf s s'.
Proof.
  intros Hd Hr. unfold run in Hr.
  destruct (continue _ _ _ _ _ _ s) as [[[reason s1]| |]|] eqn:Hc; cbn in Hr; try done.
  assert (s1 = s') as -> by (destruct reason as [[]|]; by injection Hr as _ <- || done).
  by eapply continue_wf.
Qed.

End Invariant.

(** ** The PCI configuration ports *)

Section Pci.
Context `{Profile, KvmVcpu C} `{!KvmRun C} `{HostOS W, VirtioNet} {T : Type}.
Context (env : tap_env T) (tx_fuel : nat).
Implicit Types s : vm_state C W T.

Lemma read_raw_split n v : fits (8 * Z.of_nat n) v → read_raw n (le_split n v) = Ret v.
Proof.
  intros Hv. unfold read_raw. rewrite length_le_split, decide_True by lia.
  rewrite take_ge by (rewrite length_le_split; lia). f_equal.
  rewrite le_combine_split. by apply wrap_fits.
Qed.

Lemma write_raw_4 buf v : length buf = 4%nat → write_raw 4 buf v = Ret (le_split 4 v).
Proof.
  intros Hb. unfold write_raw. rewrite decide_True by lia. f_equal.
  rewrite drop_ge by lia. by rewrite app_nil_r.
Qed.

(** The guest reaches the device's configuration space through the ports
    0xCF8 and 0xCFC: with an address of device 0 it reads back what it wrote
    there, an access beyond the 64 bytes stops the hypervisor, and at the
    address of another device writes do nothing and reads give all ones. *)
Lemma pci_config_cycle s a data :
  wf_registers (st_device s) → fits 32 a → data ≠ [] →
  ∃ s1, device_out env tx_fuel s PCI_CONFIG_ADDRESS_PORT (le_split 4 a) = Ret s1 ∧
    st_device s1 = st_device s ∧ st_host s1 = st_host s ∧
    if decide (Z.land a 0x1ff800 = 0) then
      if decide (Z.land a 0x3ff + Z.of_nat (length data) ≤ 64) then
        ∃ s2, device_out env tx_fuel s1 PCI_CONFIG_DATA_PORT data = Ret s2 ∧
          ∀ buf, length buf = length data → io_in s2 PCI_CONFIG_DATA_PORT buf = Ret (s2, data)
      else
        device_out env tx_fuel s1 PCI_CONFIG_DATA_PORT data = Panic ∧
        ∀ buf, length buf = length data → io_in s1 PCI_CONFIG_DATA_PORT buf = Panic
    else
      device_out env tx_fuel s1 PCI_CONFIG_DATA_PORT data = Ret s1 ∧
      ∀ buf, length buf = 4%nat →
        io_in s1 PCI_CONFIG_DATA_PORT buf = Ret (s1, [0xff; 0xff; 0xff; 0xff]).
Proof.
  intros Hwf Ha Hne. exists (with_pci_addr a s). split_and!.
  { unfold device_out. change (_ =? PCI_CONFIG_DATA_PORT) with false.
    change (_ =? PCI_CONFIG_ADDRESS_PORT) with true. cbv match.
    by rewrite read_raw_split. }
  1,2: done.
  assert (0 ≤ Z.land a 0x3ff) as Hpos by (apply Z.land_nonneg; by right).
  pose proof (config_access (st_device s) (Z.land a 0x3ff) data Hwf Hpos Hne) as Hcfg.
  unfold device_out, io_in. change (_ =? PCI_CONFIG_DATA_PORT) with true. cbv match.
  cbn [cpu_pci_addr st_cpu with_pci_addr st_device].
  destruct (Z.eqb_spec (Z.land a 0x1ff800) 0) as [Hz|Hz];
    [rewrite (decide_True (P := Z.land a _ = 0)) by done|rewrite decide_False by done]; cycle 1.
  { split; [done|]. intros buf Hbuf. by rewrite write_raw_4. }
  destruct (decide (_ ≤ 64)) as [Hin|Hout].
  - destruct Hcfg as (d' & -> & Hr & _). cbn [mbind exec_bind]. eexists. split; [done|].
    intros buf Hbuf. cbn [with_device with_pci_addr st_cpu cpu_pci_addr st_device].
    rewrite (proj2 (Z.eqb_eq _ _) Hz), Hbuf, Hr. done.
  - destruct Hcfg as [-> Hr]. split; [done|]. intros buf ->. by rewrite Hr.
Qed.

End Pci.

(** ** Sessions

    The hypercall interface, as the guest knows it.  [request h port p h']: with
    the argument structure of a call at host address [p], the call on [port]
    takes guest memory and the host from [h] to [h']. *)

Lemma write_all_det {W} `{HostOS W} fd w data w1 r1 w2 r2 :
  write_all fd w data w1 r1 → write_all fd w data w2 r2 → w1 = w2 ∧ r1 = r2.
Proof.
  intros Hw1. revert w2 r2.
  induction Hw1 as [w|w data wa k wb r Hne Hos Hk Hrest IH|w data wa k Hne Hos Hk];
    intros w2 r2 Hw2; inversion Hw2; subst; try done;
    match goal with Ha : os_write w fd data = _, Hb : os_write w fd data = _ |- _ =>
      rewrite Ha in Hb; simplify_eq end; try done; try lia.
  by apply IH.
Qed.

Section Session.
Context `{Profile, HostOSLaws W, KvmVcpu C} `{!KvmRun C, !KvmRunLaws C}.
(** The kernel's path, the process's arguments and environment, and the
    longest buffer the guest writes. *)
Context (kernel_path : list Z) (args : list (list Z)) (vars : list (list Z * list Z)).
Context (max_write : nat).

(** The guest gave [cmdval] room for every string. *)
Record cmdval_room (m : mem) (p argv envp : Z) (argv_ps env_ps : list Z) : Prop := {
  room_argv : load 8 m (p + SysCmdval.argv) = Ret argv;
  room_envp : load 8 m (p + SysCmdval.envp) = Ret envp;
  room_envp_range : envp + mem_base m < 2 ^ 64;
  room_argc : length argv_ps = length (argv_strings kernel_path args);
  room_envc : length env_ps = length (env_strings vars);
  room_argv_ps i a : argv_ps !! i = Some a →
    load 8 m (argv + mem_base m + 8 * Z.of_nat i) = Ret a;
  room_env_ps i a : env_ps !! i = Some a →
    load 8 m (envp + mem_base m + 8 * Z.of_nat i) = Ret a;
  room_strings : Forall (room m p argv envp argv_ps env_ps)
    (cmdval_writes kernel_path args vars m argv_ps env_ps);
  room_apart : pairwise_apart (cmdval_writes kernel_path args vars m argv_ps env_ps);
}.

Inductive request (h : host W) (p : Z) : Z → host W → Prop :=
| req_write fd buf len buffer w' :
    load_i32 (h_mem h) (p + SysWrite.fd) = Ret fd →
    load 8 (h_mem h) (p + SysWrite.buf) = Ret buf →
    load 8 (h_mem h) (p + SysWrite.len) = Ret len → (Z.to_nat len ≤ max_write)%nat →
    virt_to_phys (h_mem h) (mem_base (h_mem h)) buf = Ret buffer →
    0 ≤ buffer → buffer + len ≤ mem_size (h_mem h) →
    write_all fd (h_os h)
      (peeks (h_mem h) (mem_base (h_mem h) + buffer) (Z.to_nat len)) w' (Ok ()) →
    request h p UHYVE_PORT_WRITE (Host (h_mem h) w')
| req_read fd buf len buffer w' r data :
    load_i32 (h_mem h) (p + SysRead.fd) = Ret fd →
    load 8 (h_mem h) (p + SysRead.buf) = Ret buf →
    load 8 (h_mem h) (p + SysRead.len) = Ret len →
    valid (h_mem h) (p + SysRead.ret) 8 →
    virt_to_phys (h_mem h) (mem_base (h_mem h)) buf = Ret buffer →
    0 ≤ buffer → buffer + len ≤ mem_size (h_mem h) →
    os_read (h_os h) fd len = (w', r, data) →
    request h p UHYVE_PORT_READ
      (Host (writes [(mem_base (h_mem h) + buffer, data);
                     (p + SysRead.ret, le_split 8 (if 0 <=? r then r else -1))] (h_mem h)) w')
| req_open name path flags mode w' r :
    load 8 (h_mem h) (p + SysOpen.name) = Ret name → guest_path h name path →
    load_i32 (h_mem h) (p + SysOpen.flags) = Ret flags →
    load_i32 (h_mem h) (p + SysOpen.mode) = Ret mode →
    valid (h_mem h) (p + SysOpen.ret) 4 → os_open (h_os h) path flags mode = (w', r) →
    request h p UHYVE_PORT_OPEN (Host (writes [(p + SysOpen.ret, le_split 4 r)] (h_mem h)) w')
| req_close fd w' r :
    load_i32 (h_mem h) (p + SysClose.fd) = Ret fd → valid (h_mem h) (p + SysClose.ret) 4 →
    os_close (h_os h) fd = (w', r) →
    request h p UHYVE_PORT_CLOSE (Host (writes [(p + SysClose.ret, le_split 4 r)] (h_mem h)) w')
| req_lseek fd offset whence w' r :
    load_i32 (h_mem h) (p + SysLseek.fd) = Ret fd →
    load_i64 (h_mem h) (p + SysLseek.offset) = Ret offset →
    load_i32 (h_mem h) (p + SysLseek.whence) = Ret whence →
    os_lseek (h_os h) fd offset whence = (w', r) →
    request h p UHYVE_PORT_LSEEK
      (Host (writes [(p + SysLseek.offset, le_split 8 r)] (h_mem h)) w')
| req_unlink name path w' r :
    load 8 (h_mem h) (p + SysUnlink.name) = Ret name → guest_path h name path →
    valid (h_mem h) (p + SysUnlink.ret) 4 → os_unlink (h_os h) path = (w', r) →
    request h p UHYVE_PORT_UNLINK
      (Host (writes [(p + SysUnlink.ret, le_split 4 r)] (h_mem h)) w')
| req_cmdsize :
    valid (h_mem h) p 1032 → (length (app_args args) < 128)%nat →
    Forall short (argv_strings kernel_path args) → Forall short (env_strings vars) →
    request h p UHYVE_PORT_CMDSIZE
      (Host (writes (cmdsize_writes kernel_path args vars p)
         (writes [(p + SysCmdsize.argc, le_split 4 0); (p + SysCmdsize.envc, le_split 4 0)]
            (h_mem h))) (h_os h))
| req_cmdval argv envp argv_ps env_ps :
    cmdval_room (h_mem h) p argv envp argv_ps env_ps →
    request h p UHYVE_PORT_CMDVAL
      (Host (writes (cmdval_writes kernel_path args vars (h_mem h) argv_ps env_ps) (h_mem h))
         (h_os h)).

(** The guest runs until it exits with a code ([Some]) or is kicked out of the
    run loop by a signal ([None]); in between it halts, prints, and makes
    requests, with the 32-bit physical address of their arguments. *)
Inductive session : C → host W → option Z → host W → Prop :=
| session_exit c h c' m a code :
    vcpu_run c (h_mem h) = (c', m, Ok (ExitIoOut UHYVE_PORT_EXIT (le_split 4 a))) →
    fits 32 a → load_i32 m (mem_base m + a + SysExit.arg) = Ret code →
    session c h (Some code) (Host m (h_os h))
| session_shutdown c h c' m :
    vcpu_run c (h_mem h) = (c', m, Ok ExitShutdown) → session c h (Some 0) (Host m (h_os h))
| session_kick c h c' m :
    vcpu_run c (h_mem h) = (c', m, Err EINTR) → session c h None (Host m (h_os h))
| session_hlt c h c' m outcome h' :
    vcpu_run c (h_mem h) = (c', m, Ok ExitHlt) →
    session c' (Host m (h_os h)) outcome h' → session c h outcome h'
| session_uart c h c' m data w outcome h' :
    vcpu_run c (h_mem h) = (c', m, Ok (ExitIoOut UHYVE_UART_PORT data)) →
    os_stdout_write_all (h_os h) data = (w, Ok ()) →
    session c' (Host m w) outcome h' → session c h outcome h'
| session_request c h c' m port a h1 outcome h' :
    vcpu_run c (h_mem h) = (c', m, Ok (ExitIoOut port (le_split 4 a))) →
    fits 32 a → request (Host m (h_os h)) (mem_base m + a) port h1 →
    session c' h1 outcome h' → session c h outcome h'.

Hypothesis Hargs : Z.of_nat (length args) < 2 ^ 31.
Hypothesis Hargv_bytes : Forall (Forall is_byte) (argv_strings kernel_path args).
Hypothesis Henv_bytes : Forall (Forall is_byte) (env_strings vars).
Hypothesis Hprogress : write_progress W.

Lemma bytes_cons (a : Z) bs ws :
  Forall is_byte bs → Forall (λ w : Z * list Z, Forall is_byte w.2) ws →
  Forall (λ w : Z * list Z, Forall is_byte w.2) ((a, bs) :: ws).
Proof. by constructor. Qed.

Lemma size_words_bytes b c l : Forall (λ w : Z * list Z, Forall is_byte w.2) (size_words b c l).
Proof.
  unfold size_words. apply Forall_fmap, Forall_true. intros [i x]. apply le_split_bytes.
Qed.

Lemma copies_bytes b ps ss :
  Forall (Forall is_byte) ss → Forall (λ w : Z * list Z, Forall is_byte w.2) (copies b ps ss).
Proof.
  intros Hss. unfold copies. apply Forall_fmap, Forall_forall.
  intros [i x] (k & Hk & _)%elem_of_indexed. cbn [compose snd].
  apply Forall_app. split; [|evaluate]. exact (Forall_lookup_1 _ _ _ _ Hss Hk).
Qed.

(** Requests keep guest memory what it is: a mapping that holds bytes. *)
Lemma request_wf h p port h' :
  request h p port h' → mem_wf (h_mem h) →
  mem_wf (h_mem h') ∧ same_map (h_mem h) (h_mem h').
Proof.
  intros Hr Hm. destruct Hr; cbn [h_mem]; (split; [|try apply writes_map; try done]);
    try (apply mem_wf_writes; [done|]; repeat apply bytes_cons; try done; auto with uhyve).
  - done.
  - by eapply os_read_bytes.
  - apply mem_wf_writes; [apply mem_wf_writes; [done|]|].
    + repeat apply bytes_cons; auto with uhyve.
    + unfold cmdsize_writes. apply Forall_app. split; [apply size_words_bytes|].
      apply bytes_cons; [auto with uhyve|]. apply Forall_app. split; [apply size_words_bytes|].
      apply bytes_cons; [auto with uhyve|done].
  - etrans; apply writes_map.
  - unfold cmdval_writes. apply Forall_app. auto using copies_bytes.
Qed.

Context `{VirtioNet} {T : Type} (env : tap_env T) (tx_fuel : nat).
Implicit Types s : vm_state C W T.

(** The vCPU belongs to the memory it runs in. *)
Record vcpu_of (s : vm_state C W T) : Prop := {
  of_start : cpu_vm_start (st_cpu s) = mem_base (h_mem (st_host s));
  of_path : cpu_kernel_path (st_cpu s) = kernel_path;
  of_wf : mem_wf (h_mem (st_host s));
}.

Lemma data_addr_spec s a :
  vcpu_of s → fits 32 a →
  data_addr s (le_split 4 a) = Ret (mem_base (h_mem (st_host s)) + a).
Proof.
  intros [Hs _ Hm] Ha. unfold data_addr. rewrite read_raw_split by done.
  cbn [mbind exec_bind]. rewrite Hs. unfold host_address, fits in *.
  pose proof (wf_base _ Hm). pose proof (wf_end _ Hm). pose proof (wf_size _ Hm).
  arith_ok. f_equal. lia.
Qed.

Lemma request_served s a port h' :
  vcpu_of s → fits 32 a → request (st_host s) (mem_base (h_mem (st_host s)) + a) port h' →
  io_out env args vars max_write tx_fuel s port (le_split 4 a) =
    Some (Ret (goes_on (with_host h' s))).
Proof.
  intros Hs Ha Hr. pose proof Hs as [Hstart Hpath Hwf].
  assert (∀ port h', port ∈ hypercall_ports →
    hypercall args vars s port (mem_base (h_mem (st_host s)) + a) = Ret (goes_on (with_host h' s)) →
    port ≠ UHYVE_UART_PORT →
    io_out env args vars max_write tx_fuel s port (le_split 4 a) =
      Some (Ret (goes_on (with_host h' s)))) as Hhyper.
  { intros port' h1 Hin Hc Hne. unfold io_out. rewrite (proj2 (Z.eqb_neq _ _) Hne).
    rewrite bool_decide_eq_true_2 by done. by rewrite data_addr_spec, <- Hc. }
  destruct Hr.
  1: { unfold io_out. change (_ =? UHYVE_UART_PORT) with false.
    change (bool_decide (UHYVE_PORT_WRITE ∈ hypercall_ports)) with false.
    change (_ =? UHYVE_PORT_NETWRITE) with false. change (_ =? UHYVE_PORT_WRITE) with true.
    cbv match. rewrite data_addr_spec by done. rewrite Hstart.
    destruct (write_spec (st_host s) (mem_base (h_mem (st_host s)) + a) Hwf max_write
      fd buf len buffer) as (w1 & r1 & -> & Hall); try done.
    match goal with Hw : write_all _ _ _ w' _ |- _ =>
      destruct (write_all_det _ _ _ _ _ _ _ Hall Hw) as [-> ->] end. done. }
  all: apply Hhyper; [evaluate| |done]; unfold hypercall;
    cbn [Z.eqb Pos.eqb UHYVE_PORT_READ UHYVE_PORT_OPEN]; rewrite ?Hstart, ?Hpath.
  - destruct (read_spec (st_host s) (mem_base (h_mem (st_host s)) + a) Hwf fd buf len buffer w' r data)
      as (_ & _ & _ & Hread); try done. by rewrite Hread.
  - by erewrite open_spec by done.
  - by erewrite close_spec by done.
  - by erewrite lseek_spec by done.
  - by erewrite unlink_spec by done.
  - by rewrite cmdsize_result by done.
  - match goal with Hroom : cmdval_room _ _ _ _ _ _ |- _ => destruct Hroom end.
    by erewrite cmdval_result by done.
Qed.

Definition reason_of (outcome : option Z) : VcpuStopReason :=
  match outcome with Some code => Exit code | None => Kick end.

Lemma vcpu_of_run s c m x :
  vcpu_of s → vcpu_run (cpu_vcpu (st_cpu s)) (h_mem (st_host s)) = (c, m, x) →
  vcpu_of (with_mem m (with_vcpu c s)).
Proof.
  intros [Hs Hp Hm] Hr. split; [|done|by eapply run_mem_wf].
  cbn. by rewrite (run_mem_base _ _ _ _ _ Hr).
Qed.

Lemma vcpu_of_host s h' :
  vcpu_of s → mem_wf (h_mem h') → same_map (h_mem (st_host s)) (h_mem h') →
  vcpu_of (with_host h' s).
Proof. intros [Hs Hp Hm] Hwf [Hb _]. split; [|done|done]. cbn. by rewrite Hb. Qed.

(** Every event of a session costs one round of the loop. *)
Lemma continue_serves c h outcome h' :
  session c h outcome h' → ∀ s, vcpu_of s → cpu_vcpu (st_cpu s) = c → st_host s = h →
  ∃ fuel s', continue env args vars max_write tx_fuel fuel s = Some (Ret (Ok (reason_of outcome), s')) ∧
    st_host s' = h' ∧ st_device s' = st_device s ∧ st_sent s' = st_sent s.
Proof.
  induction 1 as [c h c' m a code Hr Ha Hcode|c h c' m Hr|c h c' m Hr
    |c h c' m outcome h' Hr _ IH|c h c' m data w outcome h' Hr Hw _ IH
    |c h c' m port a h1 outcome h' Hr Ha Hreq _ IH]; intros s Hs <- <-;
    pose proof (vcpu_of_run _ _ _ _ Hs Hr) as Hs1;
    set (s1 := with_mem m (with_vcpu c' s)) in *.
  - exists 1%nat, s1. cbn [continue]. rewrite Hr. fold s1. cbn [serve_exit]. unfold io_out.
    change (_ =? UHYVE_UART_PORT) with false.
    change (bool_decide (UHYVE_PORT_EXIT ∈ hypercall_ports)) with true. cbv match.
    rewrite data_addr_spec by done. cbn [mbind exec_bind option_bind]. unfold hypercall.
    change (UHYVE_PORT_EXIT =? UHYVE_PORT_CMDSIZE) with false.
    change (UHYVE_PORT_EXIT =? UHYVE_PORT_CMDVAL) with false.
    change (UHYVE_PORT_EXIT =? UHYVE_PORT_EXIT) with true. cbv match.
    unfold VirtualCPU.exit. change (h_mem (st_host s1)) with m. by rewrite Hcode.
  - exists 1%nat, s1. cbn [continue]. by rewrite Hr.
  - exists 1%nat, s1. cbn [continue]. by rewrite Hr.
  - destruct (IH s1 Hs1 eq_refl eq_refl) as (fuel & s' & Hc & Hrest).
    exists (S fuel), s'. cbn [continue]. rewrite Hr. done.
  - destruct (IH (with_host (Host m w) s1)) as (fuel & s' & Hc & Hrest); [|done|done|].
    { apply vcpu_of_host; [done|apply Hs1|done]. }
    exists (S fuel), s'. cbn [continue]. rewrite Hr. fold s1. cbn [serve_exit]. unfold io_out.
    change (_ =? UHYVE_UART_PORT) with true. cbv match. unfold VirtualCPU.uart.
    change (h_os (st_host s1)) with (h_os (st_host s)). rewrite Hw. done.
  - destruct (request_wf _ _ _ _ Hreq) as [Hwf1 Hmap]; [apply Hs1|].
    destruct (IH (with_host h1 s1)) as (fuel & s' & Hc & Hrest); [|done|done|].
    { by apply vcpu_of_host. }
    exists (S fuel), s'. cbn [continue]. rewrite Hr. fold s1. cbn [serve_exit].
    by rewrite (request_served s1 a port h1).
Qed.

(** C3: A guest that keeps to the hypercall interface is served: each request
    of its session takes guest memory and the host where the interface says,
    in order, and [run] returns the guest's exit code, or nothing when it was
    kicked; the network device is not involved. *)
Theorem run_serves_session s outcome h' :
  vcpu_of s → session (cpu_vcpu (st_cpu s)) (st_host s) outcome h' →
  ∃ fuel s', run env args vars max_write tx_fuel fuel s = Some (Ret (Ok outcome, s')) ∧
    st_host s' = h' ∧ st_device s' = st_device s ∧ st_sent s' = st_sent s.
Proof.
  intros Hs Hsess. destruct (continue_serves _ _ _ _ Hsess s Hs eq_refl eq_refl)
    as (fuel & s' & Hc & Hrest).
  exists fuel, s'. split; [|done]. unfold run. rewrite Hc. by destruct outcome.
Qed.

End Session.

(** ** A scripted guest *)
Module Example.
#[local] Existing Instance debug_profile.
#[local] Existing Instance Virtio.Example.net.
Import Hypercalls.Example.

(** A vCPU that keeps what it is given, and a guest that plays a script: what
    it writes to memory before each exit. *)
Record vcpu := Vcpu {
  v_regs : kvm_regs; v_sregs : kvm_sregs; v_fpu : kvm_fpu;
  v_script : list (list (Z * list Z) * VcpuExit);
}.

#[local] Instance example_vcpu : KvmVcpu vcpu := {|
  get_regs c := Ok (v_regs c);
  set_regs c r := Ok (Vcpu r (v_sregs c) (v_fpu c) (v_script c));
  get_sregs c := Ok (v_sregs c);
  set_sregs c s := Ok (Vcpu (v_regs c) s (v_fpu c) (v_script c));
  get_fpu c := Ok (v_fpu c);
  set_fpu c f := Ok (Vcpu (v_regs c) (v_sregs c) f (v_script c));
|}.

#[local] Instance example_vcpu_laws : KvmVcpuLaws vcpu.
Proof. split; cbn; intros c x c' [= <-]; done. Qed.

Definition leaves : list kvm_cpuid_entry2 :=
  [CpuidEntry 0 0 0 0x16 0 0 0; CpuidEntry 1 0 0 0 0 0 0; CpuidEntry 0x0A 0 0 7 0 0 0;
   CpuidEntry 0x80000002 0 0 0 0 0 0; CpuidEntry 0x80000003 0 0 0 0 0 0;
   CpuidEntry 0x80000004 0 0 0 0 0 0].

#[local] Instance example_run : KvmRun vcpu := {|
  kvm_supported_cpuid := Ok leaves;
  kvm_msr_index_list := Ok [0x10; 0x174];
  kvm_max_msr_entries := 256;
  kvm_mp_state_runnable := 0;
  set_cpuid2 c _ := Ok c;
  set_msrs c _ := Ok c;
  set_mp_state c _ := Ok c;
  set_guest_debug c _ := Ok c;
  vcpu_run c m :=
    match v_script c with
    | [] => (c, m, Err EINTR)
    | (ws, x) :: rest =>
        (Vcpu (v_regs c) (v_sregs c) (v_fpu c) rest,
         if decide (Forall (λ w, Forall is_byte w.2) ws) then writes ws m else m, Ok x)
    end;
  vcpu_complete_in c _ := c;
|}.

#[local] Instance example_run_laws : KvmRunLaws vcpu.
Proof.
  split; try (cbn; intros c x c' [= <-]; done); cbn.
  - intros c m c' m' r. destruct (v_script c) as [|[ws x] rest]; [by intros [= <- <- <-]|].
    intros [= <- <- <-]. case_decide; [apply writes_base|done].
  - intros c m c' m' r. destruct (v_script c) as [|[ws x] rest]; [by intros [= <- <- <-]|].
    intros [= <- <- <-]. case_decide; [apply writes_size|done].
  - intros c m c' m' r. destruct (v_script c) as [|[ws x] rest]; [by intros [= <- <- <-]|].
    intros [= <- <- <-] Hm. case_decide; [by apply mem_wf_writes|done].
Qed.

#[local] Instance example_control : X86_64Control := {|
  Cr0_PROTECTED_MODE_ENABLE := 1; Cr0_EXTENSION_TYPE := 16; Cr0_NUMERIC_ERROR := 32;
  Cr0_PAGING := 0x80000000; Cr4_PHYSICAL_ADDRESS_EXTENSION := 32;
|}.
#[local] Instance example_control_laws : X86_64ControlLaws.
Proof. by split. Qed.

Definition no_segment : kvm_segment := KvmSegment 0 0 0 0 0 0 0 0 0 0 0 1.
Definition no_sregs : kvm_sregs :=
  KvmSregs no_segment no_segment no_segment no_segment no_segment no_segment no_segment no_segment
    (KvmDtable 0 0) (KvmDtable 0 0) 0 0 0 0 0 0 0xfee00000.
Definition no_regs : kvm_regs := KvmRegs 0 0 0 0 0 0 0 0 0 0 0 0 0 0 0 0 0xfff0 2.
Definition no_fpu : kvm_fpu := KvmFpu [] 0x37f 0 0 0 0 0 0 [] 0 0.
Definition fresh (script : list (list (Z * list Z) * VcpuExit)) : vcpu :=
  Vcpu no_regs no_sregs no_fpu script.

Definition zeroed : mem := Mem base 0x100000 ∅.
Lemma zeroed_wf : mem_wf zeroed.
Proof. by split. Qed.

Lemma init_correct_example :
  ∃ m res, init_guest_mem zeroed = Ret m ∧
    init (fresh []) 0x200000 = Ret res ∧ unless_refused res (λ vcpu',
      ∃ s r, get_sregs vcpu' = Ok s ∧ get_regs vcpu' = Ok r ∧ in_long_mode s).
Proof.
  destruct (init_guest_mem_spec zeroed) as (m & Hm & _); [apply zeroed_wf|cbn [mem_size zeroed]; lia|].
  destruct (init_correct leaves 0x10 [0x174] (fresh []) 0x200000 zeroed m)
    as (res & Hres & Hok).
  - split; [reflexivity|evaluate|reflexivity|evaluate|evaluate].
  - apply zeroed_wf.
  - cbn [mem_size zeroed]. lia.
  - exact Hm.
  - exists m, res. split; [exact Hm|]. split; [exact Hres|]. destruct res as [vcpu'|]; [|exact Hok].
    destruct Hok as (s & r & Hs & Hr & Hl & _). exists s, r. split; [exact Hs|]. split; [exact Hr|exact Hl].
Qed.

(** A guest that halts once, writes "hello" to its standard output and exits
    with the code 7. *)
Definition script : list (list (Z * list Z) * VcpuExit) :=
  [([], ExitHlt);
   ([], ExitIoOut UHYVE_PORT_WRITE (le_split 4 0x2000));
   ([(base + 0x2100, le_split 4 7)], ExitIoOut UHYVE_PORT_EXIT (le_split 4 0x2100))].

Definition machine : vm_state vcpu world unit :=
  State (Cpu 0 (fresh script) base [107] None None) (start write_args) Virtio.Example.fresh [].

Definition vcpus (n : nat) : vcpu := fresh (drop n script).
Definition written : world := World [(1, [104; 101; 108]); (1, [108; 111])] 3.
Definition after : mem := writes [(base + 0x2100, le_split 4 7)] (memory write_args).

Lemma machine_vcpu : vcpu_of (C := vcpu) (T := unit) [107] machine.
Proof. split; [reflexivity|reflexivity|]. apply wf_example. evaluate. Qed.

Lemma hello_request :
  request [107] [] [] 5 (Host (memory write_args) (World [] 3)) (base + 0x2000)
    UHYVE_PORT_WRITE (Host (memory write_args) written).
Proof.
  apply (req_write _ _ _ _ (Host (memory write_args) (World [] 3)) _ 1 0x3000 5 0x3000).
  - by vm_compute.
  - by vm_compute.
  - by vm_compute.
  - cbn. lia.
  - by vm_compute.
  - lia.
  - cbn. lia.
  - apply (write_all_step _ _ _ (World [(1, [104; 101; 108])] 3) 3); [done|by vm_compute| |].
    { rewrite length_peeks. cbn. lia. }
    apply (write_all_step _ _ _ written 2); [done|by vm_compute| |].
    { rewrite length_drop, length_peeks. cbn. lia. }
    apply write_all_done.
Qed.

Lemma hello_session :
  session (C := vcpu) [107] [] [] 5 (vcpus 0) (Host (memory write_args) (World [] 3))
    (Some 7) (Host after written).
Proof.
  apply (session_hlt _ _ _ _ _ _ (vcpus 1) (memory write_args)); [reflexivity|].
  apply (session_request _ _ _ _ _ _ (vcpus 2) (memory write_args) UHYVE_PORT_WRITE 0x2000
    (Host (memory write_args) written)); [reflexivity|evaluate|exact hello_request|].
  apply (session_exit _ _ _ _ _ (Host (memory write_args) written) (vcpus 3) after 0x2100); [reflexivity|evaluate|by vm_compute].
Qed.

Lemma run_serves_session_witness :
  ∃ fuel s', run Virtio.Example.tap [] [] 5 10 fuel machine = Some (Ret (Ok (Some 7), s')) ∧
    st_host s' = Host after written.
Proof.
  destruct (run_serves_session (C := vcpu) [107] [] [] 5) with (H3 := Virtio.Example.net) (env := Virtio.Example.tap)
    (tx_fuel := 10%nat) (s := machine) (outcome := Some 7) (h' := Host after written)
    as (fuel & s' & Hrun & Hh & _).
  - cbn. lia.
  - evaluate.
  - evaluate.
  - exact progress.
  - exact machine_vcpu.
  - exact hello_session.
  - exists fuel, s'. split; [exact Hrun|exact Hh].
Defined.

Lemma run_keeps_wf_example :
  ∃ s', run Virtio.Example.tap [] [] 5 10 3 machine = Some (Ret (Ok (Some 7), s')) ∧
    vm_wf machine s'.
Proof.
  eexists. split; [vm_compute; reflexivity|].
  eapply (run_keeps_wf (C := vcpu) Virtio.Example.tap [] [] 5 10 3 machine).
  - split; [reflexivity|reflexivity|constructor].
  - vm_compute. reflexivity.
Qed.

Lemma pci_config_cycle_example :
  ∃ s1 s2, device_out Virtio.Example.tap 10 machine PCI_CONFIG_ADDRESS_PORT
             (le_split 4 0x80000004) = Ret s1 ∧
    device_out Virtio.Example.tap 10 s1 PCI_CONFIG_DATA_PORT [7; 0] = Ret s2 ∧
    io_in s2 PCI_CONFIG_DATA_PORT [0; 0] = Ret (s2, [7; 0]).
Proof.
  destruct (pci_config_cycle Virtio.Example.tap 10 machine 0x80000004 [7; 0])
    as (s1 & H1 & _ & _ & s2 & H2 & H3).
  - reflexivity.
  - evaluate.
  - discriminate.
  - exists s1, s2. split; [exact H1|]. split; [exact H2|]. apply H3. reflexivity.
Qed.
End Example.
