(* ===== verification/DebugRegs.v ===== *)
(** * Hardware breakpoints (src/arch/x86_64/registers/debug.rs)

    The four slots of the debug address registers, the values of the debug
    registers they are turned into, and the reason a debug exception is
    reported with.  The register types of the x86_64 crate are a parameter: a
    class of operations, with the laws their documentation gives. *)

From S2P Require Import Prelude.

(** ** The x86_64 crate *)

Inductive HwBreakpointCondition := InstructionExecution | DataWrites | IoReadsWrites | DataReadsWrites.
#[export] Instance condition_eq_dec : EqDecision HwBreakpointCondition.
Proof. solve_decision. Defined.

(** Debug address registers are numbered 0 to 3; flags are bit sets. *)
Class X86Debug := {
  HwBreakpointSize : Type;
  size_eq_dec :: EqDecision HwBreakpointSize;
  size_try_from : Z → option HwBreakpointSize;
  VirtAddr_new : Z → exec Z;
  Dr7_LOCAL_EXACT_BREAKPOINT_ENABLE : Z;
  Dr7_GLOBAL_EXACT_BREAKPOINT_ENABLE : Z;
  Dr7_GENERAL_DETECT_ENABLE : Z;
  Dr7_global_breakpoint_enable : nat → Z;
  Dr7Value : Type;
  dr7_from : Z → Dr7Value;
  dr7_flags : Dr7Value → Z;
  dr7_insert : Dr7Value → Z → Dr7Value;
  dr7_set_condition : Dr7Value → nat → HwBreakpointCondition → Dr7Value;
  dr7_condition : Dr7Value → nat → HwBreakpointCondition;
  dr7_set_size : Dr7Value → nat → HwBreakpointSize → Dr7Value;
  dr7_size : Dr7Value → nat → HwBreakpointSize;
  dr7_bits : Dr7Value → Z;
  Dr6_STEP : Z;
  Dr6_trap : nat → Z;
}.

(** The setters of a value set what the getters get, and nothing else; the
    flags are the bits of the architecture. *)
Class X86DebugLaws `{X86Debug} : Prop := {
  VirtAddr_lower a : 0 ≤ a < 2 ^ 47 → VirtAddr_new a = Ret a;
  Dr7_LE_bit : Dr7_LOCAL_EXACT_BREAKPOINT_ENABLE = 2 ^ 8;
  Dr7_GE_bit : Dr7_GLOBAL_EXACT_BREAKPOINT_ENABLE = 2 ^ 9;
  Dr7_GD_bit : Dr7_GENERAL_DETECT_ENABLE = 2 ^ 13;
  Dr7_G_bit n : (n < 4)%nat → Dr7_global_breakpoint_enable n = 2 ^ (2 * Z.of_nat n + 1);
  dr7_flags_from f : dr7_flags (dr7_from f) = f;
  dr7_flags_insert v f : dr7_flags (dr7_insert v f) = Z.lor (dr7_flags v) f;
  dr7_flags_condition v n c : dr7_flags (dr7_set_condition v n c) = dr7_flags v;
  dr7_flags_size v n s : dr7_flags (dr7_set_size v n s) = dr7_flags v;
  dr7_condition_insert v f n : dr7_condition (dr7_insert v f) n = dr7_condition v n;
  dr7_condition_set v n c n' : (n < 4)%nat → (n' < 4)%nat →
    dr7_condition (dr7_set_condition v n c) n' = if decide (n = n') then c else dr7_condition v n';
  dr7_condition_size v n s n' : dr7_condition (dr7_set_size v n s) n' = dr7_condition v n';
  dr7_size_insert v f n : dr7_size (dr7_insert v f) n = dr7_size v n;
  dr7_size_condition v n c n' : dr7_size (dr7_set_condition v n c) n' = dr7_size v n';
  dr7_size_set v n s n' : (n < 4)%nat → (n' < 4)%nat →
    dr7_size (dr7_set_size v n s) n' = if decide (n = n') then s else dr7_size v n';
  Dr6_STEP_bit : Dr6_STEP = 2 ^ 14;
  Dr6_trap_bit n : (n < 4)%nat → Dr6_trap n = 2 ^ Z.of_nat n;
}.

(** ** Breakpoints *)

(** gdbstub's [WatchKind] and [StopReason]. *)
Inductive WatchKind := WatchWrite | WatchRead | WatchReadWrite.

Inductive StopReason :=
| DoneStep
| HwBreak
| SwBreak
| Watch (kind : WatchKind) (addr : Z)
| Exited (status : Z)
| SignalInt.

Section Breakpoints.
Context `{X86Debug}.

Record HwBreakpoint := {
  hw_addr : Z;
  hw_size : HwBreakpointSize;
  hw_condition : HwBreakpointCondition;
}.

#[export] Instance hw_breakpoint_eq_dec : EqDecision HwBreakpoint.
Proof. solve_decision. Defined.

Definition new_breakpoint (addr kind : Z) : exec (option HwBreakpoint) :=
  a ← VirtAddr_new addr;
  match size_try_from kind with
  | Some size => Ret (Some {| hw_addr := a; hw_size := size; hw_condition := InstructionExecution |})
  | None => Ret None
  end.

Definition new_watchpoint (addr len : Z) (kind : WatchKind) : exec (option HwBreakpoint) :=
  match kind with
  | WatchRead => Ret None
  | _ =>
      let condition := match kind with WatchWrite => DataWrites | _ => DataReadsWrites end in
      a ← VirtAddr_new addr;
      match size_try_from len with
      | Some size => Ret (Some {| hw_addr := a; hw_size := size; hw_condition := condition |})
      | None => Ret None
      end
  end.

(** [HwBreakpoints]: an array of four slots. *)
Definition hw_new : list (option HwBreakpoint) := replicate 4 None.

Definition try_insert (bs : list (option HwBreakpoint)) (b : HwBreakpoint) : list (option HwBreakpoint) * result unit unit :=
  match list_find (λ entry, entry = None) bs with
  | Some (i, _) => (<[i := Some b]> bs, Ok ())
  | None => (bs, Err ())
  end.

Definition hw_take (bs : list (option HwBreakpoint)) (b : HwBreakpoint) : list (option HwBreakpoint) * option HwBreakpoint :=
  match list_find (λ slot, slot = Some b) bs with
  | Some (i, slot) => (<[i := None]> bs, slot)
  | None => (bs, None)
  end.

(** The loop of [control_value], from register [i] on. *)
Fixpoint control_from (i : nat) (bs : list (option HwBreakpoint)) (v : Dr7Value) : Dr7Value :=
  match bs with
  | [] => v
  | Some b :: bs' =>
      control_from (S i) bs'
        (dr7_set_size
           (dr7_set_condition (dr7_insert v (Dr7_global_breakpoint_enable i)) i (hw_condition b))
           i (hw_size b))
  | None :: bs' => control_from (S i) bs' v
  end.

Definition control_value (bs : list (option HwBreakpoint)) : Dr7Value :=
  control_from 0 bs
    (dr7_from (Z.lor (Z.lor Dr7_LOCAL_EXACT_BREAKPOINT_ENABLE Dr7_GLOBAL_EXACT_BREAKPOINT_ENABLE)
                 Dr7_GENERAL_DETECT_ENABLE)).

Definition hw_address (b : option HwBreakpoint) : Z := from_option hw_addr 0 b.

Definition registers (bs : list (option HwBreakpoint)) : list Z :=
  (hw_address <$> bs) ++ [0; 0; 0; dr7_bits (control_value bs)].

(** [dr6.contains(flag)]. *)
Definition dr6_contains (dr6 flag : Z) : bool := Z.land dr6 flag =? flag.

Definition stop_reason (bs : list (option HwBreakpoint)) (dr6 : Z) : exec StopReason :=
  if dr6_contains dr6 Dr6_STEP then Ret DoneStep
  else
    '(_, n) ← unwrap (list_find (λ n, dr6_contains dr6 (Dr6_trap n)) (seq 0 4));
    breakpoint ← unwrap (mjoin (bs !! n));
    match hw_condition breakpoint with
    | InstructionExecution => Ret HwBreak
    | DataWrites => Ret (Watch WatchWrite (hw_addr breakpoint))
    | DataReadsWrites => Ret (Watch WatchReadWrite (hw_addr breakpoint))
    | IoReadsWrites => Panic
    end.

End Breakpoints.

(** ** The slots are a bounded multiset *)

Section Multiset.
Context `{X86Debug}.
Implicit Types bs : list (option HwBreakpoint).

(** The breakpoints that are set. *)
Definition active (bs : list (option HwBreakpoint)) : list HwBreakpoint := omap id bs.

Lemma active_app bs1 bs2 : active (bs1 ++ bs2) = active bs1 ++ active bs2.
Proof. apply omap_app. Qed.

Lemma active_None bs : list_find (λ entry, entry = None) bs = None → length (active bs) = length bs.
Proof.
  intros Hf%list_find_None. induction Hf as [|[b|] bs Hb _ IH]; [done| |done].
  cbn. f_equal. exact IH.
Qed.

Lemma active_length bs : (length (active bs) ≤ length bs)%nat.
Proof. unfold active. induction bs as [|[b|] bs IH]; cbn; [lia..]. Qed.

Lemma find_split (P : option HwBreakpoint → Prop) `{∀ x, Decision (P x)} bs i x :
  list_find P bs = Some (i, x) → bs = take i bs ++ x :: drop (S i) bs ∧ P x ∧ (i < length bs)%nat.
Proof.
  intros (Hl & Hp & _)%list_find_Some. split_and!; [by rewrite take_drop_middle|done|].
  by eapply lookup_lt_Some.
Qed.

(** [HwBreakpoints] is a multiset of at most four breakpoints, in which
    [try_insert] adds one unless four are set and [take] removes the one it
    is given if it is there; neither changes anything when it fails, and the
    number of slots never changes. *)
Lemma hw_breakpoints_multiset bs b :
  length bs = 4%nat →
  (let '(bs', r) := try_insert bs b in
   length bs' = 4%nat ∧
   if decide (length (active bs) < 4)%nat then r = Ok () ∧ active bs' ≡ₚ b :: active bs
   else r = Err () ∧ bs' = bs) ∧
  (let '(bs', r) := hw_take bs b in
   length bs' = 4%nat ∧
   if decide (b ∈ active bs) then r = Some b ∧ active bs ≡ₚ b :: active bs'
   else r = None ∧ bs' = bs).
Proof.
  intros Hlen. split.
  - unfold try_insert. destruct (list_find _ bs) as [[i e]|] eqn:Hf; cbv beta iota.
    + apply find_split in Hf as (Hbs & -> & Hi).
      rewrite length_insert. split; [done|].
      rewrite insert_take_drop by done.
      assert (active bs = active (take i bs) ++ active (drop (S i) bs)) as Hact.
      { rewrite Hbs at 1. by rewrite active_app. }
      rewrite decide_True.
      * split; [done|]. rewrite Hact, active_app. cbn. by rewrite <- Permutation_middle.
      * rewrite Hact, length_app. pose proof (active_length (take i bs)).
        pose proof (active_length (drop (S i) bs)). rewrite length_take, length_drop in *. lia.
    + split; [done|]. rewrite decide_False; [done|]. rewrite active_None by done. lia.
  - unfold hw_take. destruct (list_find _ bs) as [[i e]|] eqn:Hf; cbv beta iota.
    + apply find_split in Hf as (Hbs & -> & Hi).
      rewrite length_insert. split; [done|].
      rewrite insert_take_drop by done.
      assert (active bs = active (take i bs) ++ b :: active (drop (S i) bs)) as Hact.
      { rewrite Hbs at 1. by rewrite active_app. }
      rewrite decide_True.
      * split; [done|]. rewrite Hact, active_app. cbn. by rewrite <- Permutation_middle.
      * rewrite Hact, elem_of_app, elem_of_cons. auto.
    + split; [done|]. rewrite decide_False; [done|]. unfold active.
      rewrite list_elem_of_omap. intros (x & Hx & Hid). cbn in Hid. subst x.
      apply list_find_None in Hf. rewrite Forall_forall in Hf. by apply (Hf _ Hx).
Qed.

End Multiset.

(** ** The debug registers *)

Section Registers.
Context `{X86DebugLaws}.
Implicit Types bs : list (option HwBreakpoint).

(** The slot of register [n], and whether bit [k] enables a slot from register
    [i] on. *)
Definition slot bs (n : nat) : option HwBreakpoint := mjoin (bs !! n).

Definition enables (i : nat) bs (k : Z) : Prop :=
  ∃ j b, slot bs j = Some b ∧ k = 2 * Z.of_nat (i + j) + 1.

Lemma slot_cons_S o bs j : slot (o :: bs) (S j) = slot bs j.
Proof. done. Qed.

Lemma enables_None i bs k : enables i (None :: bs) k ↔ enables (S i) bs k.
Proof.
  split.
  - intros ([|j] & b & Hs & ->); [done|]. exists j, b. split; [done|]. lia.
  - intros (j & b & Hs & ->). exists (S j), b. split; [done|]. lia.
Qed.

Lemma enables_Some i b bs k :
  enables i (Some b :: bs) k ↔ k = 2 * Z.of_nat i + 1 ∨ enables (S i) bs k.
Proof.
  split.
  - intros ([|j] & b' & Hs & ->); [left; lia|right]. exists j, b'. split; [done|]. lia.
  - intros [->|(j & b' & Hs & ->)].
    + exists 0%nat, b. split; [done|]. lia.
    + exists (S j), b'. split; [done|]. lia.
Qed.

Lemma control_flags i bs v k :
  (i + length bs ≤ 4)%nat → 0 ≤ k →
  Z.testbit (dr7_flags (control_from i bs v)) k = true ↔
  Z.testbit (dr7_flags v) k = true ∨ enables i bs k.
Proof.
  revert i v. induction bs as [|[b|] bs IH]; intros i v Hi Hk; cbn [control_from].
  - split; [by left|]. by intros [|([] & b & ? & _)].
  - cbn [length] in Hi. rewrite IH, enables_Some by lia.
    rewrite dr7_flags_size, dr7_flags_condition, dr7_flags_insert, Z.lor_spec, orb_true_iff.
    rewrite Dr7_G_bit, testbit_pow2, bool_decide_eq_true by lia.
    split; intuition lia.
  - cbn [length] in Hi. rewrite IH, enables_None by lia. done.
Qed.

Lemma control_kept i bs v n :
  (i + length bs ≤ 4)%nat → (n < i)%nat →
  dr7_condition (control_from i bs v) n = dr7_condition v n ∧
  dr7_size (control_from i bs v) n = dr7_size v n.
Proof.
  revert i v. induction bs as [|[b|] bs IH]; intros i v Hi Hn; cbn [control_from]; [done| |].
  - cbn [length] in Hi. destruct (IH (S i) (dr7_set_size (dr7_set_condition
      (dr7_insert v (Dr7_global_breakpoint_enable i)) i (hw_condition b)) i (hw_size b)))
      as [-> ->]; [lia|lia|].
    rewrite dr7_condition_size, dr7_condition_set, dr7_condition_insert, dr7_size_set,
      dr7_size_condition, dr7_size_insert by lia.
    by rewrite !decide_False by lia.
  - cbn [length] in Hi. apply IH; lia.
Qed.

Lemma control_slot i bs v j b :
  (i + length bs ≤ 4)%nat → slot bs j = Some b →
  dr7_condition (control_from i bs v) (i + j) = hw_condition b ∧
  dr7_size (control_from i bs v) (i + j) = hw_size b.
Proof.
  revert i v j. induction bs as [|o bs IH]; intros i v j Hi Hs; [by destruct j|].
  cbn [length] in Hi. destruct j as [|j].
  - cbn in Hs. subst o. cbn [control_from]. rewrite Nat.add_0_r.
    destruct (control_kept (S i) bs (dr7_set_size (dr7_set_condition
      (dr7_insert v (Dr7_global_breakpoint_enable i)) i (hw_condition b)) i (hw_size b)) i)
      as [-> ->]; [lia|lia|].
    rewrite dr7_condition_size, dr7_condition_set, dr7_size_set by lia.
    by rewrite !decide_True by done.
  - rewrite slot_cons_S in Hs. replace (i + S j)%nat with (S i + j)%nat by lia.
    destruct o; cbn [control_from]; apply IH; try done; lia.
Qed.

(** The reason reported for a breakpoint. *)
Definition reason_for (b : HwBreakpoint) : option StopReason :=
  match hw_condition b with
  | InstructionExecution => Some HwBreak
  | DataWrites => Some (Watch WatchWrite (hw_addr b))
  | DataReadsWrites => Some (Watch WatchReadWrite (hw_addr b))
  | IoReadsWrites => None
  end.

Lemma dr6_contains_bit dr6 k : 0 ≤ k → dr6_contains dr6 (2 ^ k) = Z.testbit dr6 k.
Proof.
  intros Hk. unfold dr6_contains.
  assert (Z.land dr6 (2 ^ k) = if Z.testbit dr6 k then 2 ^ k else 0) as ->.
  { apply Z.bits_inj'. intros i Hi. rewrite Z.land_spec, testbit_pow2 by done.
    case_bool_decide; subst.
    - destruct (Z.testbit dr6 i); [by rewrite Z.pow2_bits_true|]. by rewrite Z.bits_0.
    - rewrite andb_false_r. destruct (Z.testbit dr6 k); [|by rewrite Z.bits_0].
      rewrite testbit_pow2 by done. by rewrite bool_decide_eq_false_2. }
  destruct (Z.testbit dr6 k); [apply Z.eqb_refl|].
  apply Z.eqb_neq. pose proof (Z.pow_pos_nonneg 2 k). lia.
Qed.

Lemma find_trap dr6 n :
  (n < 4)%nat → Z.testbit dr6 (Z.of_nat n) = true →
  (∀ j, (j < n)%nat → Z.testbit dr6 (Z.of_nat j) = false) →
  list_find (λ n, dr6_contains dr6 (Dr6_trap n)) (seq 0 4) = Some (n, n).
Proof.
  intros Hn Hb Hlow. apply list_find_Some. split_and!.
  - rewrite lookup_seq. lia.
  - rewrite Dr6_trap_bit, dr6_contains_bit by lia. by rewrite Hb.
  - intros j y [-> Hj]%lookup_seq Hlt. cbn [plus]. rewrite Dr6_trap_bit, dr6_contains_bit by lia.
    rewrite Hlow by done. by intros [].
Qed.

(** C27: The debug registers say what the slots say: the address registers hold
    the addresses, DR7 enables exactly the occupied slots, besides exact
    breakpoints and general detection, and holds their conditions and sizes;
    and when the processor reports the trap of an occupied slot, and not a
    step, the debugger is told about that slot's breakpoint. *)
Theorem hw_breakpoints_registers bs :
  length bs = 4%nat →
  ∃ v, registers bs = (from_option hw_addr 0 <$> bs) ++ [0; 0; 0; dr7_bits v] ∧
    (∀ k, 0 ≤ k → Z.testbit (dr7_flags v) k = true ↔
       k = 8 ∨ k = 9 ∨ k = 13 ∨ enables 0 bs k) ∧
    (∀ n b, slot bs n = Some b → dr7_condition v n = hw_condition b ∧ dr7_size v n = hw_size b) ∧
    (∀ n b reason dr6, slot bs n = Some b → reason_for b = Some reason →
       Z.testbit dr6 14 = false → Z.testbit dr6 (Z.of_nat n) = true →
       (∀ j, (j < n)%nat → Z.testbit dr6 (Z.of_nat j) = false) →
       stop_reason bs dr6 = Ret reason).
Proof.
  intros Hlen. exists (control_value bs). split_and!; [done| | |].
  - intros k Hk. unfold control_value. rewrite control_flags by lia.
    rewrite dr7_flags_from, Dr7_LE_bit, Dr7_GE_bit, Dr7_GD_bit, !Z.lor_spec, !orb_true_iff.
    rewrite !testbit_pow2, !bool_decide_eq_true by lia. split; intuition lia.
  - intros n b Hs. apply (control_slot 0 bs _ n b); [lia|done].
  - intros n b reason dr6 Hs Hr Hstep Hn Hlow.
    assert (n < 4)%nat.
    { unfold slot in Hs. destruct (bs !! n) eqn:Hl; [|done]. apply lookup_lt_Some in Hl. lia. }
    unfold stop_reason. rewrite Dr6_STEP_bit, dr6_contains_bit, Hstep by lia.
    rewrite (find_trap dr6 n) by done. cbn [unwrap mbind exec_bind].
    unfold slot in Hs. rewrite Hs. cbn [unwrap mbind exec_bind]. unfold reason_for in Hr.
    destruct (hw_condition b); congruence.
Qed.

End Registers.

(** ** The architecture's encoding, as an instance *)
Module Example.

(** A value is its flags, and the condition and size of each register. *)
Record dr7 := Dr7 { d_flags : Z; d_cond : nat → HwBreakpointCondition; d_size : nat → Z }.

#[local] Instance example_debug : X86Debug := {|
  HwBreakpointSize := Z;
  size_try_from k := if bool_decide (k ∈ [1; 2; 4; 8]) then Some k else None;
  VirtAddr_new a := if decide (0 ≤ a < 2 ^ 47) then Ret a else Panic;
  Dr7_LOCAL_EXACT_BREAKPOINT_ENABLE := 0x100;
  Dr7_GLOBAL_EXACT_BREAKPOINT_ENABLE := 0x200;
  Dr7_GENERAL_DETECT_ENABLE := 0x2000;
  Dr7_global_breakpoint_enable n := 2 ^ (2 * Z.of_nat n + 1);
  Dr7Value := dr7;
  dr7_from f := Dr7 f (λ _, InstructionExecution) (λ _, 1);
  dr7_flags := d_flags;
  dr7_insert v f := Dr7 (Z.lor (d_flags v) f) (d_cond v) (d_size v);
  dr7_set_condition v n c := Dr7 (d_flags v) (λ m, if decide (n = m) then c else d_cond v m) (d_size v);
  dr7_condition := d_cond;
  dr7_set_size v n s := Dr7 (d_flags v) (d_cond v) (λ m, if decide (n = m) then s else d_size v m);
  dr7_size := d_size;
  dr7_bits v := d_flags v;
  Dr6_STEP := 0x4000;
  Dr6_trap n := 2 ^ Z.of_nat n;
|}.

#[local] Instance example_debug_laws : X86DebugLaws.
Proof. split; try done. intros a Ha. cbn. by rewrite decide_True. Qed.

Definition bp : HwBreakpoint := {| hw_addr := 0x200000; hw_size := 1; hw_condition := InstructionExecution |}.
Definition wp : HwBreakpoint := {| hw_addr := 0x300000; hw_size := 8; hw_condition := DataWrites |}.

Lemma hw_breakpoints_multiset_example :
  active (try_insert [None; Some wp; None; None] bp).1 ≡ₚ bp :: [wp].
Proof.
  destruct (hw_breakpoints_multiset [None; Some wp; None; None] bp) as [(_ & _ & Hins) _].
  - done.
  - exact Hins.
Qed.

Lemma hw_breakpoints_registers_witness :
  stop_reason [None; Some wp; None; None] 2 = Ret (Watch WatchWrite 0x300000).
Proof.
  destruct (hw_breakpoints_registers [None; Some wp; None; None]) as (v & _ & _ & _ & Hstop).
  - done.
  - apply (Hstop 1%nat wp); try done. intros [|j] Hj; [done|lia].
Defined.
End Example.
