(* ===== verification/Gdb.v ===== *)
(** * The debugger's target (src/linux/gdb/mod.rs, breakpoints.rs,
      section_offsets.rs)

    [GdbUhyve]: software breakpoints, which replace guest instructions by
    one-byte traps and remember what they replaced; hardware breakpoints and
    watchpoints; access to guest memory; resuming and stepping the vCPU, and
    the reason it stopped with.  The constants of kvm_bindings and the
    debugger's connection are parameters. *)

From S2P Require Import Prelude Memory Consts Paging AddressSpace Hypercalls CommandLine.
From S2P Require Import Loader Virtqueue Virtio KvmVcpu GdbRegs LinuxVcpu DebugRegs.

(** ** Parameters *)

Class KvmDebug := {
  DB_VECTOR : Z;
  BP_VECTOR : Z;
  KVM_GUESTDBG_ENABLE : Z;
  KVM_GUESTDBG_SINGLESTEP : Z;
  KVM_GUESTDBG_USE_HW_BP : Z;
  KVM_GUESTDBG_USE_SW_BP : Z;
}.

(** libc's [EINVAL]. *)
Definition EINVAL : Z := 22.

(** ** State *)

(** [SwBreakpoint]: address and kind, the number of bytes. *)
Definition SwBreakpoint : Type := Z * Z.
Definition OPCODE : Z := 0xcc.

Record GdbUhyve `{X86Debug} (V C W T : Type) := Gdb {
  gdb_vm : V;
  gdb_vcpu : vm_state C W T;
  hw_breakpoints : list (option HwBreakpoint);
  sw_breakpoints : gmap (Z * Z) (list Z);
}.
Arguments Gdb {_ V C W T} _ _ _ _.
Arguments gdb_vm {_ V C W T} _.
Arguments gdb_vcpu {_ V C W T} _.
Arguments hw_breakpoints {_ V C W T} _.
Arguments sw_breakpoints {_ V C W T} _.

Section Target.
Context `{Profile, X86Debug, KvmDebug} {V C W T : Type}.
Implicit Types g : GdbUhyve V C W T.

Definition gdb_new (vm : V) (vcpu : vm_state C W T) : GdbUhyve V C W T := Gdb vm vcpu hw_new ∅.

Definition gdb_mem (g : GdbUhyve V C W T) : mem := h_mem (st_host (gdb_vcpu g)).

(** [self.vcpu.memory(addr, len)]. *)
Definition gdb_slice (g : GdbUhyve V C W T) (addr len : Z) : exec Z :=
  memory (gdb_mem g) (cpu_vm_start (st_cpu (gdb_vcpu g))) addr len.

Definition with_memory (m : mem) (sw : gmap (Z * Z) (list Z)) (g : GdbUhyve V C W T) :
    GdbUhyve V C W T :=
  Gdb (gdb_vm g) (with_mem m (gdb_vcpu g)) (hw_breakpoints g) sw.

Definition with_hw (hw : list (option HwBreakpoint)) (g : GdbUhyve V C W T) : GdbUhyve V C W T :=
  Gdb (gdb_vm g) (gdb_vcpu g) hw (sw_breakpoints g).

(** ** Breakpoints *)

Definition add_sw_breakpoint (g : GdbUhyve V C W T) (addr kind : Z) : exec (GdbUhyve V C W T * bool) :=
  match sw_breakpoints g !! (addr, kind) with
  | None =>
      p ← gdb_slice g addr kind;
      instructions ← load_bytes (gdb_mem g) p (Z.to_nat kind);
      m ← store_bytes (gdb_mem g) p (replicate (Z.to_nat kind) OPCODE);
      Ret (with_memory m (<[(addr, kind) := instructions]> (sw_breakpoints g)) g, true)
  | Some _ => Ret (g, false)
  end.

Definition remove_sw_breakpoint (g : GdbUhyve V C W T) (addr kind : Z) : exec (GdbUhyve V C W T * bool) :=
  match sw_breakpoints g !! (addr, kind) with
  | Some instructions =>
      p ← gdb_slice g addr kind;
      rust_assert (Z.of_nat (length instructions) =? kind) ;;
      m ← store_bytes (gdb_mem g) p instructions;
      Ret (with_memory m (delete (addr, kind) (sw_breakpoints g)) g, true)
  | None => Ret (g, false)
  end.

(** Inserting and taking a hardware breakpoint, once it is constructed. *)
Definition insert_hw (g : GdbUhyve V C W T) (b : option HwBreakpoint) : GdbUhyve V C W T * bool :=
  match b with
  | Some b =>
      let '(hw, r) := try_insert (hw_breakpoints g) b in
      (with_hw hw g, match r with Ok _ => true | Err _ => false end)
  | None => (g, false)
  end.

Definition take_hw (g : GdbUhyve V C W T) (b : option HwBreakpoint) : GdbUhyve V C W T * bool :=
  match b with
  | Some b =>
      let '(hw, r) := hw_take (hw_breakpoints g) b in
      (with_hw hw g, match r with Some _ => true | None => false end)
  | None => (g, false)
  end.

Definition add_hw_breakpoint (g : GdbUhyve V C W T) (addr kind : Z) : exec (GdbUhyve V C W T * bool) :=
  insert_hw g <$> new_breakpoint addr kind.

Definition remove_hw_breakpoint (g : GdbUhyve V C W T) (addr kind : Z) : exec (GdbUhyve V C W T * bool) :=
  take_hw g <$> new_breakpoint addr kind.

Definition add_hw_watchpoint (g : GdbUhyve V C W T) (addr len : Z) (kind : WatchKind) :
    exec (GdbUhyve V C W T * bool) :=
  insert_hw g <$> new_watchpoint addr len kind.

Definition remove_hw_watchpoint (g : GdbUhyve V C W T) (addr len : Z) (kind : WatchKind) :
    exec (GdbUhyve V C W T * bool) :=
  take_hw g <$> new_watchpoint addr len kind.

(** ** Memory, registers and section offsets *)

Definition read_addrs (g : GdbUhyve V C W T) (start_addr : Z) (len : nat) : exec (list Z) :=
  src ← gdb_slice g start_addr (Z.of_nat len);
  load_bytes (gdb_mem g) src len.

Definition write_addrs (g : GdbUhyve V C W T) (start_addr : Z) (data : list Z) : exec (GdbUhyve V C W T) :=
  p ← gdb_slice g start_addr (Z.of_nat (length data));
  m ← store_bytes (gdb_mem g) p data;
  Ret (with_memory m (sw_breakpoints g) g).

(** [error.errno().try_into().unwrap()]: the number of an error is a [u8]. *)
Definition errno_of {A} (r : result Z A) : exec (result Z A) :=
  match r with
  | Ok a => Ret (Ok a)
  | Err e => e ← unwrap (try_into 8 e); Ret (Err e)
  end.

Definition read_registers `{KvmVcpu C} (g : GdbUhyve V C W T) : exec (result Z X86_64CoreRegs) :=
  errno_of (GdbRegs.read (cpu_vcpu (st_cpu (gdb_vcpu g)))).

Definition write_registers `{KvmVcpu C} (g : GdbUhyve V C W T) (regs : X86_64CoreRegs) :
    exec (result Z (GdbUhyve V C W T)) :=
  r ← GdbRegs.write regs (cpu_vcpu (st_cpu (gdb_vcpu g)));
  r ← errno_of r;
  match r with
  | Ok c => Ret (Ok (Gdb (gdb_vm g) (with_vcpu c (gdb_vcpu g)) (hw_breakpoints g) (sw_breakpoints g)))
  | Err e => Ret (Err e)
  end.

(** gdbstub's [Offsets::Sections]. *)
Record Offsets := Sections { text_offset : Z; data_offset : Z; bss_offset : option Z }.

Definition get_section_offsets `{Vm V} (g : GdbUhyve V C W T) : Offsets :=
  let offset := get_offset (gdb_vm g) in Sections offset offset (Some offset).

(** ** Running *)

Definition apply_guest_debug `{KvmRun C} (g : GdbUhyve V C W T) (step : bool) :
    result Z (GdbUhyve V C W T) :=
  let debugreg := DebugRegs.registers (hw_breakpoints g) in
  let control := Z.lor (Z.lor KVM_GUESTDBG_ENABLE KVM_GUESTDBG_USE_SW_BP) KVM_GUESTDBG_USE_HW_BP in
  let control := if step then Z.lor control KVM_GUESTDBG_SINGLESTEP else control in
  match set_guest_debug (cpu_vcpu (st_cpu (gdb_vcpu g))) (GuestDebug control debugreg) with
  | Ok c => Ok (Gdb (gdb_vm g) (with_vcpu c (gdb_vcpu g)) (hw_breakpoints g) (sw_breakpoints g))
  | Err e => Err e
  end.

Definition resume `{KvmRun C} (g : GdbUhyve V C W T) (signal : option Z) : result Z (GdbUhyve V C W T) :=
  match signal with Some _ => Err EINVAL | None => apply_guest_debug g false end.

Definition step `{KvmRun C} (g : GdbUhyve V C W T) (signal : option Z) : result Z (GdbUhyve V C W T) :=
  match signal with Some _ => Err EINVAL | None => apply_guest_debug g true end.

(** [Dr6Flags::from_bits_truncate] keeps the bits that are flags. *)
Definition gdb_stop (dr6_truncate : Z → Z) (g : GdbUhyve V C W T) (reason : VcpuStopReason) : exec StopReason :=
  match reason with
  | Debug debug =>
      if dbg_exception debug =? DB_VECTOR then
        stop_reason (hw_breakpoints g) (dr6_truncate (dbg_dr6 debug))
      else if dbg_exception debug =? BP_VECTOR then Ret SwBreak
      else Panic
  | Exit code => Ret (Exited (if code =? 0 then 0 else 1))
  | Kick => Ret SignalInt
  end.

Definition gdb_run `{KvmVcpu C, KvmRun C, HostOS W, VirtioNet} (dr6_truncate : Z → Z)
    (env : tap_env T) (args : list (list Z)) (vars : list (list Z * list Z))
    (write_fuel tx_fuel fuel : nat) (g : GdbUhyve V C W T) :
    option (exec (result Z StopReason * GdbUhyve V C W T)) :=
  r ← continue env args vars write_fuel tx_fuel fuel (gdb_vcpu g);
  Some ('(reason, vcpu) ← r;
        let g := Gdb (gdb_vm g) vcpu (hw_breakpoints g) (sw_breakpoints g) in
        match reason with
        | Ok reason => stop ← gdb_stop dr6_truncate g reason; Ret (Ok stop, g)
        | Err e => Ret (Err e, g)
        end).

(** gdbstub's [Event], and the error of the target or of the connection. *)
Inductive Event := IncomingData (byte : Z) | TargetStopped (reason : StopReason).
Inductive WaitForStopReasonError := TargetError (e : Z) | ConnectionError (e : Z).

End Target.

(** ** Software breakpoints are transparent

    The specification: a set of breakpoints, and guest memory with the traps
    laid over it. *)

Inductive bp_op := AddSw (addr kind : Z) | RemoveSw (addr kind : Z).
Definition op_key (o : bp_op) : Z * Z :=
  match o with AddSw a k => (a, k) | RemoveSw a k => (a, k) end.

Definition spec_op (s : gset (Z * Z)) (o : bp_op) : gset (Z * Z) * bool :=
  match o with
  | AddSw a k => ({[ (a, k) ]} ∪ s, bool_decide ((a, k) ∉ s))
  | RemoveSw a k => (s ∖ {[ (a, k) ]}, bool_decide ((a, k) ∈ s))
  end.

Fixpoint spec_ops (s : gset (Z * Z)) (os : list bp_op) : gset (Z * Z) * list bool :=
  match os with
  | [] => (s, [])
  | o :: os' =>
      let '(s, r) := spec_op s o in
      let '(s, rs) := spec_ops s os' in (s, r :: rs)
  end.

Section SwBreakpoints.
Context `{Profile, X86Debug} {V C W T : Type}.
Implicit Types g : GdbUhyve V C W T.

Definition run_op (g : GdbUhyve V C W T) (o : bp_op) : exec (GdbUhyve V C W T * bool) :=
  match o with
  | AddSw a k => add_sw_breakpoint g a k
  | RemoveSw a k => remove_sw_breakpoint g a k
  end.

Fixpoint run_ops (g : GdbUhyve V C W T) (os : list bp_op) : exec (GdbUhyve V C W T * list bool) :=
  match os with
  | [] => Ret (g, [])
  | o :: os' =>
      '(g, r) ← run_op g o;
      '(g, rs) ← run_ops g os';
      Ret (g, r :: rs)
  end.

(** Guest memory before any breakpoint, the breakpoints in play, where each of
    them is in host memory, and the bytes of the page tables. *)
Context (m0 : mem) (vm_start : Z) (bps : gset (Z * Z)) (loc : Z * Z → Z) (tables : Z → Prop).

Definition inside (b : Z * Z) (x : Z) : Prop := loc b ≤ x < loc b + b.2.

(** The breakpoints translate into guest memory, whatever else of memory
    changes, lie outside the page tables, and do not overlap. *)
Record separate : Prop := {
  sep_wf : mem_wf m0;
  sep_kind b : b ∈ bps → 0 ≤ b.2;
  sep_translate b m : b ∈ bps → mem_wf m → same_map m0 m →
    (∀ x, tables x → peek m x = peek m0 x) → memory m vm_start b.1 b.2 = Ret (loc b);
  sep_tables b x : b ∈ bps → inside b x → ¬ tables x;
  sep_apart b1 b2 x : b1 ∈ bps → b2 ∈ bps → inside b1 x → inside b2 x → b1 = b2;
}.

(** Memory [m] is [m0] with the traps of the breakpoints of [sw] laid over it,
    and [sw] remembers what they cover. *)
Record overlay (sw : gmap (Z * Z) (list Z)) (m : mem) : Prop := {
  ov_wf : mem_wf m;
  ov_map : same_map m0 m;
  ov_bps b : is_Some (sw !! b) → b ∈ bps;
  ov_saved b bs : sw !! b = Some bs → bs = peeks m0 (loc b) (Z.to_nat b.2);
  ov_trap b x : is_Some (sw !! b) → inside b x → peek m x = OPCODE;
  ov_rest x : (∀ b, is_Some (sw !! b) → ¬ inside b x) → peek m x = peek m0 x;
}.

Hypothesis Hsep : separate.

Lemma overlay_tables sw m x : overlay sw m → tables x → peek m x = peek m0 x.
Proof.
  intros Hov Hx. apply (ov_rest _ _ Hov). intros b Hb Hin.
  by eapply (sep_tables Hsep b x); [eapply ov_bps| |].
Qed.

Lemma overlay_memory sw m b :
  overlay sw m → b ∈ bps →
  memory m vm_start b.1 b.2 = Ret (loc b) ∧ valid m (loc b) b.2.
Proof.
  intros Hov Hb. assert (memory m vm_start b.1 b.2 = Ret (loc b)) as Hm.
  { apply (sep_translate Hsep); [done|apply Hov|apply Hov|]. intros x. by eapply overlay_tables. }
  split; [done|]. unfold memory in Hm. exec_inv. by case_decide; exec_inv.
Qed.

Lemma overlay_add sw m b :
  overlay sw m → b ∈ bps → sw !! b = None →
  let bs := peeks m (loc b) (Z.to_nat b.2) in
  overlay (<[b := bs]> sw) (write_bytes m (loc b) (replicate (Z.to_nat b.2) OPCODE)).
Proof.
  intros Hov Hb Hnone bs. pose proof (sep_kind Hsep b Hb) as Hk. pose proof Hov as [Hwf Hm Hin Hs Ht Hr].
  assert (Hfree : ∀ x, inside b x → peek m x = peek m0 x).
  { intros x Hx. apply Hr. intros b' Hb' Hx'.
    assert (b' = b) as -> by (by eapply (sep_apart Hsep _ _ x); [apply Hin| | |]).
    rewrite Hnone in Hb'. by destruct Hb'. }
  split.
  - apply mem_wf_write; [done|]. by apply Forall_replicate.
  - done.
  - intros b' Hb'. destruct (decide (b' = b)) as [->|Hne]; [done|].
    rewrite lookup_insert_ne in Hb' by done. by apply Hin.
  - intros b' bs' Hb'. destruct (decide (b' = b)) as [->|Hne].
    + rewrite lookup_insert_eq in Hb'. injection Hb' as <-. apply peeks_ext.
      intros x Hx. apply Hfree. unfold inside. lia.
    + rewrite lookup_insert_ne in Hb' by done. by apply Hs.
  - intros b' x Hb' Hx. rewrite peek_write, length_replicate.
    destruct (decide (b' = b)) as [->|Hne].
    + unfold inside in Hx. rewrite decide_True by lia.
      apply lookup_total_replicate_2. lia.
    + rewrite lookup_insert_ne in Hb' by done.
      case_decide as Hd; [|by apply (Ht b')].
      exfalso. apply Hne. eapply (sep_apart Hsep _ _ x); [by apply Hin|done|done|].
      unfold inside. lia.
  - intros x Hx. rewrite peek_write_out.
    + apply Hr. intros b' Hb'. apply Hx. rewrite lookup_insert_ne; [done|]. intros <-.
      rewrite Hnone in Hb'. by destruct Hb'.
    + rewrite length_replicate. specialize (Hx b). rewrite lookup_insert_eq in Hx.
      unfold inside in Hx. intros Hx'. apply Hx; [done|]. lia.
Qed.

Lemma overlay_remove sw m b bs :
  overlay sw m → sw !! b = Some bs →
  overlay (delete b sw) (write_bytes m (loc b) bs).
Proof.
  intros Hov Hb. pose proof Hov as [Hwf Hm Hin Hs Ht Hr].
  assert (b ∈ bps) as Hbps by (apply Hin; by rewrite Hb).
  pose proof (sep_kind Hsep b Hbps) as Hk.
  rewrite (Hs b bs Hb) in *. set (saved := peeks m0 (loc b) (Z.to_nat b.2)) in *.
  assert (length saved = Z.to_nat b.2) as Hlen by apply length_peeks.
  split.
  - apply mem_wf_write; [done|]. apply peeks_bytes, Hsep.
  - done.
  - intros b' [Hne Hb']%lookup_delete_is_Some. by apply Hin.
  - intros b' bs' [Hne Hb']%lookup_delete_Some. by apply Hs.
  - intros b' x [Hne Hb']%lookup_delete_is_Some Hx.
    rewrite peek_write_out; [by apply (Ht b')|]. intros Hx'. apply Hne.
    eapply (sep_apart Hsep _ _ x); [done|by apply Hin| |done]. unfold inside. lia.
  - intros x Hx. rewrite peek_write, Hlen. case_decide as Hd.
    + apply list_lookup_total_correct. unfold saved. rewrite lookup_peeks by lia. do 2 f_equal. lia.
    + apply Hr. intros b' Hb' Hx'. destruct (decide (b' = b)) as [->|Hne].
      * unfold inside in Hx'. lia.
      * apply (Hx b'); [|done]. by rewrite lookup_delete_ne.
Qed.

(** The state of the target that a set of operations leads to. *)
Record transparent (g : GdbUhyve V C W T) (s : gset (Z * Z)) : Prop := {
  tr_start : cpu_vm_start (st_cpu (gdb_vcpu g)) = vm_start;
  tr_dom : dom (sw_breakpoints g) = s;
  tr_overlay : overlay (sw_breakpoints g) (gdb_mem g);
}.

Lemma lookup_dom g s b : transparent g s → b ∈ s ↔ is_Some (sw_breakpoints g !! b).
Proof. intros [_ <- _]. by rewrite elem_of_dom. Qed.

Lemma run_op_ok g s o :
  transparent g s → op_key o ∈ bps →
  ∃ g', run_op g o = Ret (g', (spec_op s o).2) ∧ transparent g' (spec_op s o).1.
Proof.
  intros Hg Ho. pose proof Hg as [Hstart Hdom Hov].
  destruct (overlay_memory _ _ _ Hov Ho) as [Hmem Hv]. pose proof (sep_kind Hsep _ Ho) as Hk.
  destruct o as [a k|a k]; cbn [op_key fst snd run_op spec_op] in *.
  - unfold add_sw_breakpoint. destruct (sw_breakpoints g !! (a, k)) as [bs|] eqn:Hl.
    + assert ((a, k) ∈ s) as Hin by (by rewrite (lookup_dom g), Hl).
      rewrite bool_decide_eq_false_2 by tauto. exists g. split; [done|].
      rewrite subseteq_union_1_L by (by apply singleton_subseteq_l). done.
    + assert ((a, k) ∉ s) as Hin by (rewrite (lookup_dom g), Hl by done; by intros []).
      rewrite bool_decide_eq_true_2 by done. unfold gdb_slice. rewrite Hstart, Hmem.
      cbn [mbind exec_bind]. unfold load_bytes. rewrite decide_True by (by rewrite Z2Nat.id).
      cbn [mbind exec_bind]. unfold store_bytes.
      rewrite decide_True by (by rewrite length_replicate, Z2Nat.id).
      eexists. split; [reflexivity|]. split; [done| |].
      * cbn [sw_breakpoints with_memory]. by rewrite dom_insert_L, Hdom.
      * by apply (overlay_add _ _ (a, k)).
  - unfold remove_sw_breakpoint. destruct (sw_breakpoints g !! (a, k)) as [bs|] eqn:Hl.
    + assert ((a, k) ∈ s) as Hin by (by rewrite (lookup_dom g), Hl).
      rewrite bool_decide_eq_true_2 by done. unfold gdb_slice. rewrite Hstart, Hmem.
      cbn [mbind exec_bind].
      assert (Z.of_nat (length bs) = k) as Hlen.
      { rewrite (ov_saved _ _ Hov _ _ Hl), length_peeks. cbn [snd]. lia. }
      rewrite Hlen, Z.eqb_refl. cbn [rust_assert mbind exec_bind]. unfold store_bytes.
      rewrite decide_True by (by rewrite Hlen).
      eexists. split; [reflexivity|]. split; [done| |].
      * cbn [sw_breakpoints with_memory]. by rewrite dom_delete_L, Hdom.
      * by apply (overlay_remove _ _ (a, k)).
    + assert ((a, k) ∉ s) as Hin by (rewrite (lookup_dom g), Hl by done; by intros []).
      rewrite bool_decide_eq_false_2 by done. exists g. split; [done|].
      rewrite difference_disjoint_L by (by apply disjoint_singleton_r). done.
Qed.

Lemma run_ops_ok os g s :
  transparent g s → Forall (λ o, op_key o ∈ bps) os →
  ∃ g', run_ops g os = Ret (g', (spec_ops s os).2) ∧ transparent g' (spec_ops s os).1.
Proof.
  intros Hg Hos. revert g s Hg. induction Hos as [|o os Ho _ IH]; intros g s Hg; [by exists g|].
  cbn [run_ops spec_ops]. destruct (run_op_ok g s o Hg Ho) as (g1 & -> & Hg1).
  destruct (spec_op s o) as [s1 r]. cbn [fst snd mbind exec_bind] in *.
  destruct (IH g1 s1 Hg1) as (g' & -> & Hg'). exists g'.
  by destruct (spec_ops s1 os).
Qed.

Lemma overlay_empty m : overlay ∅ m → m ≡ m0.
Proof.
  intros [_ [Hb Hsz] _ _ _ Hr]. split_and!; [done|done|]. intros x. apply Hr.
  intros b. rewrite lookup_empty. by intros [].
Qed.

(** C21: Software breakpoints are a set, and invisible once removed.  The
    breakpoints in play translate into guest memory, lie outside the page
    tables, and no two of them overlap.  Then any sequence of insertions and
    removals of them, repeated and unmatched ones included, answers as the set
    does, leaves guest memory what it was but for a trap
    on every byte of the breakpoints still set, and gives back the original
    memory when none is left. *)
Theorem sw_breakpoints_transparent g os :
  cpu_vm_start (st_cpu (gdb_vcpu g)) = vm_start → gdb_mem g = m0 → sw_breakpoints g = ∅ →
  Forall (λ o, op_key o ∈ bps) os →
  ∃ g', run_ops g os = Ret (g', (spec_ops ∅ os).2) ∧
    dom (sw_breakpoints g') = (spec_ops ∅ os).1 ∧
    overlay (sw_breakpoints g') (gdb_mem g') ∧
    ((spec_ops ∅ os).1 = ∅ → gdb_mem g' ≡ m0).
Proof.
  intros Hstart Hm Hsw Hos.
  assert (transparent g ∅) as Hg.
  { split; [done|by rewrite Hsw, dom_empty_L|]. rewrite Hsw, Hm.
    split; [apply Hsep|done| | | |done]; intros b; rewrite lookup_empty; [by intros []|done|by intros ? []]. }
  destruct (run_ops_ok os g ∅ Hg Hos) as (g' & Hrun & [_ Hdom Hov]).
  exists g'. split_and!; [done|done|done|]. intros Hnone. rewrite Hnone in Hdom.
  apply dom_empty_inv_L in Hdom. rewrite Hdom in Hov. by apply overlay_empty.
Qed.

End SwBreakpoints.

(** What the debugger writes to guest memory is what it reads back, as long as
    it does not write over the page tables that translate the address. *)
Lemma write_read_addrs `{Profile, X86Debug} {V C W T} (g : GdbUhyve V C W T) a data g' :
  write_addrs g a data = Ret g' →
  gdb_slice g' a (Z.of_nat (length data)) = gdb_slice g a (Z.of_nat (length data)) →
  read_addrs g' a (length data) = Ret data.
Proof.
  intros Hw Hs. unfold write_addrs in Hw. exec_inv.
  unfold read_addrs. rewrite Hs.
  match goal with Hp : gdb_slice g a _ = Ret ?p |- _ => rewrite Hp; rename p into ptr end.
  cbn [mbind exec_bind].
  match goal with Hst : store_bytes _ _ _ = Ret _ |- _ => unfold store_bytes in Hst;
    case_decide as Hv; [exec_inv|done] end.
  unfold load_bytes. cbn [gdb_mem with_memory gdb_vcpu with_mem with_host st_host h_mem].
  rewrite decide_True by exact Hv. f_equal. apply peeks_write_same.
Qed.

(** ** Breakpoints on a booted machine *)
Module Example.
#[local] Existing Instance debug_profile.
#[local] Existing Instance DebugRegs.Example.example_debug.
Import Hypercalls.Example.

Definition target (m : mem) : GdbUhyve unit unit world unit :=
  Gdb () (State (Cpu 0 () base [107] None None) (Host m (World [] 3)) Virtio.Example.fresh [])
    hw_new ∅.

Definition zeroed : mem := Mem base 0x400000 ∅.
Lemma zeroed_memory_wf : mem_wf zeroed.
Proof. by split. Qed.

Definition bps : gset (Z * Z) := {[ (0x200000, 1); (0x200010, 1) ]}.
Definition loc (b : Z * Z) : Z := b.1 + base.
Definition tables (x : Z) : Prop := base + 0x10000 ≤ x < base + 0x13000.

Lemma elem_bps b : b ∈ bps → b = (0x200000, 1) ∨ b = (0x200010, 1).
Proof. unfold bps. rewrite elem_of_union, !elem_of_singleton. done. Qed.

Lemma boot_tables_frame m m' :
  boot_tables m → mem_base m = base → same_map m m' → (∀ x, tables x → peek m' x = peek m x) →
  boot_tables m'.
Proof.
  intros [H1 H2 H3 H4] Hb [Hb' Hs'] Hx. unfold tables in Hx.
  unfold BOOT_PML4, BOOT_PDPTE, BOOT_PDE in *.
  split; [rewrite <- H1|rewrite <- H2|rewrite <- H3|intros i Hi; rewrite <- (H4 i Hi)];
    rewrite Hb'; apply load_ext; try done; intros; apply Hx; cbn in *; lia.
Qed.

Lemma separate_example m :
  mem_wf m → boot_tables m → mem_base m = base → mem_size m = 0x400000 →
  separate m base bps loc tables.
Proof.
  intros Hwf Hbt Hb Hs. split; [done| | | |].
  - intros b [->| ->]%elem_bps; cbn; lia.
  - intros b m' Hin Hwf' [Hb' Hs'] Hx.
    assert (boot_tables m') as Hbt' by (by eapply boot_tables_frame).
    unfold LinuxVcpu.memory. rewrite Hb in Hb'. rewrite Hs in Hs'.
    assert (0 ≤ b.1 < 2 ^ 30) as Ha by (apply elem_bps in Hin as [->| ->]; cbn; lia).
    rewrite <- Hb', boot_virt_to_phys by (done || lia). cbn [mbind exec_bind].
    rewrite Hb'. unfold host_address, base. arith_ok. unfold loc.
    rewrite decide_True; [done|]. unfold valid. rewrite Hb', Hs'. unfold base.
    apply elem_bps in Hin as [->| ->]; cbn; lia.
  - intros b x [->| ->]%elem_bps; unfold inside, tables, loc; cbn; lia.
  - intros b1 b2 x [->| ->]%elem_bps [->| ->]%elem_bps; unfold inside, loc; cbn; try done; lia.
Qed.

Lemma sw_breakpoints_transparent_witness :
  ∃ m g', init_guest_mem zeroed = Ret m ∧
    run_ops (target m) [AddSw 0x200000 1; AddSw 0x200010 1; AddSw 0x200000 1;
                        RemoveSw 0x200010 1; RemoveSw 0x200000 1] =
      Ret (g', [true; true; false; true; true]) ∧ gdb_mem g' ≡ m.
Proof.
  destruct (init_guest_mem_spec zeroed zeroed_memory_wf) as (m & Hm & Hwf & Hb & Hs & Hbt & _).
  { cbn [mem_size zeroed]. lia. }
  destruct (sw_breakpoints_transparent (V := unit) (C := unit) (W := world) (T := unit)
    m base bps loc tables) with (g := target m)
    (os := [AddSw 0x200000 1; AddSw 0x200010 1; AddSw 0x200000 1;
            RemoveSw 0x200010 1; RemoveSw 0x200000 1]) as (g' & Hrun & _ & _ & Hmem).
  - by apply separate_example.
  - reflexivity.
  - reflexivity.
  - reflexivity.
  - evaluate.
  - exists m, g'. split; [exact Hm|]. split; [exact Hrun|]. apply Hmem. vm_compute. reflexivity.
Defined.

(** Breakpoints that overlap are not: removed in the order they were set, they
    leave the trap of the second one's first byte behind. *)
Lemma overlapping_breakpoints :
  peek (memory write_args) (base + 0x3001) = 101 ∧
  match run_ops (target (memory write_args))
          [AddSw 0x3000 2; AddSw 0x3001 2; RemoveSw 0x3000 2; RemoveSw 0x3001 2] with
  | Ret (g, answers) =>
      answers = [true; true; true; true] ∧ peek (gdb_mem g) (base + 0x3001) = OPCODE
  | _ => False
  end.
Proof. split; [by vm_compute|]. vm_compute. done. Qed.
End Example.
