(* ===== verification/IoApic.v ===== *)
(** * The I/O APIC of the macOS port (src/macos/ioapic.rs)

    A window of two registers: the guest selects an entry and then reads or
    writes it. *)

From S2P Require Import Prelude.

Definition REDIR_ENTRIES : Z := 24.
Definition IOAPIC_REG_TABLE : Z := 0x0010.

Record IoApic := Ioapic { ioapic_selector : Z; ioapic_rtbl : list Z }.

(** Number of entries of the table. *)
Definition rtbl_len : nat := Z.to_nat (IOAPIC_REG_TABLE + 2 * REDIR_ENTRIES).

Definition ioapic_new : IoApic :=
  let rtbl := replicate rtbl_len 0 in
  let rtbl := <[1%nat := Z.lor 0x11 (Z.shiftl (REDIR_ENTRIES - 1) 16)]> rtbl in
  let rtbl := foldl (λ t i, <[Z.to_nat i := 0x00010000]> t) rtbl
                (seqZ IOAPIC_REG_TABLE (REDIR_ENTRIES - IOAPIC_REG_TABLE)) in
  Ioapic 0 rtbl.

(** [rtbl[selector]] panics beyond the table. *)
Definition ioapic_write (a : IoApic) (offset value : Z) : exec IoApic :=
  if offset =? 0x00 then Ret (Ioapic value (ioapic_rtbl a))
  else if offset =? 0x10 then
    rust_assert (ioapic_selector a <? Z.of_nat (length (ioapic_rtbl a))) ;;
    Ret (Ioapic (ioapic_selector a)
           (<[Z.to_nat (ioapic_selector a) := wrap 32 value]> (ioapic_rtbl a)))
  else Panic.

Definition ioapic_read (a : IoApic) (offset : Z) : exec Z :=
  if offset =? 0x00 then Ret (ioapic_selector a)
  else if offset =? 0x10 then unwrap (ioapic_rtbl a !! Z.to_nat (ioapic_selector a))
  else Panic.

(** ** The window *)

(** The table has its 64 entries, of 32 bits each; the selector is whatever
    the guest wrote. *)
Record ioapic_wf (a : IoApic) : Prop := {
  io_len : length (ioapic_rtbl a) = 64%nat;
  io_entries : Forall (fits 32) (ioapic_rtbl a);
  io_selector : 0 ≤ ioapic_selector a;
}.

Lemma ioapic_new_wf : ioapic_wf ioapic_new.
Proof. split; [done| |done]. evaluate. Qed.

(** Accesses keep the table well formed; there are two registers. *)
Lemma ioapic_write_wf a offset value a' :
  0 ≤ value → ioapic_wf a → ioapic_write a offset value = Ret a' → ioapic_wf a'.
Proof.
  intros Hval [Hl He Hs] Hw. unfold ioapic_write in Hw. destruct (offset =? 0x00).
  { exec_inv. by split. }
  destruct (offset =? 0x10); [|done]. exec_inv.
  split; cbn [ioapic_rtbl ioapic_selector]; [by rewrite length_insert| |done].
  apply Forall_insert; [done|]. by apply wrap_range.
Qed.

(** The window onto the table: after selecting an entry, the guest reads
    back the 32 bits it writes, and no other entry changes; selecting an
    entry the table does not have makes the next access panic. *)
Lemma ioapic_window a sel value :
  ioapic_wf a → 0 ≤ sel →
  ∃ a1, ioapic_write a 0x00 sel = Ret a1 ∧ ioapic_read a1 0x00 = Ret sel ∧
    ioapic_rtbl a1 = ioapic_rtbl a ∧
    if decide (sel < 64) then
      ∃ a2, ioapic_write a1 0x10 value = Ret a2 ∧ ioapic_wf a2 ∧
        ioapic_read a2 0x10 = Ret (wrap 32 value) ∧
        ∀ i, i ≠ Z.to_nat sel → ioapic_rtbl a2 !! i = ioapic_rtbl a !! i
    else ioapic_write a1 0x10 value = Panic ∧ ioapic_read a1 0x10 = Panic.
Proof.
  intros [Hl He _] Hsel. exists (Ioapic sel (ioapic_rtbl a)). split_and!; [done..|].
  unfold ioapic_write, ioapic_read. cbn [Z.eqb Pos.eqb ioapic_selector ioapic_rtbl].
  rewrite Hl. destruct (decide (sel < 64)) as [Hlt|Hge].
  - rewrite (proj2 (Z.ltb_lt _ _)) by lia. cbn [rust_assert mbind exec_bind].
    eexists. split; [done|]. cbn [ioapic_selector ioapic_rtbl]. split_and!.
    + split; cbn [ioapic_rtbl ioapic_selector]; [by rewrite length_insert| |done].
      apply Forall_insert; [done|]. by apply wrap_range.
    + by rewrite list_lookup_insert_eq by lia.
    + intros i Hi. by rewrite list_lookup_insert_ne by done.
  - rewrite (proj2 (Z.ltb_ge _ _)) by lia. split; [done|].
    by rewrite lookup_ge_None_2 by lia.
Qed.

Lemma ioapic_window_example :
  ∃ a2, ioapic_write (Ioapic 0x10 (ioapic_rtbl ioapic_new)) 0x10 0x10031 = Ret a2 ∧
    ioapic_read a2 0x10 = Ret 0x10031.
Proof.
  destruct (ioapic_window ioapic_new 0x10 0x10031) as (a1 & Hsel & _ & _ & a2 & Hw & _ & Hr & _).
  - apply ioapic_new_wf.
  - lia.
  - injection Hsel as <-. exists a2. split; [exact Hw|exact Hr].
Qed.

(** A redirection entry is two registers from [0x10] on, and bit 16 of the
    first masks its interrupt.  Of the 24 interrupts, [ioapic_new] masks the
    first four; the others, whose registers start at [0x18], are left
    unmasked. *)
Definition masked (a : IoApic) (n : nat) : bool :=
  Z.testbit (ioapic_rtbl a !!! (16 + 2 * n)%nat) 16.

Lemma new_masks_four : ∀ n, (n < 24)%nat → masked ioapic_new n = bool_decide (n < 4)%nat.
Proof.
  intros n Hn. assert (Forall (λ n, masked ioapic_new n = bool_decide (n < 4)%nat) (seq 0 24))
    as Hall by evaluate.
  rewrite Forall_forall in Hall. apply Hall, elem_of_seq. lia.
Qed.
