(* ===== verification/MacSetup.v ===== *)
(** * A virtual CPU on macOS: the hypervisor framework and its set-up
      (src/macos/vcpu.rs)

    The [vCPU] of the xhypervisor crate, as a class over an abstract state:
    registers and fields of the virtual-machine control structure (VMCS) that
    can be read and written, each access fallible.  On top of it the set-up of
    a vCPU: capabilities, machine-specific registers, segments and 64-bit
    mode. *)

From S2P Require Import Prelude Memory Consts Paging AddressSpace KvmVcpu LinuxVcpu.

(** ** The hypervisor framework *)

Inductive x86Reg :=
| RIP | RFLAGS | RAX | RBX | RCX | RDX | RSI | RDI | RSP | RBP
| R8 | R9 | R10 | R11 | R12 | R13 | R14 | R15
| REG_CS | REG_DS | REG_ES | REG_SS | REG_FS | REG_GS
| CR0 | CR3 | CR4 | DR7 | XCR0.
#[export] Instance x86Reg_eq_dec : EqDecision x86Reg.
Proof. solve_decision. Defined.

Inductive Vmcs :=
| VMCS_CTRL_PIN_BASED | VMCS_CTRL_CPU_BASED | VMCS_CTRL_CPU_BASED2
| VMCS_CTRL_VMENTRY_CONTROLS | VMCS_CTRL_VMEXIT_CONTROLS | VMCS_CTRL_EXC_BITMAP
| VMCS_CTRL_TPR_THRESHOLD | VMCS_CTRL_CR0_MASK | VMCS_CTRL_CR0_SHADOW
| VMCS_CTRL_CR4_MASK | VMCS_CTRL_CR4_SHADOW
| VMCS_GUEST_CS_LIMIT | VMCS_GUEST_CS_BASE | VMCS_GUEST_CS_AR
| VMCS_GUEST_SS_LIMIT | VMCS_GUEST_SS_BASE | VMCS_GUEST_SS_AR
| VMCS_GUEST_DS_LIMIT | VMCS_GUEST_DS_BASE | VMCS_GUEST_DS_AR
| VMCS_GUEST_ES_LIMIT | VMCS_GUEST_ES_BASE | VMCS_GUEST_ES_AR
| VMCS_GUEST_FS_LIMIT | VMCS_GUEST_FS_BASE | VMCS_GUEST_FS_AR
| VMCS_GUEST_GS_LIMIT | VMCS_GUEST_GS_BASE | VMCS_GUEST_GS_AR
| VMCS_GUEST_TR_LIMIT | VMCS_GUEST_TR_BASE | VMCS_GUEST_TR_AR
| VMCS_GUEST_LDTR_LIMIT | VMCS_GUEST_LDTR_BASE | VMCS_GUEST_LDTR_AR
| VMCS_GUEST_TR | VMCS_GUEST_LDTR
| VMCS_GUEST_GDTR_BASE | VMCS_GUEST_GDTR_LIMIT | VMCS_GUEST_IDTR_BASE | VMCS_GUEST_IDTR_LIMIT
| VMCS_GUEST_IA32_EFER | VMCS_GUEST_SYSENTER_ESP | VMCS_GUEST_SYSENTER_EIP
| VMCS_GUEST_PHYSICAL_ADDRESS
| VMCS_RO_EXIT_REASON | VMCS_RO_EXIT_QUALIFIC | VMCS_RO_VMEXIT_INSTR_LEN
| VMCS_RO_VMEXIT_IRQ_INFO.
#[export] Instance Vmcs_eq_dec : EqDecision Vmcs.
Proof. solve_decision. Defined.

Inductive VMXCap := CapPINBASED | CapPROCBASED | CapPROCBASED2 | CapENTRY | CapEXIT.

Class XHypervisor (C : Type) := {
  read_register : C → x86Reg → result Z Z;
  write_register : C → x86Reg → Z → result Z C;
  read_vmcs : C → Vmcs → result Z Z;
  write_vmcs : C → Vmcs → Z → result Z C;
  enable_native_msr : C → Z → bool → result Z C;
  set_apic_addr : C → Z → result Z C;
  read_vmx_cap : VMXCap → result Z Z;
  (** [run]: the guest runs until it exits; it may write its memory. *)
  hv_run : C → mem → C * mem * result Z unit;
}.

(** Writing a register or a field determines what is read there and changes
    no other of them: the segment selectors, control registers and the
    instruction pointer are not among the fields used here. *)
Class XHypervisorLaws C `{XHypervisor C} : Prop := {
  register_write c r v c' r' : write_register c r v = Ok c' →
    read_register c' r' = if decide (r = r') then Ok v else read_register c r';
  vmcs_write_register c r v c' f : write_register c r v = Ok c' → read_vmcs c' f = read_vmcs c f;
  vmcs_write c f v c' f' : write_vmcs c f v = Ok c' →
    read_vmcs c' f' = if decide (f = f') then Ok v else read_vmcs c f';
  register_write_vmcs c f v c' r : write_vmcs c f v = Ok c' → read_register c' r = read_register c r;
  register_native_msr c i b c' r : enable_native_msr c i b = Ok c' →
    read_register c' r = read_register c r;
  vmcs_native_msr c i b c' f : enable_native_msr c i b = Ok c' → read_vmcs c' f = read_vmcs c f;
  register_apic c a c' r : set_apic_addr c a = Ok c' → read_register c' r = read_register c r;
  vmcs_apic c a c' f : set_apic_addr c a = Ok c' → read_vmcs c' f = read_vmcs c f;
  hv_run_map c m c' m' r : hv_run c m = (c', m', r) → same_map m m';
  hv_run_wf c m c' m' r : hv_run c m = (c', m', r) → mem_wf m → mem_wf m';
}.

(** A framework that carries out whatever it is asked for. *)
Record accepts C `{XHypervisor C} : Prop := {
  accepts_read c r : is_ok (read_register c r);
  accepts_write c r v : is_ok (write_register c r v);
  accepts_read_vmcs c f : is_ok (read_vmcs c f);
  accepts_write_vmcs c f v : is_ok (write_vmcs c f v);
  accepts_native_msr c i b : is_ok (enable_native_msr c i b);
  accepts_apic c a : is_ok (set_apic_addr c a);
  accepts_run c m : is_ok (hv_run c m).2;
}.

(** Control bits, machine-specific registers and flags of the crates. *)
Class VmxConsts := {
  PIN_BASED_INTR : Z; PIN_BASED_NMI : Z; PIN_BASED_VIRTUAL_NMI : Z;
  CPU_BASED_SECONDARY_CTLS : Z; CPU_BASED_MWAIT : Z; CPU_BASED_MSR_BITMAPS : Z;
  CPU_BASED_MONITOR : Z; CPU_BASED_TSC_OFFSET : Z; CPU_BASED_TPR_SHADOW : Z;
  CPU_BASED2_RDTSCP : Z; CPU_BASED2_APIC_REG_VIRT : Z;
  VMENTRY_LOAD_EFER : Z; VMENTRY_GUEST_IA32E : Z;
  IA32_FS_BASE : Z; IA32_GS_BASE : Z; IA32_KERNEL_GSBASE : Z; IA32_SYSENTER_CS : Z;
  IA32_SYSENTER_EIP : Z; IA32_SYSENTER_ESP : Z; IA32_STAR : Z; IA32_LSTAR : Z;
  IA32_CSTAR : Z; IA32_FMASK : Z; TSC : Z; IA32_TSC_AUX : Z;
  IA32_EFER : Z; IA32_MISC_ENABLE : Z; IA32_APIC_BASE : Z;
  IA32_X2APIC_TPR : Z; IA32_X2APIC_SIVR : Z; IA32_X2APIC_LVT_TIMER : Z;
  IA32_X2APIC_LVT_THERMAL : Z; IA32_X2APIC_LVT_PMI : Z; IA32_X2APIC_LVT_LINT0 : Z;
  IA32_X2APIC_LVT_LINT1 : Z; IA32_X2APIC_LVT_ERROR : Z; IA32_X2APIC_EOI : Z;
  IA32_X2APIC_ICR : Z;
  VMX_REASON_EXC_NMI : Z; VMX_REASON_CPUID : Z; VMX_REASON_RDMSR : Z; VMX_REASON_WRMSR : Z;
  VMX_REASON_XSETBV : Z; VMX_REASON_IRQ : Z; VMX_REASON_EPT_VIOLATION : Z;
  VMX_REASON_RDRAND : Z; VMX_REASON_IO : Z;
  Cr0_CACHE_DISABLE : Z; Cr0_NOT_WRITE_THROUGH : Z; Cr4_VIRTUAL_MACHINE_EXTENSIONS : Z;
  (** [SegmentSelector::new(index, Ring0).0]. *)
  segment_selector : Z → Z;
}.

(** The values the architecture gives them; a selector holds the index above
    three bits, which are zero for ring 0. *)
Class VmxConstsLaws `{VmxConsts} : Prop := {
  segment_selector_ring0 i : 0 ≤ i < 2 ^ 13 → segment_selector i = 8 * i;
  Cr4_VMXE_bit : Cr4_VIRTUAL_MACHINE_EXTENSIONS = 2 ^ 13;
  Cr0_CD_bit : Cr0_CACHE_DISABLE = 2 ^ 30;
  Cr0_NW_bit : Cr0_NOT_WRITE_THROUGH = 2 ^ 29;
  efer_msr : IA32_EFER = 0xC0000080;
  misc_enable_msr : IA32_MISC_ENABLE = 0x1A0;
  apic_base_msr : IA32_APIC_BASE = 0x1B;
  reason_exc_nmi : VMX_REASON_EXC_NMI = 0;
  reason_irq : VMX_REASON_IRQ = 1;
  reason_cpuid : VMX_REASON_CPUID = 10;
  reason_io : VMX_REASON_IO = 30;
  reason_rdmsr : VMX_REASON_RDMSR = 31;
  reason_wrmsr : VMX_REASON_WRMSR = 32;
  reason_ept : VMX_REASON_EPT_VIOLATION = 48;
  reason_xsetbv : VMX_REASON_XSETBV = 55;
  reason_rdrand : VMX_REASON_RDRAND = 57;
}.

(** ** Computations on a state that can fail

    [Err] is what [?] propagates, with the state reached so far; [None] means
    that a bound on the rounds of a loop was too small. *)

Definition hv (S A : Type) : Type := S → option (exec (result Z A * S)).

#[export] Instance hv_ret S : MRet (hv S) := λ A a s, Some (Ret (Ok a, s)).
#[export] Instance hv_bind S : MBind (hv S) := λ A B k m s,
  match m s with
  | Some (Ret (Ok a, s')) => k a s'
  | Some (Ret (Err e, s')) => Some (Ret (Err e, s'))
  | Some Panic => Some Panic
  | Some Fault => Some Fault
  | None => None
  end.

Definition lift_exec {S A} (e : exec A) : hv S A := λ s,
  Some (match e with Ret a => Ret (Ok a, s) | Panic => Panic | Fault => Fault end).

(** A read, and an update that may be refused. *)
Definition query {S A} (f : S → result Z A) : hv S A := λ s, Some (Ret (f s, s)).
Definition update {S} (f : S → result Z S) : hv S unit := λ s,
  Some (Ret (match f s with Ok s' => (Ok (), s') | Err e => (Err e, s) end)).

Fixpoint each {S A} (f : A → hv S unit) (l : list A) : hv S unit :=
  match l with [] => mret () | a :: l' => f a ;; each f l' end.

(** ** Set-up *)

Definition cap2ctrl (cap ctrl : Z) : Z :=
  Z.land (Z.lor ctrl (Z.land cap 0xffffffff)) (Z.shiftr cap 32).

Section Setup.
Context `{XHypervisor C, VmxConsts, X86_64Control}.

Definition vmcs_read (f : Vmcs) : hv C Z := query (λ c, read_vmcs c f).
Definition vmcs_writes (ws : list (Vmcs * Z)) : hv C unit :=
  each (λ w, update (λ c, write_vmcs c w.1 w.2)) ws.
Definition register_writes (ws : list (x86Reg * Z)) : hv C unit :=
  each (λ w, update (λ c, write_register c w.1 w.2)) ws.

Definition gdt_fields : list (Vmcs * Z) :=
  [(VMCS_GUEST_CS_LIMIT, 0); (VMCS_GUEST_CS_BASE, 0); (VMCS_GUEST_CS_AR, 0x209B);
   (VMCS_GUEST_SS_LIMIT, 0); (VMCS_GUEST_SS_BASE, 0); (VMCS_GUEST_SS_AR, 0x4093);
   (VMCS_GUEST_DS_LIMIT, 0); (VMCS_GUEST_DS_BASE, 0); (VMCS_GUEST_DS_AR, 0x4093);
   (VMCS_GUEST_ES_LIMIT, 0); (VMCS_GUEST_ES_BASE, 0); (VMCS_GUEST_ES_AR, 0x4093);
   (VMCS_GUEST_FS_LIMIT, 0); (VMCS_GUEST_FS_BASE, 0); (VMCS_GUEST_FS_AR, 0x4093);
   (VMCS_GUEST_GS_LIMIT, 0); (VMCS_GUEST_GS_BASE, 0); (VMCS_GUEST_GS_AR, 0x4093);
   (VMCS_GUEST_GDTR_BASE, BOOT_GDT); (VMCS_GUEST_GDTR_LIMIT, 8 * BOOT_GDT_MAX - 1);
   (VMCS_GUEST_IDTR_BASE, 0); (VMCS_GUEST_IDTR_LIMIT, 0xffff);
   (VMCS_GUEST_TR, 0); (VMCS_GUEST_TR_LIMIT, 0xffff); (VMCS_GUEST_TR_AR, 0x8b); (VMCS_GUEST_TR_BASE, 0);
   (VMCS_GUEST_LDTR, 0); (VMCS_GUEST_LDTR_LIMIT, 0xffff); (VMCS_GUEST_LDTR_AR, 0x82);
   (VMCS_GUEST_LDTR_BASE, 0)].

Definition gdt_registers : list (x86Reg * Z) :=
  [(REG_CS, segment_selector GDT_KERNEL_CODE); (REG_DS, segment_selector GDT_KERNEL_DATA);
   (REG_ES, segment_selector GDT_KERNEL_DATA); (REG_SS, segment_selector GDT_KERNEL_DATA);
   (REG_FS, segment_selector GDT_KERNEL_DATA); (REG_GS, segment_selector GDT_KERNEL_DATA)].

Definition setup_system_gdt : hv C unit :=
  vmcs_writes gdt_fields ;; register_writes gdt_registers.

Definition boot_cr0 : Z :=
  Z.lor (Z.lor (Z.lor Cr0_PROTECTED_MODE_ENABLE Cr0_EXTENSION_TYPE) Cr0_NUMERIC_ERROR) Cr0_PAGING.
Definition boot_cr4 : Z := Z.lor Cr4_PHYSICAL_ADDRESS_EXTENSION Cr4_VIRTUAL_MACHINE_EXTENSIONS.

Definition mode_fields : list (Vmcs * Z) :=
  [(VMCS_GUEST_IA32_EFER, Z.lor EFER_LME EFER_LMA);
   (VMCS_CTRL_CR0_MASK, Z.lor (Z.lor Cr0_CACHE_DISABLE Cr0_NOT_WRITE_THROUGH) boot_cr0);
   (VMCS_CTRL_CR0_SHADOW, boot_cr0); (VMCS_CTRL_CR4_MASK, boot_cr4);
   (VMCS_CTRL_CR4_SHADOW, boot_cr4)].

Definition mode_registers : list (x86Reg * Z) :=
  [(CR0, boot_cr0); (CR4, boot_cr4); (CR3, BOOT_PML4); (DR7, 0)].

Definition setup_system_64bit : hv C unit :=
  vmcs_writes mode_fields ;; register_writes mode_registers ;;
  vmcs_writes [(VMCS_GUEST_SYSENTER_ESP, 0); (VMCS_GUEST_SYSENTER_EIP, 0)].

Definition setup_msr : hv C unit :=
  each (λ i, update (λ c, enable_native_msr c i true))
    [IA32_FS_BASE; IA32_GS_BASE; IA32_KERNEL_GSBASE; IA32_SYSENTER_CS; IA32_SYSENTER_EIP;
     IA32_SYSENTER_ESP; IA32_STAR; IA32_LSTAR; IA32_CSTAR; IA32_FMASK; TSC; IA32_TSC_AUX].

(** The capabilities, read on first use: one that cannot be read panics. *)
Definition vmx_ctrl (cap : VMXCap) (ctrl : Z) : exec Z :=
  match read_vmx_cap cap with Ok v => Ret (cap2ctrl v ctrl) | Err _ => Panic end.

Definition CAP_PINBASED : exec Z :=
  vmx_ctrl CapPINBASED (Z.lor (Z.lor PIN_BASED_INTR PIN_BASED_NMI) PIN_BASED_VIRTUAL_NMI).
Definition CAP_PROCBASED : exec Z :=
  vmx_ctrl CapPROCBASED
    (Z.lor (Z.lor (Z.lor (Z.lor (Z.lor CPU_BASED_SECONDARY_CTLS CPU_BASED_MWAIT)
       CPU_BASED_MSR_BITMAPS) CPU_BASED_MONITOR) CPU_BASED_TSC_OFFSET) CPU_BASED_TPR_SHADOW).
Definition CAP_PROCBASED2 : exec Z :=
  vmx_ctrl CapPROCBASED2 (Z.lor CPU_BASED2_RDTSCP CPU_BASED2_APIC_REG_VIRT).
Definition CAP_ENTRY : exec Z := vmx_ctrl CapENTRY (Z.lor VMENTRY_LOAD_EFER VMENTRY_GUEST_IA32E).
Definition CAP_EXIT : exec Z := vmx_ctrl CapEXIT 0.

(** A control field is written and then logged: the [read_vmcs(f)?] in the
    message is evaluated only when debug messages are enabled. *)
Context (log_debug : bool).

Definition write_control (f : Vmcs) (cap : exec Z) : hv C unit :=
  v ← lift_exec cap;
  vmcs_writes [(f, v)] ;;
  if log_debug then vmcs_read f ;; mret () else mret ().

Definition setup_capabilities : hv C unit :=
  write_control VMCS_CTRL_PIN_BASED CAP_PINBASED ;;
  write_control VMCS_CTRL_CPU_BASED CAP_PROCBASED ;;
  write_control VMCS_CTRL_CPU_BASED2 CAP_PROCBASED2 ;;
  write_control VMCS_CTRL_VMENTRY_CONTROLS CAP_ENTRY ;;
  write_control VMCS_CTRL_VMEXIT_CONTROLS CAP_EXIT.

Definition init_fields : list (Vmcs * Z) :=
  [(VMCS_CTRL_EXC_BITMAP, Z.lor (Z.shiftl 1 3) (Z.shiftl 1 1)); (VMCS_CTRL_TPR_THRESHOLD, 0);
   (VMCS_GUEST_SYSENTER_EIP, 0); (VMCS_GUEST_SYSENTER_ESP, 0)].

Definition init_registers (entry_point : Z) : list (x86Reg * Z) :=
  [(RIP, entry_point); (RFLAGS, 0x2); (RSP, 0x200000 - 0x1000); (RBP, 0); (RAX, 0); (RBX, 0);
   (RCX, 0); (RDX, 0); (RSI, 0); (RDI, BOOT_INFO_ADDR); (R8, 0); (R9, 0); (R10, 0); (R11, 0);
   (R12, 0); (R13, 0); (R14, 0); (R15, 0)].

Definition mac_init (entry_point : Z) : hv C unit :=
  setup_capabilities ;;
  setup_msr ;;
  vmcs_writes init_fields ;;
  register_writes (init_registers entry_point) ;;
  setup_system_gdt ;;
  setup_system_64bit.

End Setup.

(** ** What a sequence of writes leaves behind *)

(** The value at [k] after the writes [ws]. *)
Definition after_writes `{EqDecision K} (ws : list (K * Z)) (k : K) (v : result Z Z) : result Z Z :=
  foldl (λ v w, if decide (w.1 = k) then Ok w.2 else v) v ws.

Lemma after_writes_app `{EqDecision K} (ws1 ws2 : list (K * Z)) k v :
  after_writes (ws1 ++ ws2) k v = after_writes ws2 k (after_writes ws1 k v).
Proof. apply foldl_app. Qed.

(** [p] neither panics nor faults nor runs out of its bounds; it establishes
    [Q], unless the framework refused something. *)
Definition wp C {S A} `{XHypervisor C} (p : hv S A) (Q : A → S → Prop) (s : S) : Prop :=
  match p s with
  | Some (Ret (Ok a, s')) => Q a s'
  | Some (Ret (Err _, _)) => ¬ accepts C
  | _ => False
  end.

Section Wp.
Context `{XHypervisor C} {S : Type}.

Lemma wp_ret {A} (a : A) Q s : Q a s → wp C (mret (M := hv S) a) Q s.
Proof. done. Qed.

Lemma wp_bind {A B} (p : hv S A) (k : A → hv S B) Q s :
  wp C p (λ a, wp C (k a) Q) s → wp C (p ≫= k) Q s.
Proof. unfold wp, mbind, hv_bind. by destruct (p s) as [[[[]]| |]|]. Qed.

Lemma wp_mono {A} (p : hv S A) (Q Q' : A → S → Prop) s :
  (∀ a s', Q a s' → Q' a s') → wp C p Q s → wp C p Q' s.
Proof. unfold wp. intros HQ. destruct (p s) as [[[[]]| |]|]; try done. apply HQ. Qed.

Lemma wp_exec {A} (e : exec A) a Q s : e = Ret a → Q a s → wp C (S := S) (lift_exec e) Q s.
Proof. by intros ->. Qed.

Lemma wp_query {A} (f : S → result Z A) Q s :
  (accepts C → is_ok (f s)) → (∀ a, f s = Ok a → Q a s) → wp C (query f) Q s.
Proof. unfold wp, query. destruct (f s); [auto|]. intros Hf _ Ha. by destruct (Hf Ha). Qed.

Lemma wp_update (f : S → result Z S) Q s :
  (accepts C → is_ok (f s)) → (∀ s', f s = Ok s' → Q () s') → wp C (update f) Q s.
Proof. unfold wp, update. destruct (f s); [auto|]. intros Hf _ Ha. by destruct (Hf Ha). Qed.

Lemma wp_result {A} (p : hv S A) Q s :
  wp C p Q s → ∃ r s', p s = Some (Ret (r, s')) ∧
    match r with Ok a => Q a s' | Err _ => ¬ accepts C end.
Proof. unfold wp. destruct (p s) as [[[[a|e] s']| |]|]; try done; by eexists _, s'. Qed.

End Wp.

Section Effects.
Context `{XHypervisorLaws C, VmxConsts, X86_64Control}.

(** [p] makes the writes [rs] to the registers and [fs] to the fields. *)
Definition sets (rs : list (x86Reg * Z)) (fs : list (Vmcs * Z)) (p : hv C unit) : Prop :=
  ∀ c, wp C p (λ _ c',
    (∀ k, read_register c' k = after_writes rs k (read_register c k)) ∧
    (∀ k, read_vmcs c' k = after_writes fs k (read_vmcs c k))) c.

Lemma sets_ret : sets [] [] (mret ()).
Proof. by intros c. Qed.

Lemma sets_bind rs1 fs1 p1 rs2 fs2 p2 :
  sets rs1 fs1 p1 → sets rs2 fs2 p2 → sets (rs1 ++ rs2) (fs1 ++ fs2) (p1 ;; p2).
Proof.
  intros Hs1 Hs2 c. apply wp_bind. eapply wp_mono, Hs1. intros _ c1 [Hr1 Hf1].
  eapply wp_mono, Hs2. intros _ c2 [Hr2 Hf2].
  split; intros k; rewrite after_writes_app; [by rewrite Hr2, Hr1|by rewrite Hf2, Hf1].
Qed.

Lemma sets_seq rs1 fs1 p1 rs2 fs2 p2 rs fs :
  sets rs1 fs1 p1 → rs = rs1 ++ rs2 → fs = fs1 ++ fs2 → sets rs2 fs2 p2 →
  sets rs fs (p1 ;; p2).
Proof. intros ? -> -> ?. by apply sets_bind. Qed.

(** Splits off the first of a sequence of writes. *)
Ltac sets_then tac :=
  eapply sets_seq; [tac|first [reflexivity|symmetry; apply app_nil_r]
                   |first [reflexivity|symmetry; apply app_nil_r]|].

Lemma sets_update rs fs f :
  (accepts C → ∀ c, is_ok (f c)) →
  (∀ c c', f c = Ok c' → (∀ k, read_register c' k = after_writes rs k (read_register c k)) ∧
                          (∀ k, read_vmcs c' k = after_writes fs k (read_vmcs c k))) →
  sets rs fs (update f).
Proof. intros Hok Hf c. apply wp_update; [by auto|]. intros c'. apply Hf. Qed.

Lemma sets_fields ws : sets [] ws (vmcs_writes ws).
Proof.
  unfold vmcs_writes. induction ws as [|w ws IH]; [apply sets_ret|].
  apply (sets_bind [] [w] _ [] ws); [|exact IH].
  apply sets_update; [intros; by apply accepts_write_vmcs|]. intros c c' Hw.
  split; intros k; [by eapply register_write_vmcs|by eapply vmcs_write].
Qed.

Lemma sets_registers ws : sets ws [] (register_writes ws).
Proof.
  unfold register_writes. induction ws as [|w ws IH]; [apply sets_ret|].
  apply (sets_bind [w] [] _ ws []); [|exact IH].
  apply sets_update; [intros; by apply accepts_write|]. intros c c' Hw.
  split; intros k; [by eapply register_write|by eapply vmcs_write_register].
Qed.

Lemma sets_msrs msrs :
  sets [] [] (each (λ i, update (λ c, enable_native_msr c i true)) msrs).
Proof.
  induction msrs as [|i msrs IH]; [apply sets_ret|].
  apply (sets_bind [] [] _ [] []); [|exact IH].
  apply sets_update; [intros; by apply accepts_native_msr|]. intros c c' Hw.
  split; intros k; [by eapply register_native_msr|by eapply vmcs_native_msr].
Qed.

Lemma sets_control log_debug f cap v :
  cap = Ret v → sets [] [(f, v)] (write_control log_debug f cap).
Proof.
  intros ->. unfold write_control.
  apply (sets_bind [] [(f, v)] _ [] []); [apply sets_fields|].
  destruct log_debug; [|apply sets_ret]. intros c.
  apply wp_bind, wp_query; [intros; by apply accepts_read_vmcs|done].
Qed.

(** The control fields, with the capability that bounds each and what is asked for. *)
Definition control_fields : list (Vmcs * (VMXCap * Z)) :=
  [(VMCS_CTRL_PIN_BASED,
     (CapPINBASED, Z.lor (Z.lor PIN_BASED_INTR PIN_BASED_NMI) PIN_BASED_VIRTUAL_NMI));
   (VMCS_CTRL_CPU_BASED,
     (CapPROCBASED, Z.lor (Z.lor (Z.lor (Z.lor (Z.lor CPU_BASED_SECONDARY_CTLS CPU_BASED_MWAIT)
        CPU_BASED_MSR_BITMAPS) CPU_BASED_MONITOR) CPU_BASED_TSC_OFFSET) CPU_BASED_TPR_SHADOW));
   (VMCS_CTRL_CPU_BASED2, (CapPROCBASED2, Z.lor CPU_BASED2_RDTSCP CPU_BASED2_APIC_REG_VIRT));
   (VMCS_CTRL_VMENTRY_CONTROLS, (CapENTRY, Z.lor VMENTRY_LOAD_EFER VMENTRY_GUEST_IA32E));
   (VMCS_CTRL_VMEXIT_CONTROLS, (CapEXIT, 0))].

Lemma sets_capabilities log_debug caps :
  (∀ cap, read_vmx_cap cap = Ok (caps cap)) →
  sets [] ((λ w, (w.1, cap2ctrl (caps w.2.1) w.2.2)) <$> control_fields)
    (setup_capabilities log_debug).
Proof.
  intros Hcaps. unfold setup_capabilities.
  do 4 (apply (sets_bind [] [_] _ [] _);
    [apply sets_control; unfold CAP_PINBASED, CAP_PROCBASED, CAP_PROCBASED2, CAP_ENTRY, vmx_ctrl;
     by rewrite Hcaps|]).
  apply sets_control. unfold CAP_EXIT, vmx_ctrl. by rewrite Hcaps.
Qed.

Lemma sets_init log_debug caps entry_point :
  (∀ cap, read_vmx_cap cap = Ok (caps cap)) →
  sets (init_registers entry_point ++ gdt_registers ++ mode_registers)
    (((λ w, (w.1, cap2ctrl (caps w.2.1) w.2.2)) <$> control_fields) ++
     init_fields ++ gdt_fields ++ mode_fields ++
     [(VMCS_GUEST_SYSENTER_ESP, 0); (VMCS_GUEST_SYSENTER_EIP, 0)])
    (mac_init log_debug entry_point).
Proof.
  intros Hcaps. unfold mac_init, setup_system_gdt, setup_system_64bit.
  sets_then ltac:(by apply sets_capabilities).
  sets_then ltac:(apply sets_msrs).
  sets_then ltac:(apply sets_fields).
  sets_then ltac:(apply sets_registers).
  eapply (sets_seq gdt_registers gdt_fields); [|done|done|].
  { sets_then ltac:(apply sets_fields). apply sets_registers. }
  sets_then ltac:(apply sets_fields). sets_then ltac:(apply sets_registers).
  apply sets_fields.
Qed.

End Effects.

(** Each bit of a control word is what was asked for, where the machine
    allows both values; it is set where the machine requires it, and clear
    where the machine does not support it. *)
Lemma cap2ctrl_bit cap ctrl i :
  0 ≤ i < 32 →
  Z.testbit (cap2ctrl cap ctrl) i =
    Z.testbit cap (32 + i) && (Z.testbit ctrl i || Z.testbit cap i).
Proof.
  intros Hi. unfold cap2ctrl. change 0xffffffff with (Z.ones 32).
  rewrite Z.land_spec, Z.lor_spec, Z.land_spec, Z.shiftr_spec, Z.testbit_ones_nonneg by lia.
  rewrite (proj2 (Z.ltb_lt i 32)) by lia. replace (i + 32) with (32 + i) by lia. btauto.
Qed.

(** ** The processor a kernel starts on *)

(** The access rights of the segment a descriptor describes. *)
Definition access_rights (e : Z) : Z :=
  Z.lor (Z.land (Z.shiftr e 40) 0xff) (Z.shiftl (Z.land (Z.shiftr e 52) 0xf) 12).

Section Boot.
Context `{Profile, XHypervisorLaws C} `{VmxConstsLaws, X86_64ControlLaws}.

(** The selector in register [r] names a descriptor within the descriptor
    table, of the segment with the access rights in field [f]; the granularity
    of the limit, which 64-bit mode does not check, is left out. *)
Definition segment_loaded (c : C) (m : mem) (r : x86Reg) (f : Vmcs) : Prop :=
  ∃ sel ar base limit e,
    read_register c r = Ok sel ∧ read_vmcs c f = Ok ar ∧
    read_vmcs c VMCS_GUEST_GDTR_BASE = Ok base ∧ read_vmcs c VMCS_GUEST_GDTR_LIMIT = Ok limit ∧
    sel + 7 ≤ limit ∧ load 8 m (mem_base m + base + sel) = Ret e ∧
    ar = Z.clearbit (access_rights e) 15.

Record mac_ready (c : C) (m : mem) (caps : VMXCap → Z) (entry_point : Z) : Prop := {
  ready_rip : read_register c RIP = Ok entry_point;
  ready_rdi : read_register c RDI = Ok BOOT_INFO_ADDR;
  ready_rflags : read_register c RFLAGS = Ok 2;
  ready_rsp : read_register c RSP = Ok 0x1ff000;
  ready_cr0 : ∃ v, read_register c CR0 = Ok v ∧ Z.testbit v 0 = true ∧ Z.testbit v 31 = true;
  ready_cr4 : ∃ v, read_register c CR4 = Ok v ∧ Z.testbit v 5 = true;
  ready_efer : ∃ v, read_vmcs c VMCS_GUEST_IA32_EFER = Ok v ∧
    Z.testbit v 8 = true ∧ Z.testbit v 10 = true;
  (** The guest reads its own control registers where they are intercepted. *)
  ready_shadow : read_vmcs c VMCS_CTRL_CR0_SHADOW = read_register c CR0 ∧
    read_vmcs c VMCS_CTRL_CR4_SHADOW = read_register c CR4;
  ready_tables : ∃ cr3, read_register c CR3 = Ok cr3 ∧
    ∀ va, 0 ≤ va < 2 ^ 30 → ∃ path, x86_walk m 3 cr3 va path va;
  ready_segments : Forall (λ rf, segment_loaded c m rf.1 rf.2)
    [(REG_CS, VMCS_GUEST_CS_AR); (REG_DS, VMCS_GUEST_DS_AR); (REG_ES, VMCS_GUEST_ES_AR);
     (REG_SS, VMCS_GUEST_SS_AR); (REG_FS, VMCS_GUEST_FS_AR); (REG_GS, VMCS_GUEST_GS_AR)];
  (** Breakpoint and debug exceptions leave the guest, no others. *)
  ready_exceptions : ∃ v, read_vmcs c VMCS_CTRL_EXC_BITMAP = Ok v ∧
    ∀ i, 0 ≤ i → Z.testbit v i = bool_decide (i = 1 ∨ i = 3);
  ready_controls f cap wanted : (f, (cap, wanted)) ∈ control_fields →
    ∃ v, read_vmcs c f = Ok v ∧ ∀ i, 0 ≤ i < 32 →
      Z.testbit v i =
        Z.testbit (caps cap) (32 + i) && (Z.testbit wanted i || Z.testbit (caps cap) i);
}.

Lemma mac_init_ready log_debug caps c entry_point m :
  (∀ cap, read_vmx_cap cap = Ok (caps cap)) →
  0x13000 ≤ mem_size m → boot_tables m →
  load 8 m (mem_base m + BOOT_GDT + 8) = Ret 0xAF9B000000FFFF →
  load 8 m (mem_base m + BOOT_GDT + 16) = Ret 0xCF93000000FFFF →
  wp C (mac_init log_debug entry_point) (λ _ c', mac_ready c' m caps entry_point) c.
Proof.
  intros Hcaps Hsz Hbt Hcode Hdata.
  eapply wp_mono, sets_init; [|done]. intros _ c' [Hregs Hfields].
  assert (∀ sel ar e rg f, read_register c' rg = Ok sel → read_vmcs c' f = Ok ar →
    0 ≤ sel ≤ 16 → load 8 m (mem_base m + BOOT_GDT + sel) = Ret e →
    ar = Z.clearbit (access_rights e) 15 → segment_loaded c' m rg f) as Hseg.
  { intros sel ar e rg f Hrg Hf Hsel He Har. exists sel, ar, BOOT_GDT, 23, e.
    split_and!; first [done|by rewrite Hfields|lia]. }
  split.
  1-4: by rewrite Hregs.
  - eexists. split; [by rewrite Hregs|]. unfold boot_cr0.
    rewrite Cr0_PE_bit, Cr0_ET_bit, Cr0_NE_bit, Cr0_PG_bit. done.
  - eexists. split; [by rewrite Hregs|]. unfold boot_cr4. rewrite Cr4_PAE_bit, Cr4_VMXE_bit. done.
  - eexists. by split; [by rewrite Hfields|].
  - by rewrite !Hfields, !Hregs.
  - eexists. split; [by rewrite Hregs|]. intros va Hva. eexists.
    apply boot_walk; [done|lia|done].
  - assert (segment_selector GDT_KERNEL_CODE = 8) as Hc8 by by rewrite segment_selector_ring0.
    assert (segment_selector GDT_KERNEL_DATA = 16) as Hd16 by by rewrite segment_selector_ring0.
    constructor; [apply (Hseg 8 0x209B 0xAF9B000000FFFF)|repeat constructor;
      apply (Hseg 16 0x4093 0xCF93000000FFFF)];
      cbn [fst snd]; rewrite ?Hregs, ?Hfields, <- ?Hc8, <- ?Hd16; try done; rewrite ?Hc8, ?Hd16; done.
  - exists (Z.lor (2 ^ 3) (2 ^ 1)). split; [by rewrite Hfields|]. intros i Hi.
    rewrite Z.lor_spec, !Z.pow2_bits_eqb by lia.
    destruct (Z.eqb_spec 3 i), (Z.eqb_spec 1 i); case_bool_decide; lia || done.
  - intros f cap wanted Hin.
    repeat (apply elem_of_cons in Hin as [[= -> -> ->]|Hin];
      [eexists; split; [by rewrite Hfields|]; intros i Hi; by apply cap2ctrl_bit|]).
    by apply elem_of_nil in Hin.
Qed.

(** A vCPU on macOS comes up ready for the kernel: on a machine whose
    capabilities can be read, [init] does not panic and, unless the framework
    refuses one of its requests, leaves the processor in 64-bit mode on the boot tables,
    which map the first GiB onto itself, at the entry point with the boot
    information's address in RDI, with the segments the boot GDT describes;
    every control bit is what uhyve asks for within what the machine
    supports and requires. *)
Lemma mac_init_correct log_debug caps c entry_point m0 m :
  (∀ cap, read_vmx_cap cap = Ok (caps cap)) →
  mem_wf m0 → 0x13000 ≤ mem_size m0 → init_guest_mem m0 = Ret m →
  ∃ r c', mac_init log_debug entry_point c = Some (Ret (r, c')) ∧
    match r with
    | Ok _ => mac_ready c' m caps entry_point
    | Err _ => ¬ accepts C
    end.
Proof.
  intros Hcaps Hwf Hsz Hinit.
  destruct (init_guest_mem_spec m0 Hwf Hsz)
    as (m1 & Hm & Hwf1 & Hb & Hs & Hbt & _ & Hcode & Hdata & _).
  assert (m1 = m) as -> by congruence. rewrite <- Hb in Hcode, Hdata.
  apply wp_result, mac_init_ready; (done || lia).
Qed.

End Boot.
