(* ===== verification/MacVcpu.v ===== *)
(** * The run loop of a virtual CPU on macOS (src/macos/vcpu.rs)

    [UhyveCPU::continue] and the instructions it emulates: CPUID, access to
    machine-specific registers, XSETBV, and loads and stores that reach the
    I/O APIC.  The I/O APIC, which the vCPUs share behind a mutex, guest
    memory and the outside world are part of the state the loop threads. *)

From Stdlib Require Import Strings.String.
From S2P Require Import Prelude Memory Consts Paging AddressSpace Hypercalls CommandLine.
From S2P Require Import Virtio KvmVcpu LinuxVcpu VcpuLoop IoApic MacSetup.
Close Scope string_scope.

(** ** The disassembler and the host processor *)

Inductive InstructionOperation := MOV | OtherOperation.
Inductive OperandType :=
| IMM | REG_EDI | REG_ESI | REG_EBP | REG_EAX | REG_EBX | REG_ECX | REG_EDX | OtherOperand.

(** A decoded instruction: its first two operands, and the immediate of the
    second. *)
Record Instruction := Instr {
  operation : InstructionOperation;
  operand_0 : OperandType;
  operand_1 : OperandType;
  immediate_1 : Z;
}.

Class Burst := {
  (** [disassemble_64(code, address, code.len())]. *)
  disassemble_64 : list Z → Z → option Instruction;
}.

(** The CPUID instruction of the host: EAX, EBX, ECX and EDX. *)
Record CpuidResult := Cpuid { eax : Z; ebx : Z; ecx : Z; edx : Z }.
Class HostCpuid := { cpuid_count : Z → Z → CpuidResult }.
Class HostCpuidLaws `{HostCpuid} : Prop :=
  cpuid_u32 f i : fits 32 (ebx (cpuid_count f i)).

(** ** State *)

Record MacCPU (C : Type) := McCpu {
  mc_id : Z;
  mc_kernel_path : list Z;
  mc_vcpu : C;
  mc_vm_start : Z;
  mc_apic_base : Z;
}.
Arguments McCpu {C} _ _ _ _ _.
Arguments mc_id {C} _.
Arguments mc_kernel_path {C} _.
Arguments mc_vcpu {C} _.
Arguments mc_vm_start {C} _.
Arguments mc_apic_base {C} _.

Record mac_state (C W : Type) := MacState {
  mst_cpu : MacCPU C;
  mst_host : host W;
  mst_ioapic : IoApic;
}.
Arguments MacState {C W} _ _ _.
Arguments mst_cpu {C W} _.
Arguments mst_host {C W} _.
Arguments mst_ioapic {C W} _.

(** [VcpuStopReason], where a debug exit carries no information. *)
Inductive MacStopReason := MacDebug | MacExit (code : Z) | MacKick.

Section Run.
Context `{Profile, XHypervisor C, VmxConsts, HostOS W, Burst, HostCpuid}.
(** The process's arguments and environment, and a bound on the rounds of the
    loop of [write]. *)
Context (args : list (list Z)) (vars : list (list Z * list Z)) (write_fuel : nat).

Definition mac_cpu_new (vcpu_new : result Z C) (id : Z) (kernel_path : list Z) (vm_start : Z) :
    exec (MacCPU C) :=
  match vcpu_new with
  | Ok vcpu => Ret (McCpu id kernel_path vcpu vm_start APIC_DEFAULT_BASE)
  | Err _ => Panic
  end.

Definition set_vcpu (c : C) (s : mac_state C W) : mac_state C W :=
  let cpu := mst_cpu s in
  MacState (McCpu (mc_id cpu) (mc_kernel_path cpu) c (mc_vm_start cpu) (mc_apic_base cpu))
    (mst_host s) (mst_ioapic s).
Definition set_apic_base (b : Z) (s : mac_state C W) : mac_state C W :=
  let cpu := mst_cpu s in
  MacState (McCpu (mc_id cpu) (mc_kernel_path cpu) (mc_vcpu cpu) (mc_vm_start cpu) b)
    (mst_host s) (mst_ioapic s).
Definition set_host (h : host W) (s : mac_state C W) : mac_state C W :=
  MacState (mst_cpu s) h (mst_ioapic s).
Definition set_ioapic (a : IoApic) (s : mac_state C W) : mac_state C W :=
  MacState (mst_cpu s) (mst_host s) a.

Definition get {A} (f : mac_state C W → A) : hv (mac_state C W) A := query (λ s, Ok (f s)).
Definition modify (f : mac_state C W → mac_state C W) : hv (mac_state C W) unit :=
  update (λ s, Ok (f s)).

(** [self.vcpu.read_register(r)?] and the like. *)
Definition rd (r : x86Reg) : hv (mac_state C W) Z :=
  query (λ s, read_register (mc_vcpu (mst_cpu s)) r).
Definition rd_vmcs (f : Vmcs) : hv (mac_state C W) Z :=
  query (λ s, read_vmcs (mc_vcpu (mst_cpu s)) f).
Definition on_vcpu (f : C → result Z C) : hv (mac_state C W) unit :=
  update (λ s, match f (mc_vcpu (mst_cpu s)) with
               | Ok c => Ok (set_vcpu c s)
               | Err e => Err e
               end).
Definition wr (r : x86Reg) (v : Z) : hv (mac_state C W) unit :=
  on_vcpu (λ c, write_register c r v).
Definition wr_vmcs (f : Vmcs) (v : Z) : hv (mac_state C W) unit :=
  on_vcpu (λ c, write_vmcs c f v).

(** [write_register(&x86Reg::RIP, rip + len)?]. *)
Definition advance (rip len : Z) : hv (mac_state C W) unit :=
  next ← lift_exec (arith 64 (rip + len)); wr RIP next.

(** The low 32 bits of a register. *)
Definition rd32 (r : x86Reg) : hv (mac_state C W) Z := v ← rd r; mret (Z.land v 0xFFFFFFFF).

Definition write_id_regs (id_reg_values : list Z) : hv (mac_state C W) unit :=
  wr RAX (id_reg id_reg_values 0) ;; wr RBX (id_reg id_reg_values 1) ;;
  wr RCX (id_reg id_reg_values 2) ;; wr RDX (id_reg id_reg_values 3).

Definition emulate_cpuid (rip : Z) : hv (mac_state C W) unit :=
  len ← rd_vmcs VMCS_RO_VMEXIT_INSTR_LEN;
  rax ← rd RAX;
  rcx ← rd RCX;
  (if rax =? 0x80000002 then
     write_id_regs (copy_id (bytes "uhyve - unikerne") (replicate 16 0))
   else if rax =? 0x80000003 then
     write_id_regs (copy_id (bytes "l hypervisor" ++ [0]) (replicate 16 0))
   else if rax =? 0x80000004 then
     wr RAX 0 ;; wr RBX 0 ;; wr RCX 0 ;; wr RDX 0
   else
     let extended_features := (rax =? 7) && (rcx =? 0) in
     let processor_info := rax =? 1 in
     let result := cpuid_count (wrap 32 rax) (wrap 32 rcx) in
     let rcx := if processor_info then Z.lor (ecx result) (Z.shiftl 1 31) else ecx result in
     let rbx := if extended_features then Z.land (ebx result) (unot 64 (Z.shiftl 1 2))
                else ebx result in
     wr RAX (eax result) ;; wr RBX rbx ;; wr RCX rcx ;; wr RDX (edx result)) ;;
  advance rip len.

Definition emulate_rdmsr (rip : Z) : hv (mac_state C W) unit :=
  len ← rd_vmcs VMCS_RO_VMEXIT_INSTR_LEN;
  rcx ← rd32 RCX;
  (if rcx =? IA32_EFER then
     efer ← rd_vmcs VMCS_GUEST_IA32_EFER;
     wr RAX (Z.land efer 0xFFFFFFFF) ;; wr RDX (Z.shiftr efer 32)
   else if rcx =? IA32_MISC_ENABLE then wr RAX 0 ;; wr RDX 0
   else if rcx =? IA32_APIC_BASE then
     apic_base ← get (λ s, mc_apic_base (mst_cpu s));
     wr RAX (Z.land apic_base 0xFFFFFFFF) ;;
     wr RDX (Z.land (Z.shiftr apic_base 32) 0xFFFFFFFF)
   else lift_exec Panic) ;;
  advance rip len.

(** [(rdx << 32) | rax]. *)
Definition rd_edx_eax : hv (mac_state C W) Z :=
  rax ← rd32 RAX;
  rdx ← rd32 RDX;
  mret (Z.lor (ushl 64 rdx 32) rax).

Definition ignored_msrs : list Z :=
  [IA32_X2APIC_TPR; IA32_X2APIC_SIVR; IA32_X2APIC_LVT_TIMER; IA32_X2APIC_LVT_THERMAL;
   IA32_X2APIC_LVT_PMI; IA32_X2APIC_LVT_LINT0; IA32_X2APIC_LVT_LINT1; IA32_X2APIC_LVT_ERROR;
   IA32_X2APIC_EOI; IA32_X2APIC_ICR].

Definition emulate_wrmsr (rip : Z) : hv (mac_state C W) unit :=
  len ← rd_vmcs VMCS_RO_VMEXIT_INSTR_LEN;
  rcx ← rd32 RCX;
  (if rcx =? IA32_EFER then
     efer ← rd_edx_eax; wr_vmcs VMCS_GUEST_IA32_EFER efer
   else if rcx =? IA32_APIC_BASE then
     base ← rd_edx_eax;
     modify (set_apic_base base) ;;
     on_vcpu (λ c, set_apic_addr c (Z.land base (unot 64 0xFFF)))
   else if bool_decide (rcx ∈ ignored_msrs) then mret ()
   else lift_exec Panic) ;;
  advance rip len.

Definition emulate_xsetbv (rip : Z) : hv (mac_state C W) unit :=
  len ← rd_vmcs VMCS_RO_VMEXIT_INSTR_LEN;
  xcr0 ← rd_edx_eax;
  wr XCR0 xcr0 ;;
  advance rip len.

(** The register an operand of 32 bits names. *)
Definition operand_register (o : OperandType) : option x86Reg :=
  match o with
  | REG_EDI => Some RDI | REG_ESI => Some RSI | REG_EBP => Some RBP | REG_EAX => Some RAX
  | REG_EBX => Some RBX | REG_ECX => Some RCX | REG_EDX => Some RDX
  | IMM | OtherOperand => None
  end.

Definition ioapic_mov (instr : Instruction) (read write : bool) (address : Z) :
    hv (mac_state C W) unit :=
  (if write then
     val ← match operand_1 instr, operand_register (operand_1 instr) with
           | IMM, _ => mret (wrap 64 (immediate_1 instr))
           | _, Some r => rd32 r
           | _, None => lift_exec Panic
           end;
     offset ← lift_exec (arith 64 (address - IOAPIC_BASE));
     a ← get mst_ioapic;
     a ← lift_exec (ioapic_write a offset val);
     modify (set_ioapic a)
   else mret ()) ;;
  if read then
    offset ← lift_exec (arith 64 (address - IOAPIC_BASE));
    a ← get mst_ioapic;
    value ← lift_exec (ioapic_read a offset);
    match operand_register (operand_0 instr) with
    | Some r => wr r value
    | None => lift_exec Panic
    end
  else mret ().

Definition emulate_ioapic (rip address : Z) : hv (mac_state C W) unit :=
  len ← rd_vmcs VMCS_RO_VMEXIT_INSTR_LEN;
  qualification ← rd_vmcs VMCS_RO_EXIT_QUALIFIC;
  let read := negb (Z.land qualification (Z.shiftl 1 0) =? 0) in
  let write := negb (Z.land qualification (Z.shiftl 1 1) =? 0) in
  vm_start ← get (λ s, mc_vm_start (mst_cpu s));
  m ← get (λ s, h_mem (mst_host s));
  p ← lift_exec (host_address vm_start rip);
  code ← lift_exec (load_bytes m p 8);
  match disassemble_64 code rip with
  | Some instr =>
      match operation instr with
      | MOV => ioapic_mov instr read write address
      | OtherOperation => lift_exec Panic
      end
  | None => mret ()
  end ;;
  advance rip len.

(** ** Hypercalls *)

(** A handler works on guest memory and the host; [write] may need more rounds
    than its bound. *)
Definition on_host (f : host W → exec (host W)) : hv (mac_state C W) unit := λ s,
  Some (match f (mst_host s) with
        | Ret h => Ret (Ok (), set_host h s)
        | Panic => Panic
        | Fault => Fault
        end).

Definition on_mem (f : mem → exec mem) : hv (mac_state C W) unit :=
  on_host (λ h, m ← f (h_mem h); Ret (Host m (h_os h))).

(** [self.write(..).unwrap()] and [self.uart(..).unwrap()]. *)
Definition unwrapped {A} (r : host W * result Z A) : exec (host W) :=
  match r with (h, Ok _) => Ret h | (_, Err _) => Panic end.

Definition mac_write (vm_start p : Z) : hv (mac_state C W) unit := λ s,
  match VirtualCPU.write vm_start write_fuel (mst_host s) p with
  | Some r => on_host (λ _, r ← r; unwrapped r) s
  | None => None
  end.

(** The calls that take the address of their arguments and let the guest go
    on. *)
Definition mac_call (port p : Z) : hv (mac_state C W) unit :=
  cpu ← get mst_cpu;
  let vm_start := mc_vm_start cpu in
  let kernel_path := mc_kernel_path cpu in
  if port =? UHYVE_PORT_CMDSIZE then on_mem (λ m, cmdsize kernel_path args vars m p)
  else if port =? UHYVE_PORT_CMDVAL then
    on_mem (λ m, cmdval vm_start kernel_path args vars m p)
  else if port =? UHYVE_PORT_OPEN then on_host (λ h, VirtualCPU.open vm_start h p)
  else if port =? UHYVE_PORT_WRITE then mac_write vm_start p
  else if port =? UHYVE_PORT_READ then on_host (λ h, VirtualCPU.read vm_start h p)
  else if port =? UHYVE_PORT_UNLINK then on_host (λ h, VirtualCPU.unlink vm_start h p)
  else if port =? UHYVE_PORT_LSEEK then on_host (λ h, VirtualCPU.lseek h p)
  else on_host (λ h, VirtualCPU.close h p).

Definition mac_ports : list Z :=
  [UHYVE_PORT_CMDSIZE; UHYVE_PORT_CMDVAL; UHYVE_PORT_OPEN; UHYVE_PORT_WRITE; UHYVE_PORT_READ;
   UHYVE_PORT_UNLINK; UHYVE_PORT_LSEEK; UHYVE_PORT_CLOSE].

(** [self.host_address(data_addr)] for the low half of RAX. *)
Definition mac_data_addr : hv (mac_state C W) Z :=
  data_addr ← rd32 RAX;
  vm_start ← get (λ s, mc_vm_start (mst_cpu s));
  lift_exec (host_address vm_start data_addr).

Definition mac_io_port (port rip len : Z) : hv (mac_state C W) (option MacStopReason) :=
  if port =? SHUTDOWN_PORT then mret (Some (MacExit 0))
  else if port =? UHYVE_UART_PORT then
    rax ← rd RAX;
    on_host (λ h, unwrapped (VirtualCPU.uart h [Z.land rax 0xFF])) ;;
    advance rip len ;; mret None
  else if port =? UHYVE_PORT_EXIT then
    p ← mac_data_addr;
    h ← get mst_host;
    code ← lift_exec (VirtualCPU.exit h p);
    mret (Some (MacExit code))
  else if bool_decide (port ∈ mac_ports) then
    p ← mac_data_addr;
    mac_call port p ;;
    advance rip len ;; mret None
  else advance rip len ;; mret None.

Definition mac_io (rip : Z) : hv (mac_state C W) (option MacStopReason) :=
  qualification ← rd_vmcs VMCS_RO_EXIT_QUALIFIC;
  len ← rd_vmcs VMCS_RO_VMEXIT_INSTR_LEN;
  lift_exec (rust_assert (Z.land qualification 8 =? 0)) ;;
  mac_io_port (Z.land (Z.shiftr qualification 16) 0xFFFF) rip len.

(** ** The loop *)

(** [self.vcpu.run()?]. *)
Definition guest_runs : hv (mac_state C W) unit := λ s,
  let '(c, m, r) := hv_run (mc_vcpu (mst_cpu s)) (h_mem (mst_host s)) in
  Some (Ret (r, set_host (Host m (h_os (mst_host s))) (set_vcpu c s))).

(** One exit: [Some] when the loop returns. *)
Definition mac_exit (reason rip : Z) : hv (mac_state C W) (option MacStopReason) :=
  if reason =? VMX_REASON_EXC_NMI then
    irq_info ← rd_vmcs VMCS_RO_VMEXIT_IRQ_INFO;
    let irq_vec := Z.land irq_info 0xFF in
    let valid := negb (Z.land irq_info (Z.shiftl 1 31) =? 0) in
    let trap_or_breakpoint := (irq_vec =? 3) || (irq_vec =? 1) in
    lift_exec (rust_assert (valid && trap_or_breakpoint)) ;;
    mret (Some MacDebug)
  else if reason =? VMX_REASON_CPUID then emulate_cpuid rip ;; mret None
  else if reason =? VMX_REASON_RDMSR then emulate_rdmsr rip ;; mret None
  else if reason =? VMX_REASON_WRMSR then emulate_wrmsr rip ;; mret None
  else if reason =? VMX_REASON_XSETBV then emulate_xsetbv rip ;; mret None
  else if reason =? VMX_REASON_IRQ then mret None
  else if reason =? VMX_REASON_EPT_VIOLATION then
    gpa ← rd_vmcs VMCS_GUEST_PHYSICAL_ADDRESS;
    (if (IOAPIC_BASE <=? gpa) && (gpa <? IOAPIC_BASE + IOAPIC_SIZE)
     then emulate_ioapic rip gpa else mret ()) ;;
    mret None
  else if reason =? VMX_REASON_RDRAND then mret None
  else if reason =? VMX_REASON_IO then mac_io rip
  else lift_exec Panic.

(** What follows the return from the guest. *)
Definition mac_serve : hv (mac_state C W) (option MacStopReason) :=
  reason ← rd_vmcs VMCS_RO_EXIT_REASON;
  rip ← rd RIP;
  mac_exit (Z.land reason 0xffff) rip.

Definition mac_round : hv (mac_state C W) (option MacStopReason) := guest_runs ;; mac_serve.

(** [None] when the guest has not stopped after [fuel] exits. *)
Fixpoint mac_continue (fuel : nat) : hv (mac_state C W) MacStopReason :=
  match fuel with
  | O => λ _, None
  | S fuel' =>
      r ← mac_round;
      match r with Some reason => mret reason | None => mac_continue fuel' end
  end.

Definition mac_run (fuel : nat) : hv (mac_state C W) (option Z) :=
  reason ← mac_continue fuel;
  match reason with
  | MacDebug => lift_exec Panic
  | MacExit code => mret (Some code)
  | MacKick => mret None
  end.

End Run.

(** ** Following the registers *)

Section Emulation.
Context `{Profile, XHypervisorLaws C} `{!VmxConsts, !VmxConstsLaws} `{HostOS W} `{Burst, HostCpuid}.
Implicit Types s : mac_state C W.

Definition vc (s : mac_state C W) : C := mc_vcpu (mst_cpu s).

(** [s'] is [s] after the writes [rs] to registers and [fs] to fields of the
    vCPU. *)
Record moved (s : mac_state C W) (rs : list (x86Reg * Z)) (fs : list (Vmcs * Z))
    (s' : mac_state C W) : Prop := {
  mv_state : s' = set_vcpu (vc s') s;
  mv_register k : read_register (vc s') k = after_writes rs k (read_register (vc s) k);
  mv_vmcs k : read_vmcs (vc s') k = after_writes fs k (read_vmcs (vc s) k);
}.

Lemma moved_refl s : moved s [] [] s.
Proof. split; [by destruct s as [[]]|done|done]. Qed.

Lemma moved_step s rs fs s1 rs' fs' c :
  moved s rs fs s1 →
  (∀ k, read_register c k = after_writes rs' k (read_register (vc s1) k)) →
  (∀ k, read_vmcs c k = after_writes fs' k (read_vmcs (vc s1) k)) →
  moved s (rs ++ rs') (fs ++ fs') (set_vcpu c s1).
Proof.
  intros [Hs Hr Hf] Hr' Hf'. split.
  - rewrite Hs. done.
  - intros k. rewrite after_writes_app, <- Hr. apply Hr'.
  - intros k. rewrite after_writes_app, <- Hf. apply Hf'.
Qed.

Lemma wp_rd s rs fs s1 r v Q :
  moved s rs fs s1 → after_writes rs r (read_register (vc s) r) = Ok v → Q v s1 →
  wp C (rd r) Q s1.
Proof.
  intros [_ Hr _] Hv HQ. apply wp_query; [intros; by apply accepts_read|].
  intros a. fold (vc s1). rewrite Hr, Hv. by intros [= ->].
Qed.

Lemma wp_rd_vmcs s rs fs s1 f v Q :
  moved s rs fs s1 → after_writes fs f (read_vmcs (vc s) f) = Ok v → Q v s1 →
  wp C (rd_vmcs f) Q s1.
Proof.
  intros [_ _ Hf] Hv HQ. apply wp_query; [intros; by apply accepts_read_vmcs|].
  intros a. fold (vc s1). rewrite Hf, Hv. by intros [= ->].
Qed.

Lemma wp_on_vcpu (f : C → result Z C) Q s :
  (accepts C → is_ok (f (vc s))) → (∀ c, f (vc s) = Ok c → Q () (set_vcpu c s)) →
  wp C (on_vcpu f) Q s.
Proof.
  intros Hok HQ. unfold on_vcpu. fold (vc s) in *. apply wp_update; fold (vc s).
  - by destruct (f (vc s)).
  - destruct (f (vc s)) as [c|]; [|done]. intros s' [= <-]. by apply HQ.
Qed.

Lemma wp_wr s rs fs s1 r v Q :
  moved s rs fs s1 → (∀ s2, moved s (rs ++ [(r, v)]) fs s2 → Q () s2) → wp C (wr r v) Q s1.
Proof.
  intros Hm HQ. apply wp_on_vcpu; [intros; by apply accepts_write|]. intros c Hc. apply HQ.
  rewrite <- (app_nil_r fs). apply moved_step; [done|..]; intros k;
    [by eapply register_write|by eapply vmcs_write_register].
Qed.

Lemma wp_wr_vmcs s rs fs s1 f v Q :
  moved s rs fs s1 → (∀ s2, moved s rs (fs ++ [(f, v)]) s2 → Q () s2) → wp C (wr_vmcs f v) Q s1.
Proof.
  intros Hm HQ. apply wp_on_vcpu; [intros; by apply accepts_write_vmcs|]. intros c Hc. apply HQ.
  rewrite <- (app_nil_r rs). apply moved_step; [done|..]; intros k;
    [by eapply register_write_vmcs|by eapply vmcs_write].
Qed.

Lemma wp_advance s rs fs s1 rip len Q :
  moved s rs fs s1 → fits 64 (rip + len) →
  (∀ s2, moved s (rs ++ [(RIP, rip + len)]) fs s2 → Q () s2) → wp C (advance rip len) Q s1.
Proof.
  intros Hm Hfit HQ. apply wp_bind, (wp_exec _ (rip + len)); [by apply arith_fits|].
  by eapply wp_wr.
Qed.

Lemma wp_rd32 s rs fs s1 r v Q :
  moved s rs fs s1 → after_writes rs r (read_register (vc s) r) = Ok v →
  Q (Z.land v 0xFFFFFFFF) s1 → wp C (rd32 r) Q s1.
Proof. intros Hm Hv HQ. apply wp_bind. by eapply wp_rd. Qed.

End Emulation.

(** Runs the next operation of a program on a state described by [moved]. *)
Ltac hv_step :=
  lazymatch goal with
  | |- wp _ (mbind _ _) _ _ => apply wp_bind
  | |- wp _ (mret _) _ _ => apply wp_ret
  | |- wp _ (rd_vmcs _) _ _ =>
      eapply wp_rd_vmcs; [eassumption|cbn; first [eassumption|reflexivity]|]
  | |- wp _ (rd _) _ _ => eapply wp_rd; [eassumption|cbn; first [eassumption|reflexivity]|]
  | |- wp _ (rd32 _) _ _ => eapply wp_rd32; [eassumption|cbn; first [eassumption|reflexivity]|]
  | |- wp _ (advance _ _) _ _ => eapply wp_advance; [eassumption|eassumption|intros ?s ?Hmv]
  | |- wp _ (wr _ _) _ _ => eapply wp_wr; [eassumption|intros ?s ?Hmv]
  | |- wp _ (wr_vmcs _ _) _ _ => eapply wp_wr_vmcs; [eassumption|intros ?s ?Hmv]
  end.

(** The writes collected so far, as one list. *)
Ltac moved_exact :=
  match goal with Hm : moved _ _ _ ?s |- moved _ _ _ ?s => cbn [app] in Hm; exact Hm end.

(** ** CPUID *)

Section Theorems.
Context `{Profile, XHypervisorLaws C} `{!VmxConsts, !VmxConstsLaws} `{HostOS W} `{Burst}.
Context `{HostCpuidLaws}.
Implicit Types s : mac_state C W.

(** The processor name, in the 48 bytes of the leaves 0x80000002 to
    0x80000004. *)
Definition brand_string : list Z := bytes "uhyve - unikernel hypervisor" ++ replicate 20 0.

(** What the guest sees of the host's processor: the name is uhyve's, the
    processor reports that it runs under a hypervisor and that it has no SGX,
    and everything else is the host's. *)
Definition cpuid_seen (leaf sub a b c d : Z) : Prop :=
  if decide (0x80000002 ≤ leaf ≤ 0x80000004) then
    le_split 4 a ++ le_split 4 b ++ le_split 4 c ++ le_split 4 d =
      take 16 (drop (16 * Z.to_nat (leaf - 0x80000002)) brand_string)
  else
    let host := cpuid_count (wrap 32 leaf) (wrap 32 sub) in
    a = eax host ∧ d = edx host ∧
    (∀ i, 0 ≤ i →
      Z.testbit b i = Z.testbit (ebx host) i && negb (bool_decide (leaf = 7 ∧ sub = 0 ∧ i = 2))) ∧
    (∀ i, 0 ≤ i →
      Z.testbit c i = Z.testbit (ecx host) i || bool_decide (leaf = 1 ∧ i = 31)).

Lemma sgx_cleared b i :
  fits 32 b → 0 ≤ i →
  Z.testbit (Z.land b (unot 64 (Z.shiftl 1 2))) i = Z.testbit b i && negb (bool_decide (i = 2)).
Proof.
  intros Hb Hi. change (Z.shiftl 1 2) with (2 ^ 2).
  rewrite land_unot by (unfold fits in *; lia). rewrite Z.ldiff_spec, Z.pow2_bits_eqb by lia.
  f_equal. f_equal. destruct (Z.eqb_spec 2 i); case_bool_decide; lia || done.
Qed.

Lemma hypervisor_set c i :
  0 ≤ i → Z.testbit (Z.lor c (Z.shiftl 1 31)) i = Z.testbit c i || bool_decide (i = 31).
Proof.
  intros Hi. change (Z.shiftl 1 31) with (2 ^ 31). rewrite Z.lor_spec, Z.pow2_bits_eqb by lia.
  f_equal. destruct (Z.eqb_spec 31 i); case_bool_decide; lia || done.
Qed.

(** [s'] is [s] with the answer in the four result registers and RIP at
    [next]. *)
Record cpuid_answered (s s' : mac_state C W) (next leaf sub : Z) : Prop := {
  answered_state : s' = set_vcpu (vc s') s;
  answered_rip : read_register (vc s') RIP = Ok next;
  answered_registers k : k ∉ [RIP; RAX; RBX; RCX; RDX] →
    read_register (vc s') k = read_register (vc s) k;
  answered_vmcs f : read_vmcs (vc s') f = read_vmcs (vc s) f;
  answered_leaf : ∃ a b c d,
    read_register (vc s') RAX = Ok a ∧ read_register (vc s') RBX = Ok b ∧
    read_register (vc s') RCX = Ok c ∧ read_register (vc s') RDX = Ok d ∧
    cpuid_seen leaf sub a b c d;
}.

Lemma answered_moved s s' next leaf sub a b c d :
  moved s [(RAX, a); (RBX, b); (RCX, c); (RDX, d); (RIP, next)] [] s' →
  cpuid_seen leaf sub a b c d → cpuid_answered s s' next leaf sub.
Proof.
  intros [Hs Hr Hf] Hseen. split; [done|by rewrite Hr| |done|].
  - intros k Hk. rewrite Hr. destruct k; try done; by destruct Hk; repeat constructor.
  - exists a, b, c, d. by rewrite !Hr.
Qed.

(** C36: On macOS the guest sees, through any CPUID leaf, uhyve's processor
    name, the hypervisor bit and no SGX, and otherwise what the host's
    processor reports; the guest goes on after the instruction, and nothing
    but the four result registers and RIP changes. *)
Theorem mac_cpuid_correct s rip len leaf sub :
  read_vmcs (vc s) VMCS_RO_VMEXIT_INSTR_LEN = Ok len →
  read_register (vc s) RAX = Ok leaf → read_register (vc s) RCX = Ok sub →
  fits 64 (rip + len) →
  ∃ r s', emulate_cpuid rip s = Some (Ret (r, s')) ∧
    match r with
    | Ok _ => cpuid_answered s s' (rip + len) leaf sub
    | Err _ => ¬ accepts C
    end.
Proof.
  intros Hlen Hleaf Hsub Hfit. apply wp_result.
  pose proof (moved_refl s) as Hm. unfold emulate_cpuid, write_id_regs.
  do 7 hv_step.
  destruct (Z.eqb_spec leaf 0x80000002) as [->|Hne2].
  { repeat hv_step. eapply answered_moved; [moved_exact|]. by vm_compute. }
  destruct (Z.eqb_spec leaf 0x80000003) as [->|Hne3].
  { repeat hv_step. eapply answered_moved; [moved_exact|]. by vm_compute. }
  destruct (Z.eqb_spec leaf 0x80000004) as [->|Hne4].
  { repeat hv_step. eapply answered_moved; [moved_exact|]. by vm_compute. }
  repeat hv_step. eapply answered_moved; [moved_exact|].
  unfold cpuid_seen. rewrite decide_False by lia.
  pose proof (cpuid_u32 (wrap 32 leaf) (wrap 32 sub)) as Hu.
  split_and!; [done|done|intros i Hi..].
  - destruct (Z.eqb_spec leaf 7), (Z.eqb_spec sub 0); cbn [andb];
      [rewrite sgx_cleared by done; do 2 f_equal; apply bool_decide_ext; lia|..];
      (rewrite bool_decide_eq_false_2 by lia); btauto.
  - destruct (Z.eqb_spec leaf 1);
      [rewrite hypervisor_set by done; f_equal; apply bool_decide_ext; lia|].
    rewrite bool_decide_eq_false_2 by lia. btauto.
Qed.

(** ** Machine-specific registers *)

Definition edx_eax (d a : Z) : Z :=
  Z.lor (ushl 64 (Z.land d 0xFFFFFFFF) 32) (Z.land a 0xFFFFFFFF).

Lemma edx_eax_low d a : Z.land (edx_eax d a) 0xFFFFFFFF = wrap 32 a.
Proof.
  unfold edx_eax, ushl, wrap. change 0xFFFFFFFF with (Z.ones 32). rewrite <- !Z.land_ones by lia.
  bits.
Qed.

Lemma edx_eax_high d a : Z.shiftr (edx_eax d a) 32 = wrap 32 d.
Proof.
  unfold edx_eax, ushl, wrap. change 0xFFFFFFFF with (Z.ones 32). rewrite <- !Z.land_ones by lia.
  bits. f_equal. lia.
Qed.

Lemma wp_rd_edx_eax s rs fs s1 a d Q :
  moved s rs fs s1 → after_writes rs RAX (read_register (vc s) RAX) = Ok a →
  after_writes rs RDX (read_register (vc s) RDX) = Ok d → Q (edx_eax d a) s1 →
  wp C rd_edx_eax Q s1.
Proof. intros Hm Ha Hd HQ. unfold rd_edx_eax. repeat hv_step. exact HQ. Qed.

(** What an access to [msr] changes besides RIP: the value of the register,
    as the vCPU or the structure holds it. *)
Definition msr_value (s : mac_state C W) (msr : Z) : result Z Z :=
  if decide (msr = IA32_EFER) then read_vmcs (vc s) VMCS_GUEST_IA32_EFER
  else Ok (mc_apic_base (mst_cpu s)).

Lemma wrmsr_spec s rip len msr rcx a d :
  msr = IA32_EFER ∨ msr = IA32_APIC_BASE →
  read_vmcs (vc s) VMCS_RO_VMEXIT_INSTR_LEN = Ok len →
  read_register (vc s) RCX = Ok rcx → wrap 32 rcx = msr →
  read_register (vc s) RAX = Ok a → read_register (vc s) RDX = Ok d → fits 64 (rip + len) →
  wp C (emulate_wrmsr rip) (λ _ s',
    msr_value s' msr = Ok (edx_eax d a) ∧
    (∀ k, read_register (vc s') k = after_writes [(RIP, rip + len)] k (read_register (vc s) k)) ∧
    mst_host s' = mst_host s ∧ mst_ioapic s' = mst_ioapic s) s.
Proof.
  intros Hmsr Hlen Hrcx Hw Ha Hd Hfit.
  assert (Z.land rcx 0xFFFFFFFF = msr) as Hland.
  { rewrite <- Hw. unfold wrap. by rewrite <- Z.land_ones. }
  pose proof (moved_refl s) as Hm. unfold emulate_wrmsr, msr_value. do 4 hv_step. rewrite Hland.
  hv_step. destruct Hmsr as [-> | ->].
  - rewrite Z.eqb_refl. hv_step. eapply wp_rd_edx_eax; [done..|]. repeat hv_step.
    match goal with Hmv : moved _ _ _ ?s |- context [mst_host ?s] => destruct Hmv as [Hs Hr Hf] end.
    rewrite decide_True, Hf by done. split_and!; [done|exact Hr|by rewrite Hs|by rewrite Hs].
  - assert (IA32_APIC_BASE ≠ IA32_EFER) as Hne by by rewrite apic_base_msr, efer_msr.
    rewrite (proj2 (Z.eqb_neq _ _) Hne), Z.eqb_refl. hv_step. eapply wp_rd_edx_eax; [done..|].
    hv_step. apply wp_update; [done|]. intros s1 [= <-].
    apply wp_on_vcpu; [intros; by apply accepts_apic|]. intros c Hc.
    set (s1 := set_vcpu c _). pose proof (moved_refl s1) as Hm1. repeat hv_step.
    match goal with Hmv : moved s1 _ _ ?s |- _ => destruct Hmv as [Hs Hr Hf] end.
    rewrite decide_False by done. split_and!; [by rewrite Hs| |by rewrite Hs|by rewrite Hs].
    intros k. rewrite Hr. cbn. by rewrite (register_apic _ _ _ _ Hc).
Qed.

Lemma rdmsr_spec s rip len msr rcx v :
  msr = IA32_EFER ∨ msr = IA32_APIC_BASE → msr_value s msr = Ok v → fits 64 v →
  read_vmcs (vc s) VMCS_RO_VMEXIT_INSTR_LEN = Ok len →
  read_register (vc s) RCX = Ok rcx → wrap 32 rcx = msr → fits 64 (rip + len) →
  wp C (emulate_rdmsr rip) (λ _ s',
    moved s [(RAX, Z.land v 0xFFFFFFFF); (RDX, Z.shiftr v 32); (RIP, rip + len)] [] s') s.
Proof.
  intros Hmsr Hv Hfv Hlen Hrcx Hw Hfit.
  assert (Z.land rcx 0xFFFFFFFF = msr) as Hland.
  { rewrite <- Hw. unfold wrap. by rewrite <- Z.land_ones. }
  pose proof (moved_refl s) as Hm. unfold emulate_rdmsr, msr_value in *. do 4 hv_step.
  rewrite Hland. hv_step. destruct Hmsr as [-> | ->].
  - rewrite Z.eqb_refl. rewrite decide_True in Hv by done. repeat hv_step. moved_exact.
  - assert (IA32_APIC_BASE ≠ IA32_EFER) as Hne by by rewrite apic_base_msr, efer_msr.
    assert (IA32_APIC_BASE ≠ IA32_MISC_ENABLE) as Hne'
      by by rewrite apic_base_msr, misc_enable_msr.
    rewrite (proj2 (Z.eqb_neq _ _) Hne), (proj2 (Z.eqb_neq _ _) Hne'), Z.eqb_refl.
    rewrite decide_False in Hv by done. injection Hv as <-. hv_step. apply wp_query; [done|].
    intros _ [= <-]. repeat hv_step.
    assert (Z.land (mc_apic_base (mst_cpu s) ≫ 32) 0xFFFFFFFF = mc_apic_base (mst_cpu s) ≫ 32)
      as Hhigh.
    { change 0xFFFFFFFF with (Z.ones 32). bits. symmetry. by apply (testbit_fits 64); [|lia..]. }
    rewrite Hhigh in *. moved_exact.
Qed.

(** A machine-specific register keeps what the guest wrote: after WRMSR to
    EFER or to the base of the APIC, RDMSR reads back the 64 bits from EDX and
    EAX, however the guest ran in between, and both go on after the
    instruction. *)
Lemma mac_msr_roundtrip s rip len msr rcx a d :
  msr = IA32_EFER ∨ msr = IA32_APIC_BASE →
  read_vmcs (vc s) VMCS_RO_VMEXIT_INSTR_LEN = Ok len →
  read_register (vc s) RCX = Ok rcx → wrap 32 rcx = msr →
  read_register (vc s) RAX = Ok a → read_register (vc s) RDX = Ok d → fits 64 (rip + len) →
  ∃ r s1, emulate_wrmsr rip s = Some (Ret (r, s1)) ∧
    match r with
    | Ok _ =>
        read_register (vc s1) RIP = Ok (rip + len) ∧
        ∀ s2 rip2 len2 rcx2,
          msr_value s2 msr = msr_value s1 msr →
          read_vmcs (vc s2) VMCS_RO_VMEXIT_INSTR_LEN = Ok len2 →
          read_register (vc s2) RCX = Ok rcx2 → wrap 32 rcx2 = msr → fits 64 (rip2 + len2) →
          ∃ r3 s3, emulate_rdmsr rip2 s2 = Some (Ret (r3, s3)) ∧
            match r3 with
            | Ok _ => moved s2 [(RAX, wrap 32 a); (RDX, wrap 32 d); (RIP, rip2 + len2)] [] s3
            | Err _ => ¬ accepts C
            end
    | Err _ => ¬ accepts C
    end.
Proof.
  intros Hmsr Hlen Hrcx Hw Ha Hd Hfit. apply wp_result.
  eapply wp_mono; [|by eapply wrmsr_spec]. intros _ s1 (Hv & Hregs & _). split; [by rewrite Hregs|].
  intros s2 rip2 len2 rcx2 Hkept Hlen2 Hrcx2 Hw2 Hfit2. apply wp_result.
  rewrite <- (edx_eax_low d a), <- (edx_eax_high d a).
  eapply rdmsr_spec; try done; [by rewrite Hkept|].
  unfold edx_eax. apply lor_fits; [done|apply wrap_range; lia|].
  rewrite Z.land_comm. by apply land_fits_l.
Qed.

(** ** The I/O APIC *)

Lemma wp_get {A} (f : mac_state C W → A) Q s : Q (f s) s → wp C (get f) Q s.
Proof. intros HQ. apply wp_query; [done|]. by intros a [= <-]. Qed.

(** The guest stopped at [rip], an instruction [instr] of [len] bytes that moves
    from ([store]) or to memory at [IOAPIC_BASE + offset]: bit 0 of the exit
    qualification says that it reads, bit 1 that it writes, and the other bits
    are whatever the processor reports. *)
Record ioapic_move (s : mac_state C W) (rip len offset : Z) (store : bool) (instr : Instruction) :
    Prop := {
  im_len : read_vmcs (vc s) VMCS_RO_VMEXIT_INSTR_LEN = Ok len;
  im_direction : ∃ q, read_vmcs (vc s) VMCS_RO_EXIT_QUALIFIC = Ok q ∧
    Z.testbit q 0 = negb store ∧ Z.testbit q 1 = store;
  im_code : ∃ p code, host_address (mc_vm_start (mst_cpu s)) rip = Ret p ∧
    load_bytes (h_mem (mst_host s)) p 8 = Ret code ∧ disassemble_64 code rip = Some instr;
  im_operation : operation instr = MOV;
  im_next : fits 64 (rip + len);
}.

(** What a store moves: its immediate, or the low half of a register. *)
Definition mov_source (s : mac_state C W) (instr : Instruction) (v : Z) : Prop :=
  match operand_1 instr with
  | IMM => v = wrap 64 (immediate_1 instr)
  | o => ∃ r x, operand_register o = Some r ∧ read_register (vc s) r = Ok x ∧ v = wrap 32 x
  end.

Lemma wp_emulate_ioapic s rip len offset store instr Q :
  ioapic_move s rip len offset store instr →
  wp C (ioapic_mov instr (negb store) store (IOAPIC_BASE + offset))
    (λ _, wp C (advance rip len) Q) s →
  wp C (emulate_ioapic rip (IOAPIC_BASE + offset)) Q s.
Proof.
  intros [Hlen (q & Hq & Hread & Hwrite) (p & code & Hp & Hcode & Hdis) Hop _] Hmov.
  pose proof (moved_refl s) as Hm. unfold emulate_ioapic.
  hv_step. hv_step. hv_step. hv_step.
  hv_step. apply wp_get. hv_step. apply wp_get.
  hv_step. apply (wp_exec _ p); [done|]. hv_step. apply (wp_exec _ code); [done|].
  hv_step. rewrite Hdis, Hop, !flag_test, Hread, Hwrite, !negb_involutive by lia. exact Hmov.
Qed.

Lemma wp_mov_source s instr v Q :
  mov_source s instr v → Q v s →
  wp C (match operand_1 instr, operand_register (operand_1 instr) with
        | IMM, _ => mret (wrap 64 (immediate_1 instr))
        | _, Some r => rd32 r
        | _, None => lift_exec Panic
        end) Q s.
Proof.
  unfold mov_source. intros Hv HQ. pose proof (moved_refl s) as Hm.
  assert (∀ x, wrap 32 x = Z.land x 0xFFFFFFFF) as Hwrap
    by (intros x; unfold wrap; by rewrite <- Z.land_ones).
  destruct (operand_1 instr); try (by subst v);
    destruct Hv as (r & x & Hr & Hx & ->); rewrite Hr; rewrite Hwrap in HQ; by eapply wp_rd32.
Qed.

(** C30: The guest reaches the two registers of the I/O APIC with MOV
    instructions, whatever the bits of the exit qualification say besides the
    direction.  A store of an immediate or of the low half of a register
    selects an entry, or changes the selected one to its low 32 bits; a load
    puts the selector or the selected entry into the register.  The guest goes
    on after the instruction, and nothing else changes.  The selector has to be
    one of an entry. *)
Theorem mac_ioapic_access s rip len offset store instr :
  ioapic_wf (mst_ioapic s) → ioapic_selector (mst_ioapic s) < 64 →
  offset = 0x00 ∨ offset = 0x10 → ioapic_move s rip len offset store instr →
  let a := mst_ioapic s in
  let selects := decide (offset = 0x00) in
  ∀ v r, (if store then mov_source s instr v else operand_register (operand_0 instr) = Some r) →
  ∃ res s', emulate_ioapic rip (IOAPIC_BASE + offset) s = Some (Ret (res, s')) ∧
    match res with
    | Ok _ =>
        if store then
          moved (set_ioapic (if selects then Ioapic v (ioapic_rtbl a)
             else Ioapic (ioapic_selector a)
                    (<[Z.to_nat (ioapic_selector a) := wrap 32 v]> (ioapic_rtbl a))) s)
            [(RIP, rip + len)] [] s'
        else
          moved s [(r, if selects then ioapic_selector a
                       else ioapic_rtbl a !!! Z.to_nat (ioapic_selector a));
                   (RIP, rip + len)] [] s'
    | Err _ => ¬ accepts C
    end.
Proof.
  intros [Hl He Hs] Hsel Hoff Hmove a selects v r Hop. apply wp_result.
  eapply wp_emulate_ioapic; [done|]. pose proof (im_next _ _ _ _ _ _ Hmove).
  assert (IOAPIC_BASE + offset - IOAPIC_BASE = offset) as Hdiff by lia. subst a selects.
  pose proof (moved_refl s) as Hm. unfold ioapic_mov. destruct store; cbn [negb]; hv_step.
  - hv_step. apply (wp_mov_source s instr v); [done|]. hv_step. apply (wp_exec _ offset).
    { rewrite Hdiff. apply arith_fits. destruct Hoff as [-> | ->]; done. }
    hv_step. apply wp_get. hv_step. destruct Hoff as [-> | ->].
    + eapply wp_exec; [reflexivity|]. apply wp_update; [done|]. intros s1 [= <-].
      hv_step. pose proof (moved_refl (set_ioapic (Ioapic v (ioapic_rtbl (mst_ioapic s))) s)).
      hv_step. moved_exact.
    + eapply wp_exec.
      { unfold ioapic_write. rewrite Hl, (proj2 (Z.ltb_lt _ _)) by done. reflexivity. }
      apply wp_update; [done|]. intros s1 [= <-]. hv_step.
      match goal with |- wp _ _ _ ?s1 => pose proof (moved_refl s1) end. hv_step.
      rewrite decide_False by done. moved_exact.
  - hv_step. hv_step. apply (wp_exec _ offset).
    { rewrite Hdiff. apply arith_fits. destruct Hoff as [-> | ->]; done. }
    hv_step. apply wp_get. hv_step. rewrite Hop. destruct Hoff as [-> | ->].
    + eapply wp_exec; [reflexivity|]. repeat hv_step. moved_exact.
    + destruct (lookup_lt_is_Some_2 (ioapic_rtbl (mst_ioapic s))
        (Z.to_nat (ioapic_selector (mst_ioapic s)))) as [x Hx]; [lia|].
      apply (wp_exec _ x); [unfold ioapic_read; by rewrite Hx|]. repeat hv_step.
      rewrite decide_False by done. rewrite (list_lookup_total_correct _ _ _ Hx). moved_exact.
Qed.

End Theorems.

(** ** Sessions

    As on Linux (VcpuLoop.v): the guest makes the requests of the hypercall
    interface, here by writing the address of their arguments from EAX to a
    port. *)

Section Session.
Context `{Profile, XHypervisorLaws C} `{!VmxConsts, !VmxConstsLaws} `{HostOSLaws W}.
Context `{Burst, HostCpuid}.
Context (kernel_path : list Z) (args : list (list Z)) (vars : list (list Z * list Z)).
Context (max_write : nat).
Implicit Types s : mac_state C W.

(** The guest stopped at [rip] for [reason]. *)
Definition stopped (c : C) (reason rip : Z) : Prop :=
  ∃ v, read_vmcs c VMCS_RO_EXIT_REASON = Ok v ∧ Z.land v 0xffff = reason ∧
    read_register c RIP = Ok rip.

(** It stopped at an instruction of [len] bytes that writes EAX, whose low 32
    bits are [a], to [port]. *)
Record port_write (c : C) (port a rip len : Z) : Prop := {
  pw_stopped : stopped c VMX_REASON_IO rip;
  pw_qualification : ∃ q, read_vmcs c VMCS_RO_EXIT_QUALIFIC = Ok q ∧ Z.land q 8 = 0 ∧
    Z.land (Z.shiftr q 16) 0xFFFF = port;
  pw_len : read_vmcs c VMCS_RO_VMEXIT_INSTR_LEN = Ok len;
  pw_rax : ∃ v, read_register c RAX = Ok v ∧ Z.land v 0xFFFFFFFF = a;
  pw_next : fits 64 (rip + len);
}.

(** The guest runs until it exits with a code; in between it is interrupted,
    prints, asks for CPUID leaves and makes requests. *)
Inductive mac_session : C → host W → Z → host W → Prop :=
| ms_exit c h c' m a rip len code :
    hv_run c (h_mem h) = (c', m, Ok ()) → port_write c' UHYVE_PORT_EXIT a rip len →
    load_i32 m (mem_base m + a + SysExit.arg) = Ret code →
    mac_session c h code (Host m (h_os h))
| ms_shutdown c h c' m a rip len :
    hv_run c (h_mem h) = (c', m, Ok ()) → port_write c' SHUTDOWN_PORT a rip len →
    mac_session c h 0 (Host m (h_os h))
| ms_interrupt c h c' m rip code h' :
    hv_run c (h_mem h) = (c', m, Ok ()) → stopped c' VMX_REASON_IRQ rip →
    mac_session c' (Host m (h_os h)) code h' → mac_session c h code h'
| ms_cpuid c h c' c2 m rip code h' :
    hv_run c (h_mem h) = (c', m, Ok ()) → stopped c' VMX_REASON_CPUID rip →
    (∀ s, vc s = c' → emulate_cpuid rip s = Some (Ret (Ok (), set_vcpu c2 s))) →
    mac_session c2 (Host m (h_os h)) code h' → mac_session c h code h'
| ms_uart c h c' c2 m a rip len w code h' :
    hv_run c (h_mem h) = (c', m, Ok ()) → port_write c' UHYVE_UART_PORT a rip len →
    os_stdout_write_all (h_os h) [Z.land a 0xFF] = (w, Ok ()) →
    write_register c' RIP (rip + len) = Ok c2 →
    mac_session c2 (Host m w) code h' → mac_session c h code h'
| ms_request c h c' c2 m port a rip len h1 code h' :
    hv_run c (h_mem h) = (c', m, Ok ()) → port_write c' port a rip len →
    request kernel_path args vars max_write (Host m (h_os h)) (mem_base m + a) port h1 →
    write_register c' RIP (rip + len) = Ok c2 →
    mac_session c2 h1 code h' → mac_session c h code h'.

Hypothesis Hargs : Z.of_nat (length args) < 2 ^ 31.
Hypothesis Hargv_bytes : Forall (Forall is_byte) (argv_strings kernel_path args).
Hypothesis Henv_bytes : Forall (Forall is_byte) (env_strings vars).
Hypothesis Hprogress : write_progress W.

(** The vCPU belongs to the memory it runs in. *)
Record mac_of (s : mac_state C W) : Prop := {
  mo_start : mc_vm_start (mst_cpu s) = mem_base (h_mem (mst_host s));
  mo_path : mc_kernel_path (mst_cpu s) = kernel_path;
  mo_wf : mem_wf (h_mem (mst_host s));
}.

(** A program that runs to the end without an error. *)
Definition returns {A} (p : hv (mac_state C W) A) (s : mac_state C W) (a : A)
    (s' : mac_state C W) : Prop := p s = Some (Ret (Ok a, s')).

Lemma returns_bind {A B} (p : hv (mac_state C W) A) (k : A → hv (mac_state C W) B) s a s1 b s2 :
  returns p s a s1 → returns (k a) s1 b s2 → returns (p ≫= k) s b s2.
Proof. unfold returns, mbind, hv_bind. by intros ->. Qed.

Lemma returns_rd s r v : read_register (vc s) r = Ok v → returns (rd r) s v s.
Proof. unfold returns, rd, query. fold (vc s). by intros ->. Qed.

Lemma returns_rd_vmcs s f v : read_vmcs (vc s) f = Ok v → returns (rd_vmcs f) s v s.
Proof. unfold returns, rd_vmcs, query. fold (vc s). by intros ->. Qed.

Lemma returns_advance s rip len c :
  fits 64 (rip + len) → write_register (vc s) RIP (rip + len) = Ok c →
  returns (advance rip len) s () (set_vcpu c s).
Proof.
  intros Hfit Hw. eapply (returns_bind _ _ _ (rip + len) s).
  - unfold returns, lift_exec. by rewrite arith_fits.
  - unfold returns, wr, on_vcpu, update. fold (vc s). by rewrite Hw.
Qed.

Lemma returns_on_host s f h :
  f (mst_host s) = Ret h → returns (on_host f) s () (set_host h s).
Proof. unfold returns, on_host. by intros ->. Qed.

Lemma returns_data_addr s v a :
  mac_of s → read_register (vc s) RAX = Ok v → Z.land v 0xFFFFFFFF = a →
  returns mac_data_addr s (mem_base (h_mem (mst_host s)) + a) s.
Proof.
  intros [Hs _ Hm] Hv Ha. assert (fits 32 a) as Hfa.
  { rewrite <- Ha, Z.land_comm. apply land_fits_l; [lia|]. done. }
  unfold mac_data_addr. eapply returns_bind.
  { eapply returns_bind; [by apply returns_rd|]. reflexivity. }
  eapply returns_bind; [reflexivity|]. unfold returns, lift_exec. rewrite Ha, Hs.
  pose proof (wf_base _ Hm). pose proof (wf_end _ Hm). pose proof (wf_size _ Hm).
  unfold host_address, fits in *. arith_ok. do 4 f_equal. lia.
Qed.

Lemma mac_request_served s a port h' :
  mac_of s → request kernel_path args vars max_write (mst_host s)
    (mem_base (h_mem (mst_host s)) + a) port h' →
  port ∈ mac_ports ∧
  returns (mac_call args vars max_write port (mem_base (h_mem (mst_host s)) + a)) s ()
    (set_host h' s).
Proof.
  intros [Hstart Hpath Hwf] Hr.
  destruct Hr; (split; [evaluate|]); unfold mac_call; (eapply returns_bind; [reflexivity|]);
    cbv zeta; cbn [Z.eqb Pos.eqb UHYVE_PORT_READ UHYVE_PORT_OPEN]; rewrite ?Hstart, ?Hpath.
  1: { destruct (write_spec (mst_host s) (mem_base (h_mem (mst_host s)) + a) Hwf max_write
      fd buf len buffer) as (w1 & r1 & Hwrite & Hall); try done.
    match goal with Hw : write_all _ _ _ w' _ |- _ =>
      destruct (write_all_det _ _ _ _ _ _ _ Hall Hw) as [-> ->] end.
    change (_ =? UHYVE_PORT_CMDSIZE) with false. change (_ =? UHYVE_PORT_CMDVAL) with false.
    change (_ =? UHYVE_PORT_OPEN) with false. change (_ =? UHYVE_PORT_WRITE) with true.
    cbv match. unfold returns, mac_write. by rewrite Hwrite. }
  all: apply returns_on_host; cbn [h_mem h_os].
  - destruct (read_spec (mst_host s) (mem_base (h_mem (mst_host s)) + a) Hwf fd buf len buffer w' r data)
      as (_ & _ & _ & Hread); try done.
  - by erewrite open_spec by done.
  - by erewrite close_spec by done.
  - by erewrite lseek_spec by done.
  - by erewrite unlink_spec by done.
  - by rewrite cmdsize_result by done.
  - match goal with Hroom : cmdval_room _ _ _ _ _ _ _ _ _ |- _ => destruct Hroom end.
    by erewrite cmdval_result by done.
Qed.

(** One round of the loop. *)
Lemma mac_round_returns s c' m reason rip r s2 :
  hv_run (vc s) (h_mem (mst_host s)) = (c', m, Ok ()) → stopped c' reason rip →
  returns (mac_exit args vars max_write reason rip)
    (set_host (Host m (h_os (mst_host s))) (set_vcpu c' s)) r s2 →
  returns (mac_round args vars max_write) s r s2.
Proof.
  intros Hrun (v & Hv & <- & Hrip) Hexit. unfold mac_round, mac_serve.
  eapply (returns_bind _ _ _ () (set_host (Host m (h_os (mst_host s))) (set_vcpu c' s))).
  { unfold returns, guest_runs. fold (vc s). by rewrite Hrun. }
  eapply returns_bind; [by apply returns_rd_vmcs|].
  eapply returns_bind; [by apply returns_rd|]. exact Hexit.
Qed.

Lemma mac_io_returns s port a rip len r s2 :
  port_write (vc s) port a rip len →
  returns (mac_io_port args vars max_write port rip len) s r s2 →
  returns (mac_exit args vars max_write VMX_REASON_IO rip) s r s2.
Proof.
  intros [_ (q & Hq & Hin & <-) Hlen _ _] Hp. unfold mac_exit.
  rewrite reason_io, reason_exc_nmi, reason_cpuid, reason_rdmsr, reason_wrmsr, reason_xsetbv,
    reason_irq, reason_ept, reason_rdrand. cbn [Z.eqb Pos.eqb].
  unfold mac_io. eapply returns_bind; [by apply returns_rd_vmcs|].
  eapply returns_bind; [by apply returns_rd_vmcs|].
  rewrite Hin. eapply returns_bind; [reflexivity|]. exact Hp.
Qed.

(** The state after the guest ran. *)
Lemma mac_of_run s c' m :
  mac_of s → hv_run (vc s) (h_mem (mst_host s)) = (c', m, Ok ()) →
  mac_of (set_host (Host m (h_os (mst_host s))) (set_vcpu c' s)).
Proof.
  intros [Hs Hp Hm] Hr. destruct (hv_run_map _ _ _ _ _ Hr) as [Hb _].
  split; cbn; [by rewrite <- Hb in Hs|done|by eapply hv_run_wf].
Qed.

Lemma mac_of_next s h' c :
  mac_of s → mem_wf (h_mem h') → same_map (h_mem (mst_host s)) (h_mem h') →
  mac_of (set_vcpu c (set_host h' s)).
Proof. intros [Hs Hp Hm] Hwf [Hb _]. split; cbn; [by rewrite <- Hb in Hs|done|done]. Qed.

Lemma mac_stop s r s1 :
  returns (mac_round args vars max_write) s (Some r) s1 →
  returns (mac_continue args vars max_write 1) s r s1.
Proof. intros Hr. eapply returns_bind; [exact Hr|reflexivity]. Qed.

Lemma mac_next fuel s s1 r s2 :
  returns (mac_round args vars max_write) s None s1 →
  returns (mac_continue args vars max_write fuel) s1 r s2 →
  returns (mac_continue args vars max_write (S fuel)) s r s2.
Proof. intros Hr Hc. eapply returns_bind; [exact Hr|exact Hc]. Qed.

Lemma mac_port_exit s a rip len code :
  mac_of s → port_write (vc s) UHYVE_PORT_EXIT a rip len →
  load_i32 (h_mem (mst_host s)) (mem_base (h_mem (mst_host s)) + a + SysExit.arg) = Ret code →
  returns (mac_io_port args vars max_write UHYVE_PORT_EXIT rip len) s (Some (MacExit code)) s.
Proof.
  intros Hs Hpw Hcode. destruct (pw_rax _ _ _ _ _ Hpw) as (v & Hv & Ha).
  unfold mac_io_port. change (_ =? SHUTDOWN_PORT) with false.
  change (_ =? UHYVE_UART_PORT) with false. change (_ =? UHYVE_PORT_EXIT) with true. cbv match.
  eapply returns_bind; [by eapply returns_data_addr|]. eapply returns_bind; [reflexivity|].
  eapply (returns_bind _ _ _ code s); [|reflexivity].
  unfold returns, lift_exec, VirtualCPU.exit. by rewrite Hcode.
Qed.

Lemma mac_port_uart s a rip len w c2 :
  port_write (vc s) UHYVE_UART_PORT a rip len →
  os_stdout_write_all (h_os (mst_host s)) [Z.land a 0xFF] = (w, Ok ()) →
  write_register (vc s) RIP (rip + len) = Ok c2 →
  returns (mac_io_port args vars max_write UHYVE_UART_PORT rip len) s None
    (set_vcpu c2 (set_host (Host (h_mem (mst_host s)) w) s)).
Proof.
  intros Hpw Hw Hc. destruct (pw_rax _ _ _ _ _ Hpw) as (v & Hv & <-).
  rewrite <- Z.land_assoc in Hw. change (Z.land 0xFFFFFFFF 0xFF) with 0xFF in Hw.
  unfold mac_io_port. change (_ =? SHUTDOWN_PORT) with false.
  change (_ =? UHYVE_UART_PORT) with true. cbv match.
  eapply returns_bind; [by apply returns_rd|].
  eapply (returns_bind _ _ _ () (set_host (Host (h_mem (mst_host s)) w) s)).
  { apply returns_on_host. unfold VirtualCPU.uart. by rewrite Hw. }
  eapply returns_bind; [|reflexivity]. apply returns_advance; [by eapply pw_next|done].
Qed.

Lemma mac_port_request s port a rip len h1 c2 :
  mac_of s → port_write (vc s) port a rip len →
  request kernel_path args vars max_write (mst_host s)
    (mem_base (h_mem (mst_host s)) + a) port h1 →
  write_register (vc s) RIP (rip + len) = Ok c2 →
  returns (mac_io_port args vars max_write port rip len) s None (set_vcpu c2 (set_host h1 s)).
Proof.
  intros Hs Hpw Hreq Hc. destruct (pw_rax _ _ _ _ _ Hpw) as (v & Hv & Ha).
  destruct (mac_request_served s a port h1 Hs Hreq) as [Hin Hcall].
  assert (port ≠ SHUTDOWN_PORT ∧ port ≠ UHYVE_UART_PORT ∧ port ≠ UHYVE_PORT_EXIT) as (Hp1 & Hp2 & Hp3)
    by by destruct Hreq.
  unfold mac_io_port. rewrite !(proj2 (Z.eqb_neq _ _)) by done.
  rewrite bool_decide_eq_true_2 by done.
  eapply returns_bind; [by eapply returns_data_addr|]. eapply returns_bind; [exact Hcall|].
  eapply returns_bind; [|reflexivity]. apply returns_advance; [by eapply pw_next|done].
Qed.

Lemma mac_continue_serves c h code h' :
  mac_session c h code h' → ∀ s, mac_of s → vc s = c → mst_host s = h →
  ∃ fuel s', returns (mac_continue args vars max_write fuel) s (MacExit code) s' ∧
    mst_host s' = h' ∧ mst_ioapic s' = mst_ioapic s.
Proof.
  induction 1 as [c h c' m a rip len code Hr Hpw Hcode|c h c' m a rip len Hr Hpw
    |c h c' m rip code h' Hr Hst _ IH|c h c' c2 m rip code h' Hr Hst Hem _ IH
    |c h c' c2 m a rip len w code h' Hr Hpw Hw Hc2 _ IH
    |c h c' c2 m port a rip len h1 code h' Hr Hpw Hreq Hc2 _ IH]; intros s Hs <- <-;
    pose proof (mac_of_run _ _ _ Hs Hr) as Hs1;
    set (s1 := set_host (Host m (h_os (mst_host s))) (set_vcpu c' s)) in *.
  - exists 1%nat, s1. split; [|done]. apply mac_stop.
    eapply mac_round_returns; [done|apply Hpw|]. eapply mac_io_returns; [exact Hpw|].
    by apply (mac_port_exit s1 a).
  - exists 1%nat, s1. split; [|done]. apply mac_stop.
    eapply mac_round_returns; [done|apply Hpw|]. by eapply mac_io_returns; [exact Hpw|].
  - destruct (IH s1 Hs1 eq_refl eq_refl) as (fuel & s' & Hc & Hrest).
    exists (S fuel), s'. split; [|done]. eapply mac_next; [|exact Hc].
    eapply mac_round_returns; [done|exact Hst|]. fold s1. unfold mac_exit.
    rewrite reason_exc_nmi, reason_cpuid, reason_rdmsr, reason_wrmsr, reason_xsetbv, reason_irq.
    reflexivity.
  - destruct (IH (set_vcpu c2 s1)) as (fuel & s' & Hc & Hrest); [by destruct Hs1|done|done|].
    exists (S fuel), s'. split; [|done]. eapply mac_next; [|exact Hc].
    eapply mac_round_returns; [done|exact Hst|]. fold s1. unfold mac_exit.
    rewrite reason_exc_nmi, reason_cpuid. eapply returns_bind; [by apply Hem|reflexivity].
  - destruct (IH (set_vcpu c2 (set_host (Host m w) s1))) as (fuel & s' & Hc & Hrest); [|done|done|].
    { apply mac_of_next; [done|apply Hs1|done]. }
    exists (S fuel), s'. split; [|done]. eapply mac_next; [|exact Hc].
    eapply mac_round_returns; [done|apply Hpw|]. eapply mac_io_returns; [exact Hpw|].
    by apply (mac_port_uart s1 a).
  - destruct (request_wf kernel_path args vars max_write Hargv_bytes Henv_bytes _ _ _ _ Hreq)
      as [Hwf1 Hmap]; [apply Hs1|].
    destruct (IH (set_vcpu c2 (set_host h1 s1))) as (fuel & s' & Hc & Hrest); [|done|done|].
    { by apply mac_of_next. }
    exists (S fuel), s'. split; [|done]. eapply mac_next; [|exact Hc].
    eapply mac_round_returns; [done|apply Hpw|]. eapply mac_io_returns; [exact Hpw|].
    by apply (mac_port_request s1 port a).
Qed.

(** C13: On macOS, too, a guest that keeps to the hypercall interface is
    served: each request takes guest memory and the host where the interface
    says, in order, the guest goes on after each of its instructions, and
    [run] returns its exit code. *)
Theorem mac_run_serves_session s code h' :
  mac_of s → mac_session (vc s) (mst_host s) code h' →
  ∃ fuel s', mac_run args vars max_write fuel s = Some (Ret (Ok (Some code), s')) ∧
    mst_host s' = h' ∧ mst_ioapic s' = mst_ioapic s.
Proof.
  intros Hs Hsess. destruct (mac_continue_serves _ _ _ _ Hsess s Hs eq_refl eq_refl)
    as (fuel & s' & Hc & Hrest).
  exists fuel, s'. split; [|done]. by eapply (returns_bind _ _ _ (MacExit code) s').
Qed.

End Session.

(** ** A scripted guest *)
Module Example.
#[local] Existing Instance debug_profile.
Import Hypercalls.Example.

(** A vCPU that keeps what it is given, and a guest that plays a script: the
    registers and fields it stops with and what it writes to memory before. *)
Record event := Event {
  e_regs : list (x86Reg * Z); e_fields : list (Vmcs * Z); e_mem : list (Z * list Z);
}.
Record xcpu := XCpu {
  x_regs : list (x86Reg * Z); x_fields : list (Vmcs * Z); x_script : list event;
}.

#[local] Instance example_hv : XHypervisor xcpu := {|
  read_register c r := after_writes (x_regs c) r (Ok 0);
  write_register c r v := Ok (XCpu (x_regs c ++ [(r, v)]) (x_fields c) (x_script c));
  read_vmcs c f := after_writes (x_fields c) f (Ok 0);
  write_vmcs c f v := Ok (XCpu (x_regs c) (x_fields c ++ [(f, v)]) (x_script c));
  enable_native_msr c _ _ := Ok c;
  set_apic_addr c _ := Ok c;
  read_vmx_cap _ := Ok 0xffffffff00000000;
  hv_run c m :=
    match x_script c with
    | [] => (c, m, Ok ())
    | e :: rest =>
        (XCpu (x_regs c ++ e_regs e) (x_fields c ++ e_fields e) rest,
         if decide (Forall (λ w, Forall is_byte w.2) (e_mem e)) then writes (e_mem e) m else m,
         Ok ())
    end;
|}.

#[local] Instance example_hv_laws : XHypervisorLaws xcpu.
Proof.
  split; try (cbn; intros; by simplify_eq).
  - intros c r v c' r' [= <-]. apply (after_writes_app (x_regs c) [(r, v)]).
  - intros c f v c' f' [= <-]. apply (after_writes_app (x_fields c) [(f, v)]).
  - cbn. intros c m c' m' r. destruct (x_script c) as [|e rest]; [by intros [= <- <- <-]|].
    intros [= <- <- <-]. case_decide; [apply writes_map|done].
  - cbn. intros c m c' m' r. destruct (x_script c) as [|e rest]; [by intros [= <- <- <-]|].
    intros [= <- <- <-] Hm. case_decide; [by apply mem_wf_writes|done].
Qed.

Lemma after_writes_ok `{EqDecision K} (ws : list (K * Z)) k v :
  is_ok v → is_ok (after_writes ws k v).
Proof.
  revert v. induction ws as [|w ws IH]; intros v Hv; [done|]. apply IH. by case_decide.
Qed.

Lemma example_accepts : accepts xcpu.
Proof.
  split; try done; intros c.
  - intros r. by apply after_writes_ok.
  - intros f. by apply after_writes_ok.
  - intros m. cbn. by destruct (x_script c).
Qed.

#[local] Instance example_consts : VmxConsts := {|
  PIN_BASED_INTR := 1; PIN_BASED_NMI := 8; PIN_BASED_VIRTUAL_NMI := 32;
  CPU_BASED_SECONDARY_CTLS := 0x80000000; CPU_BASED_MWAIT := 0x400;
  CPU_BASED_MSR_BITMAPS := 0x10000000; CPU_BASED_MONITOR := 0x20000000;
  CPU_BASED_TSC_OFFSET := 8; CPU_BASED_TPR_SHADOW := 0x200000;
  CPU_BASED2_RDTSCP := 8; CPU_BASED2_APIC_REG_VIRT := 0x100;
  VMENTRY_LOAD_EFER := 0x8000; VMENTRY_GUEST_IA32E := 0x200;
  IA32_FS_BASE := 0xc0000100; IA32_GS_BASE := 0xc0000101; IA32_KERNEL_GSBASE := 0xc0000102;
  IA32_SYSENTER_CS := 0x174; IA32_SYSENTER_EIP := 0x176; IA32_SYSENTER_ESP := 0x175;
  IA32_STAR := 0xc0000081; IA32_LSTAR := 0xc0000082; IA32_CSTAR := 0xc0000083;
  IA32_FMASK := 0xc0000084; TSC := 0x10; IA32_TSC_AUX := 0xc0000103;
  IA32_EFER := 0xC0000080; IA32_MISC_ENABLE := 0x1A0; IA32_APIC_BASE := 0x1B;
  IA32_X2APIC_TPR := 0x808; IA32_X2APIC_SIVR := 0x80f; IA32_X2APIC_LVT_TIMER := 0x832;
  IA32_X2APIC_LVT_THERMAL := 0x833; IA32_X2APIC_LVT_PMI := 0x834;
  IA32_X2APIC_LVT_LINT0 := 0x835; IA32_X2APIC_LVT_LINT1 := 0x836;
  IA32_X2APIC_LVT_ERROR := 0x837; IA32_X2APIC_EOI := 0x80b; IA32_X2APIC_ICR := 0x830;
  VMX_REASON_EXC_NMI := 0; VMX_REASON_CPUID := 10; VMX_REASON_RDMSR := 31;
  VMX_REASON_WRMSR := 32; VMX_REASON_XSETBV := 55; VMX_REASON_IRQ := 1;
  VMX_REASON_EPT_VIOLATION := 48; VMX_REASON_RDRAND := 57; VMX_REASON_IO := 30;
  Cr0_CACHE_DISABLE := 2 ^ 30; Cr0_NOT_WRITE_THROUGH := 2 ^ 29;
  Cr4_VIRTUAL_MACHINE_EXTENSIONS := 2 ^ 13; segment_selector i := 8 * i;
|}.
#[local] Instance example_consts_laws : VmxConstsLaws.
Proof. by split. Qed.

#[local] Existing Instance VcpuLoop.Example.example_control.
#[local] Existing Instance VcpuLoop.Example.example_control_laws.

(** The bytes 89 07, 8b 07 and c7 07 are [mov [rdi], eax], [mov eax, [rdi]] and
    [mov dword [rdi], imm32]. *)
#[local] Instance example_burst : Burst := {|
  disassemble_64 code _ :=
    match code with
    | 0x89 :: 0x07 :: _ => Some (Instr MOV OtherOperand REG_EAX 0)
    | 0x8b :: 0x07 :: _ => Some (Instr MOV REG_EAX OtherOperand 0)
    | 0xc7 :: 0x07 :: a :: b :: c :: d :: _ =>
        Some (Instr MOV OtherOperand IMM (le_combine [a; b; c; d]))
    | _ => None
    end;
|}.
#[local] Instance example_cpuid : HostCpuid := {| cpuid_count _ _ := Cpuid 1 0xff 3 4 |}.
#[local] Instance example_cpuid_laws : HostCpuidLaws.
Proof. intros f i. done. Qed.

Lemma mac_init_correct_example :
  ∃ m r c', init_guest_mem VcpuLoop.Example.zeroed = Ret m ∧
    mac_init true 0x200000 (XCpu [] [] []) = Some (Ret (r, c')) ∧
    match r with
    | Ok _ => mac_ready c' m (λ _, 0xffffffff00000000) 0x200000
    | Err _ => ¬ accepts xcpu
    end.
Proof.
  destruct (init_guest_mem_spec VcpuLoop.Example.zeroed) as (m & Hm & _);
    [apply VcpuLoop.Example.zeroed_wf|cbn [mem_size VcpuLoop.Example.zeroed]; lia|].
  destruct (mac_init_correct true (λ _, 0xffffffff00000000) (XCpu [] [] []) 0x200000
    VcpuLoop.Example.zeroed m) as (r & c' & Hr & Hready).
  - reflexivity.
  - apply VcpuLoop.Example.zeroed_wf.
  - cbn [mem_size VcpuLoop.Example.zeroed]. lia.
  - exact Hm.
  - exists m, r, c'. split; [exact Hm|]. split; [exact Hr|exact Hready].
Qed.

Definition mac_machine (c : xcpu) (m : mem) : mac_state xcpu world :=
  MacState (McCpu 0 [107] c base APIC_DEFAULT_BASE) (Host m (World [] 3)) ioapic_new.

Lemma mac_cpuid_correct_witness :
  let s := mac_machine (XCpu [(RAX, 1); (RCX, 0); (RIP, 0x1000)]
                          [(VMCS_RO_VMEXIT_INSTR_LEN, 2)] []) VcpuLoop.Example.zeroed in
  ∃ r s', emulate_cpuid 0x1000 s = Some (Ret (r, s')) ∧
    match r with Ok _ => cpuid_answered s s' 0x1002 1 0 | Err _ => ¬ accepts xcpu end.
Proof.
  intros s. apply (mac_cpuid_correct s 0x1000 2 1 0).
  - reflexivity.
  - reflexivity.
  - reflexivity.
  - evaluate.
Defined.

Lemma mac_msr_roundtrip_example :
  let s := mac_machine (XCpu [(RAX, 0xd01); (RDX, 0); (RCX, 0xC0000080)]
                          [(VMCS_RO_VMEXIT_INSTR_LEN, 2)] []) VcpuLoop.Example.zeroed in
  ∃ s1 r3 s3, emulate_wrmsr 0x1000 s = Some (Ret (Ok (), s1)) ∧
    emulate_rdmsr 0x1002 s1 = Some (Ret (r3, s3)) ∧
    match r3 with
    | Ok _ => moved s1 [(RAX, 0xd01); (RDX, 0); (RIP, 0x1004)] [] s3
    | Err _ => ¬ accepts xcpu
    end.
Proof.
  intros s. destruct (mac_msr_roundtrip s 0x1000 2 IA32_EFER 0xC0000080 0xd01 0)
    as (r & s1 & Hw & Hr).
  - left. reflexivity.
  - reflexivity.
  - reflexivity.
  - reflexivity.
  - reflexivity.
  - reflexivity.
  - evaluate.
  - vm_compute in Hw. injection Hw as <- <-.
    destruct Hr as [_ Hrd]. eexists.
    destruct (Hrd _ 0x1002 2 0xC0000080 eq_refl) as (r3 & s3 & H3 & Hpost);
      [reflexivity|reflexivity|reflexivity|evaluate|].
    exists r3, s3. split; [vm_compute; reflexivity|]. split; [exact H3|exact Hpost].
Qed.

(** The guest stops at 0x1000; the processor also reports that the address is
    valid and belongs to the access itself. *)
Definition ioapic_exit (rax len direction : Z) (code : list Z) : mac_state xcpu world :=
  mac_machine (XCpu [(RAX, rax)]
                 [(VMCS_RO_VMEXIT_INSTR_LEN, len); (VMCS_RO_EXIT_QUALIFIC, 0x180 + direction)] [])
    (writes [(base + 0x1000, code)] VcpuLoop.Example.zeroed).

(** EAX is stored to the selector; an immediate to the selected entry. *)
Lemma mac_ioapic_access_witness :
  let s := ioapic_exit 0x12 2 2 [0x89; 0x07] in
  let s2 := ioapic_exit 0 6 2 [0xc7; 0x07; 0xff; 0; 1; 0] in
  (∃ res s', emulate_ioapic 0x1000 IOAPIC_BASE s = Some (Ret (res, s')) ∧
     match res with
     | Ok _ => moved (set_ioapic (Ioapic 0x12 (ioapic_rtbl ioapic_new)) s) [(RIP, 0x1002)] [] s'
     | Err _ => ¬ accepts xcpu
     end) ∧
  (∃ res s', emulate_ioapic 0x1000 (IOAPIC_BASE + 0x10) s2 = Some (Ret (res, s')) ∧
     match res with
     | Ok _ => moved (set_ioapic (Ioapic 0 (<[0%nat := 0x100ff]> (ioapic_rtbl ioapic_new))) s2)
                 [(RIP, 0x1006)] [] s'
     | Err _ => ¬ accepts xcpu
     end).
Proof.
  intros s s2. split.
  - apply (mac_ioapic_access s 0x1000 2 0 true (Instr MOV OtherOperand REG_EAX 0)) with (r := RAX).
    + apply ioapic_new_wf.
    + evaluate.
    + left. reflexivity.
    + split; [reflexivity|by exists 0x182| |reflexivity|evaluate].
      exists (base + 0x1000), [0x89; 0x07; 0; 0; 0; 0; 0; 0].
      split; [vm_compute; reflexivity|]. split; [vm_compute; reflexivity|reflexivity].
    + by exists RAX, 0x12.
  - apply (mac_ioapic_access s2 0x1000 6 0x10 true (Instr MOV OtherOperand IMM 0x100ff))
      with (v := 0x100ff) (r := RAX).
    + apply ioapic_new_wf.
    + evaluate.
    + right. reflexivity.
    + split; [reflexivity|by exists 0x182| |reflexivity|evaluate].
      exists (base + 0x1000), [0xc7; 0x07; 0xff; 0; 1; 0; 0; 0].
      split; [vm_compute; reflexivity|]. split; [vm_compute; reflexivity|reflexivity].
    + reflexivity.
Defined.

(** A guest that is interrupted once, writes "hello" to its standard output and
    exits with the code 7. *)
Definition stop_at (rip rax port : Z) (ws : list (Z * list Z)) : event :=
  Event [(RIP, rip); (RAX, rax)]
    [(VMCS_RO_EXIT_REASON, 30); (VMCS_RO_EXIT_QUALIFIC, Z.shiftl port 16);
     (VMCS_RO_VMEXIT_INSTR_LEN, 1)] ws.
Definition events : list event :=
  [Event [(RIP, 0x1000)] [(VMCS_RO_EXIT_REASON, 1)] [];
   stop_at 0x1010 0x2000 UHYVE_PORT_WRITE [];
   stop_at 0x1020 0x2100 UHYVE_PORT_EXIT [(base + 0x2100, le_split 4 7)]].

(** The vCPU after [n] exits, and after RIP was advanced. *)
Definition exited (c : xcpu) : xcpu := (hv_run c VcpuLoop.Example.zeroed).1.1.
Definition resumed (c : xcpu) (rip : Z) : xcpu :=
  XCpu (x_regs c ++ [(RIP, rip)]) (x_fields c) (x_script c).
Definition c0 : xcpu := XCpu [] [] events.
Definition c1 : xcpu := exited c0.
Definition c2 : xcpu := exited c1.
Definition c3 : xcpu := exited (resumed c2 0x1011).

Lemma hello_mac_session :
  mac_session (C := xcpu) [107] [] [] 5 c0 (Host (memory write_args) (World [] 3)) 7
    (Host VcpuLoop.Example.after VcpuLoop.Example.written).
Proof.
  apply (ms_interrupt _ _ _ _ c0 _ c1 (memory write_args) 0x1000); [reflexivity| |].
  { exists 1. split_and!; reflexivity. }
  apply (ms_request _ _ _ _ c1 _ c2 (resumed c2 0x1011) (memory write_args) UHYVE_PORT_WRITE
    0x2000 0x1010 1 (Host (memory write_args) VcpuLoop.Example.written));
    [reflexivity| |exact VcpuLoop.Example.hello_request|reflexivity|].
  { split; [exists 30; split_and!; reflexivity| |reflexivity| |evaluate].
    - exists (Z.shiftl UHYVE_PORT_WRITE 16). split_and!; reflexivity.
    - exists 0x2000. split; reflexivity. }
  apply (ms_exit _ _ _ _ (resumed c2 0x1011) (Host (memory write_args) VcpuLoop.Example.written)
    c3 VcpuLoop.Example.after 0x2100 0x1020 1); [reflexivity| |by vm_compute].
  split; [exists 30; split_and!; reflexivity| |reflexivity| |evaluate].
  - exists (Z.shiftl UHYVE_PORT_EXIT 16). split_and!; reflexivity.
  - exists 0x2100. split; reflexivity.
Qed.

Lemma mac_run_serves_session_witness :
  ∃ fuel s', mac_run [] [] 5 fuel (mac_machine c0 (memory write_args)) =
      Some (Ret (Ok (Some 7), s')) ∧
    mst_host s' = Host VcpuLoop.Example.after VcpuLoop.Example.written.
Proof.
  destruct (mac_run_serves_session (C := xcpu) [107] [] [] 5) with
    (s := mac_machine c0 (memory write_args)) (code := 7)
    (h' := Host VcpuLoop.Example.after VcpuLoop.Example.written) as (fuel & s' & Hrun & Hh & _).
  - cbn. lia.
  - evaluate.
  - evaluate.
  - exact progress.
  - split; [reflexivity|reflexivity|]. apply wf_example. evaluate.
  - exact hello_mac_session.
  - exists fuel, s'. split; [exact Hrun|exact Hh].
Defined.

End Example.
