(* ===== verification/MacVm.v ===== *)
(** * The virtual machine on macOS (src/macos/uhyve.rs)

    [Uhyve::new] maps the guest's memory with the hypervisor framework and
    writes the boot tables; [Uhyve] implements the trait [Vm], which discharges
    the interface the loader is proved against. *)

From S2P Require Import Prelude Memory Consts Paging AddressSpace Loader LinuxVm.
From S2P Require Import IoApic MacSetup MacVcpu.

(** The virtual machine of the process; [map_mem] and [unmap_mem] take the
    host address, the guest address and the size. *)
Class XVm (C : Type) := {
  create_vm : result Z unit;
  map_mem : Z → Z → Z → result Z unit;
  unmap_mem : Z → Z → result Z unit;
  vcpu_create : result Z C;
  vcpu_destroy : C → result Z unit;
}.

Record MacUhyve := {
  mu_offset : Z;
  mu_entry_point : Z;
  mu_mem_size : Z;
  mu_guest_mem : Z;
  (** What [mu_guest_mem] points to. *)
  mu_contents : mem;
  mu_num_cpus : Z;
  mu_path : list Z;
  mu_boot_info : Z;
  mu_ioapic : IoApic;
  mu_verbose : bool;
}.

Section MacUhyve.
Context `{Profile, HostMemory, XVm C}.

Definition mac_uhyve_new (kernel_path : list Z) (specs : Specs) : exec (result Z MacUhyve) :=
  mem ← unwrap (mmap (par_mem_size specs));
  _ ←? Ret create_vm;
  _ ←? Ret (map_mem mem 0 (par_mem_size specs));
  rust_assert (bool_decide (par_gdbport specs = None)) ;;
  m ← init_guest_mem (Mem mem (par_mem_size specs) ∅);
  Ret (Ok {|
    mu_offset := 0; mu_entry_point := 0; mu_mem_size := par_mem_size specs;
    mu_guest_mem := mem; mu_contents := m; mu_num_cpus := par_num_cpus specs;
    mu_path := kernel_path; mu_boot_info := 0; mu_ioapic := ioapic_new;
    mu_verbose := par_verbose specs |}).

Definition mac_loader_fields (off entry boot : Z) (m : mem) (v : MacUhyve) : MacUhyve := {|
  mu_offset := off; mu_entry_point := entry; mu_mem_size := mu_mem_size v;
  mu_guest_mem := mu_guest_mem v; mu_contents := m; mu_num_cpus := mu_num_cpus v;
  mu_path := mu_path v; mu_boot_info := boot; mu_ioapic := mu_ioapic v;
  mu_verbose := mu_verbose v |}.

#[export] Instance mac_vm : Vm MacUhyve := {|
  guest_mem := mu_contents;
  set_guest_mem m v := mac_loader_fields (mu_offset v) (mu_entry_point v) (mu_boot_info v) m v;
  get_offset := mu_offset;
  set_offset o v := mac_loader_fields o (mu_entry_point v) (mu_boot_info v) (mu_contents v) v;
  get_entry_point := mu_entry_point;
  set_entry_point e v := mac_loader_fields (mu_offset v) e (mu_boot_info v) (mu_contents v) v;
  boot_info_ptr := mu_boot_info;
  set_boot_info p v := mac_loader_fields (mu_offset v) (mu_entry_point v) p (mu_contents v) v;
  vm_kernel_path := mu_path;
  get_ip _ := None;
  get_gateway _ := None;
  get_mask _ := None;
  verbose := mu_verbose;
|}.

#[export] Instance mac_vm_laws : VmLaws MacUhyve.
Proof. by split. Qed.

Definition mac_create_cpu (v : MacUhyve) (id : Z) : exec (result Z (MacCPU C)) :=
  cpu ← mac_cpu_new vcpu_create id (mu_path v) (mu_guest_mem v); Ret (Ok cpu).

Definition mac_cpu_online (v : MacUhyve) : exec Z :=
  if mu_boot_info v =? 0 then Ret 0
  else load 4 (mu_contents v) (mu_boot_info v + BootInfo.cpu_online).

(** [Drop for UhyveCPU]: an error of [destroy] is ignored. *)
Definition mac_cpu_drop (cpu : MacCPU C) : exec unit :=
  match vcpu_destroy (mc_vcpu cpu) with Ok _ | Err _ => Ret () end.

(** The memory is taken from the guest before it is unmapped. *)
Definition mac_drop (v : MacUhyve) : exec unit :=
  match unmap_mem 0 (mu_mem_size v) with Ok _ => Ret () | Err _ => Panic end.

(** A machine [mac_uhyve_new] returned. *)
Lemma mac_uhyve_new_inv kernel_path specs v :
  mac_uhyve_new kernel_path specs = Ret (Ok v) →
  mmap (par_mem_size specs) = Some (mu_guest_mem v) ∧
  map_mem (mu_guest_mem v) 0 (par_mem_size specs) = Ok () ∧
  init_guest_mem (Mem (mu_guest_mem v) (par_mem_size specs) ∅) = Ret (mu_contents v) ∧
  mu_path v = kernel_path ∧ par_gdbport specs = None ∧ mu_num_cpus v = par_num_cpus specs ∧
  mu_ioapic v = ioapic_new.
Proof.
  unfold mac_uhyve_new. intros Hn. exec_inv.
  repeat match goal with Hu : unwrap _ = Ret _ |- _ => apply unwrap_Ret in Hu end.
  cbn [mu_guest_mem mu_contents mu_path].
  match goal with Hm : map_mem _ _ _ = Ok ?u |- _ => destruct u end.
  split_and!; try done. by case_bool_decide.
Qed.

End MacUhyve.
