(* ===== verification/Boot.v ===== *)
(** * From [Uhyve::new] to the first instruction

    The parts of both ports put together as [Uhyve::run] puts them together
    (src/linux/mod.rs, src/macos/mod.rs): the machine is created, the kernel
    loaded, a vCPU created and brought up.  The theorems say what the guest
    then finds when it starts to run. *)

From S2P Require Import Prelude Memory Consts Paging AddressSpace Loader Virtqueue Virtio LinuxVm.
From S2P Require Import KvmVcpu LinuxVcpu IoApic MacSetup MacVcpu MacVm.

(** ** Creating a vCPU on Linux *)

Class KvmCreate (K C : Type) := { create_vcpu : K → Z → result Z C }.

Section CreateCpu.
Context `{Kvm K, KvmCreate K C} {T : Type}.

(** The sender of the network channel is cloned. *)
Definition create_cpu (v : Uhyve K T) (id : Z) : exec (result Z (UhyveCPU C)) :=
  let vm_start := mmap_host_address (vm_memory v) in
  let tx := (λ _, Sender [] true) <$> uhyve_device v in
  id64 ← unwrap (try_into 64 id);
  vcpu ←? Ret (create_vcpu (vm_fd v) id64);
  Ret (Ok (cpu_new id (path v) vcpu vm_start tx)).

End CreateCpu.

(** ** The loaded kernel behind the boot tables *)

Section Loaded.
Context `{Profile, CpuId, Goblin GE, Vm V, !VmLaws V}.
Context (target_linux : bool) (env : host_env) (v : V) (buffer : list Z) (elf : Elf) (secs mhz : Z).

(** The kernel can be loaded: it fits, its parts are apart from each other and
    above the structures uhyve prepares. *)
Record kernel_fits : Prop := {
  kf_boot : bootable env v buffer elf secs mhz;
  kf_segments : segments_fit v buffer elf;
  kf_relocs : relocs_wf v elf;
  kf_inside : relocs_inside v elf;
  kf_apart : segments_apart (elf_is_dyn elf) (load_address elf) buffer (vm_base v)
               (program_headers elf);
  kf_above : Forall (λ w, vm_base v + 0x13000 ≤ w.1) (elf_segments v buffer elf ++ elf_relocs v elf);
}.

(** The guest fetches the bytes of the kernel where the kernel was linked or
    moved to: every byte below 1 GiB that no relocation changes. *)
Definition kernel_visible (m : mem) (cr3 : Z) : Prop :=
  ∀ ph i b, ph ∈ program_headers elf → is_load ph → segment_image buffer ph !! i = Some b →
    let va := segment_start (elf_is_dyn elf) (load_address elf) ph + Z.of_nat i in
    0 ≤ va < 2 ^ 30 → Forall (outside (mem_base m + va)) (elf_relocs v elf) →
    (∃ path, x86_walk m 3 cr3 va path va) ∧ peek m (mem_base m + va) = b.

Let loaded := loaded_memory target_linux v buffer elf secs mhz.

Lemma loaded_base : mem_base loaded = vm_base v.
Proof. unfold loaded, loaded_memory, segments_memory, boot_memory. by rewrite !writes_base. Qed.

Lemma loaded_size : mem_size loaded = mem_size (guest_mem v).
Proof. unfold loaded, loaded_memory, segments_memory, boot_memory. by rewrite !writes_size. Qed.

Lemma loaded_load o :
  kernel_fits → 0 ≤ o ≤ 0x13000 - 8 → o + 8 ≤ BOOT_INFO_ADDR ∨ BOOT_INFO_ADDR + 152 ≤ o →
  load 8 loaded (vm_base v + o) = load 8 (guest_mem v) (vm_base v + o).
Proof.
  intros [_ _ _ _ _ Habove] Ho Hbi. apply load_ext; [apply loaded_base|apply loaded_size|].
  intros x Hx. apply Forall_app in Habove as [Hseg Hrel].
  assert (∀ ws : list (Z * list Z), Forall (λ w, vm_base v + 0x13000 ≤ w.1) ws →
    Forall (outside x) ws) as Hout.
  { intros ws Hws. eapply Forall_impl; [exact Hws|]. unfold outside. cbn. lia. }
  apply loaded_memory_outside; [lia|by apply Hout..].
Qed.

(** Loading leaves the boot tables and the descriptors where they are. *)
Lemma loaded_tables :
  kernel_fits → boot_tables (guest_mem v) → boot_tables loaded.
Proof.
  intros Hk [Hpml4 Hself Hp Hd]. fold (vm_base v) in *.
  split; rewrite loaded_base; unfold BOOT_PML4, BOOT_PDPTE, BOOT_PDE, BOOT_INFO_ADDR in *.
  - by rewrite loaded_load; [|done|unfold BOOT_INFO_ADDR; lia..].
  - rewrite <- Z.add_assoc in *. by rewrite loaded_load; [|done|unfold BOOT_INFO_ADDR; lia..].
  - by rewrite loaded_load; [|done|unfold BOOT_INFO_ADDR; lia..].
  - intros i Hi. specialize (Hd i Hi). rewrite <- Z.add_assoc in *.
    rewrite loaded_load; [done|done|lia|unfold BOOT_INFO_ADDR; lia].
Qed.

(** No core is up. *)
Lemma loaded_online :
  kernel_fits → load 4 loaded (vm_base v + BOOT_INFO_ADDR + BootInfo.cpu_online) = Ret 0.
Proof.
  intros [Hboot _ _ _ _ Habove]. rewrite <- (boot_memory_online target_linux env v buffer elf secs mhz Hboot).
  apply load_ext; [|unfold boot_memory; by rewrite loaded_size, writes_size|].
  { unfold boot_memory. by rewrite loaded_base, writes_base. }
  intros x Hx. apply Forall_app in Habove as [Hseg Hrel]. unfold BootInfo.cpu_online, BOOT_INFO_ADDR in Hx.
  apply loaded_memory_keeps; [unfold BOOT_INFO_ADDR, BootInfo.image_size, BootInfo.tls_memsz; lia| |];
    (eapply Forall_impl; [eassumption|]); unfold outside; cbn; lia.
Qed.

Lemma loaded_visible :
  kernel_fits → boot_tables (guest_mem v) → 0x13000 ≤ mem_size (guest_mem v) →
  kernel_visible loaded BOOT_PML4.
Proof.
  intros Hk Hbt Hsz ph i b Hph Hl Hb va Hva Hrel. split.
  - eexists. apply boot_walk; [by apply loaded_tables|by rewrite loaded_size|done].
  - rewrite loaded_base in *. unfold va in *. rewrite Z.add_assoc in *.
    apply loaded_memory_segment; [apply Hk|done..].
Qed.

End Loaded.

(** ** Linux *)

Section LinuxBoot.
Context `{Profile, HostMemory, !HostMemoryLaws, Kvm K} {T : Type}.
Context `{CpuId, Goblin GE} `{KvmVcpuLaws C} `{!KvmRun C} `{!KvmRunLaws C} `{X86_64ControlLaws}.
Context `{!KvmCreate K C}.

Lemma uhyve_new_inv kernel_path specs (v : Uhyve K T) :
  uhyve_new kernel_path specs = Ret (Ok v) →
  mmap (par_mem_size specs) = Some (mmap_host_address (vm_memory v)) ∧
  init_guest_mem (Mem (mmap_host_address (vm_memory v)) (par_mem_size specs) ∅) =
    Ret (contents v) ∧ path v = kernel_path ∧ num_cpus v = par_num_cpus specs ∧
  gdb_port v = par_gdbport specs ∧ new_device = Ret (virtio_device v).
Proof.
  unfold uhyve_new, mmap_memory_new, uhyve_finish. intros Hn.
  repeat (exec_inv; match goal with
    | Hp : Ret (_, _) = Ret ?p |- _ => destruct p
    | Hp : (_ ← _; _) = Ret ?p |- _ => destruct p
    end).
  exec_inv.
  repeat match goal with Hu : unwrap _ = Ret _ |- _ => apply unwrap_Ret in Hu end.
  done.
Qed.

(** A debugger is attached to one core only. *)
Lemma uhyve_new_gdb kernel_path specs (v : Uhyve K T) port :
  uhyve_new kernel_path specs = Ret (Ok v) → par_gdbport specs = Some port → par_num_cpus specs = 1.
Proof.
  unfold uhyve_new, mmap_memory_new, uhyve_finish. intros Hn Hgdb.
  repeat (exec_inv; match goal with
    | Hp : Ret (_, _) = Ret ?p |- _ => destruct p
    | Hp : (_ ← _; _) = Ret ?p |- _ => destruct p
    end).
  exec_inv. rewrite Hgdb in *.
  match goal with Ha : rust_assert (_ || (_ =? 1)) = Ret _ |- _ =>
    cbn in Ha; destruct (Z.eqb_spec (par_num_cpus specs) 1); [done|discriminate Ha] end.
Qed.

Lemma fresh_machine size host m :
  mmap size = Some host → 0x13000 ≤ size → init_guest_mem (Mem host size ∅) = Ret m →
  mem_base m = host ∧ mem_size m = size ∧ boot_tables m ∧
  load 8 m (mem_base m + BOOT_GDT + 8) = Ret 0xAF9B000000FFFF ∧
  load 8 m (mem_base m + BOOT_GDT + 16) = Ret 0xCF93000000FFFF.
Proof.
  intros Hmap Hsz Hinit. pose proof (mmap_range _ _ Hmap) as (Hs0 & Hh & He).
  destruct (init_guest_mem_spec (Mem host size ∅))
    as (m' & Hm & _ & Hb & Hs & Hbt & _ & Hcode & Hdata & _); [apply mem_wf_fresh; lia|done|].
  assert (m' = m) as -> by congruence. cbn [mem_base mem_size] in *. by rewrite <- Hb in *.
Qed.

(** C2: From [Uhyve::new] to the first instruction on Linux: on a machine that
    was created, a kernel that fits is loaded, and a vCPU created for it and
    brought up (unless KVM refuses a request) is in 64-bit mode at the
    kernel's entry point, with the boot information's address in RDI; under
    its page tables every byte of the kernel is where the kernel expects it;
    the hypervisor's view of guest memory starts where KVM's does. *)
Theorem linux_boot_correct kernel_path specs (v : Uhyve K T) env buffer elf secs mhz
    leaves i rest id vcpu :
  uhyve_new kernel_path specs = Ret (Ok v) → 0x13000 ≤ par_mem_size specs →
  kernel_fits env v buffer elf secs mhz →
  kvm_supports leaves i rest → fits 32 id → create_vcpu (vm_fd v) id = Ok vcpu →
  ∃ v' cpu res, load_kernel true env v = Ret (v', Ok ()) ∧
    create_cpu v' id = Ret (Ok cpu) ∧ cpu_vm_start cpu = mem_base (guest_mem v') ∧
    cpu_kernel_path cpu = kernel_path ∧
    init (cpu_vcpu cpu) (get_entry_point v') = Ret res ∧
    unless_refused res (λ c, ∃ s r, get_sregs c = Ok s ∧ get_regs c = Ok r ∧
      in_long_mode s ∧ rip r = load_entry elf ∧ rdi r = BOOT_INFO_ADDR ∧
      kernel_visible v buffer elf (guest_mem v') (cr3 s)).
Proof.
  intros Hnew Hsize Hk Hsup Hid Hvcpu.
  destruct (uhyve_new_inv _ _ _ Hnew) as (Hmap & Hinit & Hpath & _).
  destruct (fresh_machine _ _ _ Hmap Hsize Hinit) as (Hb & Hs & Hbt & _).
  pose proof (load_kernel_loaded true env v buffer elf secs mhz (kf_boot _ _ _ _ _ _ Hk)
    (kf_segments _ _ _ _ _ _ Hk) (kf_relocs _ _ _ _ _ _ Hk) (kf_inside _ _ _ _ _ _ Hk)) as Hload.
  eexists _, _. destruct (init_spec leaves i rest vcpu (load_entry elf) Hsup) as (res & Hres & Hc).
  exists res. split; [exact Hload|]. split.
  { unfold create_cpu, try_into, try_bind. rewrite decide_True by (unfold fits in *; lia).
    cbn [unwrap mbind exec_bind]. cbn. rewrite Hvcpu. done. }
  rewrite mem_set_mem, loaded_base. split; [by symmetry|]. split; [exact Hpath|].
  split; [exact Hres|]. destruct res as [c|]; [|exact Hc]. destruct Hc as (s & r & Hsr & Hr).
  exists (long_mode_sregs s), (entry_regs (load_entry elf) r). split_and!; try done.
  - apply long_mode_sregs_correct.
  - apply loaded_visible with (env := env); [done|done|]. cbn. lia.
Qed.

End LinuxBoot.

(** ** macOS *)

Section MacBoot.
Context `{Profile, HostMemory, !HostMemoryLaws, XVm C} `{CpuId, Goblin GE}.
Context `{!XHypervisor C, !XHypervisorLaws C} `{VmxConstsLaws, X86_64ControlLaws}.

(** C11: From [Uhyve::new] to the first instruction on macOS: on a machine that
    was created, a kernel that fits is loaded, and a vCPU created for it and
    brought up (unless the framework refuses a request) is ready, at the
    kernel's entry point; under its page tables every byte of the kernel is
    where the kernel expects it. *)
Theorem mac_boot_correct log_debug kernel_path specs v env buffer elf secs mhz caps id vcpu :
  mac_uhyve_new kernel_path specs = Ret (Ok v) → 0x13000 ≤ par_mem_size specs →
  kernel_fits env v buffer elf secs mhz →
  (∀ cap, read_vmx_cap cap = Ok (caps cap)) → vcpu_create = Ok vcpu →
  ∃ v' cpu r c', load_kernel false env v = Ret (v', Ok ()) ∧
    mac_create_cpu v' id = Ret (Ok cpu) ∧ mc_vm_start cpu = mem_base (guest_mem v') ∧
    mc_kernel_path cpu = kernel_path ∧
    mac_init log_debug (get_entry_point v') (mc_vcpu cpu) = Some (Ret (r, c')) ∧
    match r with
    | Ok _ => mac_ready c' (guest_mem v') caps (load_entry elf) ∧
        kernel_visible v buffer elf (guest_mem v') BOOT_PML4
    | Err _ => ¬ accepts C
    end.
Proof.
  intros Hnew Hsize Hk Hcaps Hvcpu.
  destruct (mac_uhyve_new_inv _ _ _ Hnew) as (Hmap & _ & Hinit & Hpath & _).
  destruct (fresh_machine _ _ _ Hmap Hsize Hinit) as (Hb & Hs & Hbt & Hcode & Hdata).
  pose proof (load_kernel_loaded false env v buffer elf secs mhz (kf_boot _ _ _ _ _ _ Hk)
    (kf_segments _ _ _ _ _ _ Hk) (kf_relocs _ _ _ _ _ _ Hk) (kf_inside _ _ _ _ _ _ Hk)) as Hload.
  set (m := loaded_memory false v buffer elf secs mhz) in *.
  assert (∀ o, o = 8 ∨ o = 16 →
    load 8 m (mem_base m + BOOT_GDT + o) = load 8 (guest_mem v) (vm_base v + BOOT_GDT + o)) as Hgdt.
  { intros o Ho. unfold m. rewrite loaded_base, <- !Z.add_assoc.
    apply (loaded_load false env); [done|unfold BOOT_GDT; lia|unfold BOOT_GDT, BOOT_INFO_ADDR; lia]. }
  destruct (wp_result _ _ _ (mac_init_ready log_debug caps vcpu (load_entry elf) m Hcaps
    ltac:(unfold m; rewrite loaded_size; cbn; lia) ltac:(by apply (loaded_tables false env))
    ltac:(rewrite Hgdt by lia; exact Hcode) ltac:(rewrite Hgdt by lia; exact Hdata)))
    as (r & c' & Hr & Hready).
  eexists _, _, r, c'. split; [exact Hload|]. split.
  { unfold mac_create_cpu, mac_cpu_new. by rewrite Hvcpu. }
  rewrite mem_set_mem. split; [unfold m; rewrite loaded_base; by symmetry|].
  split; [exact Hpath|]. split; [exact Hr|]. destruct r; [|exact Hready]. split; [exact Hready|].
  apply loaded_visible with (env := env); [done|done|]. cbn. lia.
Qed.

End MacBoot.

(** ** A machine that boots *)
Module Example.
#[local] Existing Instance debug_profile.
#[local] Existing Instance LinuxVm.Example.example_kvm.
#[local] Existing Instance LinuxVm.Example.example_memory.
#[local] Existing Instance LinuxVm.Example.example_memory_laws.
#[local] Existing Instance LinuxVm.Example.example_cpuid.
#[local] Existing Instance LinuxVm.Example.example_goblin.
#[local] Existing Instance VcpuLoop.Example.example_vcpu.
#[local] Existing Instance VcpuLoop.Example.example_vcpu_laws.
#[local] Existing Instance VcpuLoop.Example.example_run.
#[local] Existing Instance VcpuLoop.Example.example_run_laws.
#[local] Existing Instance VcpuLoop.Example.example_control.
#[local] Existing Instance VcpuLoop.Example.example_control_laws.
#[local] Existing Instance MacVcpu.Example.example_hv.
#[local] Existing Instance MacVcpu.Example.example_hv_laws.
#[local] Existing Instance MacVcpu.Example.example_consts.
#[local] Existing Instance MacVcpu.Example.example_consts_laws.
#[local] Instance example_create : KvmCreate unit VcpuLoop.Example.vcpu :=
  {| create_vcpu _ _ := Ok (VcpuLoop.Example.fresh []) |}.
#[local] Instance example_xvm : XVm MacVcpu.Example.xcpu := {|
  create_vm := Ok (); map_mem _ _ _ := Ok (); unmap_mem _ _ := Ok ();
  vcpu_create := Ok (MacVcpu.Example.XCpu [] [] []); vcpu_destroy _ := Ok ();
|}.
Import LinuxVm.Example.

(** The test kernel fits a machine of 8 MiB, and one of 1 GiB. *)
Lemma kernel_fits_example `{Vm V} (v : V) size :
  size = 0x800000 ∨ size = 2 ^ 30 → vm_kernel_path v = [] →
  mem_base (guest_mem v) = host → mem_size (guest_mem v) = size →
  kernel_fits env v [1; 2; 3; 4] kernel 1660000000 2600.
Proof.
  intros Hsize Hp Hb Hs. split.
  - split; try reflexivity.
    + unfold boot_mem, BOOT_INFO_ADDR. rewrite Hb, Hs. unfold host. lia.
    + cbn [entry kernel]. lia.
    + by vm_compute.
    + evaluate.
  - unfold segments_fit. rewrite Hs. destruct Hsize as [->| ->]; evaluate.
  - unfold relocs_wf, vm_base. rewrite Hb. evaluate.
  - unfold relocs_inside, reloc_inside, valid. rewrite Hb, Hs. destruct Hsize as [->| ->]; evaluate.
  - unfold vm_base. rewrite Hb. evaluate.
  - unfold elf_segments, elf_relocs, vm_base. rewrite Hb. evaluate.
Qed.

Lemma zeroed_machine :
  ∃ m, init_guest_mem (Mem host 0x800000 ∅) = Ret m ∧ mem_base m = host ∧ mem_size m = 0x800000.
Proof.
  destruct (init_guest_mem_spec (Mem host 0x800000 ∅)) as (m & Hm & _ & Hb & Hs & _).
  - apply mem_wf_fresh; unfold host; lia.
  - cbn [mem_size]. lia.
  - exists m. split; [exact Hm|]. split; [exact Hb|exact Hs].
Qed.

Lemma host_grants : host_ready (specs 0x800000) host [Some (Ipv4 10 0 0 2); None; None].
Proof.
  split; [by exists (Some (Ipv4 10 0 0 2)), None, None|reflexivity|done..].
Qed.

Lemma linux_boot_correct_witness :
  ∃ (v v' : Uhyve unit unit) cpu res, uhyve_new [] (specs 0x800000) = Ret (Ok v) ∧
    load_kernel true env v = Ret (v', Ok ()) ∧ create_cpu v' 0 = Ret (Ok cpu) ∧
    init (cpu_vcpu cpu) (get_entry_point v') = Ret res ∧
    unless_refused res (λ c, ∃ s r, get_sregs c = Ok s ∧ get_regs c = Ok r ∧
      in_long_mode s ∧ rip r = 0x400010 ∧ rdi r = BOOT_INFO_ADDR ∧
      kernel_visible v [1; 2; 3; 4] kernel (guest_mem v') (cr3 s)).
Proof.
  destruct zeroed_machine as (m & Hm & Hb & Hs).
  assert (∃ v : Uhyve unit unit, uhyve_new [] (specs 0x800000) = Ret (Ok v) ∧
    contents v = m ∧ path v = [] ∧ create_vcpu (vm_fd v) 0 = Ok (VcpuLoop.Example.fresh []))
    as (v & Hnew & Hc & Hp & Hv).
  { destruct (new_device_ok (T := unit)) as [d0 Hd0].
    rewrite (uhyve_new_registers [] (specs 0x800000) host (Some (Ipv4 10 0 0 2)) None None d0
      [region_low (mapping (specs 0x800000) host) 0x800000]);
      [|exact host_grants|exact Hd0|reflexivity].
    change kvm_create_vm with (Ok () : result Z unit). cbv beta match.
    change (register_regions () _) with (Ok () : result Z unit). cbv beta match.
    rewrite (uhyve_finish_eq [] (specs 0x800000) _ _ _ host d0 () m host_grants);
      [|unfold host; lia|exact Hm].
    eexists. split; [reflexivity|]. split; [reflexivity|]. split; reflexivity. }
  destruct (linux_boot_correct [] (specs 0x800000) v env [1; 2; 3; 4] kernel 1660000000 2600
    VcpuLoop.Example.leaves 0x10 [0x174] 0 (VcpuLoop.Example.fresh []))
    as (v' & cpu & res & Hl & Hcpu & _ & _ & Hres & Hc').
  - exact Hnew.
  - cbn [par_mem_size specs]. lia.
  - apply (kernel_fits_example _ 0x800000); [by left|exact Hp|cbn; by rewrite Hc..].
  - split; [reflexivity|evaluate|reflexivity|evaluate|evaluate].
  - evaluate.
  - exact Hv.
  - exists v, v', cpu, res. split; [exact Hnew|]. split; [exact Hl|]. split; [exact Hcpu|].
    split; [exact Hres|exact Hc'].
Defined.

Lemma mac_boot_correct_witness :
  ∃ v v' cpu r c', mac_uhyve_new (C := MacVcpu.Example.xcpu) [] (specs 0x800000) = Ret (Ok v) ∧
    load_kernel false env v = Ret (v', Ok ()) ∧ mac_create_cpu v' 0 = Ret (Ok cpu) ∧
    mac_init true (get_entry_point v') (mc_vcpu cpu) = Some (Ret (r, c')) ∧
    match r with
    | Ok _ => mac_ready c' (guest_mem v') (λ _, 0xffffffff00000000) 0x400010 ∧
        kernel_visible v [1; 2; 3; 4] kernel (guest_mem v') BOOT_PML4
    | Err _ => ¬ accepts MacVcpu.Example.xcpu
    end.
Proof.
  destruct zeroed_machine as (m & Hm & Hb & Hs).
  assert (∃ v, mac_uhyve_new (C := MacVcpu.Example.xcpu) [] (specs 0x800000) = Ret (Ok v) ∧
    mu_contents v = m ∧ mu_path v = []) as (v & Hnew & Hc & Hp).
  { unfold mac_uhyve_new. change (mmap (par_mem_size (specs 0x800000))) with (Some host).
    cbn [unwrap mbind exec_bind]. unfold try_bind.
    cbn [mbind exec_bind create_vm map_mem example_xvm].
    change (par_mem_size (specs 0x800000)) with 0x800000. rewrite Hm.
    eexists. split; [reflexivity|]. split; reflexivity. }
  destruct (mac_boot_correct true [] (specs 0x800000) v env [1; 2; 3; 4] kernel 1660000000 2600
    (λ _, 0xffffffff00000000) 0 (MacVcpu.Example.XCpu [] [] []))
    as (v' & cpu & r & c' & Hl & Hcpu & _ & _ & Hr & Hready).
  - exact Hnew.
  - cbn [par_mem_size specs]. lia.
  - apply (kernel_fits_example _ 0x800000); [by left|exact Hp|cbn; by rewrite Hc..].
  - reflexivity.
  - reflexivity.
  - exists v, v', cpu, r, c'. split; [exact Hnew|]. split; [exact Hl|]. split; [exact Hcpu|].
    split; [exact Hr|exact Hready].
Defined.

End Example.
