(* ===== verification/SharedQueue.v ===== *)
(** * The shared network queues (src/shared_queue.rs, [UhyveNetwork] in
      src/linux/uhyve.rs)

    Two rings of eight packets in guest memory.  A thread of the hypervisor
    takes packets from the first ring and sends them ([writer]); another
    receives packets into the second ([reader]).  Every volatile access of a
    thread is one step, so that the steps of the guest fall anywhere in
    between.  NetMemory.v has the bytes the rings consist of. *)

From S2P Require Import Prelude Consts.

Record QueueInner := Inner { qi_len : Z; qi_data : list Z }.
Record SharedQueue := Queue { sq_read : Z; sq_written : Z; sq_inner : list QueueInner }.

(** Size of a packet's buffer. *)
Definition buffer_size : nat := Z.to_nat (UHYVE_NET_MTU + 34).

Definition queue_init (q : SharedQueue) : SharedQueue :=
  Queue 0 0 ((λ i, Inner 0 (qi_data i)) <$> sq_inner q).

(** [inner[counter % UHYVE_QUEUE_SIZE]]. *)
Definition slot_of (counter : Z) : nat := Z.to_nat (counter mod UHYVE_QUEUE_SIZE).

(** ** The writer: from the guest to the network *)

(** Where the thread is in its loop, with the values it has read. *)
Inductive writer_pc :=
| WRecv | WWritten | WRead (written : Z) | WLen (read : Z) | WSend (read len : Z) | WBump (read : Z).

Record outgoing := Outgoing {
  out_queue : SharedQueue;
  (** Messages in the channel, which holds at most one, and whether a sender
      is left. *)
  out_pending : nat;
  out_connected : bool;
  out_pc : writer_pc;
  out_sent : list (list Z);
}.

Section Writer.
Context `{Profile}.
(** Whether [send] succeeds, after the packets sent so far. *)
Context (tap_send : list (list Z) → list Z → bool).

(** [None] when the thread waits for the channel. *)
Definition writer_step (s : outgoing) : option (exec outgoing) :=
  let '(Outgoing q pending connected pc sent) := s in
  match pc with
  | WRecv =>
      match pending with
      | O => if connected then None else Some Panic
      | S n => Some (Ret (Outgoing q n connected WWritten sent))
      end
  | WWritten => Some (Ret (Outgoing q pending connected (WRead (sq_written q)) sent))
  | WRead written =>
      let read := sq_read q in
      Some (distance ← arith 64 (written - read);
            Ret (Outgoing q pending connected (if 0 <? distance then WLen read else WRecv) sent))
  | WLen read =>
      Some (i ← unwrap (sq_inner q !! slot_of read);
            Ret (Outgoing q pending connected (WSend read (qi_len i)) sent))
  | WSend read len =>
      Some (i ← unwrap (sq_inner q !! slot_of read);
            rust_assert (len <=? Z.of_nat (length (qi_data i))) ;;
            let packet := take (Z.to_nat len) (qi_data i) in
            rust_assert (tap_send sent packet) ;;
            Ret (Outgoing q pending connected (WBump read) (sent ++ [packet])))
  | WBump read =>
      Some (next ← arith 64 (read + 1);
            Ret (Outgoing (Queue next (sq_written q) (sq_inner q)) pending connected WRecv sent))
  end.

End Writer.

(** ** The reader: from the network to the guest *)

Inductive reader_pc :=
| RWritten | RRead (written : Z) | RRecv (written : Z) | RLen (written len : Z)
| RBump (written : Z) | RNotify.

Record incoming := Incoming {
  in_queue : SharedQueue;
  in_pc : reader_pc;
  (** What the TAP device has not delivered yet. *)
  in_network : list (list Z);
  in_interrupts : nat;
}.

Section Reader.
Context `{Profile}.
(** Whether [recv] fails after the last packet, instead of blocking; the thread
    ends with the first failure. *)
Context (recv_fails : bool).
(** Whether [evtfd.write(1)] succeeds, after the interrupts so far. *)
Context (evtfd_write : nat → bool).

(** [recv] puts the packet at the start of the buffer, as much of it as fits. *)
Definition recv_into (data packet : list Z) : list Z * Z :=
  let p := take (length data) packet in (p ++ drop (length p) data, Z.of_nat (length p)).

(** [None] when the thread waits for the network. *)
Definition reader_step (s : incoming) : option (exec incoming) :=
  let '(Incoming q pc network interrupts) := s in
  match pc with
  | RWritten => Some (Ret (Incoming q (RRead (sq_written q)) network interrupts))
  | RRead written =>
      let read := sq_read q in
      Some (distance ← arith 64 (written - read);
            Ret (Incoming q (if distance <? UHYVE_QUEUE_SIZE then RRecv written else RWritten)
                   network interrupts))
  | RRecv written =>
      match network with
      | [] => if recv_fails then Some Panic else None
      | packet :: network' =>
          Some (i ← unwrap (sq_inner q !! slot_of written);
                let '(data, n) := recv_into (qi_data i) packet in
                len ← unwrap (try_into 16 n);
                Ret (Incoming (Queue (sq_read q) (sq_written q)
                       (<[slot_of written := Inner (qi_len i) data]> (sq_inner q)))
                       (RLen written len) network' interrupts))
      end
  | RLen written len =>
      Some (i ← unwrap (sq_inner q !! slot_of written);
            Ret (Incoming (Queue (sq_read q) (sq_written q)
                   (<[slot_of written := Inner len (qi_data i)]> (sq_inner q)))
                   (RBump written) network interrupts))
  | RBump written =>
      Some (next ← arith 64 (written + 1);
            Ret (Incoming (Queue (sq_read q) next (sq_inner q)) RNotify network interrupts))
  | RNotify =>
      Some (rust_assert (evtfd_write interrupts) ;;
            Ret (Incoming q RWritten network (S interrupts)))
  end.

End Reader.

(** ** Rings

    Packets between the two counters are in their slots. *)

Definition packet_of (i : QueueInner) : list Z := take (Z.to_nat (qi_len i)) (qi_data i).

Record inner_wf (i : QueueInner) : Prop := {
  inner_data : length (qi_data i) = buffer_size;
  inner_len : 0 ≤ qi_len i ≤ Z.of_nat buffer_size;
}.

(** [pkts] lists every packet since the start. *)
Record ring (q : SharedQueue) (pkts : list (list Z)) : Prop := {
  ring_slots : length (sq_inner q) = 8%nat;
  ring_data : Forall (λ i, length (qi_data i) = buffer_size) (sq_inner q);
  ring_written : sq_written q = Z.of_nat (length pkts);
  ring_read : 0 ≤ sq_read q ≤ sq_written q;
  ring_room : sq_written q - sq_read q ≤ 8;
  ring_packets k : sq_read q ≤ k < sq_written q →
    ∃ i, sq_inner q !! slot_of k = Some i ∧ inner_wf i ∧ pkts !! Z.to_nat k = Some (packet_of i);
}.

Lemma slot_lt k : (slot_of k < 8)%nat.
Proof.
  unfold slot_of, UHYVE_QUEUE_SIZE. pose proof (Z.mod_pos_bound k 8 ltac:(lia)). lia.
Qed.

Lemma ring_slot q pkts k : ring q pkts → is_Some (sq_inner q !! slot_of k).
Proof. intros Hq. apply lookup_lt_is_Some_2. rewrite (ring_slots _ _ Hq). apply slot_lt. Qed.

(** Counters that are less than eight apart use different slots. *)
Lemma slot_ne k w : k < w < k + 8 → slot_of k ≠ slot_of w.
Proof.
  intros Hk Heq. unfold slot_of, UHYVE_QUEUE_SIZE in Heq.
  pose proof (Z.mod_pos_bound k 8 ltac:(lia)). pose proof (Z.mod_pos_bound w 8 ltac:(lia)).
  apply Z2Nat.inj in Heq; [|lia..].
  pose proof (Z.div_mod k 8 ltac:(lia)). pose proof (Z.div_mod w 8 ltac:(lia)). lia.
Qed.

(** The producer may write the slot at its counter while there is room. *)
Lemma ring_fill q pkts i :
  ring q pkts → sq_written q - sq_read q < 8 → length (qi_data i) = buffer_size →
  ring (Queue (sq_read q) (sq_written q) (<[slot_of (sq_written q) := i]> (sq_inner q))) pkts.
Proof.
  intros [Hl Hd Hw Hr Hroom Hp] Hlt Hi.
  split; cbn [sq_read sq_written sq_inner]; [by rewrite length_insert| |done..|].
  - by apply Forall_insert.
  - intros k Hk. rewrite list_lookup_insert_ne; [by apply Hp|]. apply not_eq_sym, slot_ne. lia.
Qed.

(** It publishes the packet by advancing its counter. *)
Lemma ring_publish q pkts i :
  ring q pkts → sq_written q - sq_read q < 8 →
  sq_inner q !! slot_of (sq_written q) = Some i → inner_wf i →
  ring (Queue (sq_read q) (sq_written q + 1) (sq_inner q)) (pkts ++ [packet_of i]).
Proof.
  intros [Hl Hd Hw Hr Hroom Hp] Hlt Hi Hwf.
  split; cbn [sq_read sq_written sq_inner]; [done|done|rewrite length_app; cbn; lia|lia|lia|].
  intros k Hk. destruct (decide (k = sq_written q)) as [->|Hne].
  - exists i. split_and!; [done..|]. rewrite Hw, Nat2Z.id. by apply list_lookup_middle.
  - destruct (Hp k) as (j & Hj & Hjw & Hpk); [lia|]. exists j. split_and!; [done..|].
    rewrite lookup_app_l; [done|]. by eapply lookup_lt_Some.
Qed.

(** The consumer frees the slot at its counter. *)
Lemma ring_consume q pkts :
  ring q pkts → sq_read q < sq_written q →
  ring (Queue (sq_read q + 1) (sq_written q) (sq_inner q)) pkts.
Proof.
  intros [Hl Hd Hw Hr Hroom Hp] Hlt.
  split; cbn [sq_read sq_written sq_inner]; try done; [lia|lia|]. intros k Hk. apply Hp. lia.
Qed.

(** ** Sending *)

Section Sending.
Context `{Profile} (tap_send : list (list Z) → list Z → bool).

(** The guest's driver fills the slot at [written] while the ring has room,
    publishes it and notifies the hypervisor, which blocks it while the channel
    is full.  The senders are dropped when the machine is. *)
Inductive driver_tx := DReady | DFilled | DPublished.

Record sending := Sending {
  snd_host : outgoing;
  snd_guest : driver_tx;
  snd_published : list (list Z);
}.

Definition snd_queue (s : sending) : SharedQueue := out_queue (snd_host s).

Definition with_queue (q : SharedQueue) (h : outgoing) : outgoing :=
  Outgoing q (out_pending h) (out_connected h) (out_pc h) (out_sent h).

Inductive sending_step : sending → sending → Prop :=
| snd_writer h h' g pub :
    writer_step tap_send h = Some (Ret h') → sending_step (Sending h g pub) (Sending h' g pub)
| snd_fill h pub i :
    let q := out_queue h in
    sq_written q - sq_read q < 8 → inner_wf i →
    sending_step (Sending h DReady pub)
      (Sending (with_queue (Queue (sq_read q) (sq_written q)
         (<[slot_of (sq_written q) := i]> (sq_inner q))) h) DFilled pub)
| snd_publish h pub i :
    let q := out_queue h in
    sq_inner q !! slot_of (sq_written q) = Some i →
    sending_step (Sending h DFilled pub)
      (Sending (with_queue (Queue (sq_read q) (sq_written q + 1) (sq_inner q)) h) DPublished
         (pub ++ [packet_of i]))
| snd_notify q pc sent pub :
    sending_step (Sending (Outgoing q 0 true pc sent) DPublished pub)
      (Sending (Outgoing q 1 true pc sent) DReady pub)
| snd_hangup q pending connected pc sent g pub :
    sending_step (Sending (Outgoing q pending connected pc sent) g pub)
      (Sending (Outgoing q pending false pc sent) g pub).

(** The queue in zeroed memory, and the thread before its first round. *)
Definition sending_start (q : SharedQueue) : sending :=
  Sending (Outgoing (queue_init q) 0 true WRecv []) DReady [].

(** Packets the hypervisor has been notified of. *)
Definition notified (s : sending) : Z :=
  Z.of_nat (length (snd_published s)) -
  match snd_guest s with DPublished => 1 | _ => 0 end.

Definition busy (pc : writer_pc) : Z := match pc with WRecv => 0 | _ => 1 end.
Definition ahead (pc : writer_pc) : Z := match pc with WBump _ => 1 | _ => 0 end.

Definition writer_at (q : SharedQueue) (pc : writer_pc) : Prop :=
  match pc with
  | WRecv | WWritten => True
  | WRead written => sq_read q < written ≤ sq_written q
  | WLen read | WBump read => read = sq_read q ∧ sq_read q < sq_written q
  | WSend read len => read = sq_read q ∧ sq_read q < sq_written q ∧
      ∃ i, sq_inner q !! slot_of read = Some i ∧ len = qi_len i
  end.

Record sending_inv (s : sending) : Prop := {
  si_ring : ring (snd_queue s) (snd_published s);
  si_guest : snd_guest s = DFilled → sq_written (snd_queue s) - sq_read (snd_queue s) < 8 ∧
    ∃ i, sq_inner (snd_queue s) !! slot_of (sq_written (snd_queue s)) = Some i ∧ inner_wf i;
  si_writer : writer_at (snd_queue s) (out_pc (snd_host s));
  si_count : sq_read (snd_queue s) + busy (out_pc (snd_host s)) +
    Z.of_nat (out_pending (snd_host s)) = notified s;
  si_sent : out_sent (snd_host s) =
    take (Z.to_nat (sq_read (snd_queue s) + ahead (out_pc (snd_host s)))) (snd_published s);
}.

Lemma sending_start_inv q :
  length (sq_inner q) = 8%nat → Forall (λ i, length (qi_data i) = buffer_size) (sq_inner q) →
  sending_inv (sending_start q).
Proof.
  intros Hl Hd. split; cbn; try done. split; cbn; try done; [by rewrite length_fmap| |lia].
  by apply Forall_fmap.
Qed.

(** The TAP device refuses the next packet. *)
Definition refused (h : outgoing) (pub : list (list Z)) : Prop :=
  ∃ p, pub !! length (out_sent h) = Some p ∧ tap_send (out_sent h) p = false.

(** What a step of the writer does, in terms of the invariant: it waits only
    when nothing is pending, and fails only when the TAP device refuses the
    next packet or nothing is pending and nobody is left to notify it. *)
Lemma writer_step_inv h g pub :
  sending_inv (Sending h g pub) → Z.of_nat (length pub) < 2 ^ 64 →
  match writer_step tap_send h with
  | Some (Ret h') => sending_inv (Sending h' g pub)
  | None => out_connected h = true ∧ out_pc h = WRecv ∧ out_pending h = 0%nat
  | Some Panic =>
      refused h pub ∨ out_connected h = false ∧ out_pc h = WRecv ∧ out_pending h = 0%nat
  | Some Fault => False
  end.
Proof.
  intros Hinv Hlen. destruct h as [q pending connected pc sent].
  pose proof Hinv as [Hring Hg Hw Hc Hs].
  unfold snd_queue, notified in *.
  cbn [snd_host snd_guest snd_published out_queue out_pending out_connected out_pc out_sent] in *.
  pose proof (ring_written _ _ Hring) as Hwr. pose proof (ring_read _ _ Hring) as Hrd.
  destruct pc as [| |written|read|read len|read]; cbn [writer_step writer_at busy ahead] in *.
  - destruct pending as [|n]; [destruct connected; by auto|].
    split; try done. cbn in *. unfold notified. cbn. lia.
  - split; try done. cbn. destruct g; cbn in *; lia.
  - rewrite arith_fits by (unfold fits; lia). cbn [mbind exec_bind].
    rewrite (proj2 (Z.ltb_lt _ _)) by lia. split; try done. cbn. lia.
  - destruct Hw as [-> Hlt]. destruct (ring_packets _ _ Hring (sq_read q)) as (i & Hi & _); [lia|].
    rewrite Hi. split; try done. cbn. split_and!; [done..|]. by exists i.
  - destruct Hw as (-> & Hlt & i & Hi & ->).
    destruct (ring_packets _ _ Hring (sq_read q)) as (j & Hj & Hwf & Hp); [lia|].
    assert (j = i) as -> by congruence. rewrite Hi. destruct Hwf as [Hdata Hl].
    cbn [unwrap mbind exec_bind]. rewrite Hdata, (proj2 (Z.leb_le _ _)) by lia.
    cbn [rust_assert mbind exec_bind]. fold (packet_of i). rewrite Z.add_0_r in Hs.
    destruct (tap_send sent (packet_of i)) eqn:Htap; cbn [rust_assert mbind exec_bind].
    + split; try done. cbn. rewrite Hs, Z2Nat.inj_add by lia. rewrite Nat.add_1_r.
      by erewrite take_S_r.
    + left. exists (packet_of i). split; [|done]. cbn. rewrite Hs, length_take.
      apply lookup_lt_Some in Hp as Hlt'. by rewrite Nat.min_l by lia.
  - destruct Hw as [-> Hlt]. rewrite arith_fits by (unfold fits; lia). cbn [mbind exec_bind].
    split; cbn; try done; [by apply ring_consume| | |].
    + intros Hf. destruct (Hg Hf) as [? Hslot]. split; [lia|done].
    + unfold notified in *. cbn in *. lia.
    + by rewrite Z.add_0_r.
Qed.

Lemma sending_step_inv s s' :
  sending_step s s' → Z.of_nat (length (snd_published s')) < 2 ^ 64 →
  sending_inv s → sending_inv s'.
Proof.
  intros Hstep Hlen Hinv.
  destruct Hstep as [h h' g pub Hh|h pub i q Hroom Hi|h pub i q Hi|q pc sent pub|]; [..|by destruct Hinv].
  - pose proof (writer_step_inv h g pub Hinv Hlen) as Hw. by rewrite Hh in Hw.
  - destruct Hinv as [Hring Hg Hw Hc Hs]. unfold snd_queue, notified in *.
    destruct h as [q' pending connected pc sent]. subst q. cbn in *.
    pose proof (ring_slots _ _ Hring) as Hl. pose proof (ring_read _ _ Hring).
    split; cbn; try done.
    + apply ring_fill; [done..|apply Hi].
    + intros _. split; [done|]. exists i. split; [|done].
      apply list_lookup_insert_eq. rewrite Hl. apply slot_lt.
    + destruct pc; cbn in *; try done. destruct Hw as (-> & Hlt & j & Hj & ->). split_and!; [done..|].
      exists j. split; [|done]. rewrite list_lookup_insert_ne; [done|]. apply not_eq_sym, slot_ne. lia.
  - destruct Hinv as [Hring Hg Hw Hc Hs]. unfold snd_queue, notified in *.
    destruct h as [q' pending connected pc sent]. subst q. cbn in *.
    destruct (Hg eq_refl) as (Hroom & j & Hj & Hwf). assert (j = i) as -> by congruence.
    pose proof (ring_read _ _ Hring). pose proof (ring_written _ _ Hring).
    split; cbn; try done.
    + by apply ring_publish.
    + destruct pc; cbn in *; [done|done|lia|..]; destruct Hw as [-> Hw]; (split; [done|]);
        [lia| |lia]. destruct Hw as [Hlt Hx]. split; [lia|exact Hx].
    + unfold notified. cbn. rewrite length_app. cbn. lia.
    + rewrite take_app_le; [done|]. destruct pc; cbn in *; lia.
  - destruct Hinv as [Hring Hg Hw Hc Hs]. unfold snd_queue, notified in *. cbn in *.
    split; cbn; try done. unfold notified. cbn. lia.
Qed.

Lemma sending_monotone s s' :
  rtc sending_step s s' → (length (snd_published s) ≤ length (snd_published s'))%nat.
Proof.
  induction 1 as [|s1 s2 s3 Hstep _ IH]; [done|]. etrans; [|exact IH].
  destruct Hstep; cbn; rewrite ?length_app; lia.
Qed.

Lemma sending_reachable s s' :
  rtc sending_step s s' → Z.of_nat (length (snd_published s')) < 2 ^ 64 →
  sending_inv s → sending_inv s'.
Proof.
  induction 1 as [|s1 s2 s3 Hstep Hrest IH]; intros Hlen Hinv; [done|].
  apply IH; [done|]. eapply sending_step_inv; [done| |done].
  pose proof (sending_monotone _ _ Hrest). lia.
Qed.

(** Everything the thread was notified of is out. *)
Definition all_out (s : sending) : Prop :=
  out_sent (snd_host s) = take (Z.to_nat (notified s)) (snd_published s).

(** C7: However the steps of the guest and of the sending thread interleave,
    packets go out in the order the guest published them, none lost,
    duplicated or torn, and at most eight are under way.  When the thread waits
    for the guest, everything it was notified of is out.  It panics only when
    the TAP device refuses the next packet, or when no sender is left, and then
    too everything it was notified of is out. *)
Theorem sending_fifo q s :
  length (sq_inner q) = 8%nat → Forall (λ i, length (qi_data i) = buffer_size) (sq_inner q) →
  rtc sending_step (sending_start q) s → Z.of_nat (length (snd_published s)) < 2 ^ 64 →
  out_sent (snd_host s) `prefix_of` snd_published s ∧
  (length (snd_published s) ≤ length (out_sent (snd_host s)) + 8)%nat ∧
  match writer_step tap_send (snd_host s) with
  | Some (Ret _) => True
  | None => all_out s
  | Some Panic =>
      refused (snd_host s) (snd_published s) ∨ out_connected (snd_host s) = false ∧ all_out s
  | Some Fault => False
  end.
Proof.
  intros Hl Hd Hrun Hlen.
  pose proof (sending_reachable _ _ Hrun Hlen (sending_start_inv q Hl Hd)) as Hinv.
  pose proof (writer_step_inv (snd_host s) (snd_guest s) (snd_published s)) as Hw.
  destruct s as [h g pub]. cbn in *. specialize (Hw Hinv Hlen).
  destruct Hinv as [Hring _ Hat Hc Hs]. unfold snd_queue in *. cbn in *.
  pose proof (ring_read _ _ Hring). pose proof (ring_written _ _ Hring).
  pose proof (ring_room _ _ Hring).
  assert (0 ≤ ahead (out_pc h) ≤ 1) by (destruct (out_pc h); cbn; lia).
  assert (out_pc h = WRecv → out_pending h = 0%nat → all_out (Sending h g pub)) as Hall.
  { intros Hpc Hp. unfold all_out. rewrite Hpc, Hp in *. cbn in *. rewrite Hs. f_equal. lia. }
  split_and!.
  - rewrite Hs. apply prefix_take.
  - rewrite Hs, length_take. lia.
  - destruct (writer_step tap_send h) as [[]|]; try done; [|by destruct Hw as (_ & ? & ?); auto].
    destruct Hw as [|(? & ? & ?)]; auto.
Qed.

(** *** Progress *)

Definition writer_runs (h h' : outgoing) : Prop := writer_step tap_send h = Some (Ret h').

(** Steps left in the current round, and in all the rounds to come. *)
Definition steps_left (pc : writer_pc) : nat :=
  match pc with
  | WRecv => 0 | WWritten => 5 | WRead _ => 4 | WLen _ => 3 | WSend _ _ => 2 | WBump _ => 1
  end.
Definition rounds (h : outgoing) : nat := 6 * out_pending h + steps_left (out_pc h).

Lemma writer_decreases h h' g pub :
  sending_inv (Sending h g pub) → Z.of_nat (length pub) < 2 ^ 64 → writer_runs h h' →
  (rounds h' < rounds h)%nat.
Proof.
  intros Hinv Hlen Hr. pose proof (si_writer _ Hinv) as Hw. unfold snd_queue in Hw.
  destruct h as [q pending connected pc sent]. unfold rounds, writer_runs in *.
  cbn [snd_host out_queue out_pc out_pending] in *.
  destruct pc; cbn [writer_step] in Hr.
  - destruct pending; [by destruct connected|]. injection Hr as <-. cbn. lia.
  - injection Hr as <-. cbn. lia.
  - injection Hr as Hr. exec_inv. cbn. destruct (0 <? _); cbn; lia.
  - injection Hr as Hr. exec_inv. cbn. lia.
  - injection Hr as Hr. exec_inv. cbn. lia.
  - injection Hr as Hr. exec_inv. cbn. lia.
Qed.

(** The thread cannot go on: it waits, or panics. *)
Definition writer_stops (h : outgoing) : Prop := ∀ h', ¬ writer_runs h h'.

Lemma writer_drains n h g pub :
  (rounds h ≤ n)%nat → sending_inv (Sending h g pub) → Z.of_nat (length pub) < 2 ^ 64 →
  ∃ k h', (k ≤ n)%nat ∧ nsteps writer_runs k h h' ∧ writer_stops h' ∧
    sending_inv (Sending h' g pub).
Proof.
  revert h. induction n as [|n IH]; intros h Hn Hinv Hlen;
    (destruct (writer_step tap_send h) as [[h'| |]|] eqn:Hh;
     [|exists 0%nat, h; split_and!; [lia|constructor|intros h2; unfold writer_runs; congruence|done]..]);
    pose proof (writer_decreases h h' g pub Hinv Hlen Hh); [lia|].
  pose proof (writer_step_inv h g pub Hinv Hlen) as Hw. rewrite Hh in Hw.
  destruct (IH h') as (k & h2 & Hk & Hs & Hrest); [lia|done|done|].
  exists (S k), h2. split_and!; [lia|by econstructor|apply Hrest..].
Qed.

(** C31: The sending thread makes progress: from any reachable state, eleven of
    its own steps at most bring it to where it cannot go on, and there every
    packet is out that it had been notified of, unless the TAP device refuses
    one; in that case the thread panics over the first packet that is
    refused. *)
Theorem sending_drains q s :
  length (sq_inner q) = 8%nat → Forall (λ i, length (qi_data i) = buffer_size) (sq_inner q) →
  rtc sending_step (sending_start q) s → Z.of_nat (length (snd_published s)) < 2 ^ 64 →
  ∃ k h', (k ≤ 11)%nat ∧ nsteps writer_runs k (snd_host s) h' ∧
    writer_stops h' ∧
    (out_sent h' = take (Z.to_nat (notified s)) (snd_published s) ∨
     writer_step tap_send h' = Some Panic ∧ refused h' (snd_published s)).
Proof.
  intros Hl Hd Hrun Hlen.
  pose proof (sending_reachable _ _ Hrun Hlen (sending_start_inv q Hl Hd)) as Hinv.
  assert (out_pending (snd_host s) ≤ 1)%nat as Hp.
  { clear Hinv Hlen. assert (out_pending (snd_host (sending_start q)) ≤ 1)%nat as H0 by (cbn; lia).
    revert H0. induction Hrun as [|s1 s2 s3 Hstep _ IH]; intros H0; [done|]. apply IH.
    destruct Hstep as [h h' g pub Hh|h pub i q' _ _|h pub i q' _| | ]; cbn in *; try lia.
    destruct h as [q' pending connected pc sent]. cbn in *.
    destruct pc; cbn [writer_step] in Hh;
      [destruct pending; [by destruct connected|]|..]; injection Hh as Hh; subst; exec_inv;
      cbn; lia. }
  destruct s as [h g pub]. cbn in *.
  assert (rounds h ≤ 11)%nat as Hrounds.
  { unfold rounds. destruct (out_pc h); cbn; lia. }
  destruct (writer_drains 11 h g pub Hrounds Hinv Hlen) as (k & h' & Hk & Hs & Hstop & Hinv').
  exists k, h'. split_and!; [done..|].
  pose proof (writer_step_inv h' g pub Hinv' Hlen) as Hw.
  destruct Hinv' as [_ _ _ Hc' Hs']. unfold snd_queue, notified in *. cbn in *.
  assert (out_pc h' = WRecv → out_pending h' = 0%nat →
    out_sent h' = take (Z.to_nat (notified (Sending h g pub))) pub) as Hall.
  { intros Hpc Hpend. rewrite Hpc, Hpend in *. cbn in *. rewrite Hs'. f_equal. unfold notified. cbn. lia. }
  destruct (writer_step tap_send h') as [[h2| |]|] eqn:Hh'; [by destruct (Hstop h2)| |done|].
  - destruct Hw as [|(_ & ? & ?)]; auto.
  - left. by destruct Hw as (_ & ? & ?); auto.
Qed.

End Sending.

(** ** Receiving *)

Section Receiving.
Context `{Profile} (recv_fails : bool) (evtfd_write : nat → bool).
(** Everything the network will deliver. *)
Context (traffic : list (list Z)).

(** The guest's driver copies the packet at [read] when there is one, and then
    frees its slot. *)
Inductive driver_rx := DIdle | DCopied.

Record receiving := Receiving {
  rcv_host : incoming;
  rcv_guest : driver_rx;
  rcv_delivered : list (list Z);
}.

Definition rcv_queue (s : receiving) : SharedQueue := in_queue (rcv_host s).

Inductive receiving_step : receiving → receiving → Prop :=
| rcv_reader h h' g del :
    reader_step recv_fails evtfd_write h = Some (Ret h') → receiving_step (Receiving h g del) (Receiving h' g del)
| rcv_copy h del i :
    let q := in_queue h in
    sq_read q < sq_written q → sq_inner q !! slot_of (sq_read q) = Some i →
    receiving_step (Receiving h DIdle del) (Receiving h DCopied (del ++ [packet_of i]))
| rcv_release q pc network interrupts del :
    receiving_step (Receiving (Incoming q pc network interrupts) DCopied del)
      (Receiving (Incoming (Queue (sq_read q + 1) (sq_written q) (sq_inner q)) pc network interrupts)
         DIdle del).

Definition receiving_start (q : SharedQueue) : receiving :=
  Receiving (Incoming (queue_init q) RWritten traffic 0) DIdle [].

(** The packets as they fit a buffer. *)
Definition packets : list (list Z) := take buffer_size <$> traffic.

Definition stored (pc : reader_pc) : Z :=
  match pc with RLen _ _ | RBump _ => 1 | _ => 0 end.
Definition notifying (pc : reader_pc) : Z := match pc with RNotify => 1 | _ => 0 end.
Definition copied (g : driver_rx) : Z := match g with DCopied => 1 | DIdle => 0 end.

(** The packet under way, in the slot at [written]. *)
Definition arriving (q : SharedQueue) (len : Z → Z) : Prop :=
  sq_written q - sq_read q < 8 ∧
  ∃ i p, sq_inner q !! slot_of (sq_written q) = Some i ∧
    packets !! Z.to_nat (sq_written q) = Some p ∧ length (qi_data i) = buffer_size ∧
    len (qi_len i) = Z.of_nat (length p) ∧ take (length p) (qi_data i) = p.

Definition reader_at (q : SharedQueue) (pc : reader_pc) : Prop :=
  match pc with
  | RWritten | RNotify => True
  | RRead written => written = sq_written q
  | RRecv written => written = sq_written q ∧ sq_written q - sq_read q < 8
  | RLen written len => written = sq_written q ∧ arriving q (λ _, len)
  | RBump written => written = sq_written q ∧ arriving q id
  end.

Record receiving_inv (s : receiving) : Prop := {
  ri_ring : ring (rcv_queue s) (take (Z.to_nat (sq_written (rcv_queue s))) packets);
  ri_network : in_network (rcv_host s) =
    drop (Z.to_nat (sq_written (rcv_queue s) + stored (in_pc (rcv_host s)))) traffic;
  ri_reader : reader_at (rcv_queue s) (in_pc (rcv_host s));
  ri_interrupts : Z.of_nat (in_interrupts (rcv_host s)) + notifying (in_pc (rcv_host s)) =
    sq_written (rcv_queue s);
  ri_copied : sq_read (rcv_queue s) + copied (rcv_guest s) ≤ sq_written (rcv_queue s);
  ri_delivered : rcv_delivered s =
    take (Z.to_nat (sq_read (rcv_queue s) + copied (rcv_guest s))) packets;
}.

Lemma length_packets : length packets = length traffic.
Proof. apply length_fmap. Qed.

Lemma receiving_start_inv q :
  length (sq_inner q) = 8%nat → Forall (λ i, length (qi_data i) = buffer_size) (sq_inner q) →
  receiving_inv (receiving_start q).
Proof.
  intros Hl Hd. split; cbn; try done. split; cbn; try done; [by rewrite length_fmap| |lia].
  by apply Forall_fmap.
Qed.

(** A packet in a buffer. *)
Lemma recv_into_spec data packet :
  length data = buffer_size →
  let p := take buffer_size packet in
  recv_into data packet = (p ++ drop (length p) data, Z.of_nat (length p)) ∧
  length (p ++ drop (length p) data) = buffer_size ∧ take (length p) (p ++ drop (length p) data) = p.
Proof.
  intros Hd p. split; [unfold recv_into; by rewrite Hd|]. split.
  - rewrite length_app, length_drop, Hd. unfold p. rewrite length_take. lia.
  - by rewrite take_app_length.
Qed.

(** [recv] puts the next packet of the traffic into the slot at [written]. *)
Lemma reader_recv_inv q written packet network interrupts g del :
  receiving_inv (Receiving (Incoming q (RRecv written) (packet :: network) interrupts) g del) →
  match reader_step recv_fails evtfd_write (Incoming q (RRecv written) (packet :: network) interrupts) with
  | Some (Ret h') => receiving_inv (Receiving h' g del)
  | _ => False
  end.
Proof.
  intros [Hring Hnet [-> Hroom] Hint Hcop Hdel]. unfold rcv_queue in *.
  cbn [rcv_host rcv_guest rcv_delivered in_queue in_pc in_network in_interrupts reader_step stored
       notifying] in *.
  pose proof (ring_read _ _ Hring) as Hrd. pose proof (ring_slots _ _ Hring) as Hslots.
  pose proof (slot_lt (sq_written q)) as Hslot.
  destruct (ring_slot _ _ (sq_written q) Hring) as [i Hi]. rewrite Hi. cbn [unwrap mbind exec_bind].
  assert (length (qi_data i) = buffer_size) as Hdi
    by (pose proof (ring_data _ _ Hring) as Hd; rewrite Forall_lookup in Hd; by eapply Hd).
  destruct (recv_into_spec (qi_data i) packet Hdi) as (-> & Hld & Htk).
  set (p := take buffer_size packet) in *.
  assert (Z.of_nat (length p) < 2 ^ 16) as Hp16.
  { unfold p. rewrite length_take. unfold buffer_size, UHYVE_NET_MTU. lia. }
  unfold try_into. rewrite decide_True by (unfold fits; lia). cbn [unwrap mbind exec_bind].
  rewrite Z.add_0_r in Hnet.
  assert (traffic !! Z.to_nat (sq_written q) = Some packet) as Ht.
  { rewrite <- (Nat.add_0_r (Z.to_nat _)), <- lookup_drop, <- Hnet. done. }
  split; unfold rcv_queue; cbn; try done.
  - by apply ring_fill.
  - rewrite Z2Nat.inj_add, <- drop_drop, <- Hnet by lia. done.
  - split; [done|]. split; [done|]. exists (Inner (qi_len i) (p ++ drop (length p) (qi_data i))), p.
    split_and!; try done; [apply list_lookup_insert_eq; cbn; lia|].
    unfold packets. rewrite list_lookup_fmap. cbn [sq_written]. by rewrite Ht.
Qed.

(** The network has nothing more to deliver, and everything is in the ring. *)
Definition drained (h : incoming) : Prop :=
  in_network h = [] ∧ stored (in_pc h) = 0 ∧ notifying (in_pc h) = 0.
(** The interrupt of the last packet in the ring cannot be raised. *)
Definition unannounced (h : incoming) : Prop :=
  in_pc h = RNotify ∧ evtfd_write (in_interrupts h) = false.

Lemma reader_step_inv h g del :
  receiving_inv (Receiving h g del) → Z.of_nat (length traffic) < 2 ^ 64 →
  match reader_step recv_fails evtfd_write h with
  | Some (Ret h') => receiving_inv (Receiving h' g del)
  | None => recv_fails = false ∧ drained h
  | Some Panic => recv_fails = true ∧ drained h ∨ unannounced h
  | Some Fault => False
  end.
Proof.
  intros Hinv Hlen. destruct h as [q pc network interrupts].
  pose proof Hinv as [Hring Hnet Hr Hint Hcop Hdel]. unfold rcv_queue in *.
  cbn [rcv_host rcv_guest rcv_delivered in_queue in_pc in_network in_interrupts] in *.
  pose proof (ring_written _ _ Hring) as Hwr. rewrite length_take, length_packets in Hwr.
  pose proof (ring_read _ _ Hring) as Hrd. pose proof (ring_slots _ _ Hring) as Hslots.
  pose proof (slot_lt (sq_written q)) as Hslot.
  destruct pc as [|written|written|written len|written|];
    cbn [reader_step reader_at stored notifying] in *.
  - by split.
  - rewrite Hr, arith_fits by (unfold fits; lia). cbn [mbind exec_bind].
    destruct (Z.ltb_spec (sq_written q - sq_read q) UHYVE_QUEUE_SIZE) as [Hlt|];
      split; try done.
  - destruct network as [|packet network]; [destruct recv_fails; [left|]; by split|].
    apply (reader_recv_inv _ _ _ _ _ g del) in Hinv. cbn [reader_step] in Hinv.
    by destruct (mbind _ _).
  - destruct Hr as (-> & Hroom & i & p & Hi & Hp & Hd & Hl & Htk). rewrite Hi.
    cbn [unwrap mbind exec_bind]. split; unfold rcv_queue; cbn; try done.
    + by apply ring_fill.
    + split; [done|]. split; [done|]. exists (Inner len (qi_data i)), p.
      split_and!; try done. apply list_lookup_insert_eq. cbn. lia.
  - destruct Hr as (-> & Hroom & i & p & Hi & Hp & Hd & Hl & Htk).
    pose proof (lookup_lt_Some _ _ _ Hp) as Hlt. rewrite length_packets in Hlt.
    rewrite arith_fits by (unfold fits; lia). cbn [mbind exec_bind].
    assert (packet_of i = p) as Hpi.
    { unfold packet_of. unfold id in Hl. by rewrite Hl, Nat2Z.id. }
    assert (length p ≤ buffer_size)%nat as Hpb.
    { rewrite <- Htk, length_take. lia. }
    split; unfold rcv_queue; cbn; try done; [| |lia|lia].
    + rewrite Z2Nat.inj_add by lia. rewrite Nat.add_1_r, (take_S_r _ _ _ Hp), <- Hpi.
      apply ring_publish; [done..|]. split; [done|]. unfold id in Hl. lia.
    + rewrite Hnet. f_equal. lia.
  - destruct (evtfd_write interrupts) eqn:Hev; [|by right].
    split; try done. unfold rcv_queue. cbn in *. lia.
Qed.

Lemma receiving_step_inv s s' :
  receiving_step s s' → Z.of_nat (length traffic) < 2 ^ 64 → receiving_inv s → receiving_inv s'.
Proof.
  intros Hstep Hlen Hinv.
  destruct Hstep as [h h' g del Hh|h del i q Hlt Hi|q pc network interrupts del].
  - pose proof (reader_step_inv h g del Hinv Hlen) as Hw. by rewrite Hh in Hw.
  - destruct Hinv as [Hring Hnet Hr Hint Hcop Hdel]. unfold rcv_queue in *. cbn in *. subst q.
    pose proof (ring_read _ _ Hring) as Hrd. split; unfold rcv_queue; cbn; try done; [lia|].
    destruct (ring_packets _ _ Hring (sq_read (in_queue h))) as (j & Hj & _ & Hp); [lia|].
    assert (j = i) as -> by congruence. apply lookup_take_Some in Hp as [Hp _].
    rewrite Hdel, Z.add_0_r, Z2Nat.inj_add by lia. by rewrite Nat.add_1_r, (take_S_r _ _ _ Hp).
  - destruct Hinv as [Hring Hnet Hr Hint Hcop Hdel]. unfold rcv_queue in *. cbn in *.
    pose proof (ring_read _ _ Hring) as Hrd. split; unfold rcv_queue; cbn; try done; [| |lia|].
    + apply ring_consume; [done|lia].
    + destruct pc; cbn in *; try done; [destruct Hr as [-> Hroom]; split; [done|lia]|..];
        destruct Hr as (Hw & Hroom & Hrest); (split; [done|]); (split; [cbn; lia|done]).
    + by rewrite Z.add_0_r.
Qed.

(** C18: However the steps of the receiving thread and of the guest interleave,
    the guest gets the packets of the network in order, none lost, duplicated
    or torn, each cut to the size of a buffer.  When the thread waits for the
    network, each packet raised an interrupt, and if the guest has emptied the
    ring, everything has been delivered.  The thread panics only when [recv]
    fails, with the same guarantees for the packets before the failure, or when
    the interrupt of a packet cannot be raised, which is then the only one
    missing. *)
Theorem receiving_fifo q s :
  length (sq_inner q) = 8%nat → Forall (λ i, length (qi_data i) = buffer_size) (sq_inner q) →
  rtc receiving_step (receiving_start q) s → Z.of_nat (length traffic) < 2 ^ 64 →
  rcv_delivered s `prefix_of` packets ∧
  let all_in := in_interrupts (rcv_host s) = length traffic ∧
    (sq_read (rcv_queue s) = sq_written (rcv_queue s) → rcv_delivered s = packets) in
  match reader_step recv_fails evtfd_write (rcv_host s) with
  | Some (Ret _) => True
  | None => recv_fails = false ∧ all_in
  | Some Panic =>
      recv_fails = true ∧ all_in ∨
      evtfd_write (in_interrupts (rcv_host s)) = false ∧
        sq_written (rcv_queue s) = Z.of_nat (in_interrupts (rcv_host s)) + 1
  | Some Fault => False
  end.
Proof.
  intros Hl Hd Hrun Hlen.
  assert (receiving_inv s) as Hinv.
  { pose proof (receiving_start_inv q Hl Hd) as H0. revert H0.
    induction Hrun; [done|]. eauto using receiving_step_inv. }
  pose proof (reader_step_inv (rcv_host s) (rcv_guest s) (rcv_delivered s)) as Hw.
  destruct s as [h g del]. cbn in *. specialize (Hw Hinv Hlen).
  destruct Hinv as [Hring Hnet Hr Hint Hcop Hdel]. unfold rcv_queue in *. cbn in *.
  split; [rewrite Hdel; apply prefix_take|].
  pose proof (ring_written _ _ Hring) as Hwr. rewrite length_take, length_packets in Hwr.
  assert (drained h → in_interrupts h = length traffic ∧
    (sq_read (in_queue h) = sq_written (in_queue h) → del = packets)) as Hall.
  { intros (Hempty & Hst & Hno). rewrite Hst, Hno, Z.add_0_r in *. rewrite Hempty in Hnet.
    symmetry in Hnet. apply (f_equal length) in Hnet. rewrite length_drop in Hnet. cbn in Hnet.
    split; [lia|]. intros Heq. rewrite Hdel. apply take_ge. rewrite length_packets.
    destruct g; cbn in *; lia. }
  destruct (reader_step _ _ h) as [[]|]; try done; [|by destruct Hw; auto].
  destruct Hw as [[? ?]|[Hpc Hev]]; [left; by auto|right]. rewrite Hpc in Hint. cbn in Hint.
  split; [done|lia].
Qed.

End Receiving.

(** ** One packet each way *)
Module Example.
#[local] Existing Instance debug_profile.

Definition zeroed : SharedQueue := Queue 0 0 (replicate 8 (Inner 0 (replicate buffer_size 0))).
Definition hello : list Z := [104; 101; 108; 108; 111].
Definition slot_hello : QueueInner := Inner 5 (hello ++ replicate (buffer_size - 5) 0).
(** The TAP device takes everything, the interrupts are raised. *)
Definition network (_ : list (list Z)) (_ : list Z) : bool := true.
Definition raised (_ : nat) : bool := true.

Definition with_hello (written : Z) : SharedQueue :=
  Queue 0 written (<[0%nat := slot_hello]> (sq_inner zeroed)).
(** The guest has published the packet and notified the hypervisor. *)
Definition notified_once : sending :=
  Sending (Outgoing (with_hello 1) 1 true WRecv []) DReady [hello].

Lemma slot_hello_wf : inner_wf slot_hello.
Proof. split; [by vm_compute|]. evaluate. Qed.

Lemma one_packet : rtc (sending_step network) (sending_start zeroed) notified_once.
Proof.
  eapply rtc_l; [apply (snd_fill network _ [] slot_hello); [done|exact slot_hello_wf]|].
  eapply rtc_l; [by apply (snd_publish network _ [] slot_hello)|].
  eapply rtc_l; [apply snd_notify|]. apply rtc_refl.
Qed.

Lemma sending_fifo_witness :
  out_sent (snd_host notified_once) `prefix_of` [hello] ∧
  ∃ h, writer_step network (snd_host notified_once) = Some (Ret h).
Proof.
  destruct (sending_fifo network zeroed notified_once) as (Hpre & _ & _).
  - reflexivity.
  - evaluate.
  - exact one_packet.
  - evaluate.
  - split; [exact Hpre|]. eexists. reflexivity.
Defined.

Lemma sending_drains_witness :
  ∃ k h', (k ≤ 11)%nat ∧ nsteps (writer_runs network) k (snd_host notified_once) h' ∧
    out_sent h' = [hello].
Proof.
  destruct (sending_drains network zeroed notified_once) as (k & h' & Hk & Hs & _ & Hsent).
  - reflexivity.
  - evaluate.
  - exact one_packet.
  - evaluate.
  - exists k, h'. split; [exact Hk|]. split; [exact Hs|].
    destruct Hsent as [Hsent|[_ (p & _ & Hp)]]; [exact Hsent|discriminate Hp].
Defined.

(** The thread has stored one packet; the guest has copied it. *)
Definition delivered_once : receiving :=
  Receiving (Incoming (with_hello 1) RNotify [] 0) DCopied [hello].

Lemma one_arrival : rtc (receiving_step false raised) (receiving_start [hello] zeroed) delivered_once.
Proof.
  do 5 (eapply rtc_l; [apply rcv_reader; reflexivity|]).
  eapply rtc_l; [by apply (rcv_copy _ _ _ _ slot_hello)|]. apply rtc_refl.
Qed.

Lemma receiving_fifo_witness : rcv_delivered delivered_once `prefix_of` packets [hello].
Proof.
  destruct (receiving_fifo false raised [hello] zeroed delivered_once) as [Hpre _].
  - reflexivity.
  - evaluate.
  - exact one_arrival.
  - evaluate.
  - exact Hpre.
Defined.

End Example.
