(* ===== verification/NetMemory.v ===== *)
(** * The network queues in guest memory ([UhyveNetwork::new] of
      src/linux/uhyve.rs, src/shared_queue.rs)

    SharedQueue.v follows the two threads on queues of packets.  Here the queues
    are where they are: bytes of guest memory, from [SHAREDQUEUE_START] on, which
    the threads initialise and access by volatile reads and writes.  Every step
    of a thread on memory is its step on the queue the memory holds. *)

From S2P Require Import Prelude Memory Consts SharedQueue.

(** ** Layout: [#[repr(C)]] of the two structures *)

Definition size_of_QueueInner : Z := 2 + (UHYVE_NET_MTU + 34).
Definition offset_read : Z := 0.
Definition offset_written : Z := 64.
Definition offset_inner (i : Z) : Z := 128 + i * size_of_QueueInner.
Definition size_of_SharedQueue : Z := offset_inner UHYVE_QUEUE_SIZE.

(** The queue that memory holds at [a]. *)
Definition inner_in (m : mem) (a : Z) : QueueInner :=
  Inner (le_combine (peeks m a 2)) (peeks m (a + 2) buffer_size).
Definition queue_in (m : mem) (a : Z) : SharedQueue :=
  Queue (le_combine (peeks m (a + offset_read) 8)) (le_combine (peeks m (a + offset_written) 8))
    ((λ i, inner_in m (a + offset_inner i)) <$> seqZ 0 UHYVE_QUEUE_SIZE).

(** ** The threads on memory *)

Section Threads.
Context `{Profile}.

(** [SharedQueue::init]. *)
Definition init_queue (a : Z) (m : mem) : exec mem :=
  m ← store 8 m (a + offset_read) 0;
  m ← store 8 m (a + offset_written) 0;
  for_each (λ i m, store 2 m (a + offset_inner i) 0) (seqZ 0 UHYVE_QUEUE_SIZE) m.

(** The queue of the writer follows that of the reader. *)
Definition tx_queue (start : Z) : exec Z :=
  n ← align_up 64 size_of_SharedQueue 64; arith 64 (start + n).

Record writer_mem := WriterMem {
  wm_mem : mem;
  wm_pending : nat;
  wm_connected : bool;
  wm_pc : writer_pc;
  wm_sent : list (list Z);
}.

(** One step of the writer, whose queue is at [a]. *)
Definition writer_mem_step (tap_send : list (list Z) → list Z → bool) (a : Z) (s : writer_mem) :
    option (exec writer_mem) :=
  let '(WriterMem m pending connected pc sent) := s in
  let inner read := a + offset_inner (read mod UHYVE_QUEUE_SIZE) in
  match pc with
  | WRecv =>
      match pending with
      | O => if connected then None else Some Panic
      | S n => Some (Ret (WriterMem m n connected WWritten sent))
      end
  | WWritten =>
      Some (written ← load 8 m (a + offset_written);
            Ret (WriterMem m pending connected (WRead written) sent))
  | WRead written =>
      Some (read ← load 8 m (a + offset_read);
            distance ← arith 64 (written - read);
            Ret (WriterMem m pending connected (if 0 <? distance then WLen read else WRecv) sent))
  | WLen read =>
      Some (len ← load 2 m (inner read);
            Ret (WriterMem m pending connected (WSend read len) sent))
  | WSend read len =>
      Some (rust_assert (len <=? UHYVE_NET_MTU + 34) ;;
            packet ← load_bytes m (inner read + 2) (Z.to_nat len);
            rust_assert (tap_send sent packet) ;;
            Ret (WriterMem m pending connected (WBump read) (sent ++ [packet])))
  | WBump read =>
      Some (next ← arith 64 (read + 1);
            m ← store 8 m (a + offset_read) next;
            Ret (WriterMem m pending connected WRecv sent))
  end.

Record reader_mem := ReaderMem {
  rm_mem : mem;
  rm_pc : reader_pc;
  rm_network : list (list Z);
  rm_interrupts : nat;
}.

(** One step of the reader. *)
Definition reader_mem_step (recv_fails : bool) (evtfd_write : nat → bool) (a : Z) (s : reader_mem) :
    option (exec reader_mem) :=
  let '(ReaderMem m pc network interrupts) := s in
  let inner written := a + offset_inner (written mod UHYVE_QUEUE_SIZE) in
  match pc with
  | RWritten =>
      Some (written ← load 8 m (a + offset_written);
            Ret (ReaderMem m (RRead written) network interrupts))
  | RRead written =>
      Some (read ← load 8 m (a + offset_read);
            distance ← arith 64 (written - read);
            Ret (ReaderMem m (if distance <? UHYVE_QUEUE_SIZE then RRecv written else RWritten)
                   network interrupts))
  | RRecv written =>
      match network with
      | [] => if recv_fails then Some Panic else None
      | packet :: network' =>
          let packet := take buffer_size packet in
          Some (m ← store_bytes m (inner written + 2) packet;
                len ← unwrap (try_into 16 (Z.of_nat (length packet)));
                Ret (ReaderMem m (RLen written len) network' interrupts))
      end
  | RLen written len =>
      Some (m ← store 2 m (inner written) len;
            Ret (ReaderMem m (RBump written) network interrupts))
  | RBump written =>
      Some (next ← arith 64 (written + 1);
            m ← store 8 m (a + offset_written) next;
            Ret (ReaderMem m RNotify network interrupts))
  | RNotify =>
      Some (rust_assert (evtfd_write interrupts) ;;
            Ret (ReaderMem m RWritten network (S interrupts)))
  end.

End Threads.

(** ** The queue a memory holds *)

Lemma length_queue_in m a : length (sq_inner (queue_in m a)) = 8%nat.
Proof. done. Qed.

Lemma queue_in_data m a :
  Forall (λ i, length (qi_data i) = buffer_size) (sq_inner (queue_in m a)).
Proof. apply Forall_fmap, Forall_forall. intros i _. apply length_peeks. Qed.

Lemma lookup_queue_in m a k :
  sq_inner (queue_in m a) !! slot_of k =
    Some (inner_in m (a + offset_inner (k mod UHYVE_QUEUE_SIZE))).
Proof.
  pose proof (Z.mod_pos_bound k UHYVE_QUEUE_SIZE ltac:(done)) as Hk.
  cbn [queue_in sq_inner]. unfold slot_of, UHYVE_QUEUE_SIZE in *.
  rewrite list_lookup_fmap, lookup_seqZ_lt by lia.
  by rewrite Z.add_0_l, Z2Nat.id by lia.
Qed.

Ltac offsets :=
  unfold buffer_size, size_of_SharedQueue, offset_inner, offset_read, offset_written,
    size_of_QueueInner, UHYVE_NET_MTU, UHYVE_QUEUE_SIZE in *.

(** A write beside a slot. *)
Lemma inner_in_disjoint m b bs a :
  a + size_of_QueueInner ≤ b ∨ b + Z.of_nat (length bs) ≤ a →
  inner_in (write_bytes m b bs) a = inner_in m a.
Proof.
  intros Hd. unfold inner_in. offsets. rewrite !peeks_write_disjoint by lia. done.
Qed.

Lemma peeks_le_split m a n v : le_combine (peeks (write_bytes m a (le_split n v)) a n) = wrap (8 * Z.of_nat n) v.
Proof.
  pose proof (peeks_write_same m a (le_split n v)) as Hp. rewrite length_le_split in Hp.
  by rewrite Hp, le_combine_split.
Qed.

Lemma queue_in_read m a v :
  queue_in (write_bytes m (a + offset_read) (le_split 8 v)) a =
    Queue (wrap 64 v) (sq_written (queue_in m a)) (sq_inner (queue_in m a)).
Proof.
  unfold queue_in. cbn [sq_written sq_inner]. f_equal.
  - apply peeks_le_split.
  - rewrite peeks_write_disjoint; [done|]. rewrite length_le_split. offsets. lia.
  - apply list_fmap_ext. intros j i Hi. apply lookup_seqZ in Hi as [-> Hi].
    apply inner_in_disjoint. rewrite length_le_split. offsets. lia.
Qed.

Lemma queue_in_written m a v :
  queue_in (write_bytes m (a + offset_written) (le_split 8 v)) a =
    Queue (sq_read (queue_in m a)) (wrap 64 v) (sq_inner (queue_in m a)).
Proof.
  unfold queue_in. cbn [sq_read sq_inner]. f_equal.
  - rewrite peeks_write_disjoint; [done|]. rewrite length_le_split. offsets. lia.
  - apply peeks_le_split.
  - apply list_fmap_ext. intros j i Hi. apply lookup_seqZ in Hi as [-> Hi].
    apply inner_in_disjoint. rewrite length_le_split. offsets. lia.
Qed.

(** A write into the slot of packet [k]. *)
Lemma queue_in_slot m a k o bs :
  0 ≤ o → o + Z.of_nat (length bs) ≤ size_of_QueueInner →
  let slot := a + offset_inner (k mod UHYVE_QUEUE_SIZE) in
  let m' := write_bytes m (slot + o) bs in
  queue_in m' a =
    Queue (sq_read (queue_in m a)) (sq_written (queue_in m a))
      (<[slot_of k := inner_in m' slot]> (sq_inner (queue_in m a))).
Proof.
  intros Ho Hl slot m'. pose proof (Z.mod_pos_bound k UHYVE_QUEUE_SIZE ltac:(done)) as Hk.
  unfold queue_in. cbn [sq_read sq_written sq_inner]. f_equal.
  - unfold m', slot. rewrite peeks_write_disjoint; [done|]. offsets. lia.
  - unfold m', slot. rewrite peeks_write_disjoint; [done|]. offsets. lia.
  - apply list_eq. intros j. rewrite list_lookup_fmap.
    destruct (decide (j < 8)%nat) as [Hj|Hj].
    + destruct (decide (slot_of k = j)) as [<-|Hne].
      * rewrite list_lookup_insert_eq by (rewrite length_fmap, length_seqZ; exact Hj).
        unfold slot_of. offsets. rewrite lookup_seqZ_lt by lia.
        by rewrite Z.add_0_l, Z2Nat.id by lia.
      * rewrite list_lookup_insert_ne, list_lookup_fmap by done. offsets.
        rewrite lookup_seqZ_lt by lia. cbn [fmap option_fmap option_map]. f_equal.
        apply inner_in_disjoint.
        unfold slot, slot_of in *. offsets. lia.
    + rewrite !lookup_ge_None_2; [done|..]; rewrite ?length_insert, ?length_fmap, ?length_seqZ;
        offsets; lia.
Qed.

(** ** The threads on memory are the threads on queues *)

Section Refinement.
Context `{Profile} (a : Z).

(** Nothing changes outside the queue. *)
Definition rest_kept (m m' : mem) : Prop :=
  same_map m m' ∧ ∀ x, ¬ (a ≤ x < a + size_of_SharedQueue) → peek m' x = peek m x.

Lemma rest_kept_refl m : rest_kept m m.
Proof. by split. Qed.

Lemma rest_kept_write m b bs :
  a ≤ b → b + Z.of_nat (length bs) ≤ a + size_of_SharedQueue → rest_kept m (write_bytes m b bs).
Proof. intros Hb He. split; [done|]. intros x Hx. apply peek_write_out. lia. Qed.

Definition inside (m : mem) : Prop := valid m a size_of_SharedQueue.

Lemma inside_valid m o n : inside m → 0 ≤ o → 0 ≤ n → o + n ≤ size_of_SharedQueue → valid m (a + o) n.
Proof. unfold inside, valid. lia. Qed.

Lemma slot_offset k :
  let o := offset_inner (k mod UHYVE_QUEUE_SIZE) in
  0 ≤ o ∧ o + size_of_QueueInner ≤ size_of_SharedQueue.
Proof. pose proof (Z.mod_pos_bound k UHYVE_QUEUE_SIZE ltac:(done)). offsets. lia. Qed.

Lemma take_peeks m b n k : (k ≤ n)%nat → take k (peeks m b n) = peeks m b k.
Proof.
  intros Hk. apply list_eq. intros i. destruct (decide (i < k)%nat).
  - by rewrite lookup_take_lt, !lookup_peeks by lia.
  - rewrite !lookup_ge_None_2; [done|..]; rewrite ?length_take, ?length_peeks; lia.
Qed.

Definition writer_of (s : writer_mem) : outgoing :=
  Outgoing (queue_in (wm_mem s) a) (wm_pending s) (wm_connected s) (wm_pc s) (wm_sent s).

Lemma writer_mem_refines tap_send s :
  inside (wm_mem s) →
  match writer_mem_step tap_send a s with
  | None => writer_step tap_send (writer_of s) = None
  | Some (Ret s') => writer_step tap_send (writer_of s) = Some (Ret (writer_of s')) ∧
      rest_kept (wm_mem s) (wm_mem s')
  | Some Panic => writer_step tap_send (writer_of s) = Some Panic
  | Some Fault => False
  end.
Proof.
  intros Hin. destruct s as [m pending connected pc sent]. cbn [wm_mem] in Hin.
  pose proof (rest_kept_refl m) as Hrefl.
  destruct pc as [| |written|read|read len|read]; cbn [writer_mem_step writer_step writer_of wm_mem
    wm_pending wm_connected wm_pc wm_sent].
  - destruct pending; [by destruct connected|]. by split.
  - rewrite load_valid by (apply inside_valid; [done|offsets; lia..]). by split.
  - rewrite load_valid by (apply inside_valid; [done|offsets; lia..]). cbn [mbind exec_bind].
    cbn [queue_in sq_read]. destruct (arith 64 _) as [d| |] eqn:Hd; [by split|done|].
    by destruct (arith_no_fault _ _ Hd).
  - destruct (slot_offset read) as [Ho1 Ho2].
    rewrite load_valid by (apply inside_valid; [done|offsets; lia..]).
    rewrite lookup_queue_in. by split.
  - destruct (slot_offset read) as [Ho1 Ho2]. rewrite lookup_queue_in. cbn [unwrap mbind exec_bind].
    cbn [inner_in qi_data]. rewrite length_peeks.
    replace (Z.of_nat buffer_size) with (UHYVE_NET_MTU + 34) by (offsets; lia).
    destruct (Z.leb_spec len (UHYVE_NET_MTU + 34)) as [Hlen|]; [|done]. cbn [rust_assert mbind exec_bind].
    unfold load_bytes. rewrite decide_True.
    2: { rewrite <- Z.add_assoc. apply inside_valid; [done|offsets; lia..]. }
    cbn [mbind exec_bind]. rewrite take_peeks by (offsets; lia).
    destruct (tap_send _ _); [|done]. by split.
  - destruct (arith 64 _) as [next| |] eqn:Hn; [|done|by destruct (arith_no_fault _ _ Hn)].
    cbn [mbind exec_bind].
    rewrite store_valid by (apply inside_valid; [done|offsets; lia..]). cbn [mbind exec_bind].
    apply arith_Ret in Hn as ->. split.
    + unfold writer_of. cbn [wm_mem wm_pending wm_connected wm_pc wm_sent].
      rewrite queue_in_read. unfold wrap. by rewrite Z.mod_mod.
    + apply rest_kept_write; rewrite ?length_le_split; offsets; lia.
Qed.

Definition reader_of (s : reader_mem) : incoming :=
  Incoming (queue_in (rm_mem s) a) (rm_pc s) (rm_network s) (rm_interrupts s).

(** What [recv] leaves in the buffer of a slot. *)
Lemma peeks_recv m b n bs :
  (length bs ≤ n)%nat →
  peeks (write_bytes m b bs) b n = bs ++ drop (length bs) (peeks m b n).
Proof.
  intros Hl. apply list_eq. intros i. destruct (decide (i < n)%nat) as [Hi|Hi].
  - rewrite lookup_peeks, peek_write by done. case_decide as Hc.
    + rewrite lookup_app_l by lia. replace (Z.to_nat (b + Z.of_nat i - b)) with i by lia.
      symmetry. apply list_lookup_lookup_total_lt. lia.
    + rewrite lookup_app_r, lookup_drop, lookup_peeks by lia. do 2 f_equal. lia.
  - rewrite !lookup_ge_None_2; [done|..]; rewrite ?length_app, ?length_drop, ?length_peeks; lia.
Qed.

Lemma reader_mem_refines recv_fails evtfd_write s :
  inside (rm_mem s) →
  (∀ written len, rm_pc s = RLen written len → fits 16 len) →
  match reader_mem_step recv_fails evtfd_write a s with
  | None => reader_step recv_fails evtfd_write (reader_of s) = None
  | Some (Ret s') => reader_step recv_fails evtfd_write (reader_of s) = Some (Ret (reader_of s')) ∧
      rest_kept (rm_mem s) (rm_mem s')
  | Some Panic => reader_step recv_fails evtfd_write (reader_of s) = Some Panic
  | Some Fault => False
  end.
Proof.
  intros Hin Hlen. destruct s as [m pc network interrupts]. cbn [rm_mem rm_pc] in Hin, Hlen.
  pose proof (rest_kept_refl m) as Hrefl.
  destruct pc as [|written|written|written len|written|]; cbn [reader_mem_step reader_step reader_of
    rm_mem rm_pc rm_network rm_interrupts].
  - rewrite load_valid by (apply inside_valid; [done|offsets; lia..]). by split.
  - rewrite load_valid by (apply inside_valid; [done|offsets; lia..]). cbn [mbind exec_bind].
    cbn [queue_in sq_read]. destruct (arith 64 _) as [d| |] eqn:Hd; [by split|done|].
    by destruct (arith_no_fault _ _ Hd).
  - destruct network as [|packet network]; [by destruct recv_fails|]. destruct (slot_offset written) as [Ho1 Ho2].
    rewrite lookup_queue_in. cbn [unwrap mbind exec_bind]. unfold recv_into.
    cbn [inner_in qi_data qi_len]. rewrite length_peeks. set (p := take buffer_size packet).
    assert (length p ≤ buffer_size)%nat as Hp by (unfold p; rewrite length_take; lia).
    unfold store_bytes. rewrite decide_True.
    2: { rewrite <- Z.add_assoc. apply inside_valid; [done|offsets; lia..]. }
    cbn [mbind exec_bind]. destruct (try_into 16 _) as [l|]; [|done]. cbn [unwrap mbind exec_bind].
    split.
    + unfold reader_of. cbn [rm_mem rm_pc rm_network rm_interrupts].
      rewrite (queue_in_slot m a written 2 p) by (offsets; lia). unfold inner_in.
      rewrite peeks_write_disjoint by (left; lia). by rewrite peeks_recv.
    + apply rest_kept_write; [lia|]. offsets. lia.
  - destruct (slot_offset written) as [Ho1 Ho2].
    rewrite store_valid by (apply inside_valid; [done|offsets; lia..]). cbn [mbind exec_bind].
    rewrite lookup_queue_in. cbn [unwrap mbind exec_bind]. split.
    + unfold reader_of. cbn [rm_mem rm_pc rm_network rm_interrupts].
      pose proof (queue_in_slot m a written 0 (le_split 2 len)) as Hq. cbv zeta in Hq.
      rewrite !Z.add_0_r in Hq.
      rewrite Hq by (rewrite ?length_le_split; offsets; lia). unfold inner_in. cbn [qi_data].
      rewrite peeks_le_split, peeks_write_disjoint by (rewrite length_le_split; lia).
      by rewrite wrap_fits by (by apply (Hlen written)).
    + apply rest_kept_write; rewrite ?length_le_split; offsets; lia.
  - destruct (arith 64 _) as [next| |] eqn:Hn; [|done|by destruct (arith_no_fault _ _ Hn)].
    cbn [mbind exec_bind].
    rewrite store_valid by (apply inside_valid; [done|offsets; lia..]). cbn [mbind exec_bind].
    apply arith_Ret in Hn as ->. split.
    + unfold reader_of. cbn [rm_mem rm_pc rm_network rm_interrupts].
      rewrite queue_in_written. unfold wrap. by rewrite Z.mod_mod.
    + apply rest_kept_write; rewrite ?length_le_split; offsets; lia.
  - by destruct (evtfd_write interrupts).
Qed.

(** A step that writes the length of slot [k]. *)
Lemma queue_in_len m k v :
  0 ≤ k < UHYVE_QUEUE_SIZE →
  queue_in (write_bytes m (a + offset_inner k) (le_split 2 v)) a =
    Queue (sq_read (queue_in m a)) (sq_written (queue_in m a))
      (alter (λ i, Inner (wrap 16 v) (qi_data i)) (Z.to_nat k) (sq_inner (queue_in m a))).
Proof.
  intros Hk. pose proof (queue_in_slot m a k 0 (le_split 2 v)) as Hq. cbv zeta in Hq.
  rewrite Z.mod_small, !Z.add_0_r in Hq by done.
  rewrite Hq by (rewrite ?length_le_split; offsets; lia). f_equal. unfold slot_of.
  rewrite Z.mod_small by done. unfold inner_in at 1.
  rewrite peeks_le_split, peeks_write_disjoint by (rewrite length_le_split; lia).
  pose proof (lookup_queue_in m a k) as Hl. unfold slot_of in Hl. rewrite Z.mod_small in Hl by done.
  rewrite list_insert_alter. apply list_alter_ext; [|done]. intros i Hi. by simplify_eq.
Qed.

Lemma init_queue_spec m :
  inside m →
  ∃ m', init_queue a m = Ret m' ∧ queue_in m' a = queue_init (queue_in m a) ∧ rest_kept m m'.
Proof.
  intros Hin. unfold init_queue.
  rewrite store_valid by (apply inside_valid; [done|offsets; lia..]). cbn [mbind exec_bind].
  rewrite store_valid by (apply inside_valid; [done|offsets; lia..]). cbn [mbind exec_bind].
  set (m0 := write_bytes _ _ _). set (l := sq_inner (queue_in m a)).
  set (f := λ i, Inner 0 (qi_data i)).
  assert (queue_in m0 a = Queue 0 0 l) as Hm0.
  { unfold m0. rewrite queue_in_written, queue_in_read. done. }
  assert (rest_kept m m0) as Hk0.
  { split; [split; reflexivity|]. intros x Hx. unfold m0.
    rewrite !peek_write_out; [done|..]; rewrite length_le_split; offsets; lia. }
  destruct (for_each_inv (λ pre m', rest_kept m m' ∧
    queue_in m' a = Queue 0 0 ((f <$> take (length pre) l) ++ drop (length pre) l))
    (λ i m, store 2 m (a + offset_inner i) 0) (seqZ 0 UHYVE_QUEUE_SIZE) m0)
    as (m' & Hm' & Hk & Hq).
  - by split.
  - intros pre i post m1 Hsplit [[Hmap Hrest] Hq].
    assert (i = Z.of_nat (length pre) ∧ (length pre < 8)%nat) as [-> Hlt].
    { pose proof (f_equal (λ l, l !! length pre) Hsplit) as Hi. cbn beta in Hi.
      rewrite list_lookup_middle in Hi by done. apply lookup_seqZ in Hi. offsets. lia. }
    assert (inside m1) as Hin1 by (unfold inside, valid in *; destruct Hmap as [-> ->]; done).
    rewrite store_valid by (apply inside_valid; [done|offsets; lia..]). eexists. split; [done|]. split.
    + split; [etrans; [exact Hmap|split; reflexivity]|]. intros x Hx.
      rewrite peek_write_out by (rewrite length_le_split; offsets; lia). by apply Hrest.
    + rewrite queue_in_len by (offsets; lia). rewrite Hq. cbn [sq_read sq_written sq_inner]. f_equal.
      rewrite Nat2Z.id, length_app. cbn [length].
      assert (length l = 8%nat) as Hl by done.
      destruct (lookup_lt_is_Some_2 l (length pre) ltac:(lia)) as [x Hx].
      rewrite (drop_S l x) by done. rewrite Nat.add_1_r, (take_S_r _ _ x) by done.
      rewrite fmap_app, <- app_assoc. cbn [fmap list_fmap app].
      rewrite alter_app_r_alt by (rewrite length_fmap, length_take; lia).
      rewrite length_fmap, length_take, Nat.min_l, Nat.sub_diag by lia. done.
  - exists m'. split; [exact Hm'|]. split; [|exact Hk]. by rewrite Hq.
Qed.

End Refinement.

(** ** Both threads *)

(** A change elsewhere leaves a queue what it is. *)
Lemma queue_in_rest a b m m' :
  rest_kept a m m' → b + size_of_SharedQueue ≤ a ∨ a + size_of_SharedQueue ≤ b →
  queue_in m' b = queue_in m b.
Proof.
  intros [_ Hrest] Hd.
  assert (∀ o n, 0 ≤ o → o + Z.of_nat n ≤ size_of_SharedQueue → peeks m' (b + o) n = peeks m (b + o) n)
    as Hp by (intros o n Ho Hn; apply peeks_ext; intros x Hx; apply Hrest; lia).
  unfold queue_in. f_equal; [rewrite Hp by (offsets; lia); done..|].
  apply list_fmap_ext. intros j i Hi. apply lookup_seqZ in Hi as [-> Hi]. unfold inner_in.
  rewrite <- Z.add_assoc, !Hp by (offsets; lia). reflexivity.
Qed.

(** The range of both queues; the writer's is the second. *)
Definition queues (start x : Z) : Prop := start ≤ x < start + 2 * size_of_SharedQueue.

Section Network.
Context `{Profile} (start : Z).
Hypothesis Hstart : 0 ≤ start.
Hypothesis Hend : start + 2 * size_of_SharedQueue < 2 ^ 64.

Lemma tx_queue_eq : tx_queue start = Ret (start + size_of_SharedQueue).
Proof.
  unfold tx_queue. change (align_up 64 ?x 64) with (align_up 64 x (2 ^ 6)).
  rewrite align_up_pow2 by (offsets; lia).
  change (- size_of_SharedQueue mod 2 ^ 6) with 0. rewrite Z.add_0_r. cbn [mbind exec_bind].
  rewrite arith_fits; [done|]. unfold fits. offsets. lia.
Qed.

(** One queue is initialised after the other. *)
Lemma init_both a b m :
  valid m a size_of_SharedQueue → valid m b size_of_SharedQueue →
  b + size_of_SharedQueue ≤ a ∨ a + size_of_SharedQueue ≤ b →
  ∃ m1, (m ← init_queue a m; init_queue b m) = Ret m1 ∧
    queue_in m1 a = queue_init (queue_in m a) ∧ queue_in m1 b = queue_init (queue_in m b) ∧
    same_map m m1 ∧
    ∀ x, ¬ (a ≤ x < a + size_of_SharedQueue) → ¬ (b ≤ x < b + size_of_SharedQueue) →
      peek m1 x = peek m x.
Proof.
  intros Ha Hb Hd. destruct (init_queue_spec a m Ha) as (m0 & H0 & Hq0 & Hk0).
  assert (inside b m0) as Hin by (unfold inside, valid in *; destruct Hk0 as [[-> ->] _]; done).
  destruct (init_queue_spec b m0 Hin) as (m1 & H1 & Hq1 & Hk1). exists m1.
  rewrite H0. cbn [mbind exec_bind]. split; [exact H1|]. split_and!.
  - rewrite (queue_in_rest b a m0 m1 Hk1) by lia. exact Hq0.
  - rewrite Hq1, (queue_in_rest a b m m0 Hk0) by lia. reflexivity.
  - etrans; [apply Hk0|apply Hk1].
  - intros x Hx1 Hx2. destruct Hk0 as [_ Hk0], Hk1 as [_ Hk1]. by rewrite Hk1, Hk0.
Qed.

(** C19: The network's queues are guest memory: the writer's queue follows the
    reader's, and whichever thread comes first, both start from empty queues of
    eight buffers, with nothing else of guest memory changed; from then on each
    step of a thread on memory is its step on the queue the memory holds,
    returning, waiting or panicking when that does, without an access outside
    of its queue, so that the other queue and the rest of guest memory stay as
    they are. *)
Theorem network_on_memory m tap_send recv_fails evtfd_write :
  valid m start (2 * size_of_SharedQueue) →
  let tx := start + size_of_SharedQueue in
  tx_queue start = Ret tx ∧
  (∃ m1 m2, (m ← init_queue tx m; init_queue start m) = Ret m1 ∧
     (m ← init_queue start m; init_queue tx m) = Ret m2 ∧
     Forall (λ m', same_map m m' ∧ queue_in m' tx = queue_init (queue_in m tx) ∧
       queue_in m' start = queue_init (queue_in m start) ∧
       ∀ x, ¬ queues start x → peek m' x = peek m x) [m1; m2]) ∧
  length (sq_inner (queue_in m tx)) = 8%nat ∧
  Forall (λ i, length (qi_data i) = buffer_size) (sq_inner (queue_in m tx)) ∧
  (∀ s, same_map m (wm_mem s) →
     match writer_mem_step tap_send tx s with
     | None => writer_step tap_send (writer_of tx s) = None
     | Some (Ret s') => writer_step tap_send (writer_of tx s) = Some (Ret (writer_of tx s')) ∧
         rest_kept tx (wm_mem s) (wm_mem s') ∧
         queue_in (wm_mem s') start = queue_in (wm_mem s) start
     | Some Panic => writer_step tap_send (writer_of tx s) = Some Panic
     | Some Fault => False
     end) ∧
  (∀ s, same_map m (rm_mem s) → (∀ written len, rm_pc s = RLen written len → fits 16 len) →
     match reader_mem_step recv_fails evtfd_write start s with
     | None => reader_step recv_fails evtfd_write (reader_of start s) = None
     | Some (Ret s') => reader_step recv_fails evtfd_write (reader_of start s) = Some (Ret (reader_of start s')) ∧
         rest_kept start (rm_mem s) (rm_mem s') ∧
         queue_in (rm_mem s') tx = queue_in (rm_mem s) tx
     | Some Panic => reader_step recv_fails evtfd_write (reader_of start s) = Some Panic
     | Some Fault => False
     end).
Proof.
  intros Hv tx.
  assert (0 < size_of_SharedQueue) as Hpos by done.
  assert (∀ m', same_map m m' → inside start m' ∧ inside tx m') as Hin.
  { intros m' [Hb Hs]. unfold inside, valid, tx in *. rewrite Hb, Hs. lia. }
  destruct (Hin m ltac:(done)) as [Hin1 Hin2]. split; [apply tx_queue_eq|]. split_and!.
  - destruct (init_both tx start m) as (m1 & H1 & Htx1 & Hrx1 & Hm1 & Hx1); [done..|unfold tx; lia|].
    destruct (init_both start tx m) as (m2 & H2 & Hrx2 & Htx2 & Hm2 & Hx2); [done..|unfold tx; lia|].
    exists m1, m2. split; [done|]. split; [done|].
    apply Forall_cons. split; [|apply Forall_cons; split; [|constructor]].
    + split; [exact Hm1|]. split; [exact Htx1|]. split; [exact Hrx1|].
      intros x Hx. apply Hx1; unfold queues, tx in *; lia.
    + split; [exact Hm2|]. split; [exact Htx2|]. split; [exact Hrx2|].
      intros x Hx. apply Hx2; unfold queues, tx in *; lia.
  - apply length_queue_in.
  - apply queue_in_data.
  - intros s Hs. pose proof (writer_mem_refines tx tap_send s (proj2 (Hin _ Hs))) as Hw.
    destruct (writer_mem_step _ _ _) as [[s'| |]|]; try done. destruct Hw as [Hw Hk].
    split; [exact Hw|]. split; [exact Hk|]. eapply queue_in_rest; [exact Hk|]. unfold tx. lia.
  - intros s Hs Hlen. pose proof (reader_mem_refines start recv_fails evtfd_write s (proj1 (Hin _ Hs)) Hlen) as Hr.
    destruct (reader_mem_step _ _ _ _) as [[s'| |]|]; try done. destruct Hr as [Hr Hk].
    split; [exact Hr|]. split; [exact Hk|]. eapply queue_in_rest; [exact Hk|]. unfold tx. lia.
Qed.

End Network.

(** ** The queues of a machine of 16 MiB *)
Module Example.
#[local] Existing Instance debug_profile.

Definition host : Z := 0x7f0000000000.
Definition memory : mem := Mem host 0x1000000 ∅.

(** They lie between the boot tables and the kernel. *)
Lemma queues_apart x :
  queues SHAREDQUEUE_START x → BOOT_PDE + PAGE_SIZE ≤ x ∧ x < 0x400000 - KERNEL_STACK_SIZE.
Proof.
  unfold queues, SHAREDQUEUE_START, BOOT_PDE, PAGE_SIZE, KERNEL_STACK_SIZE. offsets. lia.
Qed.

Lemma network_on_memory_witness :
  tx_queue (host + SHAREDQUEUE_START) = Ret (host + 0x83080) ∧
  ∃ m1, (m ← init_queue (host + SHAREDQUEUE_START) memory; init_queue (host + 0x83080) m) = Ret m1 ∧
    queue_in m1 (host + 0x83080) = queue_init (queue_in memory (host + 0x83080)).
Proof.
  destruct (network_on_memory (host + SHAREDQUEUE_START) ltac:(done) ltac:(done) memory
    (λ _ _, true) false (λ _, true))
    as (Htx & (m1 & m2 & _ & Hinit & Hall) & _).
  - evaluate.
  - split; [exact Htx|]. exists m2. split; [exact Hinit|].
    apply Forall_cons in Hall as [_ Hall]. apply Forall_cons in Hall as [(_ & Hq & _) _]. exact Hq.
Defined.

End Example.
