(* ===== verification/Threads.v ===== *)
(** * The threads of the hypervisor (src/linux/mod.rs, src/macos/mod.rs)

    [Uhyve::run] starts one thread per vCPU and waits for the guest to end.
    The threads, the main thread and what they share (the barrier or channel,
    the kick signal and the guest's counter of cores that are up) form a
    transition system: [step l s] executes the step [l], or is [None] when it
    cannot be taken.  What a vCPU does in and out of the guest is left open
    here; Smp.v and MacSmp.v have the same systems with the code of the
    vCPUs. *)

From S2P Require Import Prelude.

(** A vCPU's thread: creating and setting up the vCPU; spinning on
    [cpu_online]; in [KVM_RUN]; serving an exit; in [KVM_RUN] with the signal
    delivered; about to report its exit code; waiting at the barrier; done. *)
Inductive thread :=
| Spawned | Failed | Spinning | Running | Serving | Interrupted
| Exiting (code : Z) | Waiting (code : Z) | Finished (code : option Z) | Panicked.
#[export] Instance thread_eq_dec : EqDecision thread.
Proof. solve_decision. Defined.

(** The main thread: before and in [barrier.wait()], signalling the threads one
    by one, joining them with the codes found so far, done. *)
Inductive main_thread :=
| MEnter | MWaiting | MKicking (next : nat) | MJoining (next : nat) (codes : list Z)
| MReturned (code : Z) | MPanicked.
#[export] Instance main_eq_dec : EqDecision main_thread.
Proof. solve_decision. Defined.

Record system := System {
  (** [boot_info.cpu_online], which the guest counts up. *)
  online : nat;
  threads : list thread;
  main : main_thread;
}.

(** What a thread does on its own. *)
Inductive move :=
| Create (ok : bool) | Enter | Trap | Resume | ExitWith (code : Z) | Crash | Panics | Kicked.

(** A move of a thread; a core counts itself; a thread reports its exit code;
    a step of the main thread. *)
Inductive label := LThread (i : nat) (m : move) | LOnline (i : nat) | LReport (i : nat) | LMain.

(** [next]: whether [cpu_id == vm.cpu_online()]. *)
Definition moves (next : bool) (m : move) (t : thread) : option thread :=
  match m, t with
  | Create ok, Spawned => Some (if ok then Spinning else Failed)
  | Enter, Spinning => if next then Some Running else None
  | Trap, Running => Some Serving
  | Resume, Serving => Some Running
  | ExitWith code, Serving => Some (Exiting code)
  | Crash, Serving => Some (Finished None)
  | Panics, Serving => Some Panicked
  | Kicked, Interrupted => Some (Finished None)
  | _, _ => None
  end.

(** The code a thread is to report or has reported. *)
Definition thread_code (t : thread) : option Z :=
  match t with Exiting code | Waiting code => Some code | Finished r => r | _ => None end.

Definition set_thread (i : nat) (t : thread) (s : system) : system :=
  System (online s) (<[i := t]> (threads s)) (main s).
Definition set_main (m : main_thread) (s : system) : system := System (online s) (threads s) m.

Definition is_waiting (t : thread) : bool := match t with Waiting _ => true | _ => false end.
Definition has_ended (t : thread) : bool :=
  match t with Finished _ | Failed | Panicked => true | _ => false end.

(** The thread that waits at the barrier, with its code. *)
Definition waiter (s : system) : option (nat * thread) :=
  list_find (λ t, is_waiting t = true) (threads s).

(** A thread reaches [barrier.wait()] of the barrier for two. *)
Definition thread_barrier (i : nat) (code : Z) (s : system) : system :=
  match waiter s with
  | Some (j, Waiting code') =>
      set_thread i (Finished (Some code)) (set_thread j (Finished (Some code')) s)
  | _ =>
      if decide (main s = MWaiting)
      then set_main (MKicking 0) (set_thread i (Finished (Some code)) s)
      else set_thread i (Waiting code) s
  end.

(** [KickSignal::pthread_kill]: the handler does nothing; it is the return from
    [KVM_RUN] that stops the thread. *)
Definition kick (t : thread) : thread := match t with Running => Interrupted | _ => t end.

Section Linux.
(** Whether signalling a thread that has ended is an error. *)
Context (kill_ended_fails : bool).

Definition main_step (s : system) : option system :=
  match main s with
  | MEnter =>
      match waiter s with
      | Some (j, Waiting code) =>
          Some (set_main (MKicking 0) (set_thread j (Finished (Some code)) s))
      | _ => Some (set_main MWaiting s)
      end
  | MWaiting => None
  | MKicking k =>
      match threads s !! k with
      | Some t =>
          if kill_ended_fails && has_ended t then Some (set_main MPanicked s)
          else Some (set_main (MKicking (S k)) (set_thread k (kick t) s))
      | None => Some (set_main (MJoining 0 []) s)
      end
  | MJoining k codes =>
      match threads s !! k with
      | Some (Finished (Some code)) => Some (set_main (MJoining (S k) (codes ++ [code])) s)
      | Some (Finished None) => Some (set_main (MJoining (S k) codes) s)
      | Some Failed | Some Panicked => Some (set_main MPanicked s)
      | Some _ => None
      | None =>
          match codes with
          | [code] => Some (set_main (MReturned code) s)
          | _ => Some (set_main MPanicked s)
          end
      end
  | MReturned _ | MPanicked => None
  end.

(** A core that is up counts itself once. *)
Definition step (l : label) (s : system) : option system :=
  match l with
  | LThread i m =>
      t ← threads s !! i;
      t' ← moves (bool_decide (i = online s)) m t;
      Some (set_thread i t' s)
  | LOnline i =>
      match threads s !! i with
      | Some Running =>
          if decide (i = online s) then Some (System (S (online s)) (threads s) (main s)) else None
      | _ => None
      end
  | LReport i =>
      match threads s !! i with Some (Exiting code) => Some (thread_barrier i code s) | _ => None end
  | LMain => main_step s
  end.

Definition start (n : nat) : system := System 0 (replicate n Spawned) MEnter.

(** Runs a schedule. *)
Fixpoint run_schedule (ls : list label) (s : system) : option system :=
  match ls with
  | [] => Some s
  | l :: ls' => s' ← step l s; run_schedule ls' s'
  end.

Definition steps (s s' : system) : Prop := ∃ l, step l s = Some s'.

Lemma run_schedule_steps ls s s' : run_schedule ls s = Some s' → rtc steps s s'.
Proof.
  revert s. induction ls as [|l ls IH]; intros s Hs; cbn in Hs.
  { injection Hs as ->. apply rtc_refl. }
  destruct (step l s) as [s1|] eqn:Hl; [|done]. eapply rtc_l; [by exists l|by apply IH].
Qed.

(** The steps change one thread at most, besides the waiting one, the counter
    and the main thread. *)
Lemma waiter_Some s j t :
  waiter s = Some (j, t) → threads s !! j = Some t ∧ ∃ code, t = Waiting code.
Proof.
  intros (Hj & Ht & _)%list_find_Some. split; [done|]. destruct t; try done. by eexists.
Qed.

(** An invariant holds in every reachable state if it survives a move, the
    counting, a change of a thread at the barrier or by a kick, and the steps of
    the main thread that only read the threads. *)
Record stable (Inv : system → Prop) : Prop := {
  st_move s i m t t' : Inv s → threads s !! i = Some t →
    moves (bool_decide (i = online s)) m t = Some t' → Inv (set_thread i t' s);
  st_online s i : Inv s → threads s !! i = Some Running → i = online s →
    Inv (System (S (online s)) (threads s) (main s));
  st_wait s i c : Inv s → threads s !! i = Some (Exiting c) → Inv (set_thread i (Waiting c) s);
  st_finish s i c : Inv s → threads s !! i = Some (Exiting c) ∨ threads s !! i = Some (Waiting c) →
    Inv (set_thread i (Finished (Some c)) s);
  st_kick s k t : Inv s → main s = MKicking k → threads s !! k = Some t →
    Inv (set_main (MKicking (S k)) (set_thread k (kick t) s));
  st_open s : Inv s → main s = MEnter ∨ main s = MWaiting → Inv (set_main (MKicking 0) s);
  st_block s : Inv s → main s = MEnter → Inv (set_main MWaiting s);
  st_join s k : Inv s → main s = MKicking k → threads s !! k = None →
    Inv (set_main (MJoining 0 []) s);
  st_joined s k codes r : Inv s → main s = MJoining k codes → threads s !! k = Some (Finished r) →
    Inv (set_main (MJoining (S k) (codes ++ option_list r)) s);
  st_return s k code : Inv s → main s = MJoining k [code] → threads s !! k = None →
    Inv (set_main (MReturned code) s);
  st_panic s : Inv s → Inv (set_main MPanicked s);
}.

Lemma stable_barrier Inv s i c :
  stable Inv → Inv s → threads s !! i = Some (Exiting c) → Inv (thread_barrier i c s).
Proof.
  intros HI Hs Hi. unfold thread_barrier. destruct (waiter s) as [[j t]|] eqn:Hw.
  - apply waiter_Some in Hw as [Hj [c' ->]].
    assert (i ≠ j) as Hne by (intros ->; congruence).
    apply (st_finish _ HI); [apply (st_finish _ HI); [done|by right]|left].
    cbn. by rewrite list_lookup_insert_ne.
  - destruct (decide (main s = MWaiting)) as [Hm|]; [|by apply (st_wait _ HI)].
    apply (st_open _ HI); [|by right]. apply (st_finish _ HI); [done|by left].
Qed.

Lemma stable_main Inv s s' : stable Inv → Inv s → main_step s = Some s' → Inv s'.
Proof.
  intros HI Hs Hstep. unfold main_step in Hstep.
  destruct (main s) as [| |k|k codes| |] eqn:Hm; try done.
  - destruct (waiter s) as [[j t]|] eqn:Hw; [|injection Hstep as <-; by apply (st_block _ HI)].
    apply waiter_Some in Hw as [Hj [c ->]]. injection Hstep as <-.
    apply (st_open _ HI); [|by left]. apply (st_finish _ HI); [done|by right].
  - destruct (threads s !! k) as [t|] eqn:Hk; [|injection Hstep as <-; by eapply (st_join _ HI)].
    destruct (_ && _); injection Hstep as <-; [by apply (st_panic _ HI)|by apply (st_kick _ HI)].
  - destruct (threads s !! k) as [t|] eqn:Hk.
    + destruct t as [| | | | | | | |[c|]|]; try done; injection Hstep as <-;
        try (by apply (st_panic _ HI)).
      * by eapply (st_joined _ HI s k codes (Some c)).
      * pose proof (st_joined _ HI s k codes None Hs Hm Hk) as H. cbn in H. by rewrite app_nil_r in H.
    + destruct codes as [|c []]; injection Hstep as <-; try (by apply (st_panic _ HI)).
      by eapply (st_return _ HI).
Qed.

Lemma stable_step Inv l s s' : stable Inv → Inv s → step l s = Some s' → Inv s'.
Proof.
  intros HI Hs Hstep. destruct l as [i m|i|i|]; cbn [step] in Hstep.
  - destruct (threads s !! i) as [t|] eqn:Hi; [|done]. cbn in Hstep.
    destruct (moves _ m t) as [t'|] eqn:Hm; [|done]. injection Hstep as <-.
    by eapply (st_move _ HI).
  - destruct (threads s !! i) as [[]|] eqn:Hi; try done. case_decide; [|done].
    injection Hstep as <-. by eapply (st_online _ HI).
  - destruct (threads s !! i) as [[]|] eqn:Hi; try done. injection Hstep as <-.
    by apply stable_barrier.
  - by eapply stable_main.
Qed.

Lemma stable_reachable Inv s s' : stable Inv → Inv s → rtc steps s s' → Inv s'.
Proof.
  intros HI Hs Hr. induction Hr as [|s1 s2 s3 [l Hl] _ IH]; [done|].
  apply IH. by eapply stable_step.
Qed.

(** ** Start-up *)

(** The thread has entered the guest. *)
Definition entered (t : thread) : bool :=
  match t with Spawned | Failed | Spinning => false | _ => true end.

Record startup_inv (n : nat) (s : system) : Prop := {
  su_length : length (threads s) = n;
  su_online : (online s ≤ n)%nat;
  su_entered i t : threads s !! i = Some t → entered t = true → (i ≤ online s)%nat;
  su_up i t : threads s !! i = Some t → (i < online s)%nat → entered t = true;
}.

(** Changing one thread keeps the order when it has entered before, or is next. *)
Lemma startup_set n s i t t' m :
  startup_inv n s → threads s !! i = Some t →
  (entered t' = true → entered t = true ∨ i = online s) →
  (entered t = true → entered t' = true) →
  startup_inv n (System (online s) (<[i := t']> (threads s)) m).
Proof.
  intros [Hl Ho He Hu] Hi Hin Hkeep. apply lookup_lt_Some in Hi as Hlt. split; cbn.
  - by rewrite length_insert.
  - done.
  - intros j u Hj Hent. apply list_lookup_insert_Some in Hj as [(<- & <- & _)|[_ Hj]].
    + destruct (Hin Hent) as [Ht| ->]; [by eapply He|done].
    + by eapply He.
  - intros j u Hj Hlt'. apply list_lookup_insert_Some in Hj as [(<- & <- & _)|[_ Hj]].
    + apply Hkeep. by eapply Hu.
    + by eapply Hu.
Qed.

Lemma moves_entered b m t t' :
  moves b m t = Some t' →
  (entered t' = true → entered t = true ∨ b = true) ∧ (entered t = true → entered t' = true).
Proof.
  destruct m, t; cbn; try done; try (intros [= <-]; by auto).
  - by destruct ok; intros [= <-].
  - destruct b; [|done]. intros [= <-]. by auto.
Qed.

Lemma startup_stable n : stable (startup_inv n).
Proof.
  assert (∀ s m, startup_inv n s → startup_inv n (set_main m s)) as Hmain by (intros s m []; by split).
  split; auto; unfold set_thread.
  - intros s i m t t' Hs Hi Hm. apply moves_entered in Hm as [Hin Hkeep].
    eapply startup_set; [done..| |done].
    intros Ht. destruct (Hin Ht) as [|Hb]; [by left|right]. by apply bool_decide_eq_true in Hb.
  - intros s i [Hl Ho He Hu] Hi ->. split; cbn; [done| | |].
    + apply lookup_lt_Some in Hi. lia.
    + intros j t Hj Ht. pose proof (He j t Hj Ht). lia.
    + intros j t Hj Hlt. destruct (decide (j = online s)) as [->|]; [by simplify_eq|].
      eapply Hu; [done|lia].
  - intros s i c Hs Hi. eapply startup_set; [done..|by left|done].
  - intros s i c Hs [Hi|Hi]; (eapply startup_set; [done..|by left|done]).
  - intros s k t Hs _ Hk. apply Hmain. eapply startup_set; [done..| |]; by destruct t; auto.
Qed.

Lemma startup_reachable n s : rtc steps (start n) s → startup_inv n s.
Proof.
  intros Hr. eapply stable_reachable; [apply startup_stable| |exact Hr].
  split; cbn; [apply length_replicate|lia| |lia]. by intros i t [-> _]%lookup_replicate.
Qed.

(** C20: Cores come up one after the other: in every reachable state the cores
    that have entered the guest are those that have counted themselves and at
    most the next one, so no two cores execute start-up code at the same
    time. *)
Theorem startup_in_order n s :
  rtc steps (start n) s →
  (online s ≤ n)%nat ∧
  (∀ i t, threads s !! i = Some t → (i < online s)%nat → entered t = true) ∧
  (∀ i t, threads s !! i = Some t → entered t = true → (i ≤ online s)%nat) ∧
  (∀ i j, threads s !! i = Some Running → threads s !! j = Some Running →
     (online s ≤ i)%nat → (online s ≤ j)%nat → i = j).
Proof.
  intros Hrun. destruct (startup_reachable _ _ Hrun) as [Hl Ho He Hu].
  split_and!; [done..|]. intros i j Hi Hj Hio Hjo.
  pose proof (He i _ Hi eq_refl). pose proof (He j _ Hj eq_refl). lia.
Qed.

(** ** What [run] returns *)

Definition exit_code (t : thread) : option Z := match t with Finished r => r | _ => None end.
Definition finished (t : thread) : bool := match t with Finished _ => true | _ => false end.

(** The main thread knows the codes of the threads it joined. *)
Definition returns_inv (s : system) : Prop :=
  match main s with
  | MJoining k codes =>
      (k ≤ length (threads s))%nat ∧
      Forall (λ t, finished t = true) (take k (threads s)) ∧
      codes = omap exit_code (take k (threads s))
  | MReturned code =>
      Forall (λ t, finished t = true) (threads s) ∧ omap exit_code (threads s) = [code]
  | _ => True
  end.

(** Threads that have finished are not changed any more. *)
Lemma returns_set s i t t' :
  returns_inv s → threads s !! i = Some t → finished t = false → returns_inv (set_thread i t' s).
Proof.
  intros Hs Hi Ht. unfold returns_inv in *. cbn.
  destruct (main s) as [| | |k codes|code|]; try done.
  - destruct Hs as (Hk & Hf & ->). rewrite length_insert.
    assert (k ≤ i)%nat as Hle.
    { destruct (decide (k ≤ i)%nat); [done|]. rewrite Forall_lookup in Hf.
      specialize (Hf i t). rewrite lookup_take_lt in Hf by lia. by rewrite (Hf Hi) in Ht. }
    by rewrite take_insert_ge.
  - destruct Hs as [Hf _]. rewrite Forall_lookup in Hf. by rewrite (Hf i t Hi) in Ht.
Qed.

Lemma returns_stable : stable returns_inv.
Proof.
  split; try (intros; done); try (intros; by eapply returns_set).
  - intros s i m t t' Hs Hi Hm. eapply returns_set; [done..|]. by destruct m, t.
  - intros s i c Hs [Hi|Hi]; by eapply returns_set.
  - intros s k _ _ _. cbn. split_and!; [lia|constructor|done].
  - intros s k codes r Hs Hm Hk. unfold returns_inv in *. rewrite Hm in Hs. cbn.
    destruct Hs as (Hle & Hf & ->). rewrite (take_S_r _ _ _ Hk), omap_app.
    split; [by apply lookup_lt_Some in Hk|]. split; [by apply Forall_app; auto|].
    by destruct r.
  - intros s k code Hs Hm Hk. unfold returns_inv in *. rewrite Hm in Hs. cbn.
    destruct Hs as (_ & Hf & Hc). apply lookup_ge_None in Hk. by rewrite take_ge in Hf, Hc.
Qed.

(** When [run] returns a code, every thread has ended, and the code is that of
    the one core that exited. *)
Lemma returns_exit_code n s code :
  rtc steps (start n) s → main s = MReturned code →
  Forall (λ t, finished t = true) (threads s) ∧ omap exit_code (threads s) = [code].
Proof.
  intros Hr Hm. pose proof (stable_reachable _ (start n) _ returns_stable I Hr) as Hs.
  unfold returns_inv in Hs. by rewrite Hm in Hs.
Qed.

(** ** The end of the guest *)

(** A step in which no further core exits or panics and the signal finds its
    thread in [KVM_RUN], or ended. *)
Definition calm (l : label) (s : system) : Prop :=
  match l with
  | LThread _ (ExitWith _) | LThread _ Panics => False
  | LMain => ∀ k, main s = MKicking k → threads s !! k ≠ Some Serving
  | _ => True
  end.

(** The steps that need no core in the guest: the main thread goes on, a core
    reports its code, a signalled core ends. *)
Definition is_control (l : label) : bool :=
  match l with LThread _ Kicked | LReport _ | LMain => true | _ => false end.

Section Exit.
Context (n i : nat) (c : Z).

(** The other cores: in the guest, serving an exit, kicked, ended. *)
Definition other (t : thread) : Prop :=
  t = Running ∨ t = Serving ∨ t = Interrupted ∨ t = Finished None.
Definition stopping (t : thread) : Prop := t = Interrupted ∨ t = Finished None.

(** Core [i] exits with code [c]. *)
Definition main_at (s : system) : Prop :=
  match main s with
  | MEnter => threads s !! i = Some (Exiting c) ∨ threads s !! i = Some (Waiting c)
  | MWaiting => threads s !! i = Some (Exiting c)
  | MKicking k =>
      threads s !! i = Some (Finished (Some c)) ∧ (k ≤ n)%nat ∧
      ∀ j t, j ≠ i → threads s !! j = Some t → (j < k)%nat → stopping t
  | MJoining k codes =>
      threads s !! i = Some (Finished (Some c)) ∧ (k ≤ n)%nat ∧
      (∀ j t, j ≠ i → threads s !! j = Some t → stopping t) ∧
      codes = if decide (i < k)%nat then [c] else []
  | MReturned code => threads s !! i = Some (Finished (Some c)) ∧ code = c
  | MPanicked => False
  end.

Record exit_inv (s : system) : Prop := {
  ex_length : length (threads s) = n;
  ex_others j t : j ≠ i → threads s !! j = Some t → other t;
  ex_main : main_at s;
}.

(** A bound on the control steps that are left. *)
Definition thread_left (t : thread) : nat :=
  match t with Running | Serving | Interrupted | Waiting _ => 1 | Exiting _ => 2 | _ => 0 end.
Definition main_left (m : main_thread) : nat :=
  match m with
  | MEnter => 2 * n + 4 | MWaiting => 2 * n + 3 | MKicking k => 2 * n + 2 - k
  | MJoining k _ => n + 1 - k | MReturned _ | MPanicked => 0
  end.
Definition left (s : system) : nat :=
  sum_list_with thread_left (threads s) + main_left (main s).

Lemma left_insert (l : list thread) j t t' :
  l !! j = Some t →
  (sum_list_with thread_left (<[j := t']> l) + thread_left t =
   sum_list_with thread_left l + thread_left t')%nat.
Proof.
  intros Hj. rewrite insert_take_drop by (by eapply lookup_lt_Some).
  rewrite <- (take_drop_middle l j t Hj) at 3. rewrite !sum_list_with_app.
  cbn [sum_list_with]. lia.
Qed.

Lemma exit_self s : main_at s → ∃ t, threads s !! i = Some t ∧
  (t = Exiting c ∨ t = Waiting c ∨ t = Finished (Some c)).
Proof. unfold main_at. destruct (main s); try done; intros; destruct_or?; destruct_and?; eauto. Qed.

Lemma exit_waiter s :
  exit_inv s →
  waiter s = if decide (threads s !! i = Some (Waiting c)) then Some (i, Waiting c) else None.
Proof.
  intros [Hl Ho Hm]. destruct (exit_self s Hm) as (t0 & Hi & Ht0).
  destruct (waiter s) as [[j t]|] eqn:Hw.
  - apply waiter_Some in Hw as [Hj [code ->]]. destruct (decide (j = i)) as [->|Hne].
    + rewrite Hi in Hj. injection Hj as ->. destruct Ht0 as [|[[= ->]|]]; try done.
      by rewrite decide_True.
    + by destruct (Ho j _ Hne Hj) as [|[|[]]].
  - rewrite decide_False; [done|]. intros Hwait. apply list_find_None in Hw.
    rewrite Forall_lookup in Hw. by destruct (Hw i _ Hwait).
Qed.

(** A step of another core. *)
Lemma exit_other s j t t' m :
  exit_inv s → threads s !! j = Some t → j ≠ i → other t' → (stopping t → stopping t') →
  moves (bool_decide (j = online s)) m t = Some t' →
  exit_inv (set_thread j t' s).
Proof.
  intros [Hl Ho Hm] Hj Hne Ht' Hstop _.
  assert (∀ k u, k ≠ i → <[j := t']> (threads s) !! k = Some u →
    (k = j ∧ u = t') ∨ threads s !! k = Some u) as Hins.
  { intros k u _ Hk. apply list_lookup_insert_Some in Hk as [(-> & <- & _)|[_ Hk]]; auto. }
  split; cbn; [by rewrite length_insert| |].
  - intros k u Hk Hu. destruct (Hins k u Hk Hu) as [[_ ->]|Hu']; [done|by eapply Ho].
  - unfold main_at in *. cbn. destruct (main s); try rewrite list_lookup_insert_ne by done; try done.
    + destruct Hm as (Hi & Hk & Hall). split_and!; [done..|].
      intros k u Hki Hu Hlt. destruct (Hins k u Hki Hu) as [[-> ->]|Hu']; [|by eapply Hall].
      apply Hstop. by eapply Hall.
    + destruct Hm as (Hi & Hk & Hall & Hc). split_and!; [done| done| |done].
      intros k u Hki Hu. destruct (Hins k u Hki Hu) as [[-> ->]|Hu']; [|by eapply Hall].
      apply Hstop. by eapply Hall.
Qed.

(** A step of thread [i]. *)
Lemma exit_set s t t' m :
  exit_inv s → threads s !! i = Some t →
  main_at (System (online s) (<[i := t']> (threads s)) m) →
  exit_inv (System (online s) (<[i := t']> (threads s)) m).
Proof.
  intros [Hl Ho Hm] Hi Hm'. split; cbn; [by rewrite length_insert| |done]. intros j u Hne Hj.
  rewrite list_lookup_insert_ne in Hj by done. by eapply Ho.
Qed.

Lemma exit_main s m :
  exit_inv s → main_at (set_main m s) → exit_inv (set_main m s).
Proof. intros [Hl Ho Hm] Hm'. by split. Qed.

Hypothesis Hkill : kill_ended_fails = false.

Lemma exit_kick s k :
  exit_inv s → main s = MKicking k → calm LMain s → ∃ s', main_step s = Some s' ∧ exit_inv s' ∧
  (left s' < left s)%nat.
Proof.
  intros Hs Hmain Hcalm. pose proof Hs as [Hl Ho Hm]. unfold main_at in Hm. rewrite Hmain in Hm.
  destruct Hm as (Hi & Hk & Hall). unfold main_step. rewrite Hmain, Hkill. cbn [andb].
  destruct (threads s !! k) as [t|] eqn:Ht.
  - apply lookup_lt_Some in Ht as Hlt. eexists. split; [done|].
    assert (k ≠ i → stopping (kick t)) as Hkick.
    { intros Hne. pose proof (Hcalm k Hmain) as Hser.
      destruct (Ho k t Hne Ht) as [-> |[-> |[-> | ->]]]; [by left|congruence|by left|by right]. }
    assert (k = i → kick t = t) as Hself by (intros ->; rewrite Hi in Ht; by injection Ht as <-).
    split.
    + apply exit_main; [|].
      * destruct (decide (k = i)) as [->|Hne].
        { rewrite Hself by done. unfold set_thread. rewrite list_insert_id by done.
          by destruct s. }
        split; cbn; [by rewrite length_insert| |].
        -- intros j u Hj Hu. apply list_lookup_insert_Some in Hu as [(<- & <- & _)|[_ Hu]].
           ++ destruct (Hkick Hne) as [-> | ->]; unfold other; auto.
           ++ by eapply Ho.
        -- unfold main_at. cbn. rewrite Hmain, list_lookup_insert_ne by done. split_and!; [done..|].
           intros j u Hj Hu Hjk. rewrite list_lookup_insert_ne in Hu by lia. by eapply Hall.
      * unfold main_at. cbn. split_and!; [|lia|].
        -- destruct (decide (k = i)) as [->|Hne]; [|by rewrite list_lookup_insert_ne].
           rewrite Hself by done. by rewrite list_lookup_insert_eq, <- Ht.
        -- intros j u Hj Hu Hjk. apply list_lookup_insert_Some in Hu as [(<- & <- & _)|[Hne Hu]];
             [by apply Hkick|]. eapply Hall; [done..|lia].
    + unfold left. cbn. rewrite Hmain. pose proof (left_insert _ k _ (kick t) Ht).
      assert (thread_left (kick t) = thread_left t) by by destruct t. cbn. lia.
  - apply lookup_ge_None in Ht. eexists. split; [done|]. split.
    + apply exit_main; [done|]. unfold main_at. cbn. split_and!; [done|lia| |].
      * intros j u Hj Hu. apply lookup_lt_Some in Hu as Hlt. eapply Hall; [done..|lia].
      * by rewrite decide_False by lia.
    + unfold left. cbn. rewrite Hmain. cbn. lia.
Qed.

Lemma exit_join s k codes :
  exit_inv s → main s = MJoining k codes →
  (∃ s', main_step s = Some s' ∧ exit_inv s' ∧ (left s' < left s)%nat) ∨
  main_step s = None ∧ k ≠ i ∧ threads s !! k = Some Interrupted.
Proof.
  intros Hs Hmain. pose proof Hs as [Hl Ho Hm]. unfold main_at in Hm. rewrite Hmain in Hm.
  destruct Hm as (Hi & Hk & Hall & Hc). unfold main_step. rewrite Hmain.
  assert (∀ codes', (k < n)%nat → codes' = (if decide (i < S k)%nat then [c] else []) →
    exit_inv (set_main (MJoining (S k) codes') s) ∧
    (left (set_main (MJoining (S k) codes') s) < left s)%nat) as Hnext.
  { intros codes' Hlt ->. split; [|unfold left; cbn; rewrite Hmain; cbn; lia].
    apply exit_main; [done|]. unfold main_at. cbn. by split_and!. }
  destruct (threads s !! k) as [t|] eqn:Ht.
  - apply lookup_lt_Some in Ht as Hlt. destruct (decide (k = i)) as [->|Hne].
    + left. rewrite Hi in Ht. injection Ht as <-. eexists. split; [done|]. apply Hnext; [lia|].
      rewrite Hc, decide_False, decide_True by lia. done.
    + destruct (Hall k t Hne Ht) as [-> | ->]; [by right|]. left. eexists. split; [done|].
      apply Hnext; [lia|]. rewrite Hc.
      destruct (decide (i < k)%nat), (decide (i < S k)%nat); lia || done.
  - left. apply lookup_ge_None in Ht. apply lookup_lt_Some in Hi as Hlt.
    rewrite decide_True in Hc by lia. subst codes. eexists. split; [done|]. split.
    + by apply exit_main.
    + unfold left. cbn. rewrite Hmain. cbn. lia.
Qed.

Lemma exit_main_step s s' :
  exit_inv s → calm LMain s → main_step s = Some s' → exit_inv s' ∧ (left s' < left s)%nat.
Proof.
  intros Hs Hcalm Hstep. pose proof Hs as [Hl Ho Hm].
  destruct (main s) as [| |k|k codes|code|] eqn:Hmain; try (unfold main_step in Hstep; by rewrite Hmain in Hstep).
  - unfold main_step in Hstep. rewrite Hmain, exit_waiter in Hstep by done.
    unfold main_at in Hm. rewrite Hmain in Hm.
    destruct (decide (threads s !! i = Some (Waiting c))) as [Hi|Hi]; injection Hstep as <-.
    + apply lookup_lt_Some in Hi as Hlt. split.
      * eapply (exit_set s _ (Finished (Some c)) (MKicking 0)); [done..|]. unfold main_at. cbn. split_and!; [|lia|lia].
        by apply list_lookup_insert_eq.
      * unfold left. cbn. rewrite Hmain. pose proof (left_insert _ i _ (Finished (Some c)) Hi). cbn in *. lia.
    + split; [|unfold left; cbn; rewrite Hmain; cbn; lia]. apply exit_main; [done|].
      by destruct Hm.
  - destruct (exit_kick s k Hs Hmain Hcalm) as (s1 & Hs1 & Hrest). by simplify_eq.
  - destruct (exit_join s k codes Hs Hmain) as [(s1 & Hs1 & Hrest)|[Hnone _]]; by simplify_eq.
Qed.

(** Every calm step keeps the invariant; no step moves the end away, and a
    control step brings it closer. *)
Lemma exit_step l s s' :
  exit_inv s → calm l s → step l s = Some s' →
  exit_inv s' ∧ (left s' + (if is_control l then 1 else 0) ≤ left s)%nat.
Proof.
  intros Hs Hcalm Hstep. pose proof Hs as [Hl Ho Hm].
  destruct (exit_self s Hm) as (t0 & Hi & Ht0).
  destruct l as [j m|j|j|]; cbn [step] in Hstep.
  - destruct (threads s !! j) as [t|] eqn:Hj; [|done]. cbn in Hstep.
    destruct (moves _ m t) as [t'|] eqn:Hmv; [|done]. injection Hstep as <-.
    assert (j ≠ i) as Hne.
    { intros ->. rewrite Hi in Hj. injection Hj as <-. by destruct Ht0 as [-> |[-> | ->]], m. }
    assert (other t' ∧ (stopping t → stopping t') ∧
      (thread_left t' + (if is_control (LThread j m) then 1 else 0) ≤ thread_left t)%nat)
      as (Hot & Hst & Hleft).
    { destruct (Ho j t Hne Hj) as [-> |[-> |[-> | ->]]], m; try done; injection Hmv as <-;
        unfold other, stopping; cbn; (split_and!; [auto|intros [|]; auto; done|lia]). }
    split; [by eapply exit_other|]. unfold left, set_thread. cbn [threads main online].
    pose proof (left_insert _ j _ t' Hj). lia.
  - destruct (threads s !! j) as [[]|] eqn:Hj; try done. case_decide as Heq; [|done].
    injection Hstep as <-. apply lookup_lt_Some in Hj as Hlt. split; [by split|].
    unfold left. cbn. lia.
  - destruct (threads s !! j) as [[]|] eqn:Hj; try done. injection Hstep as <-.
    assert (j = i) as ->.
    { destruct (decide (j = i)); [done|]. by destruct (Ho j _ ltac:(done) Hj) as [|[|[]]]. }
    rewrite Hi in Hj. destruct Ht0 as [-> |[-> | ->]]; simplify_eq.
    unfold thread_barrier. rewrite exit_waiter, decide_False by (done || congruence).
    apply lookup_lt_Some in Hi as Hlt. unfold main_at in Hm.
    pose proof (left_insert _ i _ (Finished (Some c)) Hi) as HlF.
    pose proof (left_insert _ i _ (Waiting c) Hi) as HlW. cbn in HlF, HlW.
    destruct (decide (main s = MWaiting)) as [Hw|Hw].
    + split; [|unfold left; cbn; rewrite Hw; cbn; lia].
      eapply (exit_set s _ (Finished (Some c)) (MKicking 0)); [done..|].
      unfold main_at. cbn. split_and!; [|lia|lia]. by apply list_lookup_insert_eq.
    + destruct (main s) eqn:Hmain; try done; destruct_and?; try congruence.
      split; [|unfold left; cbn; rewrite Hmain; cbn; lia].
      eapply (exit_set s _ (Waiting c) (main s)); [done..|]. unfold main_at. cbn. rewrite Hmain. right.
      by apply list_lookup_insert_eq.
  - destruct (exit_main_step s s' Hs Hcalm Hstep). split; [done|]. cbn. lia.
Qed.

(** The control step that is due. *)
Definition due (s : system) : label :=
  match main s with
  | MWaiting => LReport i
  | MJoining k _ => if decide (threads s !! k = Some Interrupted) then LThread k Kicked else LMain
  | _ => LMain
  end.

Lemma due_control s : is_control (due s) = true.
Proof. unfold due. destruct (main s); try done. by destruct (decide _). Qed.

(** It can be taken, although it need not be calm. *)
Lemma due_enabled s :
  exit_inv s → main s = MReturned c ∨ ∃ s', step (due s) s = Some s'.
Proof.
  intros Hs. pose proof Hs as [Hl Ho Hm]. unfold due.
  destruct (main s) as [| |k|k codes|code|] eqn:Hmain; unfold main_at in Hm; rewrite Hmain in Hm.
  - right. cbn. unfold main_step. rewrite Hmain, exit_waiter by done. destruct (decide _); by eexists.
  - right. cbn. rewrite Hm. by eexists.
  - right. cbn. unfold main_step. rewrite Hmain, Hkill. cbn. destruct (threads s !! k); by eexists.
  - right. destruct (decide (threads s !! k = Some Interrupted)) as [Hk|Hk]; [cbn; rewrite Hk; by eexists|].
    destruct (exit_join s k codes Hs Hmain) as [(s' & Hs' & _)|(_ & _ & Hint)]; [by exists s'|done].
  - left. by destruct Hm as [_ ->].
  - done.
Qed.

End Exit.

(** All cores are up, the main thread is at the barrier. *)
Record all_up (n : nat) (s : system) : Prop := {
  au_length : length (threads s) = n;
  au_other j t : threads s !! j = Some t → t = Running ∨ t = Serving ∨ t = Finished None;
  au_main : main s = MEnter ∨ main s = MWaiting;
}.

(** A core exits: where that leaves the threads, and how far they are from the
    end. *)
Lemma exit_begins n i c s s1 :
  all_up n s → step (LThread i (ExitWith c)) s = Some s1 →
  exit_inv n i c s1 ∧ (left n s1 ≤ 3 * n + 5)%nat.
Proof.
  intros [Hl Hr Hm] Hstep. cbn in Hstep.
  destruct (threads s !! i) as [t|] eqn:Hi; [|done]. apply lookup_lt_Some in Hi as Hlt.
  destruct t; try done. injection Hstep as <-. split.
  - split; cbn; [by rewrite length_insert| |].
    + intros j t Hne Hj. rewrite list_lookup_insert_ne in Hj by done.
      destruct (Hr j t Hj) as [-> |[-> | ->]]; unfold other; auto.
    + unfold main_at. cbn. destruct Hm as [-> | ->];
        [left; by apply list_lookup_insert_eq|by apply list_lookup_insert_eq].
  - assert (sum_list_with thread_left (threads s) ≤ n)%nat as Hsum.
    { assert (Forall (λ t, thread_left t ≤ 1)%nat (threads s)) as Hall.
      { apply Forall_lookup. intros j t Hj. destruct (Hr j t Hj) as [-> |[-> | ->]]; cbn; lia. }
      rewrite <- Hl. clear -Hall. induction Hall; cbn; lia. }
    unfold left. cbn. pose proof (left_insert (threads s) i Serving (Exiting c) Hi).
    cbn in *. destruct Hm as [-> | ->]; cbn; lia.
Qed.

End Linux.

(** ** macOS

    There the threads send their exit code over a channel, and the main thread
    returns the first one; it keeps a sender of its own, and nothing stops the
    other threads. *)

Record mac_system := MacSystem {
  mac_online : nat;
  mac_threads : list thread;
  mac_channel : list Z;
  mac_main : option Z;
}.

Definition set_mac_thread (i : nat) (t : thread) (s : mac_system) : mac_system :=
  MacSystem (mac_online s) (<[i := t]> (mac_threads s)) (mac_channel s) (mac_main s).

(** [exit_tx.send(exit_code).unwrap()]: the receiver is gone once [run]
    returned. *)
Definition mac_send (i : nat) (code : Z) (s : mac_system) : mac_system :=
  match mac_main s with
  | None => MacSystem (mac_online s) (<[i := Finished (Some code)]> (mac_threads s))
              (mac_channel s ++ [code]) None
  | Some _ => set_mac_thread i Panicked s
  end.

Definition mac_step (l : label) (s : mac_system) : option mac_system :=
  match l with
  | LThread i m =>
      t ← mac_threads s !! i;
      t' ← moves (bool_decide (i = mac_online s)) m t;
      Some (set_mac_thread i t' s)
  | LOnline i =>
      match mac_threads s !! i with
      | Some Running =>
          if decide (i = mac_online s)
          then Some (MacSystem (S (mac_online s)) (mac_threads s) (mac_channel s) (mac_main s))
          else None
      | _ => None
      end
  | LReport i =>
      match mac_threads s !! i with Some (Exiting code) => Some (mac_send i code s) | _ => None end
  | LMain =>
      match mac_main s, mac_channel s with
      | None, code :: rest => Some (MacSystem (mac_online s) (mac_threads s) rest (Some code))
      | _, _ => None
      end
  end.

Definition mac_start (n : nat) : mac_system := MacSystem 0 (replicate n Spawned) [] None.
Definition mac_steps (s s' : mac_system) : Prop := ∃ l, mac_step l s = Some s'.

(** On macOS [run] returns the code that was sent first, whatever else the
    threads do, and can return as soon as a code was sent. *)
Lemma mac_returns_first code s s' :
  mac_main s = None → head (mac_channel s) = Some code → rtc mac_steps s s' →
  mac_main s' = Some code ∨
  mac_main s' = None ∧ ∃ s'', mac_step LMain s' = Some s'' ∧ mac_main s'' = Some code.
Proof.
  intros Hm Hh Hr. assert (mac_main s' = Some code ∨
    mac_main s' = None ∧ head (mac_channel s') = Some code) as [|[Hm' Hh']]; [|by left|].
  - assert (mac_main s = Some code ∨ mac_main s = None ∧ head (mac_channel s) = Some code)
      as Hs by auto. clear Hm Hh. induction Hr as [|s1 s2 s3 [l Hl] _ IH]; [done|]. apply IH.
    destruct l as [i m|i|i|]; cbn in Hl.
    + destruct (mac_threads s1 !! i); [|done]. cbn in Hl. destruct (moves _ _ _); [|done].
      by injection Hl as <-.
    + destruct (mac_threads s1 !! i) as [[]|]; try done. destruct (decide _); [|done].
      by injection Hl as <-.
    + destruct (mac_threads s1 !! i) as [[]|]; try done. injection Hl as <-. unfold mac_send.
      destruct (mac_main s1) eqn:Hm1; [cbn; by rewrite Hm1|]. cbn. right.
      destruct Hs as [|[_ Hs]]; [done|]. split; [done|]. by destruct (mac_channel s1).
    + destruct Hs as [Hs|[Hs Hh]]; rewrite Hs in Hl; [done|].
      destruct (mac_channel s1); [done|]. injection Hl as <-. injection Hh as ->. by left.
  - right. split; [done|]. destruct (mac_channel s') as [|c rest] eqn:Hc; [done|].
    injection Hh' as ->. eexists. cbn. by rewrite Hm', Hc.
Qed.

(** The codes on their way, and the one [run] returned, are codes threads ended
    with. *)
Definition mac_sent_inv (s : mac_system) : Prop :=
  ∀ code, code ∈ mac_channel s ∨ mac_main s = Some code →
    ∃ i, mac_threads s !! i = Some (Finished (Some code)).

Lemma mac_sent_set s i t t' :
  mac_sent_inv s → mac_threads s !! i = Some t → finished t = false →
  mac_sent_inv (set_mac_thread i t' s).
Proof.
  intros Hs Hi Ht code Hc. destruct (Hs code Hc) as [j Hj]. exists j. cbn.
  rewrite list_lookup_insert_ne; [done|]. intros ->. rewrite Hi in Hj. by injection Hj as ->.
Qed.

Lemma mac_sent_step l s s' : mac_sent_inv s → mac_step l s = Some s' → mac_sent_inv s'.
Proof.
  intros Hs Hl. destruct l as [i m|i|i|]; cbn in Hl.
  - destruct (mac_threads s !! i) as [t|] eqn:Hi; [|done]. cbn in Hl.
    destruct (moves _ m t) as [t'|] eqn:Hm; [|done]. injection Hl as <-.
    eapply mac_sent_set; [done..|]. by destruct m, t.
  - destruct (mac_threads s !! i) as [[]|]; try done. destruct (decide _); [|done].
    by injection Hl as <-.
  - destruct (mac_threads s !! i) as [[]|] eqn:Hi; try done. injection Hl as <-. unfold mac_send.
    pose proof (mac_sent_set s i _ (Finished (Some code)) Hs Hi eq_refl) as Hfin.
    destruct (mac_main s) as [c0|] eqn:Hm; [by eapply mac_sent_set|].
    intros c [Hc|Hc]; [|done]. cbn in Hc. apply elem_of_app in Hc as [Hc|Hc].
    + destruct (Hfin c (or_introl Hc)) as [j Hj]. by exists j.
    + apply list_elem_of_singleton in Hc as ->. exists i. cbn.
      apply list_lookup_insert_eq. by eapply lookup_lt_Some.
  - destruct (mac_main s) eqn:Hm; [done|]. destruct (mac_channel s) as [|c rest] eqn:Hc; [done|].
    injection Hl as <-. intros c' [Hc'|Hc']; cbn in *.
    + apply Hs. left. rewrite Hc. by right.
    + injection Hc' as ->. apply Hs. left. rewrite Hc. by left.
Qed.

Lemma mac_sent_reachable n s : rtc mac_steps (mac_start n) s → mac_sent_inv s.
Proof.
  assert (mac_sent_inv (mac_start n)) as Hstart by (intros c [Hc|Hc]; [by apply elem_of_nil in Hc|done]).
  intros Hr. revert Hstart. induction Hr as [|s1 s2 s3 [l Hl] _ IH]; [done|].
  intros Hs. apply IH. by eapply mac_sent_step.
Qed.

(** Cores come up one after the other there too. *)
Definition mac_startup_inv (n : nat) (s : mac_system) : Prop :=
  startup_inv n (System (mac_online s) (mac_threads s) MEnter).

Lemma mac_startup_reachable n s : rtc mac_steps (mac_start n) s → mac_startup_inv n s.
Proof.
  assert (mac_startup_inv n (mac_start n)) as Hstart by (apply (startup_reachable false), rtc_refl).
  intros Hr. revert Hstart. induction Hr as [|s1 s2 s3 [l Hl] _ IH]; [done|].
  intros Hs. apply IH. clear IH. destruct l as [i m|i|i|]; cbn in Hl.
  - destruct (mac_threads s1 !! i) as [t|] eqn:Hi; [|done]. cbn in Hl.
    destruct (moves _ m t) as [t'|] eqn:Hm; [|done]. injection Hl as <-.
    apply (st_move _ (startup_stable n) _ i m t t' Hs Hi Hm).
  - destruct (mac_threads s1 !! i) as [[]|] eqn:Hi; try done. case_decide; [|done].
    injection Hl as <-. by apply (st_online _ (startup_stable n) _ i Hs Hi).
  - destruct (mac_threads s1 !! i) as [[]|] eqn:Hi; try done. injection Hl as <-.
    unfold mac_send. destruct (mac_main s1); (eapply (startup_set n _ i _ _ MEnter Hs Hi); [by left|done]).
  - destruct (mac_main s1); [done|]. destruct (mac_channel s1); [done|]. by injection Hl as <-.
Qed.

(** ** Schedules *)
Module Example.

(** Two cores come up. *)
Definition boot_two : list label :=
  [LThread 0 (Create true); LThread 1 (Create true); LThread 0 Enter; LOnline 0; LThread 1 Enter;
   LOnline 1; LMain].
Definition both_running : system := System 2 [Running; Running] MWaiting.

Lemma startup_in_order_witness :
  online both_running = 2%nat ∧
  ∀ i j, threads both_running !! i = Some Running → threads both_running !! j = Some Running →
    (online both_running ≤ i)%nat → (online both_running ≤ j)%nat → i = j.
Proof.
  split; [reflexivity|].
  destruct (startup_in_order false 2 both_running) as (_ & _ & _ & H).
  - apply (run_schedule_steps false boot_two). reflexivity.
  - exact H.
Defined.

Lemma returns_exit_code_example :
  ∃ s, run_schedule false (boot_two ++ [LThread 0 Trap; LThread 0 (ExitWith 7); LReport 0; LMain; LMain;
      LMain; LThread 1 Kicked; LMain; LMain; LMain]) (start 2) = Some s ∧
    main s = MReturned 7 ∧ omap exit_code (threads s) = [7].
Proof.
  eexists. split; [reflexivity|]. split; [reflexivity|].
  eapply (returns_exit_code false 2); [|reflexivity].
  eapply run_schedule_steps with (ls := boot_two ++ [LThread 0 Trap; LThread 0 (ExitWith 7); LReport 0;
    LMain; LMain; LMain; LThread 1 Kicked; LMain; LMain; LMain]). reflexivity.
Qed.

Lemma mac_returns_first_example :
  mac_step LMain (MacSystem 1 [Finished (Some 7); Running] [7] None) =
    Some (MacSystem 1 [Finished (Some 7); Running] [] (Some 7)).
Proof.
  destruct (mac_returns_first 7 (MacSystem 1 [Finished (Some 7); Running] [7] None)
    (MacSystem 1 [Finished (Some 7); Running] [7] None)) as [|[_ (s & Hs & _)]]; try done.
Qed.

(** On macOS the only core crashes: the main thread, which keeps a sender of its
    own, waits at the channel for ever. *)
Lemma mac_crash_hangs :
  ∃ s, foldl (λ o l, s ← o; mac_step l s) (Some (mac_start 1))
      [LThread 0 (Create true); LThread 0 Enter; LThread 0 Trap; LThread 0 Crash] = Some s ∧
    mac_main s = None ∧ ∀ l, mac_step l s = None.
Proof.
  eexists. split; [reflexivity|]. split; [reflexivity|]. intros [[|i] []|[|i]|[|i]|]; done.
Qed.

(** A state in which nothing can happen any more. *)
Definition stuck (s : system) : Prop := ∀ l, step false l s = None.

Ltac is_stuck := intros [[|[|i]] []|[|[|i]]|[|[|i]]|]; done.

(** Both cores exit: the second one waits at the barrier for ever, and the main
    thread for it. *)
Lemma second_exit_deadlocks :
  ∃ s, run_schedule false
    (boot_two ++ [LThread 0 Trap; LThread 1 Trap; LThread 0 (ExitWith 7); LThread 1 (ExitWith 7);
       LReport 0; LMain; LMain; LMain; LMain; LReport 1]) (start 2) = Some s ∧
    stuck s ∧ main s = MJoining 1 [7].
Proof. eexists. split; [reflexivity|]. split; [is_stuck|done]. Qed.

(** The first core exits before the second one is up: the second thread spins
    for ever. *)
Lemma early_exit_hangs :
  ∃ s, run_schedule false
    [LThread 0 (Create true); LThread 1 (Create true); LThread 0 Enter; LMain; LThread 0 Trap;
     LThread 0 (ExitWith 7); LReport 0; LMain; LMain; LMain; LMain]
    (start 2) = Some s ∧ stuck s ∧ main s = MJoining 1 [7].
Proof. eexists. split; [reflexivity|]. split; [is_stuck|done]. Qed.

(** The only core crashes: the main thread waits at the barrier for ever. *)
Lemma crash_hangs :
  ∃ s, run_schedule false
    [LThread 0 (Create true); LThread 0 Enter; LMain; LThread 0 Trap; LThread 0 Crash] (start 1) = Some s ∧
    stuck s ∧ main s = MWaiting.
Proof. eexists. split; [reflexivity|]. split; [is_stuck|done]. Qed.

(** Without any core the main thread waits at the barrier. *)
Lemma no_core_hangs :
  ∃ s, run_schedule false [LMain] (start 0) = Some s ∧ stuck s ∧ main s = MWaiting.
Proof. eexists. split; [reflexivity|]. split; [is_stuck|done]. Qed.

(** The signal reaches the second core while it serves an exit: it goes back to
    the guest, and the main thread waits for it however long the guest runs. *)
Lemma lost_kick_hangs :
  ∃ s, run_schedule false
    (boot_two ++ [LThread 0 Trap; LThread 1 Trap; LThread 0 (ExitWith 7); LReport 0; LMain; LMain;
       LThread 1 Resume; LMain; LMain]) (start 2) = Some s ∧
    main s = MJoining 1 [7] ∧ threads s !! 1%nat = Some Running ∧
    ∀ s', rtc (λ s s', step false (LThread 1 Trap) s = Some s' ∨
                       step false (LThread 1 Resume) s = Some s' ∨ step false LMain s = Some s') s s' →
      main s' = MJoining 1 [7].
Proof.
  eexists. split; [reflexivity|]. split_and!; [done..|]. intros s' Hr.
  assert (s' = System 2 [Finished (Some 7); Running] (MJoining 1 [7]) ∨
          s' = System 2 [Finished (Some 7); Serving] (MJoining 1 [7])) as [-> | ->]; [|done..].
  refine (rtc_ind_r (λ s', s' = System 2 [Finished (Some 7); Running] (MJoining 1 [7]) ∨
    s' = System 2 [Finished (Some 7); Serving] (MJoining 1 [7])) _ _ _ s' Hr); [by left|].
  intros s1 s2 _ Hs [-> | ->]; cbn in Hs; destruct Hs as [Hs|[Hs|Hs]]; try done;
    injection Hs as <-; auto.
Qed.

End Example.
