(* ===== verification/Frontend.v ===== *)
(** * The command-line frontend (src/utils.rs, src/bin/uhyve.rs)

    From the matched arguments and the environment to the parameters of
    [Uhyve::new], and the helpers that parse ranges of CPUs and ask for
    transparent huge pages.  The argument parser, the crates that parse byte
    sizes and environment flags, and the host's files and CPUs are
    parameters. *)

From Stdlib Require Import Strings.String.
From S2P Require Import Prelude LinuxVm LinuxVcpu.
Close Scope string_scope.

(** ** Numbers as strings: [str::parse] *)

Inductive ParseIntError := EmptyNumber | InvalidDigit | PosOverflow.

(** The value of decimal digits that fits [w] bits, digit by digit. *)
Fixpoint parse_digits (w acc : Z) (s : list Z) : result ParseIntError Z :=
  match s with
  | [] => Ok acc
  | c :: s' =>
      if is_digit c then
        let v := 10 * acc + (c - 48) in
        if decide (fits w v) then parse_digits w v s' else Err PosOverflow
      else Err InvalidDigit
  end.

(** An optional plus sign and at least one digit. *)
Definition parse_uint (w : Z) (s : list Z) : result ParseIntError Z :=
  match s with
  | [] => Err EmptyNumber
  | [43] => Err InvalidDigit
  | 43 :: s' => parse_digits w 0 s'
  | _ => parse_digits w 0 s
  end.

(** ** [parse_ranges] *)

(** [range.split_once('-')]. *)
Fixpoint split_once (c : Z) (s : list Z) : option (list Z * list Z) :=
  match s with
  | [] => None
  | x :: s' =>
      if x =? c then Some ([], s')
      else match split_once c s' with Some (a, b) => Some (x :: a, b) | None => None end
  end.

Definition parse_range (range : list Z) : result ParseIntError (Z * Z) :=
  match split_once 45 range with
  | Some (s, e) =>
      match parse_uint 64 s with
      | Ok start => match parse_uint 64 e with Ok end_ => Ok (start, end_) | Err err => Err err end
      | Err err => Err err
      end
  | None => match parse_uint 64 range with Ok idx => Ok (idx, idx) | Err err => Err err end
  end.

(** [start..=end], which is empty when [end < start]. *)
Definition range_inclusive (r : Z * Z) : list Z := seqZ r.1 (r.2 - r.1 + 1).

Definition parse_ranges (ranges : list (list Z)) : list (result ParseIntError Z) :=
  range ← ranges;
  match parse_range range with
  | Ok r => Ok <$> range_inclusive r
  | Err err => [Err err]
  end.

(** [collect::<Result<_, _>>()]: all values, or the first error. *)
Fixpoint collect_results {A E} (l : list (result E A)) : result E (list A) :=
  match l with
  | [] => Ok []
  | Ok a :: l' => match collect_results l' with Ok as_ => Ok (a :: as_) | Err e => Err e end
  | Err e :: _ => Err e
  end.

(** ** Transparent huge pages *)

(** [char::is_whitespace] below 128, and [str::trim]. *)
Definition is_whitespace (c : Z) : bool := ((9 <=? c) && (c <=? 13)) || (c =? 32).
Fixpoint trim_start (s : list Z) : list Z :=
  match s with c :: s' => if is_whitespace c then trim_start s' else s | [] => [] end.
Definition trim (s : list Z) : list Z := reverse (trim_start (reverse (trim_start s))).

Inductive IoError := InvalidData | ReadError (errno : Z).

(** [enabled]: whether the file is there, and what reading it gives. *)
Definition transparent_hugepages_available (target_linux : bool)
    (enabled : option (result Z (list Z))) : result IoError bool :=
  if target_linux then
    match enabled with
    | None => Ok false
    | Some (Ok s) =>
        let t := trim s in
        if decide (t = bytes "[always] madvise never") then Ok true
        else if decide (t = bytes "always [madvise] never") then Ok true
        else if decide (t = bytes "always madvise [never]") then Ok false
        else Err InvalidData
    | Some (Err e) => Err (ReadError e)
    end
  else Ok true.

(** ** Parameters *)

Definition MINIMAL_GUEST_SIZE : Z := 16 * 1024 * 1024.
Definition DEFAULT_GUEST_SIZE : Z := 64 * 1024 * 1024.

(** The declared arguments: [Arg::with_name] with the settings of clap that are
    used. *)
Record Arg := {
  arg_name : list Z;
  arg_short : option Z;
  arg_long : option (list Z);
  arg_value_name : option (list Z);
  arg_takes_value : bool;
  arg_env : option (list Z);
  arg_required : bool;
  arg_index : option Z;
  arg_multiple : bool;
  arg_max_values : option Z;
}.

Definition flag (name : string) (short : option Z) (long : string) : Arg := {|
  arg_name := bytes name; arg_short := short; arg_long := Some (bytes long);
  arg_value_name := None; arg_takes_value := false; arg_env := None; arg_required := false;
  arg_index := None; arg_multiple := false; arg_max_values := None |}.
Definition with_value (value_name : string) (takes_value : bool) (env : option string) (a : Arg) : Arg := {|
  arg_name := arg_name a; arg_short := arg_short a; arg_long := arg_long a;
  arg_value_name := Some (bytes value_name); arg_takes_value := takes_value;
  arg_env := bytes <$> env; arg_required := false; arg_index := None; arg_multiple := false;
  arg_max_values := None |}.
Definition positional (name : string) (required : bool) (index : option Z) (multiple : bool)
    (max_values : option Z) : Arg := {|
  arg_name := bytes name; arg_short := None; arg_long := None; arg_value_name := None;
  arg_takes_value := false; arg_env := None; arg_required := required; arg_index := index;
  arg_multiple := multiple; arg_max_values := max_values |}.

Definition arguments : list Arg := [
  flag "VERBOSE" (Some 118) "verbose";
  flag "DISABLE_HUGEPAGE" None "disable-hugepages";
  flag "MERGEABLE" None "mergeable";
  with_value "MEM" true (Some "HERMIT_MEM"%string) (flag "MEM" (Some 109) "memsize");
  with_value "CPUS" true (Some "HERMIT_CPUS"%string) (flag "CPUS" (Some 99) "cpus");
  with_value "cpulist" false None (flag "CPU_AFFINITY" (Some 97) "affinity");
  with_value "GDB_PORT" true (Some "HERMIT_GDB_PORT"%string) (flag "GDB_PORT" (Some 115) "gdb_port");
  with_value "NETIF" true (Some "HERMIT_NETIF"%string) (flag "NETIF" None "nic");
  positional "KERNEL" true (Some 1) false None;
  positional "ARGUMENTS" false None true (Some 255)].

(** clap's [ArgMatches]. *)
Class ArgMatches (A : Type) := {
  value_of : A → list Z → option (list Z);
  values_of : A → list Z → option (list (list Z));
  is_present : A → list Z → bool;
}.

(** The matched arguments that are used. *)
Record Matches := {
  arg_mem : option (list Z);
  arg_cpus : option (list Z);
  arg_affinity : option (list (list Z));
  arg_gdb_port : option (list Z);
  arg_mergeable : bool;
  arg_disable_hugepage : bool;
  arg_verbose : bool;
}.

Definition matches_of `{ArgMatches A} (a : A) : Matches := {|
  arg_mem := value_of a (bytes "MEM");
  arg_cpus := value_of a (bytes "CPUS");
  arg_affinity := values_of a (bytes "CPU_AFFINITY");
  arg_gdb_port := value_of a (bytes "GDB_PORT");
  arg_mergeable := is_present a (bytes "MERGEABLE");
  arg_disable_hugepage := is_present a (bytes "DISABLE_HUGEPAGE");
  arg_verbose := is_present a (bytes "VERBOSE") |}.

(** [matches.value_of("KERNEL").expect(..)]; any string is a path. *)
Definition kernel_path_of `{ArgMatches A} (a : A) : exec (list Z) := unwrap (value_of a (bytes "KERNEL")).

Class FrontendHost := {
  (** [Byte::from_str(s)] and [get_bytes], a 128-bit number. *)
  byte_from_str : list Z → option Z;
  (** [envmnt::is_or(key, default)]. *)
  env_is_or : list Z → bool → bool;
  (** [env::var("HERMIT_GDB_PORT")]. *)
  env_gdb_port : option (list Z);
  hugepage_file : option (result Z (list Z));
  (** The CPUs of the process, by their number. *)
  core_ids : option (list Z);
}.

(** A CPU is listed once. *)
Class FrontendHostLaws `{FrontendHost} : Prop := {
  byte_range s n : byte_from_str s = Some n → 0 ≤ n < 2 ^ 128;
  core_ids_nodup l : core_ids = Some l → NoDup l;
}.

Section Frontend.
Context `{FrontendHost} (target_linux : bool).

Definition mem_size_of (m : Matches) : exec Z :=
  match arg_mem m with
  | Some s =>
      n ← unwrap (byte_from_str s);
      mem ← unwrap (try_into 64 n);
      Ret (if mem <? MINIMAL_GUEST_SIZE then MINIMAL_GUEST_SIZE else mem)
  | None => Ret DEFAULT_GUEST_SIZE
  end.

Definition num_cpus_of (m : Matches) : Z :=
  match arg_cpus m with
  | Some s => match parse_uint 32 s with Ok n => n | Err _ => 1 end
  | None => 1
  end.

Definition affinity_of (m : Matches) : exec (option (list Z)) :=
  match arg_affinity m with
  | None => Ret None
  | Some affinity =>
      parsed ← expect (collect_results (parse_ranges affinity));
      ids ← unwrap core_ids;
      let ids := filter (.∈ parsed) ids in
      rust_assert (Z.of_nat (length ids) =? num_cpus_of m) ;;
      Ret (Some ids)
  end.

Definition gdbport_of (m : Matches) : exec (option Z) :=
  match arg_gdb_port m, env_gdb_port with
  | Some p, _ | None, Some p => port ← expect (parse_uint 16 p); Ret (Some port)
  | None, None => Ret None
  end.

Definition hugepage_of (m : Matches) : bool :=
  let hugepage_default :=
    match transparent_hugepages_available target_linux hugepage_file with
    | Ok b => b
    | Err _ => true
    end in
  if arg_disable_hugepage m then false else env_is_or (bytes "HERMIT_HUGEPAGE") hugepage_default.

(** The parameters and the affinity passed to [Uhyve::new] and [run]. *)
Definition frontend_params (m : Matches) : exec (Specs * option (list Z)) :=
  mem_size ← mem_size_of m;
  let num_cpus := num_cpus_of m in
  cpu_affinity ← affinity_of m;
  let mergeable := if arg_mergeable m then true else env_is_or (bytes "HERMIT_MERGEABLE") false in
  let hugepage := hugepage_of m in
  let verbose := if arg_verbose m then true else env_is_or (bytes "HERMIT_VERBOSE") false in
  gdbport ← gdbport_of m;
  Ret ({| par_mem_size := mem_size; par_num_cpus := num_cpus; par_verbose := verbose;
          par_hugepage := hugepage; par_mergeable := mergeable; par_ip := None;
          par_gateway := None; par_mask := None; par_nic := None; par_gdbport := gdbport |},
       cpu_affinity).

End Frontend.

(** ** The declared arguments are unambiguous *)

(** No two arguments share a name, a letter, a long option or a variable of the
    environment. *)
Lemma arguments_distinct :
  NoDup (arg_name <$> arguments) ∧ NoDup (omap arg_short arguments) ∧
  NoDup (omap arg_long arguments) ∧ NoDup (omap arg_env arguments).
Proof. split_and!; evaluate. Qed.

(** ** What the strings denote *)

Definition strip_plus (s : list Z) : list Z := match s with 43 :: s' => s' | _ => s end.
Definition value_from (acc : Z) (s : list Z) : Z := foldl (λ n c, 10 * n + (c - 48)) acc s.

(** A decimal numeral and its value. *)
Definition numeral (s : list Z) : Prop :=
  strip_plus s ≠ [] ∧ Forall (λ c, is_digit c = true) (strip_plus s).
Definition numeral_value (s : list Z) : Z := value_from 0 (strip_plus s).

Lemma is_digit_range c : is_digit c = true → 48 ≤ c ≤ 57.
Proof. unfold is_digit. rewrite andb_true_iff, !Z.leb_le. lia. Qed.

Lemma value_from_ge acc s :
  0 ≤ acc → Forall (λ c, is_digit c = true) s → acc ≤ value_from acc s.
Proof.
  intros Hacc Hs. revert acc Hacc. induction Hs as [|c s Hc _ IH]; intros acc Hacc; [done|].
  cbn. apply is_digit_range in Hc. specialize (IH (10 * acc + (c - 48)) ltac:(lia)).
  unfold value_from in *. lia.
Qed.

Lemma parse_digits_spec w acc s v :
  fits w acc →
  parse_digits w acc s = Ok v ↔
    Forall (λ c, is_digit c = true) s ∧ v = value_from acc s ∧ fits w v.
Proof.
  revert acc. induction s as [|c s IH]; intros acc Hacc; cbn [parse_digits].
  - split; [intros [= <-]; by split_and!|]. by intros (_ & -> & _).
  - rewrite Forall_cons. destruct (is_digit c) eqn:Hc;
      [|split; [done|intros [[Hx _] _]; cbn in Hx; congruence]].
    destruct (decide _) as [Hf|Hf].
    + rewrite IH by done. cbn [value_from foldl]. unfold value_from. tauto.
    + split; [done|]. intros ([_ Hs] & -> & Hv). destruct Hf.
      apply is_digit_range in Hc. unfold fits in Hacc.
      assert (0 ≤ 10 * acc + (c - 48)) as Hp by lia.
      pose proof (value_from_ge _ s Hp Hs). unfold fits, value_from in *. cbn in Hv. lia.
Qed.

Lemma parse_uint_spec w s v :
  0 ≤ w → parse_uint w s = Ok v ↔ numeral s ∧ v = numeral_value s ∧ fits w v.
Proof.
  intros Hw. assert (fits w 0) as H0 by (unfold fits; pose proof (Z.pow_pos_nonneg 2 w); lia).
  unfold parse_uint, numeral, numeral_value.
  assert (∀ t, t ≠ [] → parse_digits w 0 t = Ok v ↔
    (t ≠ [] ∧ Forall (λ c, is_digit c = true) t) ∧ v = value_from 0 t ∧ fits w v) as Hd.
  { intros t Ht. rewrite parse_digits_spec by done. tauto. }
  destruct s as [|c s]; [split; [done|by intros [[? _] _]]|].
  destruct (decide (c = 43)) as [->|Hne].
  - destruct s as [|d s]; [split; [done|by intros [[? _] _]]|]. by apply Hd.
  - assert (strip_plus (c :: s) = c :: s) as ->.
    { unfold strip_plus. destruct c as [|p|p]; [done| |done].
      do 6 (destruct p; try done). }
    rewrite <- Hd by done. destruct c as [|p|p]; [done| |done]. do 6 (destruct p; try done).
Qed.

Lemma split_once_Some c s a b : split_once c s = Some (a, b) ↔ s = a ++ c :: b ∧ c ∉ a.
Proof.
  revert a b. induction s as [|x s IH]; intros a b; cbn [split_once].
  - split; [done|]. by intros [[]%app_cons_not_nil _].
  - destruct (Z.eqb_spec x c) as [->|Hne].
    + split; [intros [= <- <-]; split; [done|apply not_elem_of_nil]|].
      destruct a as [|y a]; [by intros [[= ->] _]|]. intros [[= -> _] Hin]. destruct Hin. left.
    + destruct (split_once c s) as [[a' b']|] eqn:Hs.
      * destruct (proj1 (IH a' b') eq_refl) as [-> Hin]. split.
        -- intros [= <- <-]. split; [done|]. by apply not_elem_of_cons.
        -- destruct a as [|y a]; [by intros [[= ->] _]|]. intros [[= <- Heq] Hin'].
           apply not_elem_of_cons in Hin' as [_ Hin'].
           assert (Some (a', b') = Some (a, b)) as [= <- <-] by by apply IH. done.
      * split; [done|]. destruct a as [|y a]; [by intros [[= ->] _]|]. intros [[= <- Heq] Hin].
        apply not_elem_of_cons in Hin as [_ Hin]. pose proof (proj2 (IH a b) (conj Heq Hin)). done.
Qed.

(** The CPUs a range names: a number, or two numbers and all between. *)
Inductive denotes : list Z → list Z → Prop :=
| denotes_one s : numeral s → fits 64 (numeral_value s) → denotes s [numeral_value s]
| denotes_range s e :
    numeral s → numeral e → fits 64 (numeral_value s) → fits 64 (numeral_value e) →
    denotes (s ++ 45 :: e) (seqZ (numeral_value s) (numeral_value e - numeral_value s + 1)).

Lemma numeral_no_dash s : numeral s → 45 ∉ s.
Proof.
  intros [Hne Hd] Hin. destruct s as [|c s]; [done|]. unfold strip_plus in Hd.
  assert (45 ∈ c :: s → 45 ∈ strip_plus (c :: s)) as Hstrip.
  { intros [Heq|Hs]%elem_of_cons; [subst c; left|].
    destruct (decide (c = 43)) as [->|Hc]; [done|].
    assert (strip_plus (c :: s) = c :: s) as ->; [|by right].
    unfold strip_plus. destruct c as [|p|p]; [done| |done]. do 6 (destruct p; try done). }
  fold (strip_plus (c :: s)) in Hd. rewrite Forall_forall in Hd.
  by specialize (Hd 45 (Hstrip Hin)).
Qed.

Lemma parse_range_denotes s r :
  parse_range s = Ok r → denotes s (range_inclusive r).
Proof.
  unfold parse_range, range_inclusive. destruct (split_once 45 s) as [[a b]|] eqn:Hs.
  - apply split_once_Some in Hs as [-> _].
    destruct (parse_uint 64 a) as [x|] eqn:Ha; [|done]. destruct (parse_uint 64 b) as [y|] eqn:Hb; [|done].
    apply parse_uint_spec in Ha as (Hna & -> & Hfa); [|done].
    apply parse_uint_spec in Hb as (Hnb & -> & Hfb); [|done]. intros [= <-]. by constructor.
  - destruct (parse_uint 64 s) as [x|] eqn:Hx; [|done].
    apply parse_uint_spec in Hx as (Hn & -> & Hf); [|done]. intros [= <-]. cbn.
    replace (seqZ _ _) with [numeral_value s]; [by constructor|].
    rewrite Z.sub_diag. rewrite seqZ_cons by lia. done.
Qed.

Lemma denotes_parse s l : denotes s l → ∃ r, parse_range s = Ok r.
Proof.
  intros [t Hn Hf|a b Ha Hb Hfa Hfb]; unfold parse_range.
  - destruct (split_once 45 t) as [[a b]|] eqn:Hs.
    { apply split_once_Some in Hs as [-> _]. destruct (numeral_no_dash _ Hn).
      apply elem_of_app. right. left. }
    rewrite (proj2 (parse_uint_spec 64 t _ ltac:(done)) (conj Hn (conj eq_refl Hf))). by eexists.
  - rewrite (proj2 (split_once_Some 45 _ a b)) by (split; [done|by apply numeral_no_dash]).
    rewrite (proj2 (parse_uint_spec 64 a _ ltac:(done)) (conj Ha (conj eq_refl Hfa))).
    rewrite (proj2 (parse_uint_spec 64 b _ ltac:(done)) (conj Hb (conj eq_refl Hfb))). by eexists.
Qed.

Definition range_result (s : list Z) (out : list (result ParseIntError Z)) : Prop :=
  (∃ l, denotes s l ∧ out = Ok <$> l) ∨ ((¬ ∃ l, denotes s l) ∧ ∃ e, out = [Err e]).

(** [parse_ranges] gives, for each string in order, the numbers it
    denotes, from the first to the last, or one error when it denotes
    none. *)
Lemma parse_ranges_correct ranges :
  ∃ outs, Forall2 range_result ranges outs ∧ parse_ranges ranges = concat outs.
Proof.
  induction ranges as [|s ranges (outs & Hall & Heq)]; [by exists []|].
  unfold parse_ranges in *. cbn. rewrite Heq.
  destruct (parse_range s) as [r|e] eqn:Hr.
  - exists ((Ok <$> range_inclusive r) :: outs). split; [|done]. constructor; [|done].
    left. eexists. split; [by apply parse_range_denotes|done].
  - exists ([Err e] :: outs). split; [|done]. constructor; [|done]. right. split; [|by eexists].
    intros [l Hl]. destruct (denotes_parse s l Hl). congruence.
Qed.

Lemma collect_results_ok {A E} (l : list (result E A)) xs :
  collect_results l = Ok xs → l = Ok <$> xs.
Proof.
  revert xs. induction l as [|[a|e] l IH]; intros xs; cbn; [by intros [= <-]| |done].
  destruct (collect_results l) as [as_|] eqn:Hl; [|done]. intros [= <-]. cbn. by rewrite (IH as_).
Qed.

(** The numbers of a list of ranges that are all valid. *)
Lemma parse_ranges_elem ranges xs x :
  parse_ranges ranges = Ok <$> xs → x ∈ xs → ∃ s l, s ∈ ranges ∧ denotes s l ∧ x ∈ l.
Proof.
  intros Hp Hx. assert (Ok x ∈ parse_ranges ranges) as Hin
    by (rewrite Hp; apply list_elem_of_fmap; by exists x).
  unfold parse_ranges in Hin. apply list_elem_of_bind in Hin as (s & Hs & Hmem).
  destruct (parse_range s) as [r|e] eqn:Hr.
  - apply list_elem_of_fmap in Hs as (y & [= <-] & Hy).
    exists s, (range_inclusive r). split_and!; [done|by apply parse_range_denotes|done].
  - by apply list_elem_of_singleton in Hs.
Qed.

Section Params.
Context `{FrontendHost, !FrontendHostLaws} (target_linux : bool).

(** Parameters as [Uhyve::new] expects them; the memory has room for the
    structures of the boot. *)
Record params_wf (m : Matches) (specs : Specs) (affinity : option (list Z)) : Prop := {
  pw_mem : MINIMAL_GUEST_SIZE ≤ par_mem_size specs < 2 ^ 64;
  pw_cpus : fits 32 (par_num_cpus specs);
  pw_gdb p : par_gdbport specs = Some p → fits 16 p;
  pw_network : par_nic specs = None ∧ par_ip specs = None ∧ par_gateway specs = None ∧
    par_mask specs = None;
  pw_affinity ids : affinity = Some ids →
    NoDup ids ∧ Z.of_nat (length ids) = par_num_cpus specs ∧
    ∀ x, x ∈ ids → ∃ ranges s l, arg_affinity m = Some ranges ∧ s ∈ ranges ∧ denotes s l ∧ x ∈ l;
}.

Lemma num_cpus_fits m : fits 32 (num_cpus_of m).
Proof.
  unfold num_cpus_of. destruct (arg_cpus m) as [s|]; [|done].
  destruct (parse_uint 32 s) as [n|] eqn:Hn; [|done]. by apply parse_uint_spec in Hn as (_ & _ & ?).
Qed.

Lemma frontend_params_accepted m specs affinity :
  frontend_params target_linux m = Ret (specs, affinity) → params_wf m specs affinity.
Proof.
  unfold frontend_params. intros Hp.
  destruct (mem_size_of m) as [size| |] eqn:Hsize; cbn in Hp; try done.
  destruct (affinity_of m) as [aff| |] eqn:Haff; cbn in Hp; try done.
  destruct (gdbport_of m) as [gdb| |] eqn:Hgdb; cbn in Hp; try done.
  injection Hp as <- <-. split; cbn.
  - unfold mem_size_of in Hsize. destruct (arg_mem m) as [s|]; [|by injection Hsize as <-].
    exec_inv. repeat match goal with Hu : unwrap _ = Ret _ |- _ => apply unwrap_Ret in Hu end.
    match goal with Ht : try_into 64 _ = Some ?n |- _ =>
      unfold try_into in Ht; destruct (decide (fits 64 _)) as [Hf|]; [|done]; injection Ht as <- end.
    unfold fits in Hf. destruct (Z.ltb_spec x MINIMAL_GUEST_SIZE); [done|lia].
  - apply num_cpus_fits.
  - intros p ->. unfold gdbport_of in Hgdb.
    assert (∀ s, (port ← expect (parse_uint 16 s); Ret (Some port)) = Ret (Some p) → fits 16 p) as Hport.
    { intros s Hs. destruct (parse_uint 16 s) as [v|] eqn:Hv; [|done]. injection Hs as <-.
      by apply parse_uint_spec in Hv as (_ & _ & ?). }
    destruct (arg_gdb_port m) as [s|]; [by eapply Hport|].
    destruct env_gdb_port as [s|]; [by eapply Hport|done].
  - done.
  - intros ids ->. unfold affinity_of in Haff. destruct (arg_affinity m) as [ranges|] eqn:Harg; [|done].
    destruct (collect_results (parse_ranges ranges)) as [parsed|] eqn:Hc; [|done]. cbn in Haff.
    destruct core_ids as [cores|] eqn:Hcores; [|done]. cbn in Haff.
    destruct (Z.eqb_spec (Z.of_nat (length (filter (.∈ parsed) cores))) (num_cpus_of m)) as [Hn|];
      [|done]. injection Haff as <-. split_and!.
    + apply NoDup_filter. by apply core_ids_nodup.
    + done.
    + intros x [Hx _]%list_elem_of_filter. apply collect_results_ok in Hc.
      destruct (parse_ranges_elem _ _ _ Hc Hx) as (s & l & Hs & Hd & Hl).
      by exists ranges, s, l.
Qed.

Lemma frontend_cpus m specs affinity :
  frontend_params target_linux m = Ret (specs, affinity) → par_num_cpus specs = num_cpus_of m.
Proof. unfold frontend_params. intros Hp. exec_inv. done. Qed.

Lemma frontend_mem m specs affinity :
  frontend_params target_linux m = Ret (specs, affinity) → mem_size_of m = Ret (par_mem_size specs).
Proof. unfold frontend_params. intros Hp. exec_inv. done. Qed.

(** C38: Whatever the command line and the environment are, the parameters the
    frontend accepts are well formed: at least 16 MiB of memory, numbers
    within their types, no network, and, with an affinity, one CPU for each
    guest processor, all different and all named in the given ranges. *)
Theorem frontend_params_wf m specs affinity :
  frontend_params target_linux m = Ret (specs, affinity) → params_wf m specs affinity.
Proof. apply frontend_params_accepted. Qed.

End Params.

(** ** An invocation with two cores on given CPUs *)
Module Example.
#[local] Instance example_host : FrontendHost := {|
  byte_from_str s := if decide (s = bytes "1 GiB") then Some (2 ^ 30) else None;
  env_is_or _ d := d;
  env_gdb_port := None;
  hugepage_file := Some (Ok (bytes "always [madvise] never"));
  core_ids := Some [0; 1; 2; 3];
|}.
#[local] Instance example_host_laws : FrontendHostLaws.
Proof.
  split.
  - intros s n. cbn. case_decide; [|done]. intros [= <-]. lia.
  - intros l [= <-]. evaluate.
Qed.

Definition invocation : Matches := {|
  arg_mem := Some (bytes "1 GiB"); arg_cpus := Some (bytes "2");
  arg_affinity := Some [bytes "2-3"]; arg_gdb_port := None; arg_mergeable := false;
  arg_disable_hugepage := false; arg_verbose := true |}.

Lemma frontend_params_wf_witness :
  ∃ specs, frontend_params true invocation = Ret (specs, Some [2; 3]) ∧
    params_wf invocation specs (Some [2; 3]).
Proof.
  eexists. split; [vm_compute; reflexivity|].
  apply (frontend_params_wf true). vm_compute. reflexivity.
Defined.

(** The unit test of src/utils.rs. *)
Lemma test_parse_cpu_affinity :
  parse_ranges [bytes "8-10"; bytes "5"; bytes "3"; bytes "7-9"] =
    Ok <$> [8; 9; 10; 5; 3; 7; 8; 9] ∧
  Forall (λ r, is_ok r → False) (parse_ranges [bytes "-1-2"; bytes "-5"]).
Proof. split; [by vm_compute|]. vm_compute. repeat constructor; tauto. Qed.
End Example.
