(* ===== verification/Smp.v ===== *)
(** * The whole machine on Linux ([run_no_gdb] of src/linux/mod.rs)

    The threads of Threads.v with the code of their vCPUs: each thread creates
    its vCPU and brings it up, waits for its predecessor by reading the counter
    in guest memory, and runs the guest.  Guest memory, the outside world and
    the network device are shared; [KVM_RUN] and the service of an exit are one
    step each, so that the threads interleave between them.  The barrier, the
    kick and the main thread's steps are those of Threads.v on the states of the
    threads.  A panic while an exit is served may leave the device's mutex
    poisoned; executions are followed up to there. *)

From S2P Require Import Prelude Memory Consts Paging AddressSpace Hypercalls CommandLine Loader.
From S2P Require Import Virtqueue Virtio LinuxVm KvmVcpu LinuxVcpu VcpuLoop Boot Threads.

(** A thread's vCPU, with the result of [KVM_RUN] that is to be served. *)
Record vcpu_slot (C : Type) := Slot {
  slot_cpu : UhyveCPU C;
  slot_exit : option (result Z VcpuExit);
}.
Arguments Slot {C} _ _.
Arguments slot_cpu {C} _.
Arguments slot_exit {C} _.

Record smp (K C W T : Type) := Smp {
  smp_vm : Uhyve K T;
  smp_host : host W;
  smp_device : VirtioNetPciDevice T;
  smp_sent : list (list Z);
  smp_slots : list (option (vcpu_slot C));
  (** The states of the threads and of the main thread. *)
  smp_threads : list thread;
  smp_main : main_thread;
}.
Arguments Smp {K C W T} _ _ _ _ _ _ _.
Arguments smp_vm {K C W T} _.
Arguments smp_host {K C W T} _.
Arguments smp_device {K C W T} _.
Arguments smp_sent {K C W T} _.
Arguments smp_slots {K C W T} _.
Arguments smp_threads {K C W T} _.
Arguments smp_main {K C W T} _.

Inductive smp_label :=
| SCreate (i : nat) | SSpin (i : nat) | SRun (i : nat) | SServe (i : nat) | SKicked (i : nat)
| SReport (i : nat) | SMain.

Section Smp.
Context `{Profile, Kvm K, KvmCreate K C} `{!KvmVcpu C, !KvmRun C} `{HostOS W, VirtioNet}.
Context `{X86_64Control} {T : Type}.
Context (env : tap_env T) (args : list (list Z)) (vars : list (list Z * list Z)).
Context (write_fuel tx_fuel : nat) (kill_ended_fails : bool).
Implicit Types s : smp K C W T.

(** [vm.create_cpu(cpu_id).unwrap()] and [cpu.init(...).unwrap()]. *)
Definition start_vcpu (v : Uhyve K T) (cpu_id : Z) : exec (UhyveCPU C) :=
  r ← create_cpu v cpu_id;
  cpu ← expect r;
  r ← init (cpu_vcpu cpu) (get_entry_point v);
  c ← expect r;
  Ret (Cpu (LinuxVcpu.cpu_id cpu) c (cpu_vm_start cpu) (cpu_kernel_path cpu) (cpu_tx cpu)
         (cpu_pci_addr cpu)).

(** [vm.cpu_online()], in the memory as it is now. *)
Definition online_now s : exec Z := cpu_online (set_guest_mem (h_mem (smp_host s)) (smp_vm s)).

(** What a vCPU works on. *)
Definition view s (cpu : UhyveCPU C) : vm_state C W T :=
  State cpu (smp_host s) (smp_device s) (smp_sent s).

(** Thread [i] continues in state [t], with its vCPU in [slot], and has left
    the shared state as in [st]. *)
Definition put (i : nat) (t : thread) (slot : option (vcpu_slot C)) (st : vm_state C W T) s :
    smp K C W T :=
  Smp (smp_vm s) (st_host st) (st_device st) (st_sent st) (<[i := slot]> (smp_slots s))
    (<[i := t]> (smp_threads s)) (smp_main s).
Definition set_state (i : nat) (t : thread) (slot : option (vcpu_slot C)) s : smp K C W T :=
  Smp (smp_vm s) (smp_host s) (smp_device s) (smp_sent s) (<[i := slot]> (smp_slots s))
    (<[i := t]> (smp_threads s)) (smp_main s).

(** The part of the state Threads.v knows, with [n] cores up. *)
Definition control (n : nat) s : system := System n (smp_threads s) (smp_main s).
Definition with_control (c : system) s : smp K C W T :=
  Smp (smp_vm s) (smp_host s) (smp_device s) (smp_sent s) (smp_slots s) (threads c) (main c).

(** The result of [run]: an exit code is reported, a kick or an error ends the
    thread, a debug exit is unreachable. *)
Definition after_serving (r : result Z (option VcpuStopReason)) : exec thread :=
  match r with
  | Ok None => Ret Running
  | Ok (Some (Exit code)) => Ret (Exiting code)
  | Ok (Some Kick) => Ret (Finished None)
  | Ok (Some (Debug _)) => Panic
  | Err _ => Ret (Finished None)
  end.

Definition smp_step (l : smp_label) s : option (exec (smp K C W T)) :=
  match l with
  | SCreate i =>
      match smp_threads s !! i with
      | Some Spawned =>
          Some (match start_vcpu (smp_vm s) (Z.of_nat i) with
                | Ret cpu => Ret (set_state i Spinning (Some (Slot cpu None)) s)
                | Panic => Ret (set_state i Failed None s)
                | Fault => Fault
                end)
      | _ => None
      end
  | SSpin i =>
      match smp_threads s !! i, smp_slots s !! i with
      | Some Spinning, Some (Some slot) =>
          Some (n ← online_now s;
                Ret (if Z.of_nat i =? n then set_state i Running (Some slot) s else s))
      | _, _ => None
      end
  | SRun i =>
      match smp_threads s !! i, smp_slots s !! i with
      | Some Running, Some (Some slot) =>
          let cpu := slot_cpu slot in
          let '(c, m, r) := vcpu_run (cpu_vcpu cpu) (h_mem (smp_host s)) in
          let st := with_mem m (with_vcpu c (view s cpu)) in
          Some (Ret (put i Serving (Some (Slot (st_cpu st) (Some r))) st s))
      | _, _ => None
      end
  | SServe i =>
      match smp_threads s !! i, smp_slots s !! i with
      | Some Serving, Some (Some (Slot cpu (Some r))) =>
          out ← serve_exit env args vars write_fuel tx_fuel (view s cpu) r;
          Some ('(res, st) ← out;
                t ← after_serving res;
                Ret (put i t (Some (Slot (st_cpu st) None)) st s))
      | _, _ => None
      end
  | SKicked i =>
      c ← Threads.step kill_ended_fails (LThread i Kicked) (control 0 s);
      Some (Ret (with_control c s))
  | SReport i =>
      c ← Threads.step kill_ended_fails (LReport i) (control 0 s);
      Some (Ret (with_control c s))
  | SMain =>
      c ← main_step kill_ended_fails (control 0 s);
      Some (Ret (with_control c s))
  end.

(** The machine when the threads are spawned: one per core. *)
Definition smp_start (v : Uhyve K T) (w : W) : smp K C W T :=
  Smp v (Host (contents v) w) (virtio_device v) [] (replicate (Z.to_nat (num_cpus v)) None)
    (replicate (Z.to_nat (num_cpus v)) Spawned) MEnter.

(** ** The counter of cores *)

Definition online_of s : nat := match online_now s with Ret n => Z.to_nat n | _ => 0 end.

(** The guest counts a core when it is up, from [KVM_RUN], and no hypercall
    writes the counter. *)
Definition guest_counts (l : smp_label) s s' : Prop :=
  match l with
  | SRun i => online_of s' = online_of s ∨ online_of s = i ∧ online_of s' = S i
  | _ => online_of s' = online_of s
  end.

Definition smp_steps s s' : Prop :=
  ∃ l, smp_step l s = Some (Ret s') ∧ guest_counts l s s'.

(** ** Refinement *)

Definition abs s : system := control (online_of s) s.

(** The steps that leave the counter to others do not look at it. *)
Lemma step_other_online l n c c' :
  match l with LThread _ Kicked | LReport _ | LMain => True | _ => False end →
  Threads.step kill_ended_fails l c = Some c' →
  Threads.step kill_ended_fails l (System n (threads c) (main c)) =
    Some (System n (threads c') (main c')).
Proof.
  destruct c as [k ts m]. destruct l as [i mv|i|i|]; try done; cbn [Threads.step threads main].
  - destruct mv; try done. intros _. destruct (ts !! i) as [[]|]; cbn; try done.
    by intros [= <-].
  - intros _. destruct (ts !! i) as [[]|]; try done. intros [= <-]. unfold thread_barrier, waiter.
    cbn [threads main]. destruct (list_find _ ts) as [[j []]|]; cbn;
      destruct (decide (m = MWaiting)); done.
  - intros _. unfold main_step, waiter. cbn [threads main].
    destruct m as [| |j|j codes| |]; try done.
    + destruct (list_find _ ts) as [[j []]|]; cbn; by intros [= <-].
    + destruct (ts !! j); cbn; [destruct (_ && _)|]; by intros [= <-].
    + destruct (ts !! j) as [[| | | | | | | |[]|]|]; cbn; try done; try (by intros [= <-]).
      destruct codes as [|? []]; by intros [= <-].
Qed.

(** A step that leaves the vCPUs alone. *)
Lemma control_refines l c s s' :
  match l with LThread _ Kicked | LReport _ | LMain => True | _ => False end →
  Threads.step kill_ended_fails l (control 0 s) = Some c → s' = with_control c s →
  run_schedule kill_ended_fails [l] (abs s) = Some (abs s').
Proof.
  intros Hl Hc ->. apply (step_other_online _ (online_of s)) in Hc; [|done].
  unfold abs, control at 1. cbn [run_schedule threads main control] in *. by rewrite Hc.
Qed.

(** Each step of the machine is at most two steps of the threads. *)
Lemma smp_step_refines l s s' :
  smp_step l s = Some (Ret s') → guest_counts l s s' →
  ∃ ls, run_schedule kill_ended_fails ls (abs s) = Some (abs s').
Proof.
  intros Hstep Hcount.
  destruct l as [i|i|i|i|i|i|]; cbn [smp_step guest_counts] in *.
  - destruct (smp_threads s !! i) as [[]|] eqn:Hi; try done. unfold abs. rewrite Hcount.
    destruct (start_vcpu _ _) as [cpu| |]; try done; injection Hstep as <-;
      [exists [LThread i (Create true)]|exists [LThread i (Create false)]]; cbn; by rewrite Hi.
  - destruct (smp_threads s !! i) as [[]|] eqn:Hi; try done.
    destruct (smp_slots s !! i) as [[slot|]|] eqn:Hslot; try done.
    destruct (online_now s) as [n| |] eqn:Hn; try done. injection Hstep as <-.
    destruct (Z.eqb_spec (Z.of_nat i) n) as [<-|]; [|by exists []].
    exists [LThread i Enter]. unfold abs. rewrite Hcount.
    assert (online_of s = i) as Hon by (unfold online_of; rewrite Hn; lia).
    cbn [run_schedule Threads.step control threads online].
    rewrite Hi, Hon, bool_decide_eq_true_2 by done. done.
  - destruct (smp_threads s !! i) as [[]|] eqn:Hi; try done.
    destruct (smp_slots s !! i) as [[slot|]|] eqn:Hslot; try done.
    destruct (vcpu_run _ _) as [[c m] r]. injection Hstep as <-. unfold abs.
    destruct Hcount as [Hon|[Hon Hon']].
    + exists [LThread i Trap]. cbn. by rewrite Hi, Hon.
    + exists [LOnline i; LThread i Trap]. rewrite Hon'. cbn.
      rewrite Hi, decide_True by done. cbn. by rewrite Hi, Hon.
  - destruct (smp_threads s !! i) as [[]|] eqn:Hi; try done.
    destruct (smp_slots s !! i) as [[[cpu [r|]]|]|] eqn:Hslot; try done.
    destruct (serve_exit _ _ _ _ _ _ r) as [[[res st]| |]|]; try done. cbn in Hstep.
    destruct (after_serving res) as [t| |] eqn:Ht; try done. injection Hstep as <-.
    unfold abs. rewrite Hcount.
    destruct res as [[[|code|]|]|e]; cbn in Ht; try done; injection Ht as <-;
      [exists [LThread i (ExitWith code)]|exists [LThread i Crash]|exists [LThread i Resume]|
       exists [LThread i Crash]]; cbn; by rewrite Hi.
  - destruct (Threads.step _ _ _) as [c|] eqn:Hc; [|done]. injection Hstep as <-.
    exists [LThread i Kicked]. by eapply control_refines.
  - destruct (Threads.step _ _ _) as [c|] eqn:Hc; [|done]. injection Hstep as <-.
    exists [LReport i]. by eapply control_refines.
  - destruct (main_step _ _) as [c|] eqn:Hc; [|done]. injection Hstep as <-.
    exists [LMain]. by eapply control_refines.
Qed.

Lemma smp_steps_refine s s' :
  rtc smp_steps s s' → rtc (Threads.steps kill_ended_fails) (abs s) (abs s').
Proof.
  induction 1 as [|s1 s2 s3 (l & Hl & Hcount) _ IH]; [apply rtc_refl|].
  destruct (smp_step_refines _ _ _ Hl Hcount) as [ls Hls].
  etrans; [by eapply run_schedule_steps|exact IH].
Qed.

(** ** What a step does to the threads *)

(** The steps of the barrier, the signal and the main thread. *)
Definition control_label (l : smp_label) : bool :=
  match l with SKicked _ | SReport _ | SMain => true | _ => false end.

Definition control_of (l : smp_label) : label :=
  match l with SKicked i => LThread i Kicked | SReport i => LReport i | _ => LMain end.

Lemma control_label_step l s :
  control_label l = true →
  smp_step l s = (c ← Threads.step kill_ended_fails (control_of l) (control 0 s);
                  Some (Ret (with_control c s))).
Proof. by destruct l. Qed.

(** The others change the state of one thread. *)
Inductive vcpu_move : smp_label → nat → thread → thread → Prop :=
| move_create i t : t = Spinning ∨ t = Failed → vcpu_move (SCreate i) i Spawned t
| move_spin i t : t = Running ∨ t = Spinning → vcpu_move (SSpin i) i Spinning t
| move_run i : vcpu_move (SRun i) i Running Serving
| move_resume i : vcpu_move (SServe i) i Serving Running
| move_end i : vcpu_move (SServe i) i Serving (Finished None)
| move_exit i code : vcpu_move (SServe i) i Serving (Exiting code).

Lemma smp_step_move l s s' :
  control_label l = false → smp_step l s = Some (Ret s') →
  smp_main s' = smp_main s ∧
  ∃ i t t', smp_threads s !! i = Some t ∧ smp_threads s' = <[i := t']> (smp_threads s) ∧
    vcpu_move l i t t'.
Proof.
  intros Hl Hstep. destruct l as [i|i|i|i| | |]; try done; cbn [smp_step] in Hstep;
    destruct (smp_threads s !! i) as [[]|] eqn:Hi; try done;
    try (match type of Hstep with context [smp_slots s !! i] =>
      destruct (smp_slots s !! i) as [[slot|]|]; try done end).
  - destruct (start_vcpu _ _); try done; injection Hstep as <-; (split; [done|]);
      eexists i, _, _; (split_and!; [done..|]); constructor; auto.
  - destruct (online_now s) as [n| |]; try done. injection Hstep as <-. destruct (_ =? n).
    + split; [done|]. eexists i, _, _. split_and!; [done..|]. constructor; auto.
    + split; [done|]. exists i, Spinning, Spinning. rewrite list_insert_id by done.
      split_and!; [done..|]. constructor; auto.
  - destruct (vcpu_run _ _) as [[c m] x]. injection Hstep as <-. split; [done|].
    eexists i, _, _. split_and!; [done..|]. constructor.
  - destruct slot as [cpu [x|]]; [|done].
    destruct (serve_exit _ _ _ _ _ _ x) as [[[res st]| |]|]; try done. cbn in Hstep.
    destruct (after_serving res) as [t| |] eqn:Ht; try done. injection Hstep as <-.
    split; [done|]. eexists i, _, t. split_and!; [done..|].
    destruct res as [[[]|]|]; try done; injection Ht as <-; constructor.
Qed.

(** ** The end of the guest *)

(** A step in which no further core exits and the signal finds its thread in
    [KVM_RUN], or ended. *)
Definition smp_calm (l : smp_label) s s' : Prop :=
  match l with
  | SServe i => ∀ code, smp_threads s' !! i ≠ Some (Exiting code)
  | SMain => ∀ k, smp_main s = MKicking k → smp_threads s !! k ≠ Some Serving
  | _ => True
  end.

Inductive smp_calm_run : list smp_label → smp K C W T → smp K C W T → Prop :=
| smp_calm_nil s : smp_calm_run [] s s
| smp_calm_cons l ls s s1 s2 :
    smp_step l s = Some (Ret s1) → smp_calm l s s1 → smp_calm_run ls s1 s2 →
    smp_calm_run (l :: ls) s s2.

(** Executions without end, in which the machine may also pause; what stands
    still for ever is one of them. *)
Definition smp_execution (lab : nat → option smp_label) (run : nat → smp K C W T) : Prop :=
  ∀ k, match lab k with
       | Some l => smp_step l (run k) = Some (Ret (run (S k))) ∧ smp_calm l (run k) (run (S k))
       | None => run (S k) = run k
       end.

(** The host's scheduler: the main thread, a thread at the barrier and a
    signalled thread are not passed over for ever when they can go on. *)
Definition fair (lab : nat → option smp_label) (run : nat → smp K C W T) : Prop :=
  ∀ k l, control_label l = true → is_Some (smp_step l (run k)) →
    ∃ k', (k ≤ k')%nat ∧ (lab k' = Some l ∨ smp_step l (run k') = None).

Section Exit.
Context (n i : nat) (c : Z).
Hypothesis Hkill : kill_ended_fails = false.

Lemma exit_step_control l a s s' :
  exit_inv n i c (control 0 s) → calm l (control 0 s) →
  Threads.step kill_ended_fails l (control 0 s) = Some a →
  smp_threads s' = threads a → smp_main s' = main a →
  exit_inv n i c (control 0 s') ∧
  (left n (control 0 s') + (if is_control l then 1 else 0) ≤ left n (control 0 s))%nat.
Proof.
  intros Hinv Hcalm Hstep Hts Hm.
  destruct (exit_step _ n i c Hkill _ _ _ Hinv Hcalm Hstep) as [[Hl Ho Hma] Hleft].
  unfold left, control, main_at in *. cbn in *. rewrite Hts, Hm.
  split; [|done]. split; cbn; [done..|]. unfold main_at. cbn. done.
Qed.

Lemma exit_inv_thread (a : system) j t :
  exit_inv n i c a → threads a !! j = Some t → t ≠ Spawned ∧ t ≠ Spinning.
Proof.
  intros [_ Ho Hm] Hj. destruct (exit_self n i c a Hm) as (t0 & Hi & Ht0).
  destruct (decide (j = i)) as [->|Hne].
  - rewrite Hi in Hj. injection Hj as <-. by destruct Ht0 as [-> |[-> | ->]].
  - by destruct (Ho j _ Hne Hj) as [-> |[-> |[-> | ->]]].
Qed.

(** Every step keeps the course; control steps bring the end closer. *)
Lemma smp_calm_step l s s' :
  exit_inv n i c (control 0 s) → smp_step l s = Some (Ret s') → smp_calm l s s' →
  exit_inv n i c (control 0 s') ∧
  (left n (control 0 s') + (if control_label l then 1 else 0) ≤ left n (control 0 s))%nat.
Proof.
  intros Hinv Hstep Hcalm. destruct (control_label l) eqn:Hl.
  - rewrite control_label_step in Hstep by done. apply bind_Some in Hstep as (a & Ha & [= <-]).
    assert (is_control (control_of l) = true) as Hc by by destruct l.
    destruct (exit_step_control (control_of l) a s (with_control a s) Hinv) as [Hi Hle];
      [by destruct l|done..|]. by rewrite Hc in Hle.
  - destruct (smp_step_move l s s' Hl Hstep) as (Hm & j & t & t' & Hj & Hts & Hmove).
    destruct (exit_inv_thread _ _ _ Hinv Hj) as [Hsp Hspin].
    assert (∀ m, moves false m t = Some t' → calm (LThread j m) (control 0 s) →
      is_control (LThread j m) = false → moves false m t = moves true m t →
      exit_inv n i c (control 0 s') ∧ (left n (control 0 s') + 0 ≤ left n (control 0 s))%nat) as Hgo.
    { intros m Hmv Hc Hno Hsame.
      destruct (exit_step_control (LThread j m) (set_thread j t' (control 0 s)) s s' Hinv Hc)
        as [Hi Hle]; [|done..|by rewrite Hno in Hle].
      cbn. rewrite Hj. cbn. destruct (bool_decide _); [rewrite <- Hsame|]; by rewrite Hmv. }
    destruct Hmove as [j t| | | | |j code]; try done.
    + by apply (Hgo Trap).
    + by apply (Hgo Resume).
    + by apply (Hgo Crash).
    + destruct (Hcalm code). rewrite Hts. apply list_lookup_insert_eq. by eapply lookup_lt_Some.
Qed.

Lemma smp_calm_run_controls ls s s' :
  exit_inv n i c (control 0 s) → smp_calm_run ls s s' →
  (length (filter (λ l, control_label l = true) ls) ≤ left n (control 0 s))%nat.
Proof.
  intros Hinv Hrun. induction Hrun as [s|l ls s s1 s2 Hstep Hcalm _ IH]; [cbn; lia|].
  destruct (smp_calm_step _ _ _ Hinv Hstep Hcalm) as [Hinv1 Hleft]. specialize (IH Hinv1).
  rewrite filter_cons. destruct (control_label l);
    [rewrite decide_True by done|rewrite decide_False by done]; cbn [length]; lia.
Qed.

(** The control step that is due, in the machine. *)
Definition smp_due s : smp_label :=
  match due i (control 0 s) with LThread k _ => SKicked k | LReport j => SReport j | _ => SMain end.

Lemma smp_due_enabled s :
  exit_inv n i c (control 0 s) → smp_main s = MReturned c ∨ is_Some (smp_step (smp_due s) s).
Proof.
  intros Hinv. destruct (due_enabled _ n i c Hkill _ Hinv) as [|[a Ha]]; [by left|right].
  unfold smp_due. pose proof (due_control i (control 0 s)) as Hctl.
  destruct (due i (control 0 s)) as [k []| | |]; try done; cbn [smp_step Threads.step] in *;
    rewrite Ha; by eexists.
Qed.

Lemma smp_due_control s : control_label (smp_due s) = true.
Proof.
  unfold smp_due. pose proof (due_control i (control 0 s)). by destruct (due i _) as [? []| | |].
Qed.

(** The other threads do not change what is due. *)
Lemma smp_due_stable l s s' :
  control_label l = false → smp_step l s = Some (Ret s') →
  smp_due s' = smp_due s ∧ smp_main s' = smp_main s.
Proof.
  intros Hl Hstep. destruct (smp_step_move l s s' Hl Hstep) as (Hm & j & t & t' & Hj & Hts & Hmove).
  split; [|done]. unfold smp_due, due, control. cbn. rewrite Hm.
  destruct (smp_main s) as [| | |k codes| |]; try done.
  assert (smp_threads s' !! k = Some Interrupted ↔ smp_threads s !! k = Some Interrupted) as Hiff.
  { rewrite Hts. apply lookup_lt_Some in Hj as Hlt.
    destruct (decide (j = k)) as [<-|]; [|by rewrite list_lookup_insert_ne].
    rewrite list_lookup_insert_eq, Hj by done. destruct Hmove; destruct_or?; naive_solver. }
  by destruct (decide _) as [H1'|H1'], (decide _) as [H2'|H2']; try done; exfalso; tauto.
Qed.

(** Without end and without a control step nothing becomes due or is done. *)
Lemma execution_idle lab run k d :
  smp_execution lab run →
  (∀ j, (k ≤ j < k + d)%nat → match lab j with Some l => control_label l = false | None => True end) →
  smp_due (run (k + d)%nat) = smp_due (run k) ∧ smp_main (run (k + d)%nat) = smp_main (run k).
Proof.
  intros Hexec. induction d as [|d IH]; intros Hno; [by rewrite Nat.add_0_r|].
  destruct IH as [Hd Hm]; [intros j Hj; apply Hno; lia|].
  specialize (Hexec (k + d)%nat). specialize (Hno (k + d)%nat ltac:(lia)).
  rewrite Nat.add_succ_r. destruct (lab (k + d)%nat) as [l|]; [|by rewrite Hexec].
  destruct (smp_due_stable _ _ _ Hno (proj1 Hexec)) as [-> ->]. done.
Qed.

Lemma execution_inv lab run k d :
  smp_execution lab run → exit_inv n i c (control 0 (run k)) →
  exit_inv n i c (control 0 (run (k + d)%nat)) ∧
  (left n (control 0 (run (k + d)%nat)) ≤ left n (control 0 (run k)))%nat.
Proof.
  intros Hexec Hinv. induction d as [|d [IHi IHl]]; [by rewrite Nat.add_0_r|].
  specialize (Hexec (k + d)%nat). rewrite Nat.add_succ_r.
  destruct (lab (k + d)%nat) as [l|]; [|by rewrite Hexec].
  destruct (smp_calm_step _ _ _ IHi (proj1 Hexec) (proj2 Hexec)) as [Hi' Hl']. split; [done|lia].
Qed.

(** Up to any point either a control step is taken, or none is. *)
Lemma first_control (lab : nat → option smp_label) k d :
  (∃ j l, (k ≤ j < k + d)%nat ∧ lab j = Some l ∧ control_label l = true) ∨
  ∀ j, (k ≤ j < k + d)%nat → match lab j with Some l => control_label l = false | None => True end.
Proof.
  induction d as [|d [(j & l & Hj & Hl)|IH]]; [right; lia|left; exists j, l; split; [lia|done]|].
  destruct (lab (k + d)%nat) as [l|] eqn:Hlab.
  - destruct (control_label l) eqn:Hc; [left; exists (k + d)%nat, l; split; [lia|done]|right].
    intros j Hj. destruct (decide (j = k + d)%nat) as [->|]; [by rewrite Hlab|]. apply IH. lia.
  - right. intros j Hj. destruct (decide (j = k + d)%nat) as [->|]; [by rewrite Hlab|]. apply IH. lia.
Qed.

(** Fairness: a control step is taken, or the code has been returned. *)
Lemma control_taken lab run k :
  smp_execution lab run → fair lab run → exit_inv n i c (control 0 (run k)) →
  smp_main (run k) = MReturned c ∨
  ∃ j l, (k ≤ j)%nat ∧ lab j = Some l ∧ control_label l = true.
Proof.
  intros Hexec Hfair Hinv. destruct (smp_due_enabled _ Hinv) as [|Hen]; [by left|right].
  destruct (Hfair k _ (smp_due_control _) Hen) as (k' & Hle & Hk').
  replace k' with (k + (k' - k))%nat in Hk' by lia.
  destruct (first_control lab k (k' - k)) as [(j & l & Hj & Hl)|Hno]; [by exists j, l; split; [lia|]|].
  destruct (execution_idle lab run k (k' - k) Hexec Hno) as [Hdue Hmain].
  destruct Hk' as [Hk'|Hk']; [eexists _, _; split_and!; [|exact Hk'|apply smp_due_control]; lia|].
  destruct (execution_inv lab run k (k' - k) Hexec Hinv) as [Hinv' _].
  destruct (smp_due_enabled _ Hinv') as [Hret|Hen']; [|rewrite Hdue, Hk' in Hen'; by destruct Hen'].
  rewrite Hmain in Hret. unfold smp_due, due in Hen. cbn in Hen. rewrite Hret in Hen.
  cbn [smp_step] in Hen. unfold main_step in Hen. cbn in Hen. rewrite Hret in Hen. by destruct Hen.
Qed.

Lemma execution_returns lab run :
  smp_execution lab run → fair lab run → ∀ k, exit_inv n i c (control 0 (run k)) →
  ∃ k', smp_main (run k') = MReturned c.
Proof.
  intros Hexec Hfair k. remember (left n (control 0 (run k))) as m eqn:Hm.
  revert k Hm. induction m as [m IH] using lt_wf_ind. intros k -> Hinv.
  destruct (control_taken lab run k Hexec Hfair Hinv) as [|(j & l & Hj & Hlab & Hl)]; [by exists k|].
  destruct (execution_inv lab run k (j - k) Hexec Hinv) as [Hinvj Hleft].
  replace (k + (j - k))%nat with j in * by lia. pose proof (Hexec j) as Hstep. rewrite Hlab in Hstep.
  destruct (smp_calm_step _ _ _ Hinvj (proj1 Hstep) (proj2 Hstep)) as [Hinv' Hlt].
  rewrite Hl in Hlt. eapply (IH _ _ (S j) eq_refl Hinv').
  Unshelve. lia.
Qed.

End Exit.

(** A thread that leaves the service of an exit with a code. *)
Lemma smp_exit_begins n i c s s1 :
  all_up n (abs s) → smp_step (SServe i) s = Some (Ret s1) →
  smp_threads s1 !! i = Some (Exiting c) →
  exit_inv n i c (control 0 s1) ∧ (left n (control 0 s1) ≤ 3 * n + 5)%nat.
Proof.
  intros [Hl Ho Hm] Hstep Hi.
  destruct (smp_step_move (SServe i) s s1 eq_refl Hstep) as (Hmain & j & t & t' & Hj & Hts & Hmove).
  apply lookup_lt_Some in Hj as Hlt.
  assert (j = i ∧ t = Serving) as [-> ->] by by inversion Hmove.
  rewrite Hts, list_lookup_insert_eq in Hi by done. injection Hi as ->.
  apply (exit_begins kill_ended_fails n i c (control 0 s)); [by split|].
  cbn. rewrite Hj. cbn. unfold control. by rewrite Hmain, Hts.
Qed.

(** C6: The exit code of a guest gets out of the machine.  All cores are up and
    the service of an exit ends core [i] with the code [c]; from there on no
    other core exits or panics, and the signal finds every other core in the
    guest or ended; signalling a thread that has ended is not an error.  Then the main thread, the barrier and the signalled threads
    take at most [3 * n + 5] steps, however often the other cores enter the
    guest and are served.  And when the host's scheduler does not pass over
    them for ever, every execution comes to the point where [run] returns
    [c]. *)
Theorem smp_exit_returns n i c s s1 :
  kill_ended_fails = false → all_up n (abs s) →
  smp_step (SServe i) s = Some (Ret s1) → smp_threads s1 !! i = Some (Exiting c) →
  (∀ ls s', smp_calm_run ls s1 s' →
     (length (filter (λ l, control_label l = true) ls) ≤ 3 * n + 5)%nat) ∧
  (∀ lab run, run 0%nat = s1 → smp_execution lab run → fair lab run →
     ∃ k, smp_main (run k) = MReturned c).
Proof.
  intros Hkill Hup Hstep Hi. destruct (smp_exit_begins n i c s s1 Hup Hstep Hi) as [Hinv Hleft]. split.
  - intros ls s' Hrun. pose proof (smp_calm_run_controls n i c Hkill ls s1 s' Hinv Hrun). lia.
  - intros lab run <- Hexec Hfair. by apply (execution_returns n i c Hkill lab run Hexec Hfair 0).
Qed.

(** ** What every execution keeps *)

(** The states in which a thread has a vCPU. *)
Definition has_vcpu (t : thread) : bool :=
  match t with Spinning | Running | Serving | Interrupted => true | _ => false end.

(** What the barrier, a kick and the main thread do to a thread. *)
Definition control_change (t t' : thread) : Prop :=
  t' = t ∨ t = Running ∧ t' = Interrupted ∨ has_vcpu t' = false.

Lemma control_insert i t t' (ts ts0 : list thread) :
  Forall2 control_change ts0 ts → ts !! i = Some t → t' = kick t ∨ has_vcpu t' = false →
  Forall2 control_change ts0 (<[i := t']> ts).
Proof.
  intros Hts Hi Ht'. apply lookup_lt_Some in Hi as Hlt.
  destruct (Forall2_lookup_r _ _ _ _ _ Hts Hi) as (t0 & Ht0i & Ht0).
  apply Forall2_lookup. intros j. rewrite Forall2_lookup in Hts.
  destruct (decide (i = j)) as [<-|Hne]; [|by rewrite list_lookup_insert_ne].
  rewrite list_lookup_insert_eq, Ht0i by done. constructor.
  destruct Ht' as [->|]; [|by right; right]. unfold control_change in *.
  destruct Ht0 as [-> |[[-> ->]|Hv]]; [destruct t0; cbn; auto|by auto|destruct t; cbn in *; auto].
Qed.

Lemma control_step l c c' :
  match l with LThread _ Kicked | LReport _ | LMain => True | _ => False end →
  Threads.step kill_ended_fails l c = Some c' → Forall2 control_change (threads c) (threads c').
Proof.
  assert (Forall2 control_change (threads c) (threads c)) as Hrefl.
  { apply Forall2_lookup. intros j. destruct (threads c !! j); constructor. by left. }
  intros Hl Hc. destruct l as [i mv|i|i|]; try done; cbn [Threads.step] in Hc.
  - destruct mv; try done. destruct (threads c !! i) as [[]|] eqn:Hi; cbn in Hc; try done.
    injection Hc as <-. eapply control_insert; [done..|by right].
  - destruct (threads c !! i) as [[]|] eqn:Hi; try done. injection Hc as <-. unfold thread_barrier.
    destruct (waiter c) as [[j t]|] eqn:Hw.
    + apply waiter_Some in Hw as [Hj [code' ->]]. assert (i ≠ j) by (intros ->; congruence).
      eapply control_insert; [|cbn; by rewrite list_lookup_insert_ne|by right].
      eapply control_insert; [done..|by right].
    + destruct (decide _); (eapply control_insert; [done..|by right]).
  - unfold main_step in Hc. destruct (main c) as [| |k|k codes| |]; try done.
    + destruct (waiter c) as [[j t]|] eqn:Hw; [|by injection Hc as <-].
      apply waiter_Some in Hw as [Hj [code' ->]]. injection Hc as <-.
      eapply control_insert; [done..|by right].
    + destruct (threads c !! k) as [t|] eqn:Hk; [|by injection Hc as <-].
      destruct (_ && _); injection Hc as <-; [done|]. eapply control_insert; [done..|by left].
    + destruct (threads c !! k) as [[| | | | | | | |[]|]|]; try done; try (by injection Hc as <-).
      destruct codes as [|? []]; by injection Hc as <-.
Qed.

(** The vCPU of thread [i] belongs to the machine [v]. *)
Record vcpu_of_vm (v : Uhyve K T) (i : nat) (cpu : UhyveCPU C) : Prop := {
  vv_id : cpu_id cpu = Z.of_nat i;
  vv_start : cpu_vm_start cpu = mmap_host_address (vm_memory v);
  vv_path : cpu_kernel_path cpu = path v;
}.

Definition slot_wf (v : Uhyve K T) (i : nat) (t : thread) (o : option (vcpu_slot C)) : Prop :=
  (has_vcpu t = true → is_Some o) ∧
  ∀ slot, o = Some slot → vcpu_of_vm v i (slot_cpu slot) ∧ (t = Serving → is_Some (slot_exit slot)).

Record smp_wf (v : Uhyve K T) s : Prop := {
  sw_vm : smp_vm s = v;
  sw_device : device_wf (smp_device s);
  sw_map : same_map (contents v) (h_mem (smp_host s));
  sw_length : length (smp_slots s) = length (smp_threads s);
  sw_slots i t o : smp_threads s !! i = Some t → smp_slots s !! i = Some o → slot_wf v i t o;
}.

Lemma smp_wf_slot v s i t :
  smp_wf v s → smp_threads s !! i = Some t → ∃ o, smp_slots s !! i = Some o ∧ slot_wf v i t o.
Proof.
  intros Hs Hi. destruct (lookup_lt_is_Some_2 (smp_slots s) i) as [o Ho].
  { rewrite (sw_length _ _ Hs). by eapply lookup_lt_Some. }
  exists o. split; [done|]. by eapply (sw_slots _ _ Hs).
Qed.

(** A thread that goes on with a vCPU of the machine. *)
Lemma smp_wf_put v s i t0 t o h d sent :
  smp_wf v s → smp_threads s !! i = Some t0 → slot_wf v i t o → device_wf d →
  same_map (h_mem (smp_host s)) (h_mem h) →
  smp_wf v (Smp (smp_vm s) h d sent (<[i := o]> (smp_slots s)) (<[i := t]> (smp_threads s))
              (smp_main s)).
Proof.
  intros [Hv Hd Hm Hl Hs] Hi Hslot Hd' Hm'. split; cbn; [done|done|by etrans| |].
  - by rewrite !length_insert.
  - intros j t' o' Ht Ho.
    apply list_lookup_insert_Some in Ht as [(-> & <- & _)|[Hne Ht]].
    + apply list_lookup_insert_Some in Ho as [(_ & <- & _)|[? _]]; done.
    + rewrite list_lookup_insert_ne in Ho by done. by eapply Hs.
Qed.

Lemma smp_wf_control v s c l :
  smp_wf v s → match l with LThread _ Kicked | LReport _ | LMain => True | _ => False end →
  Threads.step kill_ended_fails l (control 0 s) = Some c → smp_wf v (with_control c s).
Proof.
  intros [Hv Hd Hm Hl Hs] Hlab Hc. apply control_step in Hc; [|done]. cbn in Hc.
  split; cbn; [done..|by rewrite Hl, (Forall2_length _ _ _ Hc)|].
  intros i t' o Ht Ho. destruct (Forall2_lookup_r _ _ _ _ _ Hc Ht) as (t & Hi & Hch).
  destruct (Hs i t o Hi Ho) as [Hhas Hslot]. split.
  - intros Hv'. apply Hhas. destruct Hch as [<-|[[-> _]|Hf]]; [done|done|congruence].
  - intros slot Hslot'. destruct (Hslot slot Hslot') as [Hof Hex]. split; [done|].
    intros ->. apply Hex. by destruct Hch as [<-|[[_ ?]|?]].
Qed.

Context `{!KvmRunLaws C}.

Lemma start_vcpu_of v i cpu : start_vcpu v (Z.of_nat i) = Ret cpu → vcpu_of_vm v i cpu.
Proof.
  unfold start_vcpu, create_cpu, try_bind, expect. intros Hc. exec_inv.
  repeat match goal with Hr : match ?r with Ok _ => _ | Err _ => _ end = Ret _ |- _ =>
    destruct r; try done end.
  exec_inv. by split.
Qed.

(** A vCPU stays what it is through [KVM_RUN] and the service of an exit. *)
Lemma vcpu_of_vm_wf v i (st st' : vm_state C W T) :
  vcpu_of_vm v i (st_cpu st) → vm_wf st st' → vcpu_of_vm v i (st_cpu st').
Proof. intros [] []. by split; congruence. Qed.

Lemma smp_step_wf v l s s' : smp_wf v s → smp_step l s = Some (Ret s') → smp_wf v s'.
Proof.
  intros Hs Hstep. pose proof Hs as [Hv Hd _ _ _].
  destruct l as [i|i|i|i|i|i|]; cbn [smp_step] in Hstep.
  - destruct (smp_threads s !! i) as [[]|] eqn:Hi; try done.
    destruct (start_vcpu _ _) as [cpu| |] eqn:Hcpu; try done; injection Hstep as <-;
      (eapply smp_wf_put; [done|done| |done|done]).
    + split; [by eexists|]. intros slot [= <-]. split; [|done]. rewrite Hv in Hcpu. by apply start_vcpu_of.
    + by split.
  - destruct (smp_threads s !! i) as [[]|] eqn:Hi; try done.
    destruct (smp_wf_slot v s i _ Hs Hi) as (o & Ho & Hslot). rewrite Ho in Hstep.
    destruct o as [slot|]; [|done]. destruct (online_now s) as [n| |]; try done. injection Hstep as <-.
    destruct (_ =? n); [|done]. eapply smp_wf_put; [done|done| |done|done].
    split; [by eexists|]. intros slot' [= <-]. by split; [apply Hslot|].
  - destruct (smp_threads s !! i) as [[]|] eqn:Hi; try done.
    destruct (smp_wf_slot v s i _ Hs Hi) as (o & Ho & Hslot). rewrite Ho in Hstep.
    destruct o as [slot|]; [|done]. destruct (vcpu_run _ _) as [[c m] r] eqn:Hrun.
    injection Hstep as <-. pose proof (vcpu_run_wf (view s (slot_cpu slot)) c m r Hd Hrun) as Hwf.
    eapply smp_wf_put; [done|done| |apply Hwf|apply Hwf].
    split; [by eexists|]. intros slot' [= <-]. split; [|by eexists].
    exact (vcpu_of_vm_wf v i (view s (slot_cpu slot)) _ (proj1 (proj2 Hslot slot eq_refl)) Hwf).
  - destruct (smp_threads s !! i) as [[]|] eqn:Hi; try done.
    destruct (smp_wf_slot v s i _ Hs Hi) as (o & Ho & Hslot). rewrite Ho in Hstep.
    destruct o as [[cpu [r|]]|]; try done.
    destruct (serve_exit _ _ _ _ _ _ r) as [[[res st]| |]|] eqn:Hserve; try done. cbn in Hstep.
    destruct (after_serving res) as [t| |] eqn:Ht; try done. injection Hstep as <-.
    apply serve_exit_wf in Hserve as Hwf; [|done].
    eapply smp_wf_put; [done|done| |apply Hwf|apply Hwf].
    split; [by eexists|]. intros slot' [= <-]. split.
    + apply (vcpu_of_vm_wf v i (view s cpu) st); [|exact Hwf]. by apply (proj2 Hslot (Slot cpu (Some r))).
    + intros ->. destruct res as [[[]|]|]; done.
  - destruct (Threads.step _ _ _) as [c|] eqn:Hc; [|done]. injection Hstep as <-.
    by eapply (smp_wf_control v s c (LThread i Kicked)).
  - destruct (Threads.step _ _ _) as [c|] eqn:Hc; [|done]. injection Hstep as <-.
    by eapply (smp_wf_control v s c (LReport i)).
  - destruct (main_step _ _) as [c|] eqn:Hc; [|done]. injection Hstep as <-.
    by eapply (smp_wf_control v s c LMain).
Qed.

Lemma smp_start_wf v w : device_wf (virtio_device v) → smp_wf v (smp_start v w).
Proof.
  intros Hd. split; cbn; [done|done|done|by rewrite !length_replicate|].
  intros i t o [-> _]%lookup_replicate [-> _]%lookup_replicate. by split.
Qed.

(** C14: Whatever the guest does on any number of cores, and however the threads
    interleave: the network device stays well formed, guest memory is the
    mapping the machine was created with, every vCPU keeps its number and the
    start of that mapping, and a thread that is to run the guest or to serve
    an exit has a vCPU to do it with, so that [KVM_RUN] can always be
    called. *)
Theorem smp_keeps_wf v w s :
  device_wf (virtio_device v) →
  rtc (λ s s', ∃ l, smp_step l s = Some (Ret s')) (smp_start v w) s →
  smp_wf v s ∧ ∀ i, smp_threads s !! i = Some Running → ∃ s', smp_step (SRun i) s = Some (Ret s').
Proof.
  intros Hd Hr. assert (smp_wf v s) as Hs.
  { pose proof (smp_start_wf v w Hd) as Hstart. clear Hd. remember (smp_start v w) as s0. clear Heqs0.
    induction Hr as [|s1 s2 s3 [l Hl] _ IH]; [done|]. apply IH. by eapply smp_step_wf. }
  split; [done|]. intros i Hi. destruct (smp_wf_slot v s i _ Hs Hi) as (o & Ho & Hslot).
  destruct (proj1 Hslot eq_refl) as [slot ->]. cbn [smp_step]. rewrite Hi, Ho.
  destruct (vcpu_run _ _) as [[c m] r]. by eexists.
Qed.

(** ** Where the exit code comes from *)

Definition smp_next s s' : Prop := ∃ l, smp_step l s = Some (Ret s').

(** Core [i] has left the guest to exit with [code]. *)
Definition exits_with (v : Uhyve K T) (i : nat) (code : Z) s : Prop :=
  smp_threads s !! i = Some Serving ∧
  ∃ cpu x, smp_slots s !! i = Some (Some (Slot cpu (Some (Ok x)))) ∧
    guest_exits (mmap_host_address (vm_memory v)) (h_mem (smp_host s)) x code.

Lemma exits_served v i code s :
  smp_wf v s → exits_with v i code s →
  ∃ s', smp_step (SServe i) s = Some (Ret s') ∧ smp_threads s' !! i = Some (Exiting code).
Proof.
  intros Hs (Hi & cpu & x & Hslot & Hx). destruct (sw_slots _ _ Hs i _ _ Hi Hslot) as [_ Hof].
  destruct (Hof _ eq_refl) as [[_ Hstart _] _]. cbn [slot_cpu] in Hstart. rewrite <- Hstart in Hx.
  cbn [smp_step]. rewrite Hi, Hslot.
  rewrite (proj2 (serve_exit_code env args vars write_fuel tx_fuel (view s cpu) (Ok x) code (view s cpu)));
    [|by exists x]. cbn. eexists. split; [done|]. apply list_lookup_insert_eq. by eapply lookup_lt_Some.
Qed.

Lemma served_exits v i code s s' :
  smp_wf v s → smp_step (SServe i) s = Some (Ret s') → smp_threads s' !! i = Some (Exiting code) →
  exits_with v i code s.
Proof.
  intros Hs Hstep Hcode. cbn [smp_step] in Hstep.
  destruct (smp_threads s !! i) as [[]|] eqn:Hi; try done.
  destruct (smp_slots s !! i) as [[[cpu [x|]]|]|] eqn:Hslot; try done.
  destruct (serve_exit _ _ _ _ _ _ x) as [[[res st]| |]|] eqn:Hserve; try done. cbn in Hstep.
  destruct (after_serving res) as [t| |] eqn:Ht; try done. injection Hstep as <-. cbn in Hcode.
  rewrite list_lookup_insert_eq in Hcode by (by eapply lookup_lt_Some). injection Hcode as ->.
  destruct res as [[[| |]|]|]; try done. injection Ht as ->.
  apply serve_exit_code in Hserve as (x' & -> & Hx & _).
  destruct (sw_slots _ _ Hs i _ _ Hi Hslot) as [_ Hof]. destruct (Hof _ eq_refl) as [[_ Hstart _] _].
  split; [done|]. exists cpu, x'. split; [done|]. by rewrite <- Hstart.
Qed.

Lemma codes_insert i t t' (ts ts0 : list thread) :
  thread_code <$> ts = thread_code <$> ts0 → ts !! i = Some t → thread_code t' = thread_code t →
  thread_code <$> <[i := t']> ts = thread_code <$> ts0.
Proof.
  intros <- Hi Ht. rewrite list_fmap_insert. apply list_insert_id. by rewrite list_lookup_fmap, Hi, Ht.
Qed.

Lemma control_codes l c c' :
  is_control l = true → Threads.step kill_ended_fails l c = Some c' →
  thread_code <$> threads c' = thread_code <$> threads c.
Proof.
  intros Hl Hc. destruct l as [i mv|i|i|]; try done; cbn [Threads.step] in Hc.
  - destruct mv; try done. destruct (threads c !! i) as [[]|] eqn:Hi; cbn in Hc; try done.
    injection Hc as <-. by eapply codes_insert.
  - destruct (threads c !! i) as [[]|] eqn:Hi; try done. injection Hc as <-. unfold thread_barrier.
    destruct (waiter c) as [[j t]|] eqn:Hw.
    + apply waiter_Some in Hw as [Hj [code' ->]]. assert (i ≠ j) by (intros ->; congruence).
      eapply codes_insert; [|cbn; by rewrite list_lookup_insert_ne|done]. by eapply codes_insert.
    + destruct (decide _); by eapply codes_insert.
  - unfold main_step in Hc. destruct (main c) as [| |k|k codes| |]; try done.
    + destruct (waiter c) as [[j t]|] eqn:Hw; [|by injection Hc as <-].
      apply waiter_Some in Hw as [Hj [code' ->]]. injection Hc as <-. by eapply codes_insert.
    + destruct (threads c !! k) as [t|] eqn:Hk; [|by injection Hc as <-].
      destruct (_ && _); injection Hc as <-; [done|]. eapply codes_insert; [done..|]. by destruct t.
    + destruct (threads c !! k) as [[| | | | | | | |[]|]|]; try done; try (by injection Hc as <-).
      destruct codes as [|? []]; by injection Hc as <-.
Qed.

(** Every code the threads know is one the guest exited with. *)
Record origin_inv (v : Uhyve K T) (w : W) s : Prop := {
  or_wf : smp_wf v s;
  or_length : length (smp_threads s) = Z.to_nat (num_cpus v);
  or_returns : returns_inv (control 0 s);
  or_code i code : (thread_code <$> smp_threads s) !! i = Some (Some code) →
    ∃ s0 s1, rtc smp_next (smp_start v w) s0 ∧ exits_with v i code s0 ∧
      smp_step (SServe i) s0 = Some (Ret s1) ∧ rtc smp_next s1 s;
}.

Lemma origin_step v w l s s' :
  rtc smp_next (smp_start v w) s → origin_inv v w s → smp_step l s = Some (Ret s') → origin_inv v w s'.
Proof.
  intros Hr [Hwf Hlen Hret Hcode] Hstep.
  assert (∀ i code, (thread_code <$> smp_threads s) !! i = Some (Some code) →
    ∃ s0 s1, rtc smp_next (smp_start v w) s0 ∧ exits_with v i code s0 ∧
      smp_step (SServe i) s0 = Some (Ret s1) ∧ rtc smp_next s1 s') as Hold.
  { intros i code Hi. destruct (Hcode i code Hi) as (s0 & s1 & Hs0 & Hx & Hs1 & Hs).
    exists s0, s1. split_and!; [done..|]. eapply rtc_r; [done|by exists l]. }
  destruct (control_label l) eqn:Hl.
  - pose proof Hstep as Hc. rewrite control_label_step in Hc by done.
    apply bind_Some in Hc as (a & Ha & [= Heq]).
    assert (is_control (control_of l) = true) as Hctl by by destruct l.
    pose proof (control_codes _ _ _ Hctl Ha) as Hcodes. cbn in Hcodes.
    split; [by eapply smp_step_wf| | |]; rewrite <- Heq; cbn.
    + by rewrite <- Hlen, <- (length_fmap thread_code (threads a)), Hcodes, length_fmap.
    + exact (stable_step _ _ _ _ _ (returns_stable) Hret Ha).
    + rewrite Hcodes, Heq. exact Hold.
  - destruct (smp_step_move l s s' Hl Hstep) as (Hm & j & t & t' & Hj & Hts & Hmove).
    split; [by eapply smp_step_wf|by rewrite Hts, length_insert| |].
    + unfold control. rewrite Hm, Hts. apply (returns_set (control 0 s) j t t' Hret Hj).
      by destruct Hmove.
    + intros i code Hi. rewrite list_lookup_fmap, Hts in Hi.
      destruct (decide (j = i)) as [->|Hne];
        [|apply Hold; by rewrite list_lookup_insert_ne, <- list_lookup_fmap in Hi].
      rewrite list_lookup_insert_eq in Hi by (by eapply lookup_lt_Some). cbn in Hi.
      destruct Hmove as [i t [-> | ->]|i t [-> | ->]|i|i|i|i code']; try done.
      injection Hi as ->. exists s, s'. split_and!; [done| |done|apply rtc_refl].
      eapply served_exits; [done..|]. rewrite Hts. apply list_lookup_insert_eq. by eapply lookup_lt_Some.
Qed.

Lemma origin_reachable v w s :
  device_wf (virtio_device v) → rtc smp_next (smp_start v w) s → origin_inv v w s.
Proof.
  intros Hd Hr. refine (rtc_ind_r (origin_inv v w) (smp_start v w) _ _ s Hr);
    [|intros s1 s2 Hs1 [l Hl] IH; by eapply origin_step].
  split; [by apply smp_start_wf|cbn; apply length_replicate|done|].
  intros i code Hi. cbn in Hi. by rewrite fmap_replicate, lookup_replicate in Hi; destruct Hi.
Qed.

(** C4: The exit code of the machine is the guest's.  Whatever the cores do and
    however the threads interleave: a core that leaves the guest to exit with
    a code, which it left in guest memory or which is 0 for a shutdown, is
    stopped with that code; and when [run] returns a code, every thread has
    ended, exactly one of them with a code, and that core had left the guest
    to exit with it. *)
Theorem smp_exit_code_from_guest v w s :
  device_wf (virtio_device v) → rtc smp_next (smp_start v w) s →
  (∀ i code, exits_with v i code s →
     ∃ s', smp_step (SServe i) s = Some (Ret s') ∧ smp_threads s' !! i = Some (Exiting code)) ∧
  (∀ code, smp_main s = MReturned code →
     length (smp_threads s) = Z.to_nat (num_cpus v) ∧
     Forall (λ t, finished t = true) (smp_threads s) ∧ omap exit_code (smp_threads s) = [code] ∧
     ∃ i s0 s1, smp_threads s !! i = Some (Finished (Some code)) ∧
       rtc smp_next (smp_start v w) s0 ∧ exits_with v i code s0 ∧
       smp_step (SServe i) s0 = Some (Ret s1) ∧ rtc smp_next s1 s).
Proof.
  intros Hd Hr. destruct (origin_reachable v w s Hd Hr) as [Hwf Hlen Hret Hcode].
  split; [intros i code; by apply exits_served|]. intros code Hm.
  unfold returns_inv in Hret. cbn in Hret. rewrite Hm in Hret. destruct Hret as [Hfin Hone].
  split_and!; [done..|].
  assert (code ∈ omap exit_code (smp_threads s)) as (t & Hin & Ht)%list_elem_of_omap by (rewrite Hone; by left).
  apply list_elem_of_lookup in Hin as [i Hi]. destruct t as [| | | | | | | |r|]; try done. cbn in Ht. subst r.
  destruct (Hcode i code) as (s0 & s1 & Hrest); [by rewrite list_lookup_fmap, Hi|]. by exists i, s0, s1.
Qed.

(** Before the guest runs, the threads are as Threads.v starts them. *)
Lemma abs_start v w : cpu_online v = Ret 0 → abs (smp_start v w) = start (Z.to_nat (num_cpus v)).
Proof.
  intros Hon. unfold abs, online_of, online_now. cbn. unfold cpu_online in *. cbn in *. by rewrite Hon.
Qed.

(** The exit code of a guest: when [run] returns a code, every vCPU thread has
    ended, one of them, and no other, with that code. *)
Lemma smp_returns v w s code :
  cpu_online v = Ret 0 → rtc smp_steps (smp_start v w) s → smp_main s = MReturned code →
  length (smp_threads s) = Z.to_nat (num_cpus v) ∧
  Forall (λ t, finished t = true) (smp_threads s) ∧ omap exit_code (smp_threads s) = [code].
Proof.
  intros Hon Hr Hm. apply smp_steps_refine in Hr. rewrite abs_start in Hr by done.
  split; [|by eapply (returns_exit_code kill_ended_fails _ (abs s))].
  by destruct (startup_reachable _ _ _ Hr) as [Hl _ _ _].
Qed.

End Smp.

(** ** Two cores *)
Module Example.
#[local] Existing Instance debug_profile.
#[local] Existing Instance Virtio.Example.net.
#[local] Existing Instance LinuxVm.Example.example_kvm.
#[local] Existing Instance VcpuLoop.Example.example_vcpu.
#[local] Existing Instance VcpuLoop.Example.example_run.
#[local] Existing Instance VcpuLoop.Example.example_run_laws.
#[local] Existing Instance VcpuLoop.Example.example_control.
Import Hypercalls.Example.

(** Both cores count themselves and halt; then the first one exits with the
    code 7. *)
Definition counter : Z := base + BOOT_INFO_ADDR + BootInfo.cpu_online.
Definition script (id : Z) : list (list (Z * list Z) * VcpuExit) :=
  if id =? 0 then
    [([(counter, le_split 4 1)], ExitHlt);
     ([(base + 0x2100, le_split 4 7)], ExitIoOut UHYVE_PORT_EXIT (le_split 4 0x2100))]
  else [([(counter, le_split 4 2)], ExitHlt)].
#[local] Instance example_create : KvmCreate unit VcpuLoop.Example.vcpu :=
  {| create_vcpu _ id := Ok (VcpuLoop.Example.fresh (script id)) |}.

Definition machine : Uhyve unit unit := {|
  vm_fd := (); offset := 0; entry_point := 0x200000;
  vm_memory := {| mmap_flags := 0; mmap_memory_size := 0x100000; mmap_guest_address := 0;
                  mmap_host_address := base |};
  contents := Mem base 0x100000 ∅; num_cpus := 2; path := []; boot_info := base + BOOT_INFO_ADDR;
  uhyve_verbose := false; ip := None; gateway := None; mask := None; uhyve_device := None;
  virtio_device := Virtio.Example.fresh; gdb_port := None |}.

Definition schedule : list smp_label :=
  [SCreate 0; SCreate 1; SSpin 1; SSpin 0; SRun 0; SServe 0; SSpin 1; SRun 1; SServe 1; SMain; SRun 0;
   SServe 0; SReport 0; SMain; SMain; SMain; SMain; SKicked 1; SMain; SMain].

Definition machine_step (l : smp_label) (s : smp unit VcpuLoop.Example.vcpu world unit) :
    option (exec (smp unit VcpuLoop.Example.vcpu world unit)) :=
  smp_step Virtio.Example.tap [] [] 5 10 false l s.

#[local] Instance guest_counts_dec l (s s' : smp unit VcpuLoop.Example.vcpu world unit) :
  Decision (guest_counts l s s').
Proof. destruct l; cbn; apply _. Defined.

(** Runs a schedule of a guest that counts its cores. *)
Fixpoint run_machine (ls : list smp_label) (s : smp unit VcpuLoop.Example.vcpu world unit) :
    option (smp unit VcpuLoop.Example.vcpu world unit) :=
  match ls with
  | [] => Some s
  | l :: ls' =>
      match machine_step l s with
      | Some (Ret s') => if decide (guest_counts l s s') then run_machine ls' s' else None
      | _ => None
      end
  end.

Lemma run_machine_steps ls s s' :
  run_machine ls s = Some s' → rtc (smp_steps Virtio.Example.tap [] [] 5 10 false) s s'.
Proof.
  revert s. induction ls as [|l ls IH]; intros s Hs; cbn [run_machine] in Hs.
  { injection Hs as ->. apply rtc_refl. }
  destruct (machine_step l s) as [[s1| |]|] eqn:Hl; try done.
  destruct (decide _) as [Hc|]; [|done]. eapply rtc_l; [by exists l|by apply IH].
Qed.

Definition started : smp unit VcpuLoop.Example.vcpu world unit := smp_start machine (World [] 3).

Lemma machine_ends :
  ∃ s, run_machine schedule started = Some s ∧ smp_main s = MReturned 7.
Proof. eexists. split; [vm_compute; reflexivity|reflexivity]. Qed.

Lemma smp_exit_code_from_guest_witness :
  ∃ (s s0 : smp unit VcpuLoop.Example.vcpu world unit) i,
    smp_main s = MReturned 7 ∧ smp_threads s !! i = Some (Finished (Some 7)) ∧
    exits_with machine i 7 s0.
Proof.
  destruct machine_ends as (s & Hs & Hm).
  destruct (smp_exit_code_from_guest Virtio.Example.tap [] [] 5 10 false machine (World [] 3) s)
    as [_ Hret].
  - split; [reflexivity|reflexivity|constructor].
  - apply run_machine_steps in Hs. eapply rtc_subrel; [|exact Hs]. intros a b (l & Hl & _). by exists l.
  - destruct (Hret 7 Hm) as (_ & _ & _ & i & s0 & s1 & Hi & _ & Hx & _). exists s, s0, i.
    split; [exact Hm|]. split; [exact Hi|exact Hx].
Defined.

(** Both cores are up and the first one has asked for the end; it is served. *)
Definition after (n : nat) : smp unit VcpuLoop.Example.vcpu world unit :=
  default started (run_machine (take n schedule) started).

Lemma machine_exits :
  smp_step Virtio.Example.tap [] [] 5 10 false (SServe 0) (after 11) = Some (Ret (after 12)) ∧
  smp_threads (after 12) !! 0%nat = Some (Exiting 7) ∧ all_up 2 (abs (after 11)).
Proof.
  split; [vm_compute; reflexivity|]. split; [vm_compute; reflexivity|].
  split; [vm_compute; reflexivity| |right; vm_compute; reflexivity].
  assert (threads (abs (after 11)) = [Serving; Running]) as -> by (vm_compute; reflexivity).
  intros [|[|j]] t Hj; cbn in Hj; try done; injection Hj as <-; auto.
Qed.

(** The rest of the schedule, and then nothing any more. *)
Definition rest (k : nat) : option smp_label := drop 12 schedule !! k.
Definition run_rest (k : nat) : smp unit VcpuLoop.Example.vcpu world unit :=
  default (after 20) ((after <$> seq 12 9) !! k).

Lemma run_rest_late k : run_rest (9 + k) = after 20.
Proof.
  unfold run_rest. rewrite lookup_ge_None_2; [reflexivity|]. rewrite length_fmap, length_seq. lia.
Qed.

Lemma run_rest_starts : run_rest 0 = after 12.
Proof. vm_compute. reflexivity. Qed.

Lemma rest_executes : smp_execution Virtio.Example.tap [] [] 5 10 false rest run_rest.
Proof.
  intros k. destruct (decide (9 ≤ k)%nat) as [Hk|Hk].
  - replace k with (9 + (k - 9))%nat by lia. rewrite <- Nat.add_succ_r, !run_rest_late.
    unfold rest. by rewrite lookup_ge_None_2 by (cbn; lia).
  - do 8 (destruct k as [|k];
      [split; [vm_compute; reflexivity|
               cbn [rest schedule drop lookup list_lookup smp_calm];
               first [exact I | vm_compute; intros k [= <-]; discriminate | vm_compute; discriminate]]|]).
    destruct k; [|lia]. vm_compute. reflexivity.
Qed.

Lemma rest_fair : fair Virtio.Example.tap [] [] 5 10 false rest run_rest.
Proof.
  intros k l Hl _. exists (9 + k)%nat. split; [lia|right].
  rewrite run_rest_late, control_label_step by done.
  assert (control 0 (after 20) = System 0 [Finished (Some 7); Finished None] (MReturned 7)) as ->
    by (vm_compute; reflexivity).
  destruct l as [| | | |[|[|i]]|[|[|i]]|]; done.
Qed.

Lemma smp_exit_returns_witness :
  smp_threads (after 12) !! 0%nat = Some (Exiting 7) ∧ ∃ k, smp_main (run_rest k) = MReturned 7.
Proof.
  destruct machine_exits as (Hstep & Hi & Hup). split; [exact Hi|].
  refine (proj2 (smp_exit_returns Virtio.Example.tap [] [] 5 10 false 2 0 7 (after 11) (after 12)
    eq_refl Hup Hstep Hi) rest run_rest run_rest_starts rest_executes rest_fair).
Defined.

Lemma smp_keeps_wf_witness :
  ∃ s : smp unit VcpuLoop.Example.vcpu world unit, smp_main s = MReturned 7 ∧ smp_wf machine s.
Proof.
  destruct machine_ends as (s & Hs & Hm). exists s. split; [exact Hm|].
  apply (smp_keeps_wf Virtio.Example.tap [] [] 5 10 false machine (World [] 3) s).
  - split; [reflexivity|reflexivity|constructor].
  - apply run_machine_steps in Hs. eapply rtc_subrel; [|exact Hs]. intros a b (l & Hl & _). by exists l.
Defined.

End Example.
