(* ===== verification/MacSmp.v ===== *)
(** * The whole machine on macOS ([Uhyve::run] of src/macos/mod.rs)

    The threads of Threads.v with the code of their vCPUs: each thread creates
    its vCPU and brings it up, waits for its predecessor by reading the counter
    in guest memory, runs the guest and sends the exit code to the main thread.
    Guest memory, the outside world and the I/O APIC are shared; a run of the
    guest and the service of its exit are one step each, so that the threads
    interleave between them.  A panic while an exit is served may leave the
    mutex of the I/O APIC poisoned; executions are followed up to there. *)

From S2P Require Import Prelude Memory Consts Paging AddressSpace Hypercalls CommandLine Loader.
From S2P Require Import LinuxVm LinuxVcpu VcpuLoop IoApic MacSetup MacVcpu MacVm Threads.

(** A thread's vCPU, with the result of its run that is to be served. *)
Record mac_slot (C : Type) := MacSlot {
  mslot_cpu : MacCPU C;
  mslot_exit : option (result Z unit);
}.
Arguments MacSlot {C} _ _.
Arguments mslot_cpu {C} _.
Arguments mslot_exit {C} _.

Record mac_smp (C W : Type) := MacSmp {
  msmp_vm : MacUhyve;
  msmp_host : host W;
  msmp_ioapic : IoApic;
  msmp_slots : list (option (mac_slot C));
  msmp_threads : list thread;
  (** [exit_tx] and [exit_rx], and what [run] returned. *)
  msmp_channel : list Z;
  msmp_main : option Z;
}.
Arguments MacSmp {C W} _ _ _ _ _ _ _.
Arguments msmp_vm {C W} _.
Arguments msmp_host {C W} _.
Arguments msmp_ioapic {C W} _.
Arguments msmp_slots {C W} _.
Arguments msmp_threads {C W} _.
Arguments msmp_channel {C W} _.
Arguments msmp_main {C W} _.

Inductive mac_label :=
| XCreate (i : nat) | XSpin (i : nat) | XRun (i : nat) | XServe (i : nat) | XReport (i : nat) | XMain.

Section MacSmp.
Context `{Profile, XVm C} `{!XHypervisor C} `{VmxConsts, X86_64Control}.
Context `{HostOS W, Burst, HostCpuid}.
Context (log_debug : bool) (args : list (list Z)) (vars : list (list Z * list Z)).
Context (write_fuel : nat).
Implicit Types s : mac_smp C W.

(** [vm.create_cpu(cpu_id).unwrap()] and [cpu.init(...).unwrap()]. *)
Definition mac_start_vcpu (v : MacUhyve) (cpu_id : Z) : exec (MacCPU C) :=
  r ← mac_create_cpu v cpu_id;
  cpu ← expect r;
  '(r, c) ← default Panic (mac_init log_debug (get_entry_point v) (mc_vcpu cpu));
  expect r ;;
  Ret (McCpu (mc_id cpu) (mc_kernel_path cpu) c (mc_vm_start cpu) (mc_apic_base cpu)).

(** [vm.cpu_online()], in the memory as it is now. *)
Definition mac_online_now s : exec Z :=
  mac_cpu_online (set_guest_mem (h_mem (msmp_host s)) (msmp_vm s)).

(** What a vCPU works on. *)
Definition mac_view s (cpu : MacCPU C) : mac_state C W :=
  MacState cpu (msmp_host s) (msmp_ioapic s).

(** Thread [i] continues in state [t], with its vCPU in [slot], and has left
    the shared state as in [st]. *)
Definition mac_put (i : nat) (t : thread) (slot : option (mac_slot C)) (st : mac_state C W) s :
    mac_smp C W :=
  MacSmp (msmp_vm s) (mst_host st) (mst_ioapic st) (<[i := slot]> (msmp_slots s))
    (<[i := t]> (msmp_threads s)) (msmp_channel s) (msmp_main s).
Definition mac_set_state (i : nat) (t : thread) (slot : option (mac_slot C)) s : mac_smp C W :=
  MacSmp (msmp_vm s) (msmp_host s) (msmp_ioapic s) (<[i := slot]> (msmp_slots s))
    (<[i := t]> (msmp_threads s)) (msmp_channel s) (msmp_main s).

(** The part of the state Threads.v knows, with [n] cores up. *)
Definition mac_control (n : nat) s : mac_system :=
  MacSystem n (msmp_threads s) (msmp_channel s) (msmp_main s).
Definition mac_with_control (c : mac_system) s : mac_smp C W :=
  MacSmp (msmp_vm s) (msmp_host s) (msmp_ioapic s) (msmp_slots s) (mac_threads c) (mac_channel c)
    (mac_main c).

(** The result of [run]: an exit code is sent, a kick or an error ends the
    thread, a debug exit is unreachable. *)
Definition mac_after_serving (r : result Z (option MacStopReason)) : exec thread :=
  match r with
  | Ok None => Ret Running
  | Ok (Some (MacExit code)) => Ret (Exiting code)
  | Ok (Some MacKick) => Ret (Finished None)
  | Ok (Some MacDebug) => Panic
  | Err _ => Ret (Finished None)
  end.

(** [self.vcpu.run()?] is the step before; its error is propagated here. *)
Definition mac_serve_exit (r : result Z unit) : hv (mac_state C W) (option MacStopReason) :=
  match r with
  | Ok _ => mac_serve args vars write_fuel
  | Err e => λ st, Some (Ret (Err e, st))
  end.

Definition mac_smp_step (l : mac_label) s : option (exec (mac_smp C W)) :=
  match l with
  | XCreate i =>
      match msmp_threads s !! i with
      | Some Spawned =>
          Some (match mac_start_vcpu (msmp_vm s) (Z.of_nat i) with
                | Ret cpu => Ret (mac_set_state i Spinning (Some (MacSlot cpu None)) s)
                | Panic => Ret (mac_set_state i Failed None s)
                | Fault => Fault
                end)
      | _ => None
      end
  | XSpin i =>
      match msmp_threads s !! i, msmp_slots s !! i with
      | Some Spinning, Some (Some slot) =>
          Some (n ← mac_online_now s;
                Ret (if Z.of_nat i =? n then mac_set_state i Running (Some slot) s else s))
      | _, _ => None
      end
  | XRun i =>
      match msmp_threads s !! i, msmp_slots s !! i with
      | Some Running, Some (Some slot) =>
          out ← guest_runs (mac_view s (mslot_cpu slot));
          Some ('(r, st) ← out;
                Ret (mac_put i Serving (Some (MacSlot (mst_cpu st) (Some r))) st s))
      | _, _ => None
      end
  | XServe i =>
      match msmp_threads s !! i, msmp_slots s !! i with
      | Some Serving, Some (Some (MacSlot cpu (Some r))) =>
          out ← mac_serve_exit r (mac_view s cpu);
          Some ('(res, st) ← out;
                t ← mac_after_serving res;
                Ret (mac_put i t (Some (MacSlot (mst_cpu st) None)) st s))
      | _, _ => None
      end
  | XReport i =>
      c ← mac_step (LReport i) (mac_control 0 s);
      Some (Ret (mac_with_control c s))
  | XMain =>
      c ← mac_step LMain (mac_control 0 s);
      Some (Ret (mac_with_control c s))
  end.

(** The machine when the threads are spawned: one per core. *)
Definition mac_smp_start (v : MacUhyve) (w : W) : mac_smp C W :=
  MacSmp v (Host (mu_contents v) w) (mu_ioapic v) (replicate (Z.to_nat (mu_num_cpus v)) None)
    (replicate (Z.to_nat (mu_num_cpus v)) Spawned) [] None.

(** ** The counter of cores *)

Definition mac_online_of s : nat :=
  match mac_online_now s with Ret n => Z.to_nat n | _ => 0 end.

(** The guest counts a core when it is up, while it runs, and no hypercall
    writes the counter. *)
Definition mac_guest_counts (l : mac_label) s s' : Prop :=
  match l with
  | XRun i =>
      mac_online_of s' = mac_online_of s ∨ mac_online_of s = i ∧ mac_online_of s' = S i
  | _ => mac_online_of s' = mac_online_of s
  end.

(** A step of the machine, and one of a guest that counts its cores. *)
Definition mac_smp_next s s' : Prop := ∃ l, mac_smp_step l s = Some (Ret s').
Definition mac_smp_steps s s' : Prop :=
  ∃ l, mac_smp_step l s = Some (Ret s') ∧ mac_guest_counts l s s'.

(** ** Refinement *)

Definition mac_abs s : mac_system := mac_control (mac_online_of s) s.

Lemma mac_step_other_online l n c c' :
  match l with LReport _ | LMain => True | _ => False end →
  mac_step l c = Some c' →
  mac_step l (MacSystem n (mac_threads c) (mac_channel c) (mac_main c)) =
    Some (MacSystem n (mac_threads c') (mac_channel c') (mac_main c')).
Proof.
  destruct c as [k ts ch m]. destruct l as [i mv|i|i|]; try done; cbn.
  - intros _. destruct (ts !! i) as [[]|]; try done. intros [= <-]. by destruct m.
  - intros _. destruct m, ch; try done. by intros [= <-].
Qed.

Lemma mac_control_refines l c s s' :
  match l with LReport _ | LMain => True | _ => False end →
  mac_step l (mac_control 0 s) = Some c → s' = mac_with_control c s →
  rtc mac_steps (mac_abs s) (mac_abs s').
Proof.
  intros Hl Hc ->. apply rtc_once. exists l.
  apply (mac_step_other_online _ (mac_online_of s)) in Hc; done.
Qed.

(** Each step of the machine is at most two steps of the threads. *)
Lemma mac_smp_step_refines l s s' :
  mac_smp_step l s = Some (Ret s') → mac_guest_counts l s s' →
  rtc mac_steps (mac_abs s) (mac_abs s').
Proof.
  intros Hstep Hcount.
  assert (∀ i m t t', msmp_threads s !! i = Some t →
    moves (bool_decide (i = mac_online_of s)) m t = Some t' →
    mac_step (LThread i m) (mac_abs s) = Some (set_mac_thread i t' (mac_abs s))) as Hmove.
  { intros i m t t' Hi Hm. cbn. rewrite Hi. cbn. by rewrite Hm. }
  destruct l as [i|i|i|i|i|]; cbn [mac_smp_step mac_guest_counts] in *.
  - destruct (msmp_threads s !! i) as [[]|] eqn:Hi; try done. unfold mac_abs at 2. rewrite Hcount.
    destruct (mac_start_vcpu _ _) as [cpu| |]; try done; injection Hstep as <-; apply rtc_once;
      [exists (LThread i (Create true))|exists (LThread i (Create false))]; by eapply Hmove.
  - destruct (msmp_threads s !! i) as [[]|] eqn:Hi; try done.
    destruct (msmp_slots s !! i) as [[slot|]|] eqn:Hslot; try done.
    destruct (mac_online_now s) as [n| |] eqn:Hn; try done. injection Hstep as <-.
    destruct (Z.eqb_spec (Z.of_nat i) n) as [<-|]; [|apply rtc_refl].
    apply rtc_once. exists (LThread i Enter). unfold mac_abs at 2. rewrite Hcount.
    eapply Hmove; [done|].
    assert (mac_online_of s = i) as -> by (unfold mac_online_of; rewrite Hn; lia).
    by rewrite bool_decide_eq_true_2.
  - destruct (msmp_threads s !! i) as [[]|] eqn:Hi; try done.
    destruct (msmp_slots s !! i) as [[slot|]|] eqn:Hslot; try done.
    destruct (guest_runs _) as [[[r st]| |]|]; try done. cbn in Hstep. injection Hstep as <-.
    unfold mac_abs at 2. destruct Hcount as [Hon|[Hon Hon']].
    + apply rtc_once. exists (LThread i Trap). rewrite Hon. by eapply Hmove.
    + rewrite Hon'. eapply rtc_l; [exists (LOnline i); cbn; by rewrite Hi, decide_True|].
      apply rtc_once. exists (LThread i Trap). cbn. by rewrite Hi, Hon.
  - destruct (msmp_threads s !! i) as [[]|] eqn:Hi; try done.
    destruct (msmp_slots s !! i) as [[[cpu [r|]]|]|] eqn:Hslot; try done.
    destruct (mac_serve_exit r _) as [[[res st]| |]|]; try done. cbn in Hstep.
    destruct (mac_after_serving res) as [t| |] eqn:Ht; try done. injection Hstep as <-.
    unfold mac_abs at 2. rewrite Hcount. apply rtc_once.
    destruct res as [[[|code|]|]|e]; cbn in Ht; try done; injection Ht as <-;
      [exists (LThread i (ExitWith code))|exists (LThread i Crash)|exists (LThread i Resume)|
       exists (LThread i Crash)]; by eapply Hmove.
  - destruct (mac_step _ _) as [c|] eqn:Hc; [|done]. injection Hstep as <-.
    by eapply mac_control_refines; [|exact Hc|].
  - destruct (mac_step _ _) as [c|] eqn:Hc; [|done]. injection Hstep as <-.
    by eapply mac_control_refines; [|exact Hc|].
Qed.

Lemma mac_smp_steps_refine s s' :
  rtc mac_smp_steps s s' → rtc mac_steps (mac_abs s) (mac_abs s').
Proof.
  induction 1 as [|s1 s2 s3 (l & Hl & Hcount) _ IH]; [apply rtc_refl|].
  etrans; [by eapply mac_smp_step_refines|exact IH].
Qed.

(** ** What every execution keeps *)

(** [st'] has the vCPU's parameters and the mapping that [st] has, and a
    well-formed I/O APIC if [st] has one. *)
Record mac_kept (st st' : mac_state C W) : Prop := {
  mk_id : mc_id (mst_cpu st') = mc_id (mst_cpu st);
  mk_start : mc_vm_start (mst_cpu st') = mc_vm_start (mst_cpu st);
  mk_path : mc_kernel_path (mst_cpu st') = mc_kernel_path (mst_cpu st);
  mk_map : same_map (h_mem (mst_host st)) (h_mem (mst_host st'));
  mk_ioapic : ioapic_wf (mst_ioapic st) → ioapic_wf (mst_ioapic st');
}.

#[local] Instance mac_kept_preorder : PreOrder mac_kept.
Proof.
  split; [by split|]. intros s1 s2 s3 [] []. split; [congruence..|by etrans|auto].
Qed.

(** A computation that keeps the state so and returns what [P] allows. *)
Definition keeps {A} (P : A → Prop) (p : hv (mac_state C W) A) : Prop :=
  ∀ st r st', p st = Some (Ret (r, st')) → mac_kept st st' ∧ ∀ a, r = Ok a → P a.

Lemma keeps_ret {A} (P : A → Prop) a : P a → keeps P (mret a).
Proof. intros HP st r st' [= <- <-]. split; [done|]. by intros a' [= <-]. Qed.

Lemma keeps_bind {A B} (P : A → Prop) (Q : B → Prop) p (k : A → hv (mac_state C W) B) :
  keeps P p → (∀ a, P a → keeps Q (k a)) → keeps Q (p ≫= k).
Proof.
  intros Hp Hk st r st' Hr. unfold mbind, hv_bind in Hr.
  destruct (p st) as [[[[a|e] st1]| |]|] eqn:Hst; try done.
  - destruct (Hp _ _ _ Hst) as [Hs1 HP]. destruct (Hk a (HP a eq_refl) _ _ _ Hr) as [Hs2 HQ].
    split; [by etrans|done].
  - injection Hr as <- <-. destruct (Hp _ _ _ Hst) as [Hs1 _]. by split.
Qed.

Lemma keeps_weaken {A} (P Q : A → Prop) p : (∀ a, P a → Q a) → keeps P p → keeps Q p.
Proof. intros HPQ Hp st r st' Hr. destruct (Hp _ _ _ Hr) as [? HP]. split; [done|]. eauto. Qed.

Lemma keeps_query {A} (f : mac_state C W → result Z A) : keeps (λ _, True) (query f).
Proof. intros st r st' [= <- <-]. by split. Qed.

Lemma keeps_lift {A} (P : A → Prop) (e : exec A) : (∀ a, e = Ret a → P a) → keeps P (lift_exec e).
Proof.
  intros HP st r st' Hr. unfold lift_exec in Hr. destruct e as [a| |]; try done.
  injection Hr as <- <-. split; [done|]. intros a' [= <-]. by apply HP.
Qed.

Lemma keeps_update (f : mac_state C W → result Z (mac_state C W)) :
  (∀ st st', f st = Ok st' → mac_kept st st') → keeps (λ _, True) (update f).
Proof.
  intros Hf st r st' Hr. unfold update in Hr. split; [|done].
  destruct (f st) eqn:He; injection Hr as <- <-; [by apply Hf|done].
Qed.

Lemma keeps_on_host (f : host W → exec (host W)) :
  (∀ h h', f h = Ret h' → same_map (h_mem h) (h_mem h')) → keeps (λ _, True) (on_host f).
Proof.
  intros Hf st r st' Hr. unfold on_host in Hr. split; [|done].
  destruct (f (mst_host st)) as [h| |] eqn:He; try done. injection Hr as <- <-.
  split; [done..|by apply Hf|done].
Qed.

Lemma keeps_on_vcpu (f : C → result Z C) : keeps (λ _, True) (on_vcpu f).
Proof.
  apply keeps_update. intros st st' Hf. destruct (f _) as [c|]; [|done]. by injection Hf as <-.
Qed.

Lemma keeps_apic_base b : keeps (λ _, True) (modify (set_apic_base b)).
Proof. apply keeps_update. by intros st st' [= <-]. Qed.

Create HintDb keeps discriminated.
#[local] Hint Resolve keeps_query keeps_on_vcpu keeps_apic_base : keeps.

(** Follows a computation; what the steps return does not matter. *)
Ltac keeps :=
  repeat match goal with
  | |- keeps _ (mret _) => by apply keeps_ret
  | |- keeps _ (mbind _ _) => eapply (keeps_bind (λ _, True)); [|intros ? _]
  | |- keeps _ (if ?b then _ else _) => destruct b
  | |- keeps _ (lift_exec _) => by apply keeps_lift
  | |- keeps _ (match ?x with _ => _ end) => destruct x
  | |- keeps _ _ => solve [auto with keeps | eapply keeps_weaken; [|solve [auto with keeps]]; done]
  end.

Lemma keeps_rd32 r : keeps (λ v, 0 ≤ v) (rd32 r).
Proof.
  eapply (keeps_bind (λ _, True)); [apply keeps_query|]. intros v _. apply keeps_ret.
  apply Z.land_nonneg. by right.
Qed.
#[local] Hint Resolve keeps_rd32 : keeps.

Lemma keeps_advance rip len : keeps (λ _, True) (advance rip len).
Proof. unfold advance, wr. keeps. Qed.
#[local] Hint Resolve keeps_advance : keeps.

Lemma keeps_cpuid rip : keeps (λ _, True) (emulate_cpuid rip).
Proof. unfold emulate_cpuid, write_id_regs, wr, rd, rd_vmcs. keeps. Qed.

Lemma keeps_rdmsr rip : keeps (λ _, True) (emulate_rdmsr rip).
Proof. unfold emulate_rdmsr, wr, rd_vmcs, get. keeps. Qed.

Lemma keeps_wrmsr rip : keeps (λ _, True) (emulate_wrmsr rip).
Proof. unfold emulate_wrmsr, rd_edx_eax, wr_vmcs, rd_vmcs. keeps. Qed.

Lemma keeps_xsetbv rip : keeps (λ _, True) (emulate_xsetbv rip).
Proof. unfold emulate_xsetbv, rd_edx_eax, wr, rd_vmcs. keeps. Qed.

(** A write to the window of the I/O APIC. *)
Lemma keeps_ioapic_write offset val :
  0 ≤ val →
  keeps (λ _, True) (a ← get mst_ioapic; a ← lift_exec (ioapic_write a offset val); modify (set_ioapic a)).
Proof.
  intros Hval st r st' Hr. split; [|done].
  unfold mbind, hv_bind, get, query, lift_exec in Hr.
  destruct (ioapic_write _ _ _) as [a| |] eqn:Hw; try done. injection Hr as <- <-.
  split; [done..|]. intros Hwf. by eapply ioapic_write_wf.
Qed.

Lemma keeps_ioapic rip address : keeps (λ _, True) (emulate_ioapic rip address).
Proof.
  unfold emulate_ioapic. eapply (keeps_bind (λ _, True)); [apply keeps_query|intros len _].
  do 3 (eapply (keeps_bind (λ _, True)); [apply keeps_query|intros ? _]).
  do 2 (eapply (keeps_bind (λ _, True)); [by apply keeps_lift|intros ? _]).
  eapply (keeps_bind (λ _, True)); [|intros ? _; apply keeps_advance].
  destruct (disassemble_64 _ _) as [instr|]; [|keeps]. destruct (operation instr); [|keeps].
  unfold ioapic_mov. eapply (keeps_bind (λ _, True)).
  - destruct (negb _); [|keeps]. eapply (keeps_bind (λ v, 0 ≤ v)).
    + assert (0 ≤ wrap 64 (immediate_1 instr)) by (apply wrap_range; lia).
      destruct (operand_1 instr); cbn [operand_register]; try apply keeps_rd32;
        [by apply keeps_ret|by apply keeps_lift].
    + intros v Hv. eapply (keeps_bind (λ _, True)); [by apply keeps_lift|intros o _].
      by apply keeps_ioapic_write.
  - intros ? _. unfold wr, get. keeps.
Qed.

Lemma keeps_call port p : keeps (λ _, True) (mac_call args vars write_fuel port p).
Proof.
  unfold mac_call. eapply (keeps_bind (λ _, True)); [apply keeps_query|intros cpu _].
  unfold on_mem. repeat case_match;
    try (apply keeps_on_host; intros h h' Hh; first
      [eapply (map_of_handler (mc_vm_start cpu)); by eauto 10
      |exec_inv; first [by eapply cmdsize_map|by eapply cmdval_map]]).
  intros st r st' Hr. split; [|done]. unfold mac_write, on_host in Hr.
  destruct (VirtualCPU.write _ _ _ _) as [[[h [res|]]| |]|] eqn:Hw; try done.
  cbn in Hr. injection Hr as <- <-. split; [done..| |done].
  cbn. by rewrite (write_loop_host _ _ _ _ _ _ Hw).
Qed.

#[local] Hint Resolve keeps_cpuid keeps_rdmsr keeps_wrmsr keeps_xsetbv keeps_ioapic keeps_call : keeps.

Lemma uart_map (h h' : host W) bs :
  unwrapped (VirtualCPU.uart h bs) = Ret h' → same_map (h_mem h) (h_mem h').
Proof.
  unfold VirtualCPU.uart. destruct (os_stdout_write_all _ _) as [w [u|e]]; [|done].
  by intros [= <-].
Qed.

Lemma keeps_io_port port rip len :
  keeps (λ _, True) (mac_io_port args vars write_fuel port rip len).
Proof.
  unfold mac_io_port, mac_data_addr, get, rd. keeps.
  apply keeps_on_host. intros h h'. apply uart_map.
Qed.
#[local] Hint Resolve keeps_io_port : keeps.

Lemma keeps_serve : keeps (λ _, True) (mac_serve args vars write_fuel).
Proof. unfold mac_serve, mac_exit, mac_io, rd_vmcs, rd. keeps. Qed.

Lemma keeps_serve_exit r : keeps (λ _, True) (mac_serve_exit r).
Proof.
  destruct r as [u|e]; [apply keeps_serve|]. intros st r st' [= <- <-]. by split.
Qed.

Context `{!XHypervisorLaws C}.

Lemma keeps_guest_runs : keeps (λ _, True) guest_runs.
Proof.
  intros st r st' Hr. split; [|done]. unfold guest_runs in Hr.
  destruct (hv_run _ _) as [[c m] r1] eqn:Hrun. injection Hr as <- <-.
  split; [done..| |done]. by eapply hv_run_map.
Qed.

(** The vCPU of thread [i] belongs to the machine [v]. *)
Record mac_cpu_of (v : MacUhyve) (i : nat) (cpu : MacCPU C) : Prop := {
  mv_id : mc_id cpu = Z.of_nat i;
  mv_start : mc_vm_start cpu = mu_guest_mem v;
  mv_path : mc_kernel_path cpu = mu_path v;
}.

(** A thread that waits to enter the guest, runs it or serves an exit has a
    vCPU. *)
Definition mac_slot_wf (v : MacUhyve) (i : nat) (t : thread) (o : option (mac_slot C)) : Prop :=
  (t = Spinning ∨ t = Running ∨ t = Serving → is_Some o) ∧
  ∀ slot, o = Some slot → mac_cpu_of v i (mslot_cpu slot) ∧ (t = Serving → is_Some (mslot_exit slot)).

Record mac_smp_wf (v : MacUhyve) s : Prop := {
  mw_vm : msmp_vm s = v;
  mw_ioapic : ioapic_wf (msmp_ioapic s);
  mw_map : same_map (mu_contents v) (h_mem (msmp_host s));
  mw_length : length (msmp_slots s) = length (msmp_threads s);
  mw_slots i t o : msmp_threads s !! i = Some t → msmp_slots s !! i = Some o → mac_slot_wf v i t o;
}.

Lemma mac_smp_wf_slot v s i t :
  mac_smp_wf v s → msmp_threads s !! i = Some t →
  ∃ o, msmp_slots s !! i = Some o ∧ mac_slot_wf v i t o.
Proof.
  intros Hs Hi. destruct (lookup_lt_is_Some_2 (msmp_slots s) i) as [o Ho].
  { rewrite (mw_length _ _ Hs). by eapply lookup_lt_Some. }
  exists o. split; [done|]. by eapply (mw_slots _ _ Hs).
Qed.

(** A thread that goes on in state [t]. *)
Lemma mac_smp_wf_put v s i t0 t o h a ch mn :
  mac_smp_wf v s → msmp_threads s !! i = Some t0 → mac_slot_wf v i t o → ioapic_wf a →
  same_map (h_mem (msmp_host s)) (h_mem h) →
  mac_smp_wf v (MacSmp (msmp_vm s) h a (<[i := o]> (msmp_slots s)) (<[i := t]> (msmp_threads s)) ch mn).
Proof.
  intros [Hv Ha Hm Hl Hs] Hi Hslot Ha' Hm'. split; cbn; [done|done|by etrans| |].
  - by rewrite !length_insert.
  - intros j t' o' Ht Ho.
    apply list_lookup_insert_Some in Ht as [(-> & <- & _)|[Hne Ht]].
    + apply list_lookup_insert_Some in Ho as [(_ & <- & _)|[? _]]; done.
    + rewrite list_lookup_insert_ne in Ho by done. by eapply Hs.
Qed.

Lemma mac_cpu_of_kept v i st st' :
  mac_cpu_of v i (mst_cpu st) → mac_kept st st' → mac_cpu_of v i (mst_cpu st').
Proof. intros [] []. by split; congruence. Qed.

Lemma mac_start_vcpu_of v i cpu : mac_start_vcpu v (Z.of_nat i) = Ret cpu → mac_cpu_of v i cpu.
Proof.
  unfold mac_start_vcpu, mac_create_cpu, mac_cpu_new. intros Hc. destruct vcpu_create; [|done].
  cbn in Hc. exec_inv. destruct (default Panic _) as [[r c]| |]; try done. cbn in Hc. exec_inv.
  by split.
Qed.

(** Reporting a code and returning it leave the vCPUs alone. *)
Lemma mac_smp_wf_control v s c l :
  mac_smp_wf v s → match l with LReport _ | LMain => True | _ => False end →
  mac_step l (mac_control 0 s) = Some c → mac_smp_wf v (mac_with_control c s).
Proof.
  intros [Hv Ha Hm Hl Hs] Hlab Hc. destruct l as [i mv|i|i|]; try done; cbn in Hc.
  - destruct (msmp_threads s !! i) as [[]|] eqn:Hi; try done. injection Hc as <-.
    assert (∀ t ch mn, finished t = true ∨ t = Panicked → mac_smp_wf v (mac_with_control
      (MacSystem 0 (<[i := t]> (msmp_threads s)) ch mn) s)) as Hend.
    { intros t ch mn Ht. split; cbn; [done..|by rewrite length_insert|]. intros j t' o Ht' Ho.
      apply list_lookup_insert_Some in Ht' as [(<- & <- & _)|[_ Ht']]; [|by eapply Hs].
      destruct (Hs _ _ _ Hi Ho) as [_ Hslot]. split.
      - intros [-> |[-> | ->]]; by destruct Ht.
      - intros slot Hsl. split; [by apply Hslot|]. intros ->. by destruct Ht. }
    unfold mac_send. cbn [mac_main mac_control]. destruct (msmp_main s); apply Hend; by auto.
  - destruct (msmp_main s); [done|]. destruct (msmp_channel s); [done|]. injection Hc as <-. by split.
Qed.

Lemma mac_smp_step_wf v l s s' :
  mac_smp_wf v s → mac_smp_step l s = Some (Ret s') → mac_smp_wf v s'.
Proof.
  intros Hs Hstep. pose proof Hs as [Hv Ha _ _ _].
  destruct l as [i|i|i|i|i|]; cbn [mac_smp_step] in Hstep.
  - destruct (msmp_threads s !! i) as [[]|] eqn:Hi; try done.
    destruct (mac_start_vcpu _ _) as [cpu| |] eqn:Hcpu; try done; injection Hstep as <-;
      (eapply mac_smp_wf_put; [done|done| |done|done]).
    + split; [by eexists|]. intros slot [= <-]. split; [|done]. rewrite Hv in Hcpu. by apply mac_start_vcpu_of.
    + split; [by intros [|[]]|done].
  - destruct (msmp_threads s !! i) as [[]|] eqn:Hi; try done.
    destruct (mac_smp_wf_slot v s i _ Hs Hi) as (o & Ho & Hslot). rewrite Ho in Hstep.
    destruct o as [slot|]; [|done]. destruct (mac_online_now s) as [n| |]; try done.
    injection Hstep as <-. destruct (_ =? n); [|done].
    eapply mac_smp_wf_put; [done|done| |done|done].
    split; [by eexists|]. intros slot' [= <-]. by split; [apply Hslot|].
  - destruct (msmp_threads s !! i) as [[]|] eqn:Hi; try done.
    destruct (mac_smp_wf_slot v s i _ Hs Hi) as (o & Ho & Hslot). rewrite Ho in Hstep.
    destruct o as [slot|]; [|done]. cbn in Hstep.
    destruct (guest_runs _) as [[[r st]| |]|] eqn:Hrun; try done. injection Hstep as <-.
    destruct (keeps_guest_runs _ _ _ Hrun) as [Hk _].
    eapply mac_smp_wf_put; [done|done| |by apply Hk|apply Hk].
    split; [by eexists|]. intros slot' [= <-]. split; [|by eexists].
    eapply mac_cpu_of_kept; [|exact Hk]. by apply Hslot.
  - destruct (msmp_threads s !! i) as [[]|] eqn:Hi; try done.
    destruct (mac_smp_wf_slot v s i _ Hs Hi) as (o & Ho & Hslot). rewrite Ho in Hstep.
    destruct o as [[cpu [r|]]|]; try done.
    destruct (mac_serve_exit r _) as [[[res st]| |]|] eqn:Hserve; try done. cbn in Hstep.
    destruct (mac_after_serving res) as [t| |] eqn:Ht; try done. injection Hstep as <-.
    destruct (keeps_serve_exit _ _ _ _ Hserve) as [Hk _].
    eapply mac_smp_wf_put; [done|done| |by apply Hk|apply Hk].
    split; [by eexists|]. intros slot' [= <-]. split.
    + eapply mac_cpu_of_kept; [|exact Hk]. by apply (proj2 Hslot (MacSlot cpu (Some r))).
    + intros ->. destruct res as [[[]|]|]; done.
  - destruct (mac_step _ _) as [c|] eqn:Hc; [|done]. injection Hstep as <-.
    by eapply (mac_smp_wf_control v s c (LReport i)).
  - destruct (mac_step _ _) as [c|] eqn:Hc; [|done]. injection Hstep as <-.
    by eapply (mac_smp_wf_control v s c LMain).
Qed.

Lemma mac_smp_start_wf v w : ioapic_wf (mu_ioapic v) → mac_smp_wf v (mac_smp_start v w).
Proof.
  intros Ha. split; cbn; [done..|by rewrite !length_replicate|].
  intros i t o [-> _]%lookup_replicate [-> _]%lookup_replicate. split; [by intros [|[]]|done].
Qed.

(** ** Where the exit code comes from *)

(** How a guest exits: it writes the physical address of a [SysExit] that holds
    its code to the exit port, or anything to the shutdown port, which counts
    as the code 0. *)
Record port_exit (c : C) (port : Z) : Prop := {
  pe_reason : ∃ reason, read_vmcs c VMCS_RO_EXIT_REASON = Ok reason ∧
    Z.land reason 0xffff = VMX_REASON_IO;
  pe_port : ∃ q, read_vmcs c VMCS_RO_EXIT_QUALIFIC = Ok q ∧ Z.land q 8 = 0 ∧
    Z.land (Z.shiftr q 16) 0xFFFF = port;
}.

Inductive mac_guest_exits (vm_start : Z) (m : mem) (c : C) : Z → Prop :=
| mac_exits_port v p code :
    port_exit c UHYVE_PORT_EXIT → read_register c RAX = Ok v →
    host_address vm_start (Z.land v 0xFFFFFFFF) = Ret p → load_i32 m (p + SysExit.arg) = Ret code →
    mac_guest_exits vm_start m c code
| mac_exits_shutdown : port_exit c SHUTDOWN_PORT → mac_guest_exits vm_start m c 0.

(** A computation all of whose results [P] allows. *)
Definition yields {A} (P : A → Prop) (p : hv (mac_state C W) A) : Prop :=
  ∀ st a st', p st = Some (Ret (Ok a, st')) → P a.

Lemma yields_bind {A B} (P : B → Prop) (p : hv (mac_state C W) A) k :
  (∀ a, yields P (k a)) → yields P (p ≫= k).
Proof.
  intros Hk st b st' Hr. unfold mbind, hv_bind in Hr.
  destruct (p st) as [[[[a|e] st1]| |]|]; try done. by eapply Hk.
Qed.

Lemma yields_ret {A} (P : A → Prop) a : P a → yields P (mret a).
Proof. by intros HP st b st' [= <- _]. Qed.

Lemma no_code (p : hv (mac_state C W) (option MacStopReason)) st code st' :
  yields (λ r, ∀ code, r ≠ Some (MacExit code)) p →
  p st = Some (Ret (Ok (Some (MacExit code)), st')) → False.
Proof. intros Hp Hr. by apply (Hp _ _ _ Hr code). Qed.

Ltac no_code Hr :=
  exfalso; refine (no_code _ _ _ _ _ Hr); repeat (apply yields_bind; intros ?); by apply yields_ret.

Lemma query_bind {A B} (f : mac_state C W → result Z A) (k : A → hv (mac_state C W) B) st b st' :
  (query f ≫= k) st = Some (Ret (Ok b, st')) → ∃ a, f st = Ok a ∧ k a st = Some (Ret (Ok b, st')).
Proof.
  unfold query, mbind, hv_bind. destruct (f st) as [a|]; [|done]. intros Hr. by exists a.
Qed.

Lemma lift_bind {A B} (e : exec A) (k : A → hv (mac_state C W) B) st b st' :
  (lift_exec e ≫= k) st = Some (Ret (Ok b, st')) → ∃ a, e = Ret a ∧ k a st = Some (Ret (Ok b, st')).
Proof.
  unfold lift_exec, mbind, hv_bind. destruct e as [a| |]; try done. intros Hr. by exists a.
Qed.

Lemma io_port_code port rip len st code st' :
  mac_io_port args vars write_fuel port rip len st = Some (Ret (Ok (Some (MacExit code)), st')) →
  port = SHUTDOWN_PORT ∧ code = 0 ∨
  port = UHYVE_PORT_EXIT ∧ ∃ v p, read_register (mc_vcpu (mst_cpu st)) RAX = Ok v ∧
    host_address (mc_vm_start (mst_cpu st)) (Z.land v 0xFFFFFFFF) = Ret p ∧
    load_i32 (h_mem (mst_host st)) (p + SysExit.arg) = Ret code.
Proof.
  intros Hr. unfold mac_io_port in Hr. destruct (Z.eqb_spec port SHUTDOWN_PORT) as [->|_].
  { injection Hr as <-. by left. }
  destruct (port =? UHYVE_UART_PORT); [no_code Hr|].
  destruct (Z.eqb_spec port UHYVE_PORT_EXIT) as [->|_].
  { right. split; [done|]. unfold mac_data_addr, rd32, rd, get in Hr.
    unfold mbind, hv_bind, query, lift_exec, VirtualCPU.exit in Hr.
    destruct (read_register _ RAX) as [v|]; [|done]. cbn in Hr.
    destruct (host_address _ _) as [p| |] eqn:Hp; try done.
    destruct (load_i32 _ _) as [code'| |] eqn:Hc; try done. injection Hr as <- _. by exists v, p. }
  destruct (bool_decide _); no_code Hr.
Qed.

Lemma mac_serve_code st code st' :
  mac_serve args vars write_fuel st = Some (Ret (Ok (Some (MacExit code)), st')) →
  mac_guest_exits (mc_vm_start (mst_cpu st)) (h_mem (mst_host st)) (mc_vcpu (mst_cpu st)) code.
Proof.
  unfold mac_serve. intros Hr. apply query_bind in Hr as (reason & Hreason & Hr).
  apply query_bind in Hr as (rip & _ & Hr). unfold mac_exit in Hr.
  repeat match type of Hr with
  | (if ?r =? VMX_REASON_IO then _ else _) _ = _ => destruct (Z.eqb_spec r VMX_REASON_IO) as [Hio|_]
  | (if ?b then _ else _) _ = _ => destruct b
  end; try done; try no_code Hr.
  unfold mac_io in Hr. apply query_bind in Hr as (q & Hq & Hr). apply query_bind in Hr as (len & _ & Hr).
  apply lift_bind in Hr as (u & Hu & Hr). destruct (Z.eqb_spec (Z.land q 8) 0) as [Hq8|]; [|done].
  apply io_port_code in Hr as [[Hport ->]|(Hport & v & p & Hv & Hp & Hcode)].
  - apply mac_exits_shutdown. split; [by exists reason|by exists q].
  - apply (mac_exits_port _ _ _ v p); [|done..]. split; [by exists reason|by exists q].
Qed.

(** Core [i] has left the guest to exit with [code]. *)
Definition mac_exits_with (v : MacUhyve) (i : nat) (code : Z) s : Prop :=
  msmp_threads s !! i = Some Serving ∧
  ∃ cpu u, msmp_slots s !! i = Some (Some (MacSlot cpu (Some (Ok u)))) ∧
    mac_guest_exits (mu_guest_mem v) (h_mem (msmp_host s)) (mc_vcpu cpu) code.

Lemma mac_served_exits v i code s s' :
  mac_smp_wf v s → mac_smp_step (XServe i) s = Some (Ret s') →
  msmp_threads s' !! i = Some (Exiting code) → mac_exits_with v i code s.
Proof.
  intros Hs Hstep Hcode. cbn [mac_smp_step] in Hstep.
  destruct (msmp_threads s !! i) as [[]|] eqn:Hi; try done.
  destruct (msmp_slots s !! i) as [[[cpu [x|]]|]|] eqn:Hslot; try done.
  destruct (mac_serve_exit x _) as [[[res st]| |]|] eqn:Hserve; try done. cbn in Hstep.
  destruct (mac_after_serving res) as [t| |] eqn:Ht; try done. injection Hstep as <-. cbn in Hcode.
  rewrite list_lookup_insert_eq in Hcode by (by eapply lookup_lt_Some). injection Hcode as ->.
  destruct res as [[[| |]|]|]; try done. injection Ht as ->. destruct x as [u|]; [|done].
  destruct (mw_slots _ _ Hs i _ _ Hi Hslot) as [_ Hof]. destruct (Hof _ eq_refl) as [[_ Hstart _] _].
  split; [done|]. exists cpu, u. split; [done|]. rewrite <- Hstart.
  exact (mac_serve_code (mac_view s cpu) code st Hserve).
Qed.

(** A step of a vCPU changes the state of one thread, and only the service of an
    exit gives it a code. *)
Definition mac_control_label (l : mac_label) : bool :=
  match l with XReport _ | XMain => true | _ => false end.

Lemma mac_smp_step_move l s s' :
  mac_control_label l = false → mac_smp_step l s = Some (Ret s') →
  msmp_channel s' = msmp_channel s ∧ msmp_main s' = msmp_main s ∧
  ∃ j t t', msmp_threads s !! j = Some t ∧ msmp_threads s' = <[j := t']> (msmp_threads s) ∧
    finished t = false ∧ (thread_code t' = None ∨ l = XServe j ∧ ∃ code, t' = Exiting code).
Proof.
  intros Hl Hstep. destruct l as [j|j|j|j|j|]; try done; cbn [mac_smp_step] in Hstep;
    destruct (msmp_threads s !! j) as [[]|] eqn:Hj; try done;
    try (match type of Hstep with context [msmp_slots s !! j] =>
      destruct (msmp_slots s !! j) as [[slot|]|]; try done end).
  - destruct (mac_start_vcpu _ _); try done; injection Hstep as <-; do 2 (split; [done|]);
      eexists j, _, _; (split_and!; [done..|by left]).
  - destruct (mac_online_now s) as [n| |]; try done. injection Hstep as <-.
    destruct (_ =? n); do 2 (split; [done|]).
    + eexists j, _, _. split_and!; [done..|by left].
    + exists j, Spinning, Spinning. rewrite list_insert_id by done. split_and!; [done..|by left].
  - cbn in Hstep. destruct (guest_runs _) as [[[x st]| |]|]; try done. injection Hstep as <-.
    do 2 (split; [done|]). eexists j, _, _. split_and!; [done..|by left].
  - destruct slot as [cpu [x|]]; [|done].
    destruct (mac_serve_exit x _) as [[[res st]| |]|]; try done. cbn in Hstep.
    destruct (mac_after_serving res) as [t2| |] eqn:Ht2; try done. injection Hstep as <-.
    do 2 (split; [done|]). eexists j, _, t2. split_and!; [done..|].
    destruct res as [[[]|]|]; try done; injection Ht2 as <-; eauto.
Qed.

Lemma mac_control_step l s s' :
  mac_control_label l = true → mac_smp_step l s = Some (Ret s') →
  ∃ l' c, mac_step l' (mac_control 0 s) = Some c ∧ s' = mac_with_control c s ∧
    ∀ i t code, mac_threads c !! i = Some t → thread_code t = Some code →
      ∃ t0, msmp_threads s !! i = Some t0 ∧ thread_code t0 = Some code.
Proof.
  intros Hl Hstep. destruct l as [j|j|j|j|j|]; try done; cbn [mac_smp_step] in Hstep;
    apply bind_Some in Hstep as (c & Hc & [= <-]); eexists _, c; (split; [exact Hc|split; [done|]]);
    intros i t code Hi Ht; cbn in Hc.
  - destruct (msmp_threads s !! j) as [[]|] eqn:Hj; try done. injection Hc as <-. unfold mac_send in Hi.
    cbn in Hi. destruct (msmp_main s); cbn in Hi;
      apply list_lookup_insert_Some in Hi as [(-> & <- & _)|[_ Hi]]; try done; eauto.
  - destruct (msmp_main s), (msmp_channel s); try done. injection Hc as <-. by exists t.
Qed.

(** Every code the threads know is one the guest exited with, and every code on
    its way or returned is one a thread ended with. *)
Record mac_origin_inv (v : MacUhyve) (w : W) s : Prop := {
  mo_wf : mac_smp_wf v s;
  mo_sent : mac_sent_inv (mac_control 0 s);
  mo_code i t code : msmp_threads s !! i = Some t → thread_code t = Some code →
    ∃ s1 s2, rtc mac_smp_next (mac_smp_start v w) s1 ∧ mac_exits_with v i code s1 ∧
      mac_smp_step (XServe i) s1 = Some (Ret s2) ∧ rtc mac_smp_next s2 s;
}.

Lemma mac_origin_step v w l s s' :
  rtc mac_smp_next (mac_smp_start v w) s → mac_origin_inv v w s →
  mac_smp_step l s = Some (Ret s') → mac_origin_inv v w s'.
Proof.
  intros Hr [Hwf Hsent Hcode] Hstep.
  assert (∀ i t code, msmp_threads s !! i = Some t → thread_code t = Some code →
    ∃ s1 s2, rtc mac_smp_next (mac_smp_start v w) s1 ∧ mac_exits_with v i code s1 ∧
      mac_smp_step (XServe i) s1 = Some (Ret s2) ∧ rtc mac_smp_next s2 s') as Hold.
  { intros i t code Hi Ht. destruct (Hcode i t code Hi Ht) as (s1 & s2 & Hs1 & Hx & Hs2 & Hs).
    exists s1, s2. split_and!; [done..|]. eapply rtc_r; [done|by exists l]. }
  destruct (mac_control_label l) eqn:Hl.
  - destruct (mac_control_step l s s' Hl Hstep) as (l' & c & Hc & Heq & Hkeep).
    split; [by eapply mac_smp_step_wf| |].
    + rewrite Heq. exact (mac_sent_step _ _ _ Hsent Hc).
    + intros i t code Hi Ht. rewrite Heq in Hi. destruct (Hkeep i t code Hi Ht) as (t0 & Hi0 & Ht0).
      by eapply Hold.
  - destruct (mac_smp_step_move l s s' Hl Hstep) as (Hch & Hmn & j & t1 & t2 & Hj & Hts & Hfin & Hnew).
    split; [by eapply mac_smp_step_wf| |].
    + unfold mac_control. rewrite Hch, Hmn, Hts. exact (mac_sent_set _ j t1 t2 Hsent Hj Hfin).
    + intros i t code Hi Ht. pose proof Hi as Hi'. rewrite Hts in Hi'.
      apply list_lookup_insert_Some in Hi' as [(-> & <- & _)|[_ Hi']]; [|by eapply Hold].
      destruct Hnew as [Hnone|(-> & code' & ->)]; [congruence|]. injection Ht as ->.
      exists s, s'. split_and!; [done|by eapply mac_served_exits|done|apply rtc_refl].
Qed.

Lemma mac_origin_reachable v w s :
  ioapic_wf (mu_ioapic v) → rtc mac_smp_next (mac_smp_start v w) s → mac_origin_inv v w s.
Proof.
  intros Ha Hr. refine (rtc_ind_r (mac_origin_inv v w) (mac_smp_start v w) _ _ s Hr);
    [|intros s1 s2 Hs1 [l Hl] IH; by eapply mac_origin_step].
  split; [by apply mac_smp_start_wf| |].
  - intros code [Hc|Hc]; [by apply elem_of_nil in Hc|done].
  - intros i t code [-> _]%lookup_replicate. done.
Qed.

(** The machine on macOS, whatever its cores do and however its threads
    interleave: guest memory stays the mapping of the machine, the I/O APIC
    stays well formed, and a thread that is to run the guest or to serve an
    exit has a vCPU of its own, with its number; and the code [run] returns is
    the one a thread ended with whose core had left the guest to exit with
    it. *)
Lemma mac_smp_returns v w s :
  ioapic_wf (mu_ioapic v) → rtc mac_smp_next (mac_smp_start v w) s →
  mac_smp_wf v s ∧
  ∀ code, msmp_main s = Some code →
    ∃ i s1 s2, msmp_threads s !! i = Some (Finished (Some code)) ∧
      rtc mac_smp_next (mac_smp_start v w) s1 ∧ mac_exits_with v i code s1 ∧
      mac_smp_step (XServe i) s1 = Some (Ret s2) ∧ rtc mac_smp_next s2 s.
Proof.
  intros Ha Hr. destruct (mac_origin_reachable v w s Ha Hr) as [Hwf Hsent Hcode]. split; [done|].
  intros code Hm. destruct (Hsent code) as [i Hi]; [by right|].
  destruct (Hcode i _ code Hi eq_refl) as (s1 & s2 & Hrest). by exists i, s1, s2.
Qed.

(** Before the guest runs, the threads are as Threads.v starts them. *)
Lemma mac_abs_start v w :
  mac_cpu_online v = Ret 0 → mac_abs (mac_smp_start v w) = mac_start (Z.to_nat (mu_num_cpus v)).
Proof.
  intros Hon. unfold mac_abs, mac_online_of, mac_online_now. cbn. unfold mac_cpu_online in *. cbn in *.
  by rewrite Hon.
Qed.

(** For a guest that counts its cores as they come up, the cores enter the guest
    one after the other. *)
Lemma mac_smp_in_order v w s :
  mac_cpu_online v = Ret 0 → rtc mac_smp_steps (mac_smp_start v w) s →
  ∀ i t, msmp_threads s !! i = Some t → entered t = true → (i ≤ mac_online_of s)%nat.
Proof.
  intros Hon Hr. pose proof (mac_smp_steps_refine _ _ Hr) as Habs.
  rewrite mac_abs_start in Habs by done.
  apply (su_entered _ _ (mac_startup_reachable _ _ Habs)).
Qed.

End MacSmp.

(** ** Two cores *)
Module Example.
#[local] Existing Instance debug_profile.
#[local] Existing Instance MacVcpu.Example.example_hv.
#[local] Existing Instance MacVcpu.Example.example_hv_laws.
#[local] Existing Instance MacVcpu.Example.example_consts.
#[local] Existing Instance MacVcpu.Example.example_burst.
#[local] Existing Instance MacVcpu.Example.example_cpuid.
#[local] Existing Instance VcpuLoop.Example.example_control.
Import Hypercalls.Example.
Import MacVcpu.Example (xcpu, XCpu, Event, stop_at).

(** A core counts itself, or finds that the first one did, and exits with the
    code 7. *)
Definition counter : Z := base + BOOT_INFO_ADDR + BootInfo.cpu_online.
#[local] Instance example_xvm : XVm xcpu := {|
  create_vm := Ok (); map_mem _ _ _ := Ok (); unmap_mem _ _ := Ok (); vcpu_destroy _ := Ok ();
  vcpu_create := Ok (XCpu [] []
    [Event [(RIP, 0x1000)] [(VMCS_RO_EXIT_REASON, 1)] [(counter, le_split 4 1)];
     stop_at 0x1020 0x2100 UHYVE_PORT_EXIT [(base + 0x2100, le_split 4 7)]]);
|}.

Definition machine : MacUhyve := {|
  mu_offset := 0; mu_entry_point := 0x200000; mu_mem_size := 0x100000; mu_guest_mem := base;
  mu_contents := Mem base 0x100000 ∅; mu_num_cpus := 2; mu_path := [];
  mu_boot_info := base + BOOT_INFO_ADDR; mu_ioapic := ioapic_new; mu_verbose := false |}.

(** The second core exits while the first one is in the guest. *)
Definition schedule : list mac_label :=
  [XCreate 1; XSpin 1; XCreate 0; XSpin 0; XRun 0; XServe 0; XSpin 1; XRun 1; XServe 1; XRun 1;
   XServe 1; XReport 1; XMain].

Definition machine_step (l : mac_label) (s : mac_smp xcpu world) : option (exec (mac_smp xcpu world)) :=
  mac_smp_step false [] [] 5 l s.

#[local] Instance mac_guest_counts_dec l (s s' : mac_smp xcpu world) :
  Decision (mac_guest_counts l s s').
Proof. destruct l; cbn; apply _. Defined.

(** Runs a schedule of a guest that counts its cores. *)
Fixpoint run_machine (ls : list mac_label) (s : mac_smp xcpu world) : option (mac_smp xcpu world) :=
  match ls with
  | [] => Some s
  | l :: ls' =>
      match machine_step l s with
      | Some (Ret s') => if decide (mac_guest_counts l s s') then run_machine ls' s' else None
      | _ => None
      end
  end.

Lemma run_mac_machine_steps ls s s' :
  run_machine ls s = Some s' → rtc (mac_smp_steps false [] [] 5) s s'.
Proof.
  revert s. induction ls as [|l ls IH]; intros s Hs; cbn [run_machine] in Hs.
  { injection Hs as ->. apply rtc_refl. }
  destruct (machine_step l s) as [[s1| |]|] eqn:Hl; try done.
  destruct (decide _) as [Hc|]; [|done]. eapply rtc_l; [by exists l|by apply IH].
Qed.

Definition started : mac_smp xcpu world := mac_smp_start machine (World [] 3).

Lemma mac_machine_ends :
  ∃ s, run_machine schedule started = Some s ∧ msmp_main s = Some 7 ∧
    msmp_threads s = [Running; Finished (Some 7)].
Proof. eexists. split; [vm_compute; reflexivity|]. split; reflexivity. Qed.

Lemma mac_smp_returns_example :
  ∃ (s s1 : mac_smp xcpu world) i, msmp_main s = Some 7 ∧ mac_exits_with machine i 7 s1.
Proof.
  destruct mac_machine_ends as (s & Hs & Hm & _).
  destruct (mac_smp_returns false [] [] 5 machine (World [] 3) s) as [_ Hret].
  - exact ioapic_new_wf.
  - apply run_mac_machine_steps in Hs. eapply rtc_subrel; [|exact Hs]. intros a b (l & Hl & _). by exists l.
  - destruct (Hret 7 Hm) as (i & s1 & _ & _ & _ & Hx & _). exists s, s1, i. split; [exact Hm|exact Hx].
Qed.

End Example.
