(* ===== verification/Diagnostics.v ===== *)
(** * Diagnostics ([print_registers] of src/macos/vcpu.rs and src/linux/vcpu.rs)

    The dump of a vCPU's state on standard output.  A dump is a list of blocks:
    the registers and fields a block prints are read before any of it is
    written, and a read that fails panics.  The text of a value is what Rust's
    formatting gives: [{:0Nx}], [{:x}] and [{}]. *)

From Stdlib Require Import Strings.String.
From stdpp Require Import pretty.
From S2P Require Import Prelude Memory Hypercalls LinuxVm KvmVcpu LinuxVcpu VcpuLoop.
From S2P Require Import MacSetup MacVcpu.
Close Scope string_scope.

(** ** Hexadecimal numbers *)

Definition hex_digit (d : Z) : Z := if d <? 10 then 48 + d else 87 + d.

(** The last [n] digits. *)
Fixpoint hex_digits (n : nat) (z : Z) : list Z :=
  match n with
  | O => []
  | S n' => hex_digits n' (z / 16) ++ [hex_digit (z mod 16)]
  end.

(** [{:0wx}]; [{:x}] has no least width, but there is at least one digit. *)
Definition hex (width : nat) (z : Z) : list Z :=
  hex_digits (width `max` Z.to_nat (Z.log2 z / 4 + 1)) z.

(** Reading the digits back. *)
Definition hex_value (ds : list Z) : Z :=
  foldl (λ v d, 16 * v + if d <? 58 then d - 48 else d - 87) 0 ds.

Lemma length_hex_digits n z : length (hex_digits n z) = n.
Proof. revert z. induction n; intros z; cbn; [done|]. rewrite length_app, IHn. cbn. lia. Qed.

Lemma hex_digits_value n z : hex_value (hex_digits n z) = z mod 16 ^ Z.of_nat n.
Proof.
  revert z. induction n as [|n IH]; intros z; cbn [hex_digits].
  { cbn. by rewrite Z.mod_1_r. }
  unfold hex_value in *. rewrite foldl_snoc, IH.
  pose proof (Z.mod_pos_bound z 16 ltac:(lia)) as Hd.
  assert ((if hex_digit (z mod 16) <? 58 then hex_digit (z mod 16) - 48
           else hex_digit (z mod 16) - 87) = z mod 16) as ->.
  { unfold hex_digit. destruct (Z.ltb_spec (z mod 16) 10);
      [rewrite (proj2 (Z.ltb_lt _ _)) by lia|rewrite (proj2 (Z.ltb_ge _ _)) by lia]; lia. }
  rewrite Nat2Z.inj_succ, Z.pow_succ_r, Z.rem_mul_r by lia. lia.
Qed.

(** A number of at most [width] digits takes [width] characters, and can be read
    back. *)
Lemma hex_fixed width z :
  (0 < width)%nat → 0 ≤ z < 16 ^ Z.of_nat width →
  length (hex width z) = width ∧ hex_value (hex width z) = z.
Proof.
  intros Hw Hz. unfold hex. rewrite length_hex_digits, hex_digits_value.
  assert (width `max` Z.to_nat (Z.log2 z / 4 + 1) = width)%nat as ->.
  { apply Nat.max_l. destruct (decide (z = 0)) as [->|Hne]; [done|].
    assert (Z.log2 z < 4 * Z.of_nat width) as Hlog.
    { apply Z.log2_lt_pow2; [lia|]. rewrite Z.pow_mul_r by lia. by apply Hz. }
    assert (Z.log2 z / 4 < Z.of_nat width) by (apply Z.div_lt_upper_bound; lia).
    pose proof (Z.div_pos (Z.log2 z) 4 (Z.log2_nonneg z) ltac:(lia)). lia. }
  split; [done|]. by apply Z.mod_small.
Qed.

(** ** Printing *)

(** A literal; a number read from the vCPU, of which [part] is printed with at
    least [width] digits; a structure read from the vCPU, as its [Debug] shows
    it. *)
Inductive item (C : Type) :=
| Lit (bs : list Z)
| Hex (width : nat) (read : C → result Z Z) (part : Z → Z)
| Shown (read : C → result Z (list Z)).
Arguments Lit {C} _.
Arguments Hex {C} _ _ _.
Arguments Shown {C} _.

Section Printing.
Context {C : Type}.

Definition text (s : string) : item C := Lit (bytes s).
Definition newline : item C := Lit [10].
(** [{}] of an unsigned number. *)
Definition decimal (n : Z) : item C := Lit (bytes (pretty (Z.to_N n))).

(** The arguments of [print!] and of [println!]. *)
Definition print (l : list (item C)) : list (item C) := l.
Definition println (l : list (item C)) : list (item C) := l ++ [newline].

Definition render_item (c : C) (i : item C) : exec (list Z) :=
  match i with
  | Lit bs => Ret bs
  | Hex width read part => z ← expect (read c); Ret (hex width (part z))
  | Shown read => expect (read c)
  end.

Fixpoint render_line (c : C) (l : list (item C)) : exec (list Z) :=
  match l with
  | [] => Ret []
  | i :: l' => bs ← render_item c i; rest ← render_line c l'; Ret (bs ++ rest)
  end.

Fixpoint render_block (c : C) (b : list (list (item C))) : exec (list (list Z)) :=
  match b with
  | [] => Ret []
  | l :: b' => bs ← render_line c l; rest ← render_block c b'; Ret (bs :: rest)
  end.

Context `{HostOS W}.

(** [println!] panics when standard output cannot be written. *)
Definition write_stdout (bs : list Z) (w : W) : exec W :=
  match os_stdout_write_all w bs with (w', Ok _) => Ret w' | (_, Err _) => Panic end.

Definition print_block (c : C) (b : list (list (item C))) (w : W) : exec W :=
  lines ← render_block c b; for_each write_stdout lines w.

Definition print_dump (c : C) (dump : list (list (list (item C)))) (w : W) : exec W :=
  for_each (print_block c) dump w.

End Printing.

(** ** macOS *)

(** The registers and the field only the dump reads; the first two are also
    fields of the VMCS. *)
Class XDump (C : Type) := {
  read_TR : C → result Z Z;
  read_LDTR : C → result Z Z;
  read_CR2 : C → result Z Z;
  read_link_pointer : C → result Z Z;
}.

Section MacDump.
Context `{XHypervisor C, XDump C}.

Definition whole (z : Z) : Z := z.
Definition field16 (f : Vmcs) : item C := Hex 16 (λ c, read_vmcs c f) whole.
Definition reg16 (r : x86Reg) : item C := Hex 16 (λ c, read_register c r) whole.

Definition dump_vmcs (id : Z) : list (list (list (item C))) :=
  [[println [newline; text "Dump state of CPU "; decimal id]];
   [println [text "VMCS:"]];
   [println [text "-----"]];
   [println [text "CR0: mask "; field16 VMCS_CTRL_CR0_MASK; text "  shadow ";
             field16 VMCS_CTRL_CR0_SHADOW]];
   [println [text "CR4: mask "; field16 VMCS_CTRL_CR4_MASK; text "  shadow ";
             field16 VMCS_CTRL_CR4_SHADOW]];
   [println [text "Pinbased: "; field16 VMCS_CTRL_PIN_BASED; newline;
             text "1st:      "; field16 VMCS_CTRL_CPU_BASED; newline;
             text "2nd:      "; field16 VMCS_CTRL_CPU_BASED2]];
   [println [text "Entry:    "; field16 VMCS_CTRL_VMENTRY_CONTROLS; newline;
             text "Exit:     "; field16 VMCS_CTRL_VMEXIT_CONTROLS]]].

Definition dump_registers : list (list (list (item C))) :=
  [[println [newline; text "Registers:"]];
   [println [text "----------"]];
   [print [text "rip: "; reg16 RIP; text "   rsp: "; reg16 RSP; text " flags: "; reg16 RFLAGS; newline;
           text "rax: "; reg16 RAX; text "   rbx: "; reg16 RBX; text "   rcx: "; reg16 RCX; newline;
           text "rdx: "; reg16 RDX; text "   rsi: "; reg16 RSI; text "   rdi: "; reg16 RDI; newline;
           text "rbp: "; reg16 RBP; text "    r8: "; reg16 R8; text "    r9: "; reg16 R9; newline;
           text "r10: "; reg16 R10; text "   r11: "; reg16 R11; text "   r12: "; reg16 R12; newline;
           text "r13: "; reg16 R13; text "   r14: "; reg16 R14; text "   r15: "; reg16 R15; newline]];
   [println [text "cr0: "; reg16 CR0; text "   cr2: "; Hex 16 read_CR2 whole; text "   cr3: ";
             reg16 CR3; newline; text "cr4: "; reg16 CR4; text "  efer: ";
             field16 VMCS_GUEST_IA32_EFER]]].

(** A row of the table: type p dpl db s l g avl. *)
Definition segment_row (name : string) (selector : C → result Z Z) (base limit ar : Vmcs) :
    list (item C) :=
  let right width shift mask :=
    Hex width (λ c, read_vmcs c ar) (λ z, Z.land (Z.shiftr z shift) mask) in
  println [text name; Hex 4 selector whole; text "      "; field16 base; text "  ";
           Hex 8 (λ c, read_vmcs c limit) whole; text "  "; right 2%nat 0 0xf; text "    ";
           right 1%nat 7 0x1; text " "; right 1%nat 5 0x3; text "   "; right 1%nat 14 0x1; text "  ";
           right 1%nat 4 0x1; text " "; right 1%nat 13 0x1; text " "; right 1%nat 15 0x1; text " ";
           right 1%nat 12 0x1].

Definition register_row (name : string) (r : x86Reg) (base limit ar : Vmcs) : list (item C) :=
  segment_row name (λ c, read_register c r) base limit ar.

Definition dump_segments : list (list (list (item C))) :=
  [[println [newline; text "Segment registers:"]];
   [println [text "------------------"]];
   [println [text "register  selector  base              limit     type  p dpl db s l g avl"]];
   [register_row "cs        " REG_CS VMCS_GUEST_CS_BASE VMCS_GUEST_CS_LIMIT VMCS_GUEST_CS_AR;
    register_row "ss        " REG_SS VMCS_GUEST_SS_BASE VMCS_GUEST_SS_LIMIT VMCS_GUEST_SS_AR;
    register_row "ds        " REG_DS VMCS_GUEST_DS_BASE VMCS_GUEST_DS_LIMIT VMCS_GUEST_DS_AR;
    register_row "es        " REG_ES VMCS_GUEST_ES_BASE VMCS_GUEST_ES_LIMIT VMCS_GUEST_ES_AR;
    register_row "fs        " REG_FS VMCS_GUEST_FS_BASE VMCS_GUEST_FS_LIMIT VMCS_GUEST_FS_AR;
    register_row "gs        " REG_GS VMCS_GUEST_GS_BASE VMCS_GUEST_GS_LIMIT VMCS_GUEST_GS_AR;
    segment_row "tr        " read_TR VMCS_GUEST_TR_BASE VMCS_GUEST_TR_LIMIT VMCS_GUEST_TR_AR;
    segment_row "ldt       " read_LDTR VMCS_GUEST_LDTR_BASE VMCS_GUEST_LDTR_LIMIT VMCS_GUEST_LDTR_AR]].

Definition dump_tables : list (list (list (item C))) :=
  [[println [text "gdt                 "; field16 VMCS_GUEST_GDTR_BASE; text "  ";
             Hex 8 (λ c, read_vmcs c VMCS_GUEST_GDTR_LIMIT) whole]];
   [println [text "idt                 "; field16 VMCS_GUEST_IDTR_BASE; text "  ";
             Hex 8 (λ c, read_vmcs c VMCS_GUEST_IDTR_LIMIT) whole]];
   [println [text "VMCS link pointer   "; Hex 16 read_link_pointer whole]]].

Definition mac_dump (id : Z) : list (list (list (item C))) :=
  dump_vmcs id ++ dump_registers ++ dump_segments ++ dump_tables.

Definition mac_print_registers `{HostOS W} (cpu : MacCPU C) (w : W) : exec W :=
  print_dump (mc_vcpu cpu) (mac_dump (mc_id cpu)) w.

End MacDump.

(** ** Linux *)

(** [Debug] of the structures of KVM. *)
Class KvmShow := {
  debug_regs : kvm_regs → list Z;
  debug_sregs : kvm_sregs → list Z;
  debug_segment : kvm_segment → list Z;
  debug_dtable : kvm_dtable → list Z;
}.

Section LinuxDump.
Context `{KvmVcpu C, KvmShow}.

Definition of_regs {A} (f : kvm_regs → A) (c : C) : result Z A :=
  match get_regs c with Ok r => Ok (f r) | Err e => Err e end.
Definition of_sregs {A} (f : kvm_sregs → A) (c : C) : result Z A :=
  match get_sregs c with Ok s => Ok (f s) | Err e => Err e end.

Definition show_dtable (name : string) (dtable : kvm_sregs → kvm_dtable) : list (item C) :=
  println [text name; text "                 "; Shown (of_sregs (λ s, debug_dtable (dtable s)))].

Definition show_segment (name : string) (seg : kvm_sregs → kvm_segment) : list (item C) :=
  println [text name; text "       "; Shown (of_sregs (λ s, debug_segment (seg s)))].

(** Both structures are read before anything is printed: one block. *)
Definition linux_dump (id : Z) : list (list (item C)) :=
  [println [];
   println [text "Dump state of CPU "; decimal id];
   println [];
   println [text "Registers:"];
   println [text "----------"];
   println [Shown (of_regs debug_regs); Shown (of_sregs debug_sregs)];
   println [text "Segment registers:"];
   println [text "------------------"];
   println [text "register  selector  base              limit     type  p dpl db s l g avl"];
   show_segment "cs " cs; show_segment "ss " ss; show_segment "ds " ds; show_segment "es " es;
   show_segment "fs " fs; show_segment "gs " gs; show_segment "tr " tr; show_segment "ldt" ldt;
   show_dtable "gdt" gdt; show_dtable "idt" idt;
   println [];
   println [newline; text "APIC:"];
   println [text "-----"];
   println [text "efer: "; Hex 16 (of_sregs efer) (λ z, z); text "  apic base: ";
            Hex 16 (of_sregs apic_base) (λ z, z)]].

Definition print_registers `{HostOS W} (cpu : UhyveCPU C) (w : W) : exec W :=
  print_block (cpu_vcpu cpu) (linux_dump (cpu_id cpu)) w.

End LinuxDump.

(** ** What a dump shows *)

(** Standard output as the bytes written to it so far. *)
Class Stdout (W : Type) `{HostOS W} := {
  stdout : W → list Z;
  stdout_write w bs w' u : os_stdout_write_all w bs = (w', Ok u) → stdout w' = stdout w ++ bs;
}.

Section Output.
Context {C : Type} `{Stdout W}.

Lemma render_line_app (c : C) l1 l2 :
  render_line c (l1 ++ l2) = (bs1 ← render_line c l1; bs2 ← render_line c l2; Ret (bs1 ++ bs2)).
Proof.
  induction l1 as [|i l1 IH]; cbn.
  { by destruct (render_line c l2). }
  destruct (render_item c i); cbn; [|done..]. rewrite IH.
  destruct (render_line c l1); cbn; [|done..]. destruct (render_line c l2); cbn; [|done..].
  by rewrite app_assoc.
Qed.

Lemma render_block_line (c : C) b ls :
  render_block c b = Ret ls → render_line c (concat b) = Ret (concat ls).
Proof.
  revert ls. induction b as [|l b IH]; intros ls Hls; cbn in Hls.
  { by injection Hls as <-. }
  exec_inv. cbn [concat]. rewrite render_line_app.
  match goal with Hl : render_line c l = Ret _ |- _ => rewrite Hl end. cbn. by rewrite (IH _ ltac:(done)).
Qed.

Lemma stdout_lines (ls : list (list Z)) w w' :
  for_each write_stdout ls w = Ret w' → stdout w' = stdout w ++ concat ls.
Proof.
  revert w. induction ls as [|bs ls IH]; intros w Hw; cbn in Hw.
  { injection Hw as <-. by rewrite app_nil_r. }
  exec_inv. rewrite (IH _ Hw). cbn [concat]. rewrite app_assoc. f_equal.
  match goal with Hs : write_stdout _ _ = Ret _ |- _ => unfold write_stdout in Hs;
    destruct (os_stdout_write_all _ _) as [w1 [u|]] eqn:Hos; [injection Hs as <-|done] end.
  by eapply stdout_write.
Qed.

Lemma print_block_stdout (c : C) b w w' :
  print_block c b w = Ret w' →
  ∃ bs, render_line c (concat b) = Ret bs ∧ stdout w' = stdout w ++ bs.
Proof.
  unfold print_block. intros Hp. exec_inv. eexists. split; [by apply render_block_line|].
  by apply stdout_lines.
Qed.

(** A dump that returns has written its text. *)
Lemma print_dump_stdout (c : C) dump w w' :
  print_dump c dump w = Ret w' →
  ∃ bs, render_line c (concat (concat dump)) = Ret bs ∧ stdout w' = stdout w ++ bs.
Proof.
  unfold print_dump. revert w. induction dump as [|b dump IH]; intros w Hw; cbn in Hw.
  { injection Hw as <-. exists []. by rewrite app_nil_r. }
  exec_inv. match goal with Hb : print_block _ _ _ = Ret _ |- _ =>
    apply print_block_stdout in Hb as (bs1 & Hbs1 & Hw1) end.
  destruct (IH _ Hw) as (bs2 & Hbs2 & ->). exists (bs1 ++ bs2).
  cbn [concat]. rewrite concat_app, render_line_app, Hbs1. cbn. rewrite Hbs2. cbn.
  by rewrite Hw1, app_assoc.
Qed.

(** An item whose text has a width that does not depend on the value. *)
Definition item_fixed (c : C) (i : item C) : Prop :=
  match i with
  | Lit _ => True
  | Hex width read part =>
      (0 < width)%nat ∧ ∀ z, read c = Ok z → 0 ≤ part z < 16 ^ Z.of_nat width
  | Shown _ => False
  end.

(** Two vCPUs have the same value where the item shows it. *)
Definition item_agrees (c c' : C) (i : item C) : Prop :=
  match i with
  | Hex _ read part => ∃ z z', read c = Ok z ∧ read c' = Ok z' ∧ part z = part z'
  | _ => True
  end.

(** Texts of fixed width that are equal show equal values. *)
Lemma render_line_agrees (c c' : C) l bs :
  Forall (item_fixed c) l → Forall (item_fixed c') l →
  render_line c l = Ret bs → render_line c' l = Ret bs → Forall (item_agrees c c') l.
Proof.
  intros Hf Hf'. revert bs. induction Hf as [|i l Hi Hf IH]; intros bs Hc Hc'; [constructor|].
  apply Forall_cons in Hf' as [Hi' Hf']. cbn in Hc, Hc'.
  apply bind_Ret in Hc as (bs1 & Hbs1 & Hc). apply bind_Ret in Hc as (rest & Hrest & [= <-]).
  apply bind_Ret in Hc' as (bs1' & Hbs1' & Hc'). apply bind_Ret in Hc' as (rest' & Hrest' & [= Heq]).
  assert (length bs1' = length bs1 ∧ (bs1' = bs1 → item_agrees c c' i)) as [Hlen Hag].
  { destruct i as [bs|width read part|]; cbn in *; [|..|done].
    - injection Hbs1 as <-. by injection Hbs1' as <-.
    - apply bind_Ret in Hbs1 as (z & Hz & [= <-]). apply bind_Ret in Hbs1' as (z' & Hz' & [= <-]).
      destruct (read c) as [v|] eqn:Hv; [|done]. injection Hz as ->.
      destruct (read c') as [v'|] eqn:Hv'; [|done]. injection Hz' as ->.
      destruct Hi as [Hw Hi], Hi' as [_ Hi'].
      destruct (hex_fixed width (part z) Hw (Hi z eq_refl)) as [Hl Hval].
      destruct (hex_fixed width (part z') Hw (Hi' z' eq_refl)) as [Hl' Hval'].
      split; [congruence|]. intros Hhex. exists z, z'. split_and!; [done..|].
      by rewrite <- Hval, <- Hval', Hhex. }
  apply app_inj_1 in Heq as [-> ->]; [|done]. constructor; [by apply Hag|]. by eapply IH.
Qed.

Lemma print_dump_agrees (c c' : C) dump w w1 w2 :
  Forall (item_fixed c) (concat (concat dump)) → Forall (item_fixed c') (concat (concat dump)) →
  print_dump c dump w = Ret w1 → print_dump c' dump w = Ret w2 → stdout w1 = stdout w2 →
  Forall (item_agrees c c') (concat (concat dump)).
Proof.
  intros Hf Hf' (bs & Hbs & Hw1)%print_dump_stdout (bs' & Hbs' & Hw2)%print_dump_stdout Heq.
  rewrite Hw1, Hw2 in Heq. apply app_inv_head in Heq as <-. by eapply render_line_agrees.
Qed.

(** Every line of a block is a part of its text. *)
Lemma render_line_part (c : C) b l bs :
  render_line c (concat b) = Ret bs → l ∈ b →
  ∃ front line back, render_line c l = Ret line ∧ bs = front ++ line ++ back.
Proof.
  intros Hbs (b1 & b2 & ->)%list_elem_of_split.
  rewrite concat_app, render_line_app in Hbs. cbn [concat] in Hbs. rewrite render_line_app in Hbs.
  exec_inv. by eexists _, _, _.
Qed.

(** The vCPU can be asked for what the item prints. *)
Definition readable (c : C) (i : item C) : Prop :=
  match i with
  | Lit _ => True
  | Hex _ read _ => is_ok (read c)
  | Shown read => is_ok (read c)
  end.

Lemma render_line_returns (c : C) l :
  (∃ bs, render_line c l = Ret bs) ↔ Forall (readable c) l.
Proof.
  induction l as [|i l IH]; cbn.
  { split; [constructor|]. by exists []. }
  rewrite Forall_cons, <- IH.
  assert ((∃ bs, render_item c i = Ret bs) ↔ readable c i) as <-.
  { destruct i as [bs|width read part|read]; cbn; [by split; eauto|..];
      (destruct (read c); cbn; split; [by eauto|eauto|by intros []|by intros []]). }
  split.
  - intros (bs & Hbs). exec_inv. eauto.
  - intros [(bs & ->) (rest & ->)]. eauto.
Qed.

Lemma render_block_returns (c : C) b :
  (∃ ls, render_block c b = Ret ls) ↔ Forall (readable c) (concat b).
Proof.
  induction b as [|l b IH]; cbn.
  { split; [constructor|]. by exists []. }
  rewrite Forall_app, <- IH, <- render_line_returns. split.
  - intros (ls & Hls). exec_inv. eauto.
  - intros [(bs & ->) (rest & ->)]. eauto.
Qed.

(** Where standard output can be written, a dump returns if and only if
    everything it shows can be read. *)
Lemma print_dump_returns (c : C) dump w :
  (∀ w bs, ∃ w', os_stdout_write_all w bs = (w', Ok ())) →
  (∃ w', print_dump c dump w = Ret w') ↔ Forall (readable c) (concat (concat dump)).
Proof.
  intros Hos. assert (∀ ls w, ∃ w', for_each write_stdout ls w = Ret w') as Hlines.
  { induction ls as [|bs ls IH]; intros w0; cbn; [by eexists|]. unfold write_stdout.
    destruct (Hos w0 bs) as [w1 ->]. apply IH. }
  unfold print_dump. revert w. induction dump as [|b dump IH]; intros w; cbn.
  { split; [constructor|]. by eexists. }
  rewrite concat_app, Forall_app, <- render_block_returns. unfold print_block. split.
  - intros (w' & Hw). exec_inv. split; [by eauto|]. eapply IH. eauto.
  - intros [(ls & ->) Hrest]. cbn. destruct (Hlines ls w) as [w1 ->]. by apply IH.
Qed.

End Output.

(** The access rights the dump shows: all but the reserved bits and the bit for
    an unusable segment. *)
Definition shown_rights : Z := 0xf0ff.

Lemma shown_rights_eq z z' :
  let part z s m := Z.land (Z.shiftr z s) m in
  part z 0 0xf = part z' 0 0xf → part z 7 1 = part z' 7 1 → part z 5 3 = part z' 5 3 →
  part z 14 1 = part z' 14 1 → part z 4 1 = part z' 4 1 → part z 13 1 = part z' 13 1 →
  part z 15 1 = part z' 15 1 → part z 12 1 = part z' 12 1 →
  Z.land z shown_rights = Z.land z' shown_rights.
Proof.
  intros part Hty Hp Hdpl Hdb Hs Hl Hg Havl.
  assert (∀ s m k, 0 ≤ s → 0 ≤ k → part z s m = part z' s m → Z.testbit m k = true →
    Z.testbit z (s + k) = Z.testbit z' (s + k)) as Hbit.
  { intros s m k Hs0 Hk Heq Hm. apply (f_equal (λ v, Z.testbit v k)) in Heq. unfold part in Heq.
    rewrite !Z.land_spec, !Z.shiftr_spec, Hm, !andb_true_r in Heq by done.
    by rewrite Z.add_comm. }
  assert (∀ k, Z.testbit 0xf k = true → 0 ≤ k → Z.testbit z k = Z.testbit z' k) as Hlow
    by (intros k ??; by apply (Hbit 0 0xf k)).
  apply (bits_enum 16).
  - pose proof (Hbit 7 1 0) as H7. pose proof (Hbit 5 3 0) as H5. pose proof (Hbit 5 3 1) as H6.
    pose proof (Hbit 14 1 0) as H14. pose proof (Hbit 4 1 0) as H4. pose proof (Hbit 13 1 0) as H13.
    pose proof (Hbit 15 1 0) as H15. pose proof (Hbit 12 1 0) as H12. cbn [Z.add Pos.add Pos.succ] in *.
    repeat constructor; rewrite !Z.land_spec;
      match goal with |- context [Z.testbit shown_rights ?k] =>
        let r := eval vm_compute in (Z.testbit shown_rights k) in
        change (Z.testbit shown_rights k) with r end;
      rewrite ?andb_true_r, ?andb_false_r; auto with lia.
  - intros i Hi Hge. rewrite !Z.land_spec, (testbit_fits 16 shown_rights i) by done.
    by rewrite !andb_false_r.
Qed.

Section MacShows.
Context `{XHypervisor C, XDump C, Stdout W}.

Definition selectors : list x86Reg := [REG_CS; REG_SS; REG_DS; REG_ES; REG_FS; REG_GS].
Definition shown_registers : list x86Reg :=
  [RIP; RSP; RFLAGS; RAX; RBX; RCX; RDX; RSI; RDI; RBP; R8; R9; R10; R11; R12; R13; R14; R15;
   CR0; CR3; CR4].
Definition shown_limits : list Vmcs :=
  [VMCS_GUEST_CS_LIMIT; VMCS_GUEST_SS_LIMIT; VMCS_GUEST_DS_LIMIT; VMCS_GUEST_ES_LIMIT;
   VMCS_GUEST_FS_LIMIT; VMCS_GUEST_GS_LIMIT; VMCS_GUEST_TR_LIMIT; VMCS_GUEST_LDTR_LIMIT;
   VMCS_GUEST_GDTR_LIMIT; VMCS_GUEST_IDTR_LIMIT].
Definition shown_fields : list Vmcs :=
  [VMCS_CTRL_CR0_MASK; VMCS_CTRL_CR0_SHADOW; VMCS_CTRL_CR4_MASK; VMCS_CTRL_CR4_SHADOW;
   VMCS_CTRL_PIN_BASED; VMCS_CTRL_CPU_BASED; VMCS_CTRL_CPU_BASED2; VMCS_CTRL_VMENTRY_CONTROLS;
   VMCS_CTRL_VMEXIT_CONTROLS; VMCS_GUEST_IA32_EFER; VMCS_GUEST_CS_BASE; VMCS_GUEST_SS_BASE;
   VMCS_GUEST_DS_BASE; VMCS_GUEST_ES_BASE; VMCS_GUEST_FS_BASE; VMCS_GUEST_GS_BASE;
   VMCS_GUEST_TR_BASE; VMCS_GUEST_LDTR_BASE; VMCS_GUEST_GDTR_BASE; VMCS_GUEST_IDTR_BASE].
Definition shown_ars : list Vmcs :=
  [VMCS_GUEST_CS_AR; VMCS_GUEST_SS_AR; VMCS_GUEST_DS_AR; VMCS_GUEST_ES_AR; VMCS_GUEST_FS_AR;
   VMCS_GUEST_GS_AR; VMCS_GUEST_TR_AR; VMCS_GUEST_LDTR_AR].

(** The widths of what is read: registers and fields of 64 bits, selectors of 16
    and limits of 32 bits. *)
Record dump_widths (c : C) : Prop := {
  dw_register r z : read_register c r = Ok z → fits 64 z;
  dw_selector r z : r ∈ selectors → read_register c r = Ok z → fits 16 z;
  dw_field f z : read_vmcs c f = Ok z → fits 64 z;
  dw_limit f z : f ∈ shown_limits → read_vmcs c f = Ok z → fits 32 z;
  dw_tr z : read_TR c = Ok z → fits 16 z;
  dw_ldtr z : read_LDTR c = Ok z → fits 16 z;
  dw_cr2 z : read_CR2 c = Ok z → fits 64 z;
  dw_link z : read_link_pointer c = Ok z → fits 64 z;
}.

Lemma land_mask_bound a k m n : m = Z.ones k → 0 ≤ k → 2 ^ k ≤ n → 0 ≤ Z.land a m < n.
Proof.
  intros -> Hk Hn. rewrite Z.land_ones by done. pose proof (Z.mod_pos_bound a (2 ^ k)). lia.
Qed.

Lemma mac_dump_fixed c id : dump_widths c → Forall (item_fixed c) (concat (concat (mac_dump id))).
Proof.
  intros Hc.
  assert (∀ f, item_fixed c (field16 f)) by (intros f; split; [lia|]; apply (dw_field _ Hc)).
  assert (∀ r, item_fixed c (reg16 r)) by (intros r; split; [lia|]; apply (dw_register _ Hc)).
  assert (∀ f, f ∈ shown_limits → item_fixed c (Hex 8 (λ c, read_vmcs c f) whole)) as Hlimit
    by (intros f Hf; split; [lia|]; intros z; by apply (dw_limit _ Hc)).
  assert (∀ r, r ∈ selectors → item_fixed c (Hex 4 (λ c, read_register c r) whole)) as Hsel
    by (intros r Hr; split; [lia|]; intros z; by apply (dw_selector _ Hc)).
  assert (item_fixed c (Hex 4 read_TR whole)) by (split; [lia|]; apply (dw_tr _ Hc)).
  assert (item_fixed c (Hex 4 read_LDTR whole)) by (split; [lia|]; apply (dw_ldtr _ Hc)).
  assert (item_fixed c (Hex 16 read_CR2 whole)) by (split; [lia|]; apply (dw_cr2 _ Hc)).
  assert (item_fixed c (Hex 16 read_link_pointer whole)) by (split; [lia|]; apply (dw_link _ Hc)).
  assert (∀ f w s m, (0 < w)%nat → m = 1 ∨ m = 3 ∨ m = 0xf →
    item_fixed c (Hex w (λ c, read_vmcs c f) (λ z, Z.land (Z.shiftr z s) m))) as Hright.
  { intros f w s m Hw Hm. split; [done|]. intros z _.
    assert (2 ^ 4 ≤ 16 ^ Z.of_nat w) by (change (2 ^ 4) with (16 ^ 1); apply Z.pow_le_mono_r; lia).
    destruct Hm as [-> |[-> | ->]]; [apply (land_mask_bound _ 1)|apply (land_mask_bound _ 2)|
      apply (land_mask_bound _ 4)]; (done || lia). }
  cbn [concat mac_dump dump_vmcs dump_registers dump_segments dump_tables register_row segment_row
    println print app].
  repeat (apply Forall_cons; split; [first [exact I|done|by apply Hright; auto with lia|
    apply Hlimit; evaluate|
    apply Hsel; evaluate]|]).
  constructor.
Qed.

Lemma whole_agrees {A} width (read : A → result Z Z) c c' :
  item_agrees c c' (Hex width read whole) → read c = read c'.
Proof. intros (z & z' & Hz & Hz' & Heq). unfold whole in Heq. congruence. Qed.

Lemma register_agrees width r c c' :
  item_agrees c c' (Hex width (λ c, read_register c r) whole) → read_register c r = read_register c' r.
Proof. apply (whole_agrees width (λ c, read_register c r)). Qed.

Lemma field_agrees width f c c' :
  item_agrees c c' (Hex width (λ c, read_vmcs c f) whole) → read_vmcs c f = read_vmcs c' f.
Proof. apply (whole_agrees width (λ c, read_vmcs c f)). Qed.

(** The eight parts of the access rights of one segment. *)
Lemma rights_agree c c' f :
  (∀ w s m, (w, s, m) ∈ [(2%nat, 0, 0xf); (1%nat, 7, 1); (1%nat, 5, 3); (1%nat, 14, 1); (1%nat, 4, 1);
      (1%nat, 13, 1); (1%nat, 15, 1); (1%nat, 12, 1)] →
     item_agrees c c' (Hex w (λ c, read_vmcs c f) (λ z, Z.land (Z.shiftr z s) m))) →
  ∃ z z', read_vmcs c f = Ok z ∧ read_vmcs c' f = Ok z' ∧
    Z.land z shown_rights = Z.land z' shown_rights.
Proof.
  intros Hall. destruct (Hall 2%nat 0 0xf) as (z & z' & Hz & Hz' & Hty); [evaluate|].
  exists z, z'. split_and!; [done..|].
  assert (∀ w s m, (w, s, m) ∈ [(1%nat, 7, 1); (1%nat, 5, 3); (1%nat, 14, 1); (1%nat, 4, 1);
    (1%nat, 13, 1); (1%nat, 15, 1); (1%nat, 12, 1)] →
    Z.land (Z.shiftr z s) m = Z.land (Z.shiftr z' s) m) as Heq.
  { intros w s m Hin. destruct (Hall w s m) as (y & y' & Hy & Hy' & Heq); [by right|]. congruence. }
  apply shown_rights_eq; [done|..]; apply (Heq 1%nat); evaluate.
Qed.

(** The dump tells vCPUs apart: two vCPUs whose dumps are the same text have the
    same registers, the same fields of the VMCS, and access rights that agree
    on all bits the table shows. *)
Lemma mac_dump_determines (cpu cpu' : MacCPU C) (w w1 w2 : W) :
  let c := mc_vcpu cpu in
  let c' := mc_vcpu cpu' in
  mc_id cpu = mc_id cpu' → dump_widths c → dump_widths c' →
  mac_print_registers cpu w = Ret w1 → mac_print_registers cpu' w = Ret w2 →
  stdout w1 = stdout w2 →
  (∀ r, r ∈ shown_registers ++ selectors → read_register c r = read_register c' r) ∧
  (∀ f, f ∈ shown_fields ++ shown_limits → read_vmcs c f = read_vmcs c' f) ∧
  (∀ f, f ∈ shown_ars → ∃ z z', read_vmcs c f = Ok z ∧ read_vmcs c' f = Ok z' ∧
     Z.land z shown_rights = Z.land z' shown_rights) ∧
  read_TR c = read_TR c' ∧ read_LDTR c = read_LDTR c' ∧ read_CR2 c = read_CR2 c' ∧
  read_link_pointer c = read_link_pointer c'.
Proof.
  intros c c' Hid Hc Hc' Hp Hp' Hout. unfold mac_print_registers in Hp, Hp'.
  rewrite <- Hid in Hp'. fold c in Hp. fold c' in Hp'.
  pose proof (print_dump_agrees _ _ _ _ _ _ (mac_dump_fixed c _ Hc) (mac_dump_fixed c' _ Hc') Hp Hp'
    Hout) as Hall. clear Hp Hp' Hout Hid.
  cbn [concat mac_dump dump_vmcs dump_registers dump_segments dump_tables register_row segment_row
    println print app] in Hall.
  repeat (let Hi := fresh "Hi" in apply Forall_cons in Hall as [Hi Hall];
    try match type of Hi with item_agrees _ _ (text _) => clear Hi
                         | item_agrees _ _ newline => clear Hi end).
  split_and!.
  - intros r Hr. unfold shown_registers, selectors in Hr. cbn in Hr.
    repeat (apply elem_of_cons in Hr as [-> |Hr];
      [first [apply (register_agrees 16); assumption|apply (register_agrees 4); assumption]|]).
    by apply elem_of_nil in Hr.
  - intros f Hf. unfold shown_fields, shown_limits in Hf. cbn in Hf.
    repeat (apply elem_of_cons in Hf as [-> |Hf];
      [first [apply (field_agrees 16); assumption|apply (field_agrees 8); assumption]|]).
    by apply elem_of_nil in Hf.
  - intros f Hf. unfold shown_ars in Hf.
    repeat (apply elem_of_cons in Hf as [-> |Hf]; [apply rights_agree; intros ?? m Hin;
      repeat (apply elem_of_cons in Hin as [[= -> -> ->]|Hin]; [assumption|]);
      by apply elem_of_nil in Hin|]).
    by apply elem_of_nil in Hf.
  - by apply (whole_agrees 4 read_TR).
  - by apply (whole_agrees 4 read_LDTR).
  - by apply (whole_agrees 16 read_CR2).
  - by apply (whole_agrees 16 read_link_pointer).
Qed.

End MacShows.

Section LinuxShows.
Context `{KvmVcpu C, KvmShow, Stdout W}.

(** A line of the dump is one of its lines. *)
Ltac in_dump := unfold linux_dump; repeat first [by apply elem_of_cons; left|apply elem_of_cons; right].

(** On Linux a dump that returns has read both structures: it shows the
    registers as their [Debug] does, every segment and table in a line of its
    own, and [EFER] and the base of the APIC. *)
Lemma linux_dump_shows (cpu : UhyveCPU C) (w w' : W) :
  print_registers cpu w = Ret w' →
  ∃ r s text, get_regs (cpu_vcpu cpu) = Ok r ∧ get_sregs (cpu_vcpu cpu) = Ok s ∧
    stdout w' = stdout w ++ text ∧
    let shows line := ∃ front back, text = front ++ line ++ back in
    shows (debug_regs r ++ debug_sregs s ++ [10]) ∧
    (∀ name seg, (name, seg) ∈ [("cs ", cs); ("ss ", ss); ("ds ", ds); ("es ", es); ("fs ", fs);
        ("gs ", gs); ("tr ", tr); ("ldt", ldt)]%string →
       shows (bytes name ++ bytes "       " ++ debug_segment (seg s) ++ [10])) ∧
    (∀ name table, (name, table) ∈ [("gdt", gdt); ("idt", idt)]%string →
       shows (bytes name ++ bytes "                 " ++ debug_dtable (table s) ++ [10])) ∧
    shows (bytes "efer: " ++ hex 16 (efer s) ++ bytes "  apic base: " ++ hex 16 (apic_base s) ++ [10]).
Proof.
  intros (bs & Hbs & Hout)%print_block_stdout.
  assert (∃ r, get_regs (cpu_vcpu cpu) = Ok r) as [r Hr].
  { destruct (render_line_part _ _ (println [Shown (of_regs debug_regs); Shown (of_sregs debug_sregs)])
      _ Hbs) as (? & line & ? & Hline & _); [in_dump|].
    cbn in Hline. unfold of_regs in Hline. destruct (get_regs _) as [r|]; [by exists r|done]. }
  assert (∃ s, get_sregs (cpu_vcpu cpu) = Ok s) as [s Hs].
  { destruct (render_line_part _ _ (show_dtable "gdt" gdt) _ Hbs) as (? & line & ? & Hline & _);
      [in_dump|].
    cbn in Hline. unfold of_sregs in Hline. destruct (get_sregs _) as [s|]; [by exists s|done]. }
  assert (∀ l line, l ∈ linux_dump (cpu_id cpu) → render_line (cpu_vcpu cpu) l = Ret line →
    ∃ front back, bs = front ++ line ++ back) as Hshows.
  { intros l line Hl Hline. destruct (render_line_part _ _ _ _ Hbs Hl) as (f & line' & b & Hline' & ->).
    rewrite Hline in Hline'. injection Hline' as <-. by eexists _, _. }
  exists r, s, bs. do 3 (split; [done|]). intros shows. unfold shows. split_and!.
  - apply (Hshows (println [Shown (of_regs debug_regs); Shown (of_sregs debug_sregs)]));
      [in_dump|]. cbn. unfold of_regs, of_sregs. by rewrite Hr, Hs.
  - intros name seg Hin. apply (Hshows (show_segment name seg)).
    + repeat (apply elem_of_cons in Hin as [[= -> ->]|Hin]; [in_dump|]).
      by apply elem_of_nil in Hin.
    + cbn. unfold of_sregs. by rewrite Hs.
  - intros name table Hin. apply (Hshows (show_dtable name table)).
    + repeat (apply elem_of_cons in Hin as [[= -> ->]|Hin]; [in_dump|]).
      by apply elem_of_nil in Hin.
    + cbn. unfold of_sregs. by rewrite Hs.
  - apply (Hshows (println [text "efer: "; Hex 16 (of_sregs efer) (λ z, z); text "  apic base: ";
      Hex 16 (of_sregs apic_base) (λ z, z)])); [in_dump|].
    cbn. unfold of_sregs. by rewrite Hs.
Qed.

End LinuxShows.

(** ** A row of the table *)
Module Example.
#[local] Existing Instance MacVcpu.Example.example_hv.
Import MacVcpu.Example (xcpu, XCpu).
#[local] Instance example_dump : XDump xcpu := {|
  read_TR _ := Ok 0; read_LDTR _ := Ok 0; read_CR2 _ := Ok 0; read_link_pointer _ := Ok 0 |}.

(** The code segment of 64-bit mode. *)
Lemma code_segment_row :
  render_line (XCpu [(REG_CS, 8)] [(VMCS_GUEST_CS_LIMIT, 0xfffff); (VMCS_GUEST_CS_AR, 0xa09b)] [])
    (register_row "cs        " REG_CS VMCS_GUEST_CS_BASE VMCS_GUEST_CS_LIMIT VMCS_GUEST_CS_AR) =
  Ret (bytes "cs        0008      0000000000000000  000fffff  0b    1 0   0  1 1 1 0" ++ [10]).
Proof. reflexivity. Qed.

Lemma mac_dump_widths_example : dump_widths (XCpu [] [] []).
Proof. split; cbn; intros; simplify_eq; done. Qed.

(** Standard output is what was written to the descriptor 1. *)
#[local] Existing Instance Hypercalls.Example.world_os.
#[local] Instance example_stdout : Stdout Hypercalls.Example.world.
Proof.
  refine {| stdout w := concat (snd <$> filter (λ e, e.1 = 1) (Hypercalls.Example.log w)) |}.
  intros w bs w' u [= <- _]. cbn [Hypercalls.Example.log]. rewrite filter_app, fmap_app, concat_app.
  rewrite filter_cons_True by done. rewrite filter_nil. cbn. by rewrite app_nil_r.
Defined.

#[local] Existing Instance VcpuLoop.Example.example_vcpu.
#[local] Instance example_show : KvmShow := {|
  debug_regs r := hex 16 (rip r); debug_sregs s := hex 16 (cr3 s);
  debug_segment s := hex 4 (selector s); debug_dtable t := hex 16 (dt_base t) |}.

(** The last line of the dump of a vCPU after its reset. *)
Lemma reset_dump :
  ∃ w front, print_registers (Cpu 0 (VcpuLoop.Example.fresh []) 0 [] None None)
      (Hypercalls.Example.World [] 3) = Ret w ∧
    stdout w = front ++ bytes "efer: 0000000000000000  apic base: 00000000fee00000" ++ [10].
Proof.
  eexists _, (take _ _). split; [vm_compute; reflexivity|].
  match goal with |- ?out = _ => etransitivity;
    [symmetry; apply (take_drop (length out - 52) out)|f_equal; vm_compute; reflexivity] end.
Qed.

End Example.
