(* ===== verification/GdbLoop.v ===== *)
(** * Debugging sessions ([UhyveGdbEventLoop] in src/linux/gdb/mod.rs, [run_gdb]
      in src/linux/mod.rs)

    gdbstub, with the debugger at the other end of its connection, is a program
    the repository does not contain: an interaction tree whose events are the
    calls of the [Target] and [BlockingEventLoop] traits and the use of the
    connection.  Running the tree against the handlers of Gdb.v gives a session;
    the theorems hold for every tree.  The thread that kicks the vCPU when input
    arrives is a transition system of its own. *)

From ITree Require Core.ITreeDefinition.
From S2P Require Import Prelude Memory Consts Paging AddressSpace Hypercalls CommandLine Loader.
From S2P Require Import Virtqueue Virtio LinuxVm KvmVcpu GdbRegs LinuxVcpu VcpuLoop DebugRegs Gdb Boot Smp.

(** ** The debugger *)

(** The calls gdbstub makes, with the types of their answers. *)
Variant targetE : Type → Type :=
| EReadRegisters : targetE (result Z X86_64CoreRegs)
| EWriteRegisters (regs : X86_64CoreRegs) : targetE (result Z unit)
| EReadAddrs (start_addr : Z) (len : nat) : targetE (list Z)
| EWriteAddrs (start_addr : Z) (data : list Z) : targetE unit
| EResume (signal : option Z) : targetE (result Z unit)
| EStep (signal : option Z) : targetE (result Z unit)
| EAddSw (addr kind : Z) : targetE bool
| ERemoveSw (addr kind : Z) : targetE bool
| EAddHw (addr kind : Z) : targetE bool
| ERemoveHw (addr kind : Z) : targetE bool
| EAddWatch (addr len : Z) (kind : WatchKind) : targetE bool
| ERemoveWatch (addr len : Z) (kind : WatchKind) : targetE bool
| EOffsets : targetE Offsets
| EWait : targetE (result WaitForStopReasonError Event)
| EInterrupt : targetE (option StopReason)
| EConnRead : targetE (result Z Z)
| EConnWrite (data : list Z) : targetE (result Z unit).

Inductive DisconnectReason := TargetExited (code : Z) | TargetTerminated (signal : Z) | Disconnect | Kill.

(** A [TcpStream] and the socket it comes from. *)
Class Connection (Tcp : Type) := {
  conn_peek : Tcp → result Z (option Z) * Tcp;
  conn_read : Tcp → result Z Z * Tcp;
  conn_write : Tcp → list Z → result Z unit * Tcp;
  conn_try_clone : Tcp → result Z Tcp;
  (** [TcpListener::bind("localhost:<port>")] and [accept]. *)
  tcp_bind : Z → result Z unit;
  tcp_accept : Z → result Z Tcp;
}.

(** [wait_for_gdb_connection]. *)
Definition wait_for_gdb_connection `{Connection Tcp} (port : Z) : result Z Tcp :=
  match tcp_bind port with
  | Ok _ => tcp_accept port
  | Err e => Err e
  end.

(** The connection, with the [Once] that says whether the kicking thread was
    spawned on a clone of it. *)
Record link (Tcp : Type) := Link { link_conn : Tcp; link_kicker : option Tcp }.
Arguments Link {Tcp} _ _.
Arguments link_conn {Tcp} _.
Arguments link_kicker {Tcp} _.

(** [SPAWN_THREAD.call_once(..)]. *)
Definition spawn_thread `{Connection Tcp} (l : link Tcp) : exec (link Tcp) :=
  match link_kicker l with
  | Some _ => Ret l
  | None => conn_clone ← expect (conn_try_clone (link_conn l)); Ret (Link (link_conn l) (Some conn_clone))
  end.

Section Session.
Context `{Profile, X86Debug, KvmDebug} `{KvmVcpu C} `{!KvmRun C} `{HostOS W, VirtioNet}.
Context `{Vm V} `{Connection Tcp} {T : Type}.
Context (dr6_truncate : Z → Z) (env : tap_env T) (args : list (list Z)) (vars : list (list Z * list Z)).
Context (write_fuel tx_fuel run_fuel : nat).
Implicit Types g : GdbUhyve V C W T.

(** [wait_for_stop_reason]: the guest runs until it stops; a kick means that
    there is input. *)
Definition stop_event (conn : Tcp) (stop : result Z StopReason) :
    exec (result WaitForStopReasonError Event * Tcp) :=
  match stop with
  | Err e => Ret (Err (TargetError e), conn)
  | Ok SignalInt =>
      let '(peeked, conn) := conn_peek conn in
      match peeked with
      | Err e => Ret (Err (ConnectionError e), conn)
      | Ok b =>
          rust_assert (bool_decide (is_Some b)) ;;
          let '(byte, conn) := conn_read conn in
          match byte with
          | Err e => Ret (Err (ConnectionError e), conn)
          | Ok b => Ret (Ok (IncomingData b), conn)
          end
      end
  | Ok reason => Ret (Ok (TargetStopped reason), conn)
  end.

Definition wait_for_stop_reason g (l : link Tcp) :
    option (exec (result WaitForStopReasonError Event * GdbUhyve V C W T * link Tcp)) :=
  match spawn_thread l with
  | Ret l =>
      r ← gdb_run dr6_truncate env args vars write_fuel tx_fuel run_fuel g;
      Some ('(stop, g) ← r;
            '(event, conn) ← stop_event (link_conn l) stop;
            Ret (event, g, Link conn (link_kicker l)))
  | Panic => Some Panic
  | Fault => Some Fault
  end.

Definition on_interrupt : option StopReason := Some SignalInt.

(** A call that may fail and changes the target when it succeeds. *)
Definition answer {A} (g : GdbUhyve V C W T) (l : link Tcp) (r : result Z (GdbUhyve V C W T)) (a : A) :
    result Z A * GdbUhyve V C W T * link Tcp :=
  match r with Ok g' => (Ok a, g', l) | Err e => (Err e, g, l) end.

(** The target's side of a call. *)
Definition handle {A} (e : targetE A) (g : GdbUhyve V C W T) (l : link Tcp) :
    option (exec (A * GdbUhyve V C W T * link Tcp)) :=
  match e in targetE A return option (exec (A * GdbUhyve V C W T * link Tcp)) with
  | EReadRegisters => Some (r ← read_registers g; Ret (r, g, l))
  | EWriteRegisters regs => Some (r ← write_registers g regs; Ret (answer g l r ()))
  | EReadAddrs a n => Some (data ← read_addrs g a n; Ret (data, g, l))
  | EWriteAddrs a data => Some (g ← write_addrs g a data; Ret ((), g, l))
  | EResume signal => Some (Ret (answer g l (resume g signal) ()))
  | EStep signal => Some (Ret (answer g l (Gdb.step g signal) ()))
  | EAddSw a k => Some ('(g, b) ← add_sw_breakpoint g a k; Ret (b, g, l))
  | ERemoveSw a k => Some ('(g, b) ← remove_sw_breakpoint g a k; Ret (b, g, l))
  | EAddHw a k => Some ('(g, b) ← add_hw_breakpoint g a k; Ret (b, g, l))
  | ERemoveHw a k => Some ('(g, b) ← remove_hw_breakpoint g a k; Ret (b, g, l))
  | EAddWatch a n k => Some ('(g, b) ← add_hw_watchpoint g a n k; Ret (b, g, l))
  | ERemoveWatch a n k => Some ('(g, b) ← remove_hw_watchpoint g a n k; Ret (b, g, l))
  | EOffsets => Some (Ret (get_section_offsets g, g, l))
  | EWait => wait_for_stop_reason g l
  | EInterrupt => Some (Ret (on_interrupt, g, l))
  | EConnRead => Some (let '(r, conn) := conn_read (link_conn l) in Ret (r, g, Link conn (link_kicker l)))
  | EConnWrite data => Some (let '(r, conn) := conn_write (link_conn l) data in
          Ret (r, g, Link conn (link_kicker l)))
  end.

(** The debugger's program. *)
Definition debugger : Type := ITreeDefinition.itree targetE (result Z DisconnectReason).

(** A session of at most [fuel] steps of the debugger: how it ends, and the
    stop events it has seen. *)
Definition stop_events {A} (e : targetE A) : A → list StopReason :=
  match e in targetE A return A → list StopReason with
  | EWait => λ r, match r with Ok (TargetStopped reason) => [reason] | _ => [] end
  | _ => λ _, []
  end.

Fixpoint run_blocking (fuel : nat) (t : debugger) g (conn : link Tcp) :
    option (exec (result Z DisconnectReason * list StopReason * GdbUhyve V C W T)) :=
  match fuel with
  | O => None
  | S fuel' =>
      match ITreeDefinition.observe t with
      | ITreeDefinition.RetF r => Some (Ret (r, [], g))
      | ITreeDefinition.TauF t => run_blocking fuel' t g conn
      | ITreeDefinition.VisF e k =>
          out ← handle e g conn;
          match out with
          | Ret (a, g, conn) =>
              rest ← run_blocking fuel' (k a) g conn;
              Some ('(r, stops, g) ← rest; Ret (r, stop_events e a ++ stops, g))
          | Panic => Some Panic
          | Fault => Some Fault
          end
      end
  end.

(** One call of the debugger. *)
Lemma run_blocking_vis {A} fuel t (e : targetE A) k g conn r stops g' :
  ITreeDefinition.observe t = ITreeDefinition.VisF e k →
  run_blocking (S fuel) t g conn = Some (Ret (r, stops, g')) →
  ∃ a g1 conn1 stops1,
    handle e g conn = Some (Ret (a, g1, conn1)) ∧ stops = stop_events e a ++ stops1 ∧
    run_blocking fuel (k a) g1 conn1 = Some (Ret (r, stops1, g')).
Proof.
  intros Ht Hr. cbn [run_blocking] in Hr. rewrite Ht in Hr.
  destruct (handle e g conn) as [[[[a g1] conn1]| |]|]; try done. cbn in Hr.
  destruct (run_blocking fuel _ _ _) as [[[[r2 stops2] g2]| |]|] eqn:Hrest; cbn in Hr; try done.
  injection Hr as -> <- ->. by exists a, g1, conn1, stops2.
Qed.

(** ** What every session keeps *)

Context `{!KvmRunLaws C}.

(** [g] is the target [g0] became: the same machine with its memory mapped
    where it was, a well-formed device, four slots for hardware breakpoints, and
    for every software breakpoint as many saved bytes as it covers. *)
Record gdb_wf g0 g : Prop := {
  gw_vm : gdb_vm g = gdb_vm g0;
  gw_vcpu : vm_wf (gdb_vcpu g0) (gdb_vcpu g);
  gw_hw : length (hw_breakpoints g) = 4%nat;
  gw_sw a k bs : sw_breakpoints g !! (a, k) = Some bs → length bs = Z.to_nat k;
}.

Lemma gdb_wf_new vm vcpu : device_wf (st_device vcpu) → gdb_wf (gdb_new vm vcpu) (gdb_new vm vcpu).
Proof. by split. Qed.

(** The vCPU alone changes. *)
Lemma gdb_wf_vcpu g0 g st :
  gdb_wf g0 g → vm_wf (gdb_vcpu g) st →
  gdb_wf g0 (Gdb (gdb_vm g) st (hw_breakpoints g) (sw_breakpoints g)).
Proof. intros [Hv Hc Hh Hs] Hst. split; [done|by eapply vm_wf_trans|done|done]. Qed.

Lemma gdb_wf_fd g0 g c :
  gdb_wf g0 g →
  gdb_wf g0 (Gdb (gdb_vm g) (with_vcpu c (gdb_vcpu g)) (hw_breakpoints g) (sw_breakpoints g)).
Proof. intros Hg. apply gdb_wf_vcpu; [done|]. by split; [apply Hg|..]. Qed.

Lemma gdb_wf_memory g0 g m sw :
  gdb_wf g0 g → same_map (gdb_mem g) m →
  (∀ a k bs, sw !! (a, k) = Some bs → length bs = Z.to_nat k) → gdb_wf g0 (with_memory m sw g).
Proof.
  intros [Hv Hc Hh Hs] Hm Hsw. split; [done| |done|done].
  eapply vm_wf_trans; [exact Hc|]. apply vm_wf_host; [apply Hc|exact Hm].
Qed.

Lemma gdb_wf_hw g0 g hw : gdb_wf g0 g → length hw = 4%nat → gdb_wf g0 (with_hw hw g).
Proof. by intros [] ?; split. Qed.

Lemma add_sw_wf g0 g a k g' b : gdb_wf g0 g → add_sw_breakpoint g a k = Ret (g', b) → gdb_wf g0 g'.
Proof.
  intros Hg Ha. unfold add_sw_breakpoint in Ha.
  destruct (sw_breakpoints g !! (a, k)) eqn:Hk; exec_inv; [done|].
  apply gdb_wf_memory; [done|by eapply store_bytes_map|]. intros a' k' bs Hbs.
  destruct (decide ((a', k') = (a, k))) as [[= -> ->]|Hne].
  - rewrite lookup_insert_eq in Hbs. injection Hbs as <-. by eapply load_bytes_length.
  - rewrite lookup_insert_ne in Hbs by done. by eapply (gw_sw _ _ Hg).
Qed.

Lemma remove_sw_wf g0 g a k g' b :
  gdb_wf g0 g → remove_sw_breakpoint g a k = Ret (g', b) → gdb_wf g0 g'.
Proof.
  intros Hg Ha. unfold remove_sw_breakpoint in Ha.
  destruct (sw_breakpoints g !! (a, k)) as [bs|] eqn:Hk; exec_inv; [|done].
  apply gdb_wf_memory; [done|by eapply store_bytes_map|]. intros a' k' bs' [_ Hbs]%lookup_delete_Some.
  by eapply (gw_sw _ _ Hg).
Qed.

Lemma insert_hw_wf g0 g b : gdb_wf g0 g → gdb_wf g0 (insert_hw g b).1.
Proof.
  intros Hg. destruct b as [b|]; [|done]. cbn. unfold try_insert.
  destruct (list_find _ _) as [[i e]|]; cbn; apply gdb_wf_hw; rewrite ?length_insert; try done; apply Hg.
Qed.

Lemma take_hw_wf g0 g b : gdb_wf g0 g → gdb_wf g0 (take_hw g b).1.
Proof.
  intros Hg. destruct b as [b|]; [|done]. cbn. unfold hw_take.
  destruct (list_find _ _) as [[i e]|]; cbn; apply gdb_wf_hw; rewrite ?length_insert; try done; apply Hg.
Qed.

Lemma apply_guest_debug_wf g0 g step g' :
  gdb_wf g0 g → apply_guest_debug g step = Ok g' → gdb_wf g0 g'.
Proof.
  intros Hg. unfold apply_guest_debug. destruct (set_guest_debug _ _) as [c|]; [|done].
  intros [= <-]. by apply gdb_wf_fd.
Qed.

Lemma gdb_run_wf g0 g r g' :
  gdb_wf g0 g →
  gdb_run dr6_truncate env args vars write_fuel tx_fuel run_fuel g = Some (Ret (r, g')) → gdb_wf g0 g'.
Proof.
  intros Hg Hr. unfold gdb_run in Hr.
  destruct (continue _ _ _ _ _ _ _) as [[[reason st]| |]|] eqn:Hc; cbn in Hr; try done.
  apply continue_wf in Hc; [|apply Hg]. pose proof (gdb_wf_vcpu _ _ _ Hg Hc) as Hg'.
  injection Hr as Hr. by destruct reason; exec_inv.
Qed.

Lemma wait_wf g0 g conn r g' conn' :
  gdb_wf g0 g → wait_for_stop_reason g conn = Some (Ret (r, g', conn')) → gdb_wf g0 g'.
Proof.
  intros Hg Hw. unfold wait_for_stop_reason in Hw. destruct (spawn_thread conn) as [l| |]; try done.
  destruct (gdb_run _ _ _ _ _ _ _ _) as [[[stop g1]| |]|] eqn:Hr; cbn in Hw; try done.
  apply (gdb_run_wf g0) in Hr; [|done]. injection Hw as Hw.
  destruct (stop_event _ stop) as [[event c]| |]; try done. by injection Hw as _ <- _.
Qed.

Lemma answer_wf {A} (a : A) r res g0 g conn g' conn' :
  gdb_wf g0 g → (∀ g1, r = Ok g1 → gdb_wf g0 g1) → answer g conn r a = (res, g', conn') → gdb_wf g0 g'.
Proof. intros Hg Hr. destruct r; intros [= _ <- _]; auto. Qed.

Lemma write_registers_wf g0 g regs g' :
  gdb_wf g0 g → write_registers g regs = Ret (Ok g') → gdb_wf g0 g'.
Proof.
  intros Hg Hw. unfold write_registers in Hw. exec_inv.
  match goal with Hx : match ?r with _ => _ end = _ |- _ => destruct r as [c|]; [|done] end.
  exec_inv. by apply gdb_wf_fd.
Qed.

Lemma hw_call_wf g0 (f : option HwBreakpoint → GdbUhyve V C W T * bool)
    (x : exec (option HwBreakpoint)) g' b :
  (∀ o, gdb_wf g0 (f o).1) → f <$> x = Ret (g', b) → gdb_wf g0 g'.
Proof.
  intros Hf Hx. destruct x as [o| |]; cbn in Hx; try done.
  injection Hx as Hx. specialize (Hf o). by rewrite Hx in Hf.
Qed.

Lemma handle_wf {A} (e : targetE A) g0 g conn a g' conn' :
  gdb_wf g0 g → handle e g conn = Some (Ret (a, g', conn')) → gdb_wf g0 g'.
Proof.
  intros Hg He. destruct e; cbn [handle] in He; try (injection He as He); exec_inv;
    repeat (match goal with x : GdbUhyve V C W T * bool |- _ => destruct x end; exec_inv); try done.
  - eapply answer_wf; [done| |done]. intros g1 ->. by eapply write_registers_wf.
  - unfold write_addrs in *. exec_inv. apply gdb_wf_memory; [done|by eapply store_bytes_map|apply Hg].
  - eapply answer_wf; [done| |done]. intros g1. destruct signal; [done|]. by apply apply_guest_debug_wf.
  - eapply answer_wf; [done| |done]. intros g1. destruct signal; [done|]. by apply apply_guest_debug_wf.
  - by eapply add_sw_wf.
  - by eapply remove_sw_wf.
  - eapply (hw_call_wf _ (insert_hw g)); [|eassumption]. intros. by apply insert_hw_wf.
  - eapply (hw_call_wf _ (take_hw g)); [|eassumption]. intros. by apply take_hw_wf.
  - eapply (hw_call_wf _ (insert_hw g)); [|eassumption]. intros. by apply insert_hw_wf.
  - eapply (hw_call_wf _ (take_hw g)); [|eassumption]. intros. by apply take_hw_wf.
  - by subst.
  - exact (wait_wf _ _ _ _ _ _ Hg He).
  - by simplify_eq.
  - by destruct (conn_read _); exec_inv.
  - by destruct (conn_write _ data); exec_inv.
Qed.

Lemma run_blocking_wf fuel t g0 g conn r stops g' :
  gdb_wf g0 g → run_blocking fuel t g conn = Some (Ret (r, stops, g')) → gdb_wf g0 g'.
Proof.
  revert t g conn stops. induction fuel as [|fuel IH]; intros t g conn stops Hg Hr; [done|].
  destruct (ITreeDefinition.observe t) as [x|t'|A e k] eqn:Ht.
  - cbn [run_blocking] in Hr. rewrite Ht in Hr. by injection Hr as _ _ <-.
  - cbn [run_blocking] in Hr. rewrite Ht in Hr. by eapply IH.
  - destruct (run_blocking_vis _ _ _ _ _ _ _ _ _ Ht Hr) as (a & g1 & conn1 & stops1 & He & _ & Hrest).
    eapply IH; [|exact Hrest]. by eapply handle_wf.
Qed.

(** The saved bytes of a breakpoint fit the place they came from. *)
Lemma remove_sw_panics g0 g a k :
  gdb_wf g0 g → 0 ≤ k → remove_sw_breakpoint g a k = Panic → gdb_slice g a k = Panic.
Proof.
  intros Hg Hk. unfold remove_sw_breakpoint. destruct (sw_breakpoints g !! (a, k)) as [bs|] eqn:Hbs; [|done].
  destruct (gdb_slice g a k) as [p| |]; cbn; try done.
  apply (gw_sw _ _ Hg) in Hbs. rewrite (proj2 (Z.eqb_eq _ _)) by lia. cbn.
  unfold store_bytes. by case_decide.
Qed.

(** C8: Whatever the debugger asks for, in any order, with the guest running in
    between: the target is the same machine, with its memory mapped where it
    was and a well-formed network device, there are four slots for hardware
    breakpoints, and every software breakpoint has saved as many bytes as it
    covers; removing one panics only where its address is not mapped. *)
Theorem debug_session_wf fuel t g conn r stops g' :
  gdb_wf g g → run_blocking fuel t g conn = Some (Ret (r, stops, g')) →
  gdb_wf g g' ∧
  ∀ a k, 0 ≤ k → remove_sw_breakpoint g' a k = Panic → gdb_slice g' a k = Panic.
Proof.
  intros Hg Hr. assert (gdb_wf g g') as Hg' by (by eapply run_blocking_wf).
  split; [done|]. intros a k. by eapply remove_sw_panics.
Qed.

(** ** How a session ends *)

(** Where a session gets to. *)
Inductive reaches (t : debugger) g (l : link Tcp) :
    debugger → GdbUhyve V C W T → link Tcp → Prop :=
| reaches_start : reaches t g l t g l
| reaches_tau t1 g1 l1 t2 :
    reaches t g l t1 g1 l1 → ITreeDefinition.observe t1 = ITreeDefinition.TauF t2 →
    reaches t g l t2 g1 l1
| reaches_call t1 g1 l1 A (e : targetE A) k a g2 l2 :
    reaches t g l t1 g1 l1 → ITreeDefinition.observe t1 = ITreeDefinition.VisF e k →
    handle e g1 l1 = Some (Ret (a, g2, l2)) → reaches t g l (k a) g2 l2.

Lemma reaches_trans t g l t1 g1 l1 t2 g2 l2 :
  reaches t g l t1 g1 l1 → reaches t1 g1 l1 t2 g2 l2 → reaches t g l t2 g2 l2.
Proof.
  intros Hfirst. induction 1 as [|? ? ? ? _ IH Ht|? ? ? A e k a ? ? _ IH Ht He]; [done| |].
  - by eapply reaches_tau.
  - by eapply reaches_call.
Qed.

(** A stop the debugger was told of is one [wait_for_stop_reason] returned in
    the session. *)
Definition told (t : debugger) g (l : link Tcp) (reason : StopReason) : Prop :=
  ∃ t1 g1 l1 g2 l2, reaches t g l t1 g1 l1 ∧
    wait_for_stop_reason g1 l1 = Some (Ret (Ok (TargetStopped reason), g2, l2)) ∧
    match reason with
    | Exited status => ∃ code, left_guest (gdb_vcpu g2) code ∧ status = if code =? 0 then 0 else 1
    | _ => True
    end.

(** The status of an exit comes from the guest's code. *)
Lemma wait_exited g l status g' l' :
  wait_for_stop_reason g l = Some (Ret (Ok (TargetStopped (Exited status)), g', l')) →
  ∃ code, left_guest (gdb_vcpu g') code ∧ status = if code =? 0 then 0 else 1.
Proof.
  unfold wait_for_stop_reason, gdb_run. destruct (spawn_thread l) as [l1| |]; try done.
  destruct (continue _ _ _ _ _ _ _) as [[[[why|] st]| |]|] eqn:Hc; try done. cbn.
  destruct (gdb_stop _ _ why) as [stop| |] eqn:Hstop; try done. cbn. intros Hw.
  assert (stop = Exited status ∧ g' = Gdb (gdb_vm g) st (hw_breakpoints g) (sw_breakpoints g)) as [-> ->].
  { injection Hw as Hw. destruct stop; cbn in Hw; try (by simplify_eq).
    destruct (conn_peek _) as [[o|] c1]; [|done]. destruct (rust_assert _); try done. cbn in Hw.
    by destruct (conn_read c1) as [[] c2]. }
  destruct why as [debug|code|]; cbn [gdb_stop] in Hstop.
  - destruct (_ =? DB_VECTOR); [|by destruct (_ =? BP_VECTOR)].
    unfold stop_reason in Hstop. destruct (dr6_contains _ _); exec_inv; [done|].
    destruct x as [j n]. exec_inv. by destruct (hw_condition _).
  - injection Hstop as <-. exists code. split; [by eapply continue_code|done].
  - done.
Qed.

Lemma run_blocking_told fuel t g conn r stops g' :
  run_blocking fuel t g conn = Some (Ret (r, stops, g')) → Forall (told t g conn) stops.
Proof.
  revert t g conn stops. induction fuel as [|fuel IH]; intros t g conn stops Hr; [done|].
  assert (∀ t1 g1 l1 stops1, reaches t g conn t1 g1 l1 → Forall (told t1 g1 l1) stops1 →
    Forall (told t g conn) stops1) as Hlater.
  { intros t1 g1 l1 stops1 Ht1 Hs. eapply Forall_impl; [exact Hs|]. intros reason (t2 & g2 & l2 & g3 & l3 & Ht2 & Hrest).
    exists t2, g2, l2, g3, l3. split; [by eapply reaches_trans|done]. }
  destruct (ITreeDefinition.observe t) as [x|t'|A e k] eqn:Ht.
  - cbn [run_blocking] in Hr. rewrite Ht in Hr. by injection Hr as _ <- _.
  - cbn [run_blocking] in Hr. rewrite Ht in Hr. eapply Hlater; [|by eapply IH].
    eapply reaches_tau; [apply reaches_start|done].
  - destruct (run_blocking_vis _ _ _ _ _ _ _ _ _ Ht Hr) as (a & g1 & conn1 & stops1 & He & -> & Hrest).
    apply Forall_app. split; [|eapply Hlater; [eapply reaches_call; [apply reaches_start|done..]|by eapply IH]].
    destruct e; try (by constructor). cbn [stop_events].
    destruct a as [[byte|reason]|]; try (by constructor). constructor; [|constructor].
    exists t, g, conn, g1, conn1. split; [apply reaches_start|]. split; [exact He|].
    destruct reason; try done. by eapply wait_exited.
Qed.

(** What gdbstub documents of the end of a session: it reports that the target
    has exited after the target said so. *)
Definition reports (t : debugger) : Prop :=
  ∀ fuel g conn status stops g',
    run_blocking fuel t g conn = Some (Ret (Ok (TargetExited status), stops, g')) →
    Exited status ∈ stops.

(** The [match] of [run_gdb]. *)
Definition disconnect_code (r : result Z DisconnectReason) : exec Z :=
  reason ← expect r;
  match reason with
  | TargetExited code => Ret code
  | TargetTerminated _ => Panic
  | Disconnect => Ret 0
  | Kill => Ret 0
  end.

End Session.

Section RunGdb.
Context `{Profile, X86Debug, KvmDebug, Kvm K, KvmCreate K C} `{!KvmVcpu C, !KvmRun C}.
Context `{HostOS W, VirtioNet, X86_64Control, Connection Tcp} {T : Type}.
Context (dr6_truncate : Z → Z) (env : tap_env T) (args : list (list Z)) (vars : list (list Z * list Z)).
Context (write_fuel tx_fuel run_fuel : nat).

(** [GdbUhyve::new(self, cpu)], with the state the vCPU shares. *)
Definition debuggable_vcpu (v : Uhyve K T) (cpu : UhyveCPU C) (w : W) : GdbUhyve (Uhyve K T) C W T :=
  gdb_new v (State cpu (Host (contents v) w) (virtio_device v) []).

(** [run_gdb], once the thread is pinned, with a debugger of at most [fuel]
    steps. *)
Definition run_gdb (fuel : nat) (t : debugger) (v : Uhyve K T) (w : W) : option (exec Z) :=
  match (cpu ← start_vcpu v 0; port ← unwrap (gdb_port v);
         connection ← expect (wait_for_gdb_connection port); Ret (cpu, connection)) with
  | Ret (cpu, connection) =>
      out ← run_blocking dr6_truncate env args vars write_fuel tx_fuel run_fuel fuel t
              (debuggable_vcpu v cpu w) (Link connection None);
      Some ('(r, _, _) ← out; disconnect_code r)
  | Panic => Some Panic
  | Fault => Some Fault
  end.

Lemma run_gdb_inv fuel t v w code :
  run_gdb fuel t v w = Some (Ret code) →
  ∃ cpu conn r stops g,
    start_vcpu v 0 = Ret cpu ∧ disconnect_code r = Ret code ∧
    run_blocking dr6_truncate env args vars write_fuel tx_fuel run_fuel fuel t
      (debuggable_vcpu v cpu w) conn = Some (Ret (r, stops, g)).
Proof.
  unfold run_gdb. destruct (mbind _ _) as [[cpu conn]| |] eqn:Hs; try done. exec_inv.
  destruct (run_blocking _ _ _ _ _ _ _ _ _ _) as [[[[r stops] g]| |]|] eqn:Hr; try done.
  cbn. intros [= Hcode]. by exists cpu, (Link conn None), r, stops, g.
Qed.

(** C29: The exit code of a debugged guest.  When [run_gdb] returns, the session
    has ended.  If gdbstub says that the target exited, then a [KVM_RUN] of the
    session brought back an exit of the guest, and the program's code is 0 when
    the guest's code was 0 and 1 when it was anything else; if the debugger has
    gone or killed the target, the program's code is 0. *)
Theorem run_gdb_code fuel t v w code :
  reports (V:=Uhyve K T) (C:=C) dr6_truncate env args vars write_fuel tx_fuel run_fuel t →
  run_gdb fuel t v w = Some (Ret code) →
  ∃ cpu conn reason stops g, start_vcpu v 0 = Ret cpu ∧
    run_blocking dr6_truncate env args vars write_fuel tx_fuel run_fuel fuel t
      (debuggable_vcpu v cpu w) conn = Some (Ret (Ok reason, stops, g)) ∧
    match reason with
    | TargetExited _ =>
        ∃ guest_code t1 g1 l1 g2 l2,
          reaches dr6_truncate env args vars write_fuel tx_fuel run_fuel t
            (debuggable_vcpu v cpu w) conn t1 g1 l1 ∧
          wait_for_stop_reason dr6_truncate env args vars write_fuel tx_fuel run_fuel g1 l1 =
            Some (Ret (Ok (TargetStopped (Exited code)), g2, l2)) ∧
          left_guest (gdb_vcpu g2) guest_code ∧ code = if guest_code =? 0 then 0 else 1
    | Disconnect | Kill => code = 0
    | TargetTerminated _ => False
    end.
Proof.
  intros Hrep (cpu & conn & r & stops & g & Hcpu & Hcode & Hr)%run_gdb_inv.
  apply run_blocking_told in Hr as Htold.
  destruct r as [reason|]; [|done]. exists cpu, conn, reason, stops, g. do 2 (split; [done|]).
  destruct reason as [status|s| |]; cbn in Hcode; try done; injection Hcode as <-; [|done..].
  apply Hrep in Hr as Hin. rewrite Forall_forall in Htold.
  destruct (Htold _ Hin) as (t1 & g1 & l1 & g2 & l2 & Ht1 & Hw & guest_code & Hleft & Hst).
  by exists guest_code, t1, g1, l1, g2, l2.
Qed.

End RunGdb.

(** ** The thread that kicks the vCPU

    While the guest runs nobody reads the connection, so a second thread waits
    for input, kicks the vCPU out of [KVM_RUN] and sleeps, again and again.  The
    input itself is read by the first thread, and a kick reaches it only in
    [KVM_RUN]. *)

Module Kicker.

Inductive kicker_state := Reading | Kicking | Sleeping.
(** In [KVM_RUN]; serving an exit; in gdbstub; the assertion on [peek] failed. *)
Inductive vcpu_place := InGuest | InServe | InStub | AssertFailed.

Record channel := Channel { pending : nat; kicker : kicker_state; place : vcpu_place }.

Inductive kick_label :=
| Arrive | KickerReads | KickerKicks | KickerWakes
| GuestExits | GuestEnters | GuestStops | StubReads | StubResumes.

(** A kick in [KVM_RUN]: the first thread peeks at the connection, asserts that
    there is a byte, and reads it. *)
Definition kicked (c : channel) : channel :=
  match pending c with
  | O => Channel 0 Sleeping AssertFailed
  | S n => Channel n Sleeping InStub
  end.

Definition kick_step (l : kick_label) (c : channel) : option channel :=
  match l, kicker c, place c with
  | Arrive, k, p => Some (Channel (S (pending c)) k p)
  | KickerReads, Reading, p =>
      if decide (pending c = 0%nat) then None else Some (Channel (pending c) Kicking p)
  | KickerKicks, Kicking, InGuest => Some (kicked c)
  | KickerKicks, Kicking, p => Some (Channel (pending c) Sleeping p)
  | KickerWakes, Sleeping, p => Some (Channel (pending c) Reading p)
  | GuestExits, k, InGuest => Some (Channel (pending c) k InServe)
  | GuestEnters, k, InServe => Some (Channel (pending c) k InGuest)
  | GuestStops, k, InServe => Some (Channel (pending c) k InStub)
  | StubReads, k, InStub =>
      match pending c with O => None | S n => Some (Channel n k InStub) end
  | StubResumes, k, InStub => Some (Channel (pending c) k InGuest)
  | _, _, _ => None
  end.

Fixpoint kick_steps (ls : list kick_label) (c : channel) : option channel :=
  match ls with [] => Some c | l :: ls' => c ← kick_step l c; kick_steps ls' c end.

Definition kick_start : channel := Channel 0 Reading InGuest.

(** The kicker alone. *)
Definition of_kicker (l : kick_label) : Prop :=
  match l with KickerReads | KickerKicks | KickerWakes => True | _ => False end.

(** No input is lost: in every state in which the guest runs and a byte is
    pending, the kicker's own next steps, three at most, hand that byte to
    gdbstub. *)
Lemma input_is_served n k :
  ∃ ls, Forall of_kicker ls ∧ (length ls ≤ 3)%nat ∧
    kick_steps ls (Channel (S n) k InGuest) = Some (Channel n Sleeping InStub).
Proof.
  destruct k; [exists [KickerReads; KickerKicks]|exists [KickerKicks]|
               exists [KickerWakes; KickerReads; KickerKicks]];
    (split; [by repeat constructor|split; [cbn; lia|done]]).
Qed.

(** When the kicker is not delayed between its read and its kick, the
    assertion holds. *)
Inductive prompt : channel → channel → Prop :=
| prompt_kick c c' : kick_steps [KickerReads; KickerKicks] c = Some c' → prompt c c'
| prompt_other l c c' :
    l ≠ KickerReads → l ≠ KickerKicks → kick_step l c = Some c' → prompt c c'.

Lemma prompt_kick_finds_input c :
  rtc prompt kick_start c → place c ≠ AssertFailed.
Proof.
  intros Hr. assert (kicker c ≠ Kicking ∧ place c ≠ AssertFailed) as [_ ?]; [|done].
  assert (kicker kick_start ≠ Kicking ∧ place kick_start ≠ AssertFailed) as H0 by done.
  revert H0. induction Hr as [|c1 c2 c3 Hstep _ IH]; [done|]. intros [Hk Hp]. apply IH.
  destruct Hstep as [[n k p] c2 Hs|l [n k p] c2 Hl Hl' Hs]; cbn in Hk, Hp.
  - destruct n, k, p; cbn in Hs; try done; by injection Hs as <-.
  - destruct l, k, p; try done; cbn in Hs; try (by injection Hs as <-).
    all: destruct n; try done; by injection Hs as <-.
Qed.

(** A byte arrives, the kicker sees it, the guest stops at a breakpoint,
    gdbstub reads the byte and resumes the guest; the kick comes only now. *)
Lemma late_kick_panics :
  place <$> kick_steps [Arrive; KickerReads; GuestExits; GuestStops; StubReads; StubResumes; KickerKicks]
    kick_start = Some AssertFailed.
Proof. done. Qed.

End Kicker.

(** ** A session *)
Module Example.
#[local] Existing Instance debug_profile.
#[local] Existing Instance DebugRegs.Example.example_debug.
#[local] Existing Instance Virtio.Example.net.
#[local] Existing Instance LinuxVm.Example.example_kvm.
#[local] Existing Instance VcpuLoop.Example.example_vcpu.
#[local] Existing Instance VcpuLoop.Example.example_run.
#[local] Existing Instance VcpuLoop.Example.example_run_laws.
#[local] Existing Instance VcpuLoop.Example.example_control.
Import Hypercalls.Example.

#[local] Instance example_kvm_debug : KvmDebug := {|
  DB_VECTOR := 1; BP_VECTOR := 3; KVM_GUESTDBG_ENABLE := 1; KVM_GUESTDBG_SINGLESTEP := 2;
  KVM_GUESTDBG_USE_HW_BP := 0x20000; KVM_GUESTDBG_USE_SW_BP := 0x10000;
|}.

#[local] Instance example_connection : Connection (list Z) := {|
  conn_peek c := (Ok (head c), c);
  conn_read c := match c with b :: c' => (Ok b, c') | [] => (Err 11, c) end;
  conn_write c _ := (Ok (), c);
  conn_try_clone c := Ok c;
  tcp_bind _ := Ok ();
  tcp_accept _ := Ok [];
|}.

(** A guest that exits with the code 7. *)
Definition script : list (list (Z * list Z) * VcpuExit) :=
  [([], ExitHlt);
   ([(base + 0x2100, le_split 4 7)], ExitIoOut UHYVE_PORT_EXIT (le_split 4 0x2100))].
#[local] Instance example_create : KvmCreate unit VcpuLoop.Example.vcpu :=
  {| create_vcpu _ id := Ok (VcpuLoop.Example.fresh script) |}.

(** Its first 2 MiB are mapped. *)
Definition guest_memory : mem :=
  writes [(base + BOOT_PML4, le_split 8 (BOOT_PDPTE + 3)); (base + BOOT_PDPTE, le_split 8 (BOOT_PDE + 3));
          (base + BOOT_PDE, le_split 8 0x83)] (Mem base 0x100000 ∅).

Definition machine : Uhyve unit unit := {|
  vm_fd := (); offset := 0; entry_point := 0x4000;
  vm_memory := {| mmap_flags := 0; mmap_memory_size := 0x100000; mmap_guest_address := 0;
                  mmap_host_address := base |};
  contents := guest_memory; num_cpus := 1; path := []; boot_info := base + BOOT_INFO_ADDR;
  uhyve_verbose := false; ip := None; gateway := None; mask := None; uhyve_device := None;
  virtio_device := Virtio.Example.fresh; gdb_port := Some 1234 |}.

(** The debugger sets breakpoints, lets the guest run, removes one breakpoint
    and ends with what it has seen. *)
Definition session : debugger :=
  ITreeDefinition.Vis (EAddHw 0x4000 1) (λ _,
  ITreeDefinition.Vis (EAddSw 0x4000 1) (λ _,
  ITreeDefinition.Vis EWait (λ r,
  ITreeDefinition.Vis (ERemoveSw 0x4000 1) (λ _,
  ITreeDefinition.Ret (Ok (match r with
                           | Ok (TargetStopped (Exited c)) => TargetExited c
                           | _ => Disconnect
                           end)))))).

Definition run_session (fuel : nat) (g : GdbUhyve (Uhyve unit unit) VcpuLoop.Example.vcpu world unit) :=
  run_blocking id Virtio.Example.tap [] [] 5 10 10 fuel session g (Link ([] : list Z) None).

Lemma session_reports :
  reports (V:=Uhyve unit unit) (C:=VcpuLoop.Example.vcpu) (W:=world) (Tcp:=list Z)
    id Virtio.Example.tap [] [] 5 10 10 session.
Proof.
  intros fuel g conn status stops g' Hr.
  destruct fuel as [|fuel]; [done|].
  eapply run_blocking_vis in Hr as (a1 & g1 & conn1 & stops1 & _ & -> & Hr); [|reflexivity].
  destruct fuel as [|fuel]; [done|].
  eapply run_blocking_vis in Hr as (a2 & g2 & conn2 & stops2 & _ & -> & Hr); [|reflexivity].
  destruct fuel as [|fuel]; [done|].
  eapply run_blocking_vis in Hr as (r & g3 & conn3 & stops3 & _ & -> & Hr); [|reflexivity].
  destruct fuel as [|fuel]; [done|].
  eapply run_blocking_vis in Hr as (a4 & g4 & conn4 & stops4 & _ & -> & Hr); [|reflexivity].
  destruct fuel as [|fuel]; [done|]. cbn in Hr. injection Hr as Hr _ _.
  destruct r as [[|[]]|]; try done. injection Hr as <-. cbn. by left.
Qed.

Definition target : GdbUhyve (Uhyve unit unit) VcpuLoop.Example.vcpu world unit :=
  debuggable_vcpu machine (Cpu 0 (VcpuLoop.Example.fresh script) base [] None None) (World [] 3).

(** The guest's code 7 becomes 1. *)
Lemma run_gdb_code_witness :
  run_gdb id Virtio.Example.tap [] [] 5 10 10 5 session machine (World [] 3) = Some (Ret 1) ∧
  ∃ cpu conn reason stops g, start_vcpu machine 0 = Ret cpu ∧
    run_blocking id Virtio.Example.tap [] [] 5 10 10 5 session
      (debuggable_vcpu machine cpu (World [] 3)) conn = Some (Ret (Ok reason, stops, g)) ∧
    match reason with
    | TargetExited _ =>
        ∃ guest_code (st : vm_state VcpuLoop.Example.vcpu world unit),
          left_guest st guest_code ∧ guest_code ≠ 0
    | _ => False
    end.
Proof.
  assert (run_gdb id Virtio.Example.tap [] [] 5 10 10 5 session machine (World [] 3) =
    Some (Ret 1)) as Hr by (vm_compute; reflexivity).
  split; [exact Hr|].
  destruct (run_gdb_code id Virtio.Example.tap [] [] 5 10 10 5 session machine (World [] 3) 1
    session_reports Hr) as (cpu & conn & reason & stops & g & Hcpu & Hs & Hend).
  exists cpu, conn, reason, stops, g. split; [exact Hcpu|]. split; [exact Hs|].
  destruct reason; try discriminate Hend; [|exact Hend].
  destruct Hend as (guest_code & _ & _ & _ & g2 & _ & _ & _ & Hleft & Hcode).
  exists guest_code, (gdb_vcpu g2). split; [exact Hleft|]. intros ->. discriminate Hcode.
Defined.

Lemma debug_session_wf_witness :
  ∃ g', run_session 5 target = Some (Ret (Ok (TargetExited 1), [Exited 1], g')) ∧ gdb_wf target g'.
Proof.
  assert (match run_session 5 target with
          | Some (Ret (r, stops, _)) => r = Ok (TargetExited 1) ∧ stops = [Exited 1]
          | _ => False
          end) as Hends by (vm_compute; split; reflexivity).
  destruct (run_session 5 target) as [[[[r stops] g']| |]|] eqn:Hr; try contradiction.
  destruct Hends as [-> ->].
  exists g'. split; [reflexivity|].
  assert (gdb_wf target target) as Hwf
    by (apply gdb_wf_new; split; [reflexivity|reflexivity|constructor]).
  unfold run_session in Hr. apply debug_session_wf in Hr; [exact (proj1 Hr)|apply _|exact Hwf].
Defined.

End Example.
