(* ===== verification/Main.v ===== *)
(** * The program ([main] of src/bin/uhyve.rs, [Uhyve::run] of src/linux/mod.rs
      and src/macos/mod.rs)

    The components put together: the arguments become parameters, the machine
    is created, the kernel loaded, and the guest run by one thread per core or
    under the debugger.  The theorems follow an execution from the command line
    to the exit code. *)

From Stdlib Require Import Strings.String.
From S2P Require Import Prelude Memory Consts Paging AddressSpace Hypercalls CommandLine Loader.
From S2P Require Import Virtqueue Virtio LinuxVm KvmVcpu GdbRegs LinuxVcpu VcpuLoop DebugRegs Gdb.
From S2P Require Import IoApic MacSetup MacVcpu MacVm Boot Threads Frontend Smp MacSmp GdbLoop.
Close Scope string_scope.

(** ** The kick signal *)

(** The realtime signals of the host, and [nix]'s [signal]. *)
Class HostSignals := {
  SIGRTMIN : Z;
  SIGRTMAX : Z;
  install_handler : Z → result Z unit;
}.

(** [KickSignal]. *)
Definition RTSIG_OFFSET : Z := 0.
Definition kick_signal `{HostSignals} : exec Z :=
  let kick_signal := SIGRTMIN + RTSIG_OFFSET in
  rust_assert (kick_signal <=? SIGRTMAX) ;; Ret kick_signal.
Definition register_handler `{HostSignals} : exec (result Z unit) :=
  signal ← kick_signal; Ret (install_handler signal).

(** ** Running a machine *)

(** The CPU a thread is pinned to. *)
Definition local_cpu_affinity (cpu_affinity : option (list Z)) (cpu_id : nat) : option Z :=
  core_ids ← cpu_affinity; core_ids !! cpu_id.

(** With one CPU per core every thread is pinned. *)
Lemma affinity_pins ids : local_cpu_affinity (Some ids) <$> seq 0 (length ids) = Some <$> ids.
Proof.
  apply list_eq. intros i. rewrite !list_lookup_fmap. unfold local_cpu_affinity. cbn.
  destruct (decide (i < length ids)%nat) as [Hi|Hi].
  - rewrite lookup_seq_lt by done. cbn. by destruct (lookup_lt_is_Some_2 ids i Hi) as [x ->].
  - rewrite lookup_seq_ge, lookup_ge_None_2 by lia. done.
Qed.

Section Main.
Context `{Profile, HostSignals, HostMemory, Kvm K, KvmCreate K C} `{!KvmVcpu C, !KvmRun C}.
Context `{CpuId, Goblin GE, HostOS W, VirtioNet, X86_64Control, X86Debug, KvmDebug}.
Context `{FrontendHost, ArgMatches A, Connection Tcp} {T : Type}.

(** What [run] starts: the threads, with the CPUs they are pinned to, or the
    debugger. *)
Inductive started :=
| RunNoGdb (s : smp K C W T) (pins : list (option Z))
| RunGdb (v : Uhyve K T) (w : W) (pin : option Z).

Definition uhyve_run (henv : host_env) (v : Uhyve K T) (w : W) (cpu_affinity : option (list Z)) :
    exec started :=
  r ← register_handler;
  expect r ;;
  '(v, r) ← load_kernel true henv v;
  expect r ;;
  Ret (if bool_decide (gdb_port v = None) then
         RunNoGdb (smp_start v w) (local_cpu_affinity cpu_affinity <$> seq 0 (Z.to_nat (num_cpus v)))
       else RunGdb v w (local_cpu_affinity cpu_affinity 0)).

(** [main], up to the code it passes to [process::exit]. *)
Definition uhyve_main (henv : host_env) (a : A) (w : W) : exec started :=
  path ← kernel_path_of a;
  '(params, cpu_affinity) ← frontend_params true (matches_of a);
  r ← uhyve_new path params;
  v ← expect r;
  uhyve_run henv v w cpu_affinity.

(** ** From the command line to the exit code *)

Context `{!HostMemoryLaws, !FrontendHostLaws, !KvmRunLaws C}.
Context (env : tap_env T) (args : list (list Z)) (vars : list (list Z * list Z)).
Context (write_fuel tx_fuel : nat) (kill_ended_fails : bool).

(** The host takes the handler, and KVM and the host's memory the machine; the
    kernel is one that can be loaded. *)
Record can_start (henv : host_env) (a : A) (specs : Specs) (cpu_affinity : option (list Z))
    (v : Uhyve K T) (buffer : list Z) (elf : Elf) (secs mhz : Z) : Prop := {
  cs_handler : register_handler = Ret (Ok ());
  cs_params : frontend_params true (matches_of a) = Ret (specs, cpu_affinity);
  cs_new : ∃ path, kernel_path_of a = Ret path ∧ uhyve_new path specs = Ret (Ok v);
  cs_kernel : kernel_fits henv v buffer elf secs mhz;
}.

Lemma uhyve_main_starts henv a w specs aff v buffer elf secs mhz :
  can_start henv a specs aff v buffer elf secs mhz →
  ∃ v', uhyve_main henv a w =
      Ret (if bool_decide (par_gdbport specs = None) then
             RunNoGdb (smp_start v' w)
               (local_cpu_affinity aff <$> seq 0 (Z.to_nat (par_num_cpus specs)))
           else RunGdb v' w (local_cpu_affinity aff 0)) ∧
    num_cpus v' = par_num_cpus specs ∧ cpu_online v' = Ret 0 ∧ device_wf (virtio_device v') ∧
    mem_size (contents v') = par_mem_size specs ∧ boot_tables (contents v') ∧
    gdb_port v' = par_gdbport specs.
Proof.
  intros [Hh Hp (path & Hpath & Hnew) Hk].
  destruct (uhyve_new_inv _ _ _ Hnew) as (Hmap & Hinit & _ & Hn & Hgdb & Hdev).
  pose proof (pw_mem _ _ _ (frontend_params_accepted _ _ _ _ Hp)) as [Hmem _].
  unfold MINIMAL_GUEST_SIZE in Hmem.
  destruct (fresh_machine _ _ _ Hmap ltac:(lia) Hinit) as (Hb & Hs & Hbt & _).
  pose proof (mmap_range _ _ Hmap) as (_ & Hhost & _).
  pose proof (load_kernel_loaded true henv v buffer elf secs mhz (kf_boot _ _ _ _ _ _ Hk)
    (kf_segments _ _ _ _ _ _ Hk) (kf_relocs _ _ _ _ _ _ Hk) (kf_inside _ _ _ _ _ _ Hk)) as Hload.
  eexists. split.
  { unfold uhyve_main. rewrite Hpath. cbn [mbind exec_bind].
    rewrite Hp. cbn [mbind exec_bind]. rewrite Hnew. cbn [expect mbind exec_bind].
    unfold uhyve_run. rewrite Hh. cbn [expect mbind exec_bind]. rewrite Hload.
    cbn [expect mbind exec_bind]. cbn. by rewrite Hgdb, Hn. }
  split; [exact Hn|]. split.
  { unfold cpu_online. cbn. rewrite (proj2 (Z.eqb_neq _ _)) by (rewrite Hb; unfold BOOT_INFO_ADDR; lia).
    apply (loaded_online true henv v buffer elf secs mhz Hk). }
  split. { destruct (new_device_wf (T := T)) as (d & Hd & Hwf). cbn. congruence. }
  split. { cbn. rewrite loaded_size. exact Hs. }
  split; [|exact Hgdb]. by apply (loaded_tables true henv).
Qed.


(** With a debugger the machine has one core. *)
Lemma main_runs_debugger henv a w specs aff v buffer elf secs mhz port :
  can_start henv a specs aff v buffer elf secs mhz → par_gdbport specs = Some port →
  ∃ v', uhyve_main henv a w = Ret (RunGdb v' w (local_cpu_affinity aff 0)) ∧ num_cpus v' = 1 ∧
    gdb_port v' = Some port ∧ fits 16 port.
Proof.
  intros Hcan Hgdb. destruct (uhyve_main_starts henv a w specs aff v buffer elf secs mhz Hcan)
    as (v' & Hmain & Hn & _ & _ & _ & _ & Hg).
  rewrite bool_decide_eq_false_2 in Hmain by (by rewrite Hgdb).
  exists v'. split; [exact Hmain|]. rewrite Hg. split; [|split; [done|]].
  - destruct (cs_new _ _ _ _ _ _ _ _ _ Hcan) as (p & _ & Hnew). rewrite Hn.
    by eapply uhyve_new_gdb.
  - by eapply (pw_gdb _ _ _ (frontend_params_accepted _ _ _ _ (cs_params _ _ _ _ _ _ _ _ _ Hcan))).
Qed.

End Main.

(** ** macOS *)

Section MacMain.
Context `{Profile, HostMemory, XVm C, CpuId, Goblin GE, FrontendHost, ArgMatches A}.
Context `{!XHypervisor C} `{VmxConsts, X86_64Control, HostOS W, Burst, HostCpuid}.

(** [Uhyve::run] of src/macos/mod.rs: the machine with its threads, and the CPUs
    they are pinned to. *)
Definition mac_uhyve_run (henv : host_env) (v : MacUhyve) (w : W) (cpu_affinity : option (list Z)) :
    exec (mac_smp C W * list (option Z)) :=
  '(v, r) ← load_kernel false henv v;
  expect r ;;
  Ret (mac_smp_start v w,
       local_cpu_affinity cpu_affinity <$> seq 0 (Z.to_nat (mu_num_cpus v))).

Definition mac_uhyve_main (henv : host_env) (a : A) (w : W) : exec (mac_smp C W * list (option Z)) :=
  path ← kernel_path_of a;
  '(params, cpu_affinity) ← frontend_params false (matches_of a);
  r ← mac_uhyve_new path params;
  v ← expect r;
  mac_uhyve_run henv v w cpu_affinity.

Context `{!HostMemoryLaws, !FrontendHostLaws, !XHypervisorLaws C}.

(** The threads start on a machine with the kernel loaded and no core up, each
    pinned to its own CPU of the affinity; a debugger is never accepted. *)
Lemma mac_main_starts henv a w path specs aff v buffer elf secs mhz :
  kernel_path_of a = Ret path → frontend_params false (matches_of a) = Ret (specs, aff) →
  mac_uhyve_new path specs = Ret (Ok v) → kernel_fits henv v buffer elf secs mhz →
  ∃ v' pins, mac_uhyve_main henv a w = Ret (mac_smp_start v' w, pins) ∧
    mu_num_cpus v' = num_cpus_of (matches_of a) ∧ mu_ioapic v' = ioapic_new ∧
    mac_cpu_online v' = Ret 0 ∧ boot_tables (mu_contents v') ∧
    mem_size (mu_contents v') = par_mem_size specs ∧ MINIMAL_GUEST_SIZE ≤ par_mem_size specs ∧
    par_gdbport specs = None ∧ length pins = Z.to_nat (num_cpus_of (matches_of a)) ∧
    ∀ ids, aff = Some ids → pins = Some <$> ids ∧ NoDup ids.
Proof.
  intros Hpath Hp Hnew Hk.
  destruct (mac_uhyve_new_inv _ _ _ Hnew) as (Hmap & _ & Hinit & _ & Hgdb & Hn & Hio).
  pose proof (frontend_params_accepted _ _ _ _ Hp) as Hacc. pose proof (frontend_cpus _ _ _ _ Hp) as Hc.
  pose proof (pw_mem _ _ _ Hacc) as [Hmem _].
  destruct (fresh_machine _ _ _ Hmap ltac:(unfold MINIMAL_GUEST_SIZE in *; lia) Hinit)
    as (Hb & Hs & Hbt & _).
  pose proof (mmap_range _ _ Hmap) as (_ & Hhost & _).
  pose proof (load_kernel_loaded false henv v buffer elf secs mhz (kf_boot _ _ _ _ _ _ Hk)
    (kf_segments _ _ _ _ _ _ Hk) (kf_relocs _ _ _ _ _ _ Hk) (kf_inside _ _ _ _ _ _ Hk)) as Hload.
  eexists _, _. split.
  { unfold mac_uhyve_main. rewrite Hpath. cbn [mbind exec_bind]. rewrite Hp. cbn [mbind exec_bind].
    rewrite Hnew. cbn [expect mbind exec_bind]. unfold mac_uhyve_run. rewrite Hload.
    cbn [expect mbind exec_bind]. reflexivity. }
  split; [by rewrite <- Hc|]. split; [exact Hio|]. split.
  { unfold mac_cpu_online. cbn. rewrite (proj2 (Z.eqb_neq _ _)) by (rewrite Hb; unfold BOOT_INFO_ADDR; lia).
    apply (loaded_online false henv v buffer elf secs mhz Hk). }
  split. { by apply (loaded_tables false henv). }
  split. { cbn. rewrite loaded_size. exact Hs. }
  split; [exact Hmem|]. split; [exact Hgdb|].
  split. { rewrite length_fmap, length_seq. cbn. by rewrite Hn, <- Hc. }
  intros ids ->. destruct (pw_affinity _ _ _ Hacc ids eq_refl) as (Hnd & Hl & _).
  split; [|done]. cbn. rewrite Hn, <- Hl, Nat2Z.id. apply affinity_pins.
Qed.

(** C12: From the command line to the exit code on macOS.  [main] starts one
    thread per requested core, each pinned to its own CPU of the affinity, on a
    guest memory of the size asked for, at least 16 MiB, with the boot tables
    in place.  Whatever the cores do and however the threads interleave, the
    mapping, the I/O APIC and the vCPUs stay what they are, and the code the
    program exits with is one with which a core had left the guest to exit:
    the code it had put in guest memory, or 0 for a shutdown.  And as long as
    the guest counts its cores as they come up, they enter it one after the
    other. *)
Theorem mac_main_runs_guest log_debug args vars write_fuel henv a w path specs aff v buffer elf secs mhz :
  kernel_path_of a = Ret path → frontend_params false (matches_of a) = Ret (specs, aff) →
  mac_uhyve_new path specs = Ret (Ok v) → kernel_fits henv v buffer elf secs mhz →
  let next := mac_smp_next log_debug args vars write_fuel in
  ∃ s0 pins, mac_uhyve_main henv a w = Ret (s0, pins) ∧
    msmp_threads s0 = replicate (Z.to_nat (num_cpus_of (matches_of a))) Spawned ∧
    length pins = Z.to_nat (num_cpus_of (matches_of a)) ∧
    (∀ ids, aff = Some ids → pins = Some <$> ids ∧ NoDup ids) ∧
    mem_size_of (matches_of a) = Ret (mem_size (h_mem (msmp_host s0))) ∧
    MINIMAL_GUEST_SIZE ≤ mem_size (h_mem (msmp_host s0)) ∧ boot_tables (h_mem (msmp_host s0)) ∧
    (∀ s, rtc next s0 s →
       mac_smp_wf (msmp_vm s0) s ∧
       ∀ code, msmp_main s = Some code →
         ∃ i s1 s2, msmp_threads s !! i = Some (Finished (Some code)) ∧
           rtc next s0 s1 ∧ mac_exits_with (msmp_vm s0) i code s1 ∧
           mac_smp_step log_debug args vars write_fuel (XServe i) s1 = Some (Ret s2) ∧ rtc next s2 s) ∧
    (∀ s, rtc (mac_smp_steps log_debug args vars write_fuel) s0 s →
       ∀ i t, msmp_threads s !! i = Some t → entered t = true → (i ≤ mac_online_of s)%nat).
Proof.
  intros Hpath Hp Hnew Hk next.
  destruct (mac_main_starts henv a w path specs aff v buffer elf secs mhz Hpath Hp Hnew Hk)
    as (v' & pins & Hmain & Hn & Hio & Hon & Hbt & Hs & Hmin & _ & Hlen & Hpins).
  eexists _, _. split; [exact Hmain|]. split; [cbn; by rewrite Hn|]. do 2 (split; [done|]). cbn. rewrite Hs.
  split; [by eapply frontend_mem|]. do 2 (split; [done|]). split.
  - intros s Hr. apply (mac_smp_returns log_debug args vars write_fuel v' w s); [|done].
    rewrite Hio. apply ioapic_new_wf.
  - intros s Hr. by apply (mac_smp_in_order log_debug args vars write_fuel v' w s).
Qed.

End MacMain.

(** ** An invocation with two cores on given CPUs *)
Module Example.
#[local] Existing Instance debug_profile.
#[local] Existing Instance Virtio.Example.net.
#[local] Existing Instance LinuxVm.Example.example_kvm.
#[local] Existing Instance LinuxVm.Example.example_memory.
#[local] Existing Instance LinuxVm.Example.example_memory_laws.
#[local] Existing Instance LinuxVm.Example.example_cpuid.
#[local] Existing Instance LinuxVm.Example.example_goblin.
#[local] Existing Instance VcpuLoop.Example.example_vcpu.
#[local] Existing Instance VcpuLoop.Example.example_run.
#[local] Existing Instance VcpuLoop.Example.example_run_laws.
#[local] Existing Instance VcpuLoop.Example.example_control.
#[local] Existing Instance Boot.Example.example_create.
#[local] Existing Instance Frontend.Example.example_host.
#[local] Existing Instance Frontend.Example.example_host_laws.
Import Hypercalls.Example LinuxVm.Example.

#[local] Instance example_signals : HostSignals := {|
  SIGRTMIN := 34; SIGRTMAX := 64; install_handler _ := Ok ();
|}.

(** uhyve -v -m "1 GiB" -c 2 -a 2-3, with a kernel. *)
#[local] Instance example_matches : ArgMatches unit := {|
  value_of _ name :=
    if decide (name = bytes "MEM"%string) then Some (bytes "1 GiB"%string)
    else if decide (name = bytes "CPUS"%string) then Some (bytes "2"%string)
    else if decide (name = bytes "KERNEL"%string) then Some []
    else None;
  values_of _ name :=
    if decide (name = bytes "CPU_AFFINITY"%string) then Some [bytes "2-3"%string] else None;
  is_present _ name := bool_decide (name = bytes "VERBOSE"%string);
|}.

Definition invocation : Specs := {|
  par_mem_size := 2 ^ 30; par_num_cpus := 2; par_verbose := true; par_hugepage := true;
  par_mergeable := false; par_ip := None; par_gateway := None; par_mask := None; par_nic := None;
  par_gdbport := None |}.

Lemma invocation_granted : host_ready invocation host [None; None; None].
Proof. split; [by exists None, None, None|reflexivity|done..]. Qed.

Lemma invocation_machine :
  ∃ v : Uhyve unit unit, uhyve_new [] invocation = Ret (Ok v) ∧
    kernel_fits env v [1; 2; 3; 4] kernel 1660000000 2600.
Proof.
  destruct (init_guest_mem_spec (Mem host (2 ^ 30) ∅)) as (m & Hm & _ & Hb & Hs & _).
  { apply mem_wf_fresh; unfold host; lia. }
  { cbn [mem_size]. lia. }
  destruct (new_device_ok (T := unit)) as [d0 Hd0].
  rewrite (uhyve_new_registers [] invocation host None None None d0
    [region_low (mapping invocation host) (2 ^ 30)]);
    [|exact invocation_granted|exact Hd0|reflexivity].
  change kvm_create_vm with (Ok () : result Z unit). cbv beta match.
  change (register_regions () _) with (Ok () : result Z unit). cbv beta match.
  rewrite (uhyve_finish_eq [] invocation _ _ _ host d0 () m invocation_granted);
    [|unfold host; lia|exact Hm].
  eexists. split; [reflexivity|].
  apply (Boot.Example.kernel_fits_example _ (2 ^ 30)); [by right|reflexivity|exact Hb|exact Hs].
Qed.


#[local] Existing Instance MacVcpu.Example.example_hv.
#[local] Existing Instance MacVcpu.Example.example_hv_laws.
#[local] Existing Instance MacVcpu.Example.example_consts.
#[local] Existing Instance MacVcpu.Example.example_burst.
#[local] Existing Instance MacVcpu.Example.example_cpuid.
#[local] Existing Instance MacSmp.Example.example_xvm.

Lemma mac_invocation_machine :
  ∃ v, mac_uhyve_new (C := MacVcpu.Example.xcpu) [] invocation = Ret (Ok v) ∧
    kernel_fits env v [1; 2; 3; 4] kernel 1660000000 2600.
Proof.
  destruct (init_guest_mem_spec (Mem host (2 ^ 30) ∅)) as (m & Hm & _ & Hb & Hs & _).
  { apply mem_wf_fresh; unfold host; lia. }
  { cbn [mem_size]. lia. }
  unfold mac_uhyve_new. change (mmap (par_mem_size invocation)) with (Some host).
  cbn [unwrap mbind exec_bind]. unfold try_bind.
  cbn [mbind exec_bind create_vm map_mem MacSmp.Example.example_xvm].
  change (par_mem_size invocation) with (2 ^ 30). rewrite Hm.
  eexists. split; [reflexivity|].
  apply (Boot.Example.kernel_fits_example _ (2 ^ 30)); [by right|reflexivity|exact Hb|exact Hs].
Qed.

Lemma mac_main_runs_guest_witness :
  ∃ s0 : mac_smp MacVcpu.Example.xcpu world,
    mac_uhyve_main env () (World [] 3) = Ret (s0, [Some 2; Some 3]) ∧
    MINIMAL_GUEST_SIZE ≤ mem_size (h_mem (msmp_host s0)) ∧
    ∀ s code, rtc (mac_smp_next false [] [] 5) s0 s → msmp_main s = Some code →
      ∃ i (s1 : mac_smp MacVcpu.Example.xcpu world), mac_exits_with (msmp_vm s0) i code s1.
Proof.
  destruct mac_invocation_machine as (v & Hnew & Hk).
  destruct (mac_main_runs_guest (C := MacVcpu.Example.xcpu) false [] [] 5 env () (World [] 3) []
    invocation (Some [2; 3]) v [1; 2; 3; 4] kernel 1660000000 2600)
    as (s0 & pins & Hmain & _ & _ & Hpins & _ & Hsize & _ & Hall & _).
  - vm_compute. reflexivity.
  - vm_compute. reflexivity.
  - exact Hnew.
  - exact Hk.
  - destruct (Hpins [2; 3] eq_refl) as [-> _]. exists s0. split; [exact Hmain|]. split; [exact Hsize|].
    intros s code Hr Hm. destruct (proj2 (Hall s Hr) code Hm) as (i & s1 & s2 & _ & _ & Hx & _).
    exists i, s1. exact Hx.
Defined.

End Example.
